(* ===== verification/_CoqProject ===== *)
-Q . S2P
Prelude.v
F64.v
Params.v
Env.v
Kinds.v
Tcp.v
Net.v
Udp.v
Tls.v
Quic.v
NoProtection.v
Metrics.v
Report.v
PerfStream.v
TestCore.v
Talk.v
Node.v
Counters.v
Widths.v
Total.v
TestFacts.v
Server.v
Client.v
ServerSpec.v
ServerTalk.v
ServerFacts.v
ServerTotal.v
ServerMain.v
UdpLoss.v
Control.v
ClientFacts.v
WidthRuns.v
ClientSend.v
UdpEnd.v
ByteEnd.v
ClientLimits.v
ClientTotal.v
ClientSpec.v
Framing.v
Agreement.v
ClientMain.v
Program.v
Codec.v
ServerDemo.v
ClientDemo.v
Session.v
