(* ===== verification/Prelude.v ===== *)
(** * nperf: a verification development for the network performance tester

    nperf measures the throughput of a path between two hosts.  The client
    ([src/src/client.rs]) and the server ([src/src/server.rs]) first agree over
    a TCP control connection on a test; the data then flows over a number of
    streams, which are TCP connections ([tcp.rs]), UDP sockets ([udp.rs]), TLS
    sessions over TCP ([tls.rs]) or QUIC connections ([quic.rs], with the
    optional plaintext session of [noprotection.rs]); at the end both sides
    exchange what they counted and print it ([test.rs]).

    ** How the parts interact

    Both sides are a loop over the events of one [mio::Poll] and a state,
    [TestState].  The server accepts the control connection before its loop.
    In [Start] it reads the client's cookie and answers with the state byte of
    [ParamExchange]; there it reads the settings as JSON, opens the listener
    for the transport and answers [CreateStreams]; it accepts data streams
    until there are as many as the settings ask for and answers [TestStart];
    it reads a cookie from each and answers [TestRunning]; then it receives.
    A byte on the control connection is the state to go to: at the end of a
    test the client sends [TestEnd], the server closes its intervals and sends
    its results as JSON ([ExchangeResults]), prints them and returns ([End]).
    The client's states mirror these; it drains the server's bytes without
    looking at them and sends the cookie, the settings, the stream cookies, the
    data, and the bytes of [TestEnd] and [End].  Traffic is counted per
    interval, per stream and per test, and a UDP receiver derives losses from
    the sequence numbers in the first eight bytes of each datagram.

    ** The model

    Executable definitions over explicit state.  A computation is a function
    from a world to a result ([M] below): it returns a value and a new world,
    panics, exits the process, blocks for ever, or, in the model only, runs out
    of fuel.  [io::Result] is an ordinary value ([io_result]) and [let?] is the
    [?] operator.  Integers are [Z] with the width written at every operation
    ([checked], [add_u], ...); the class [Profile] says whether the build
    checks overflow (debug) or wraps (release), and theorems hold for both
    unless they say otherwise.  [f64] is IEEE binary64 ([F64]).

    What the operating system and the peer decide is data of the world or of a
    socket: how far the clock moves between two readings, how each system call
    ends, which chunks or datagrams a socket will deliver and how much it will
    accept.  What the program asks for (calls, lines printed, buffers sent) is
    recorded there.  A theorem that quantifies over the world quantifies over
    all of these behaviours.

    ** The files and the code they model

    - [Prelude]: the monad, integers, byte buffers, decimal rendering; [F64]:
      the part of [f64] that is used; [Env]: clock, system calls, sockets, and
      the [Stream] trait of [test.rs] as a type class with its laws
      ([StreamLaws]), which the functions that take any stream are proved
      against and each implementation discharges.
    - [Params]: [params.rs], the options as the argument parser stores them and
      how they become a [PerfParams]; [Kinds]: the enumerations of [test.rs].
    - [Tcp], [Udp], [Tls], [Quic], [NoProtection], [Net], [Metrics]: the files
      of the same names; the transports are instances of [Stream].
    - [Report], [PerfStream], [TestCore]: [test.rs]; counters and their
      rendering, streams with their intervals, and [struct Test] with its
      state, settings, transitions, end and exchange of results.
    - [Node]: the shape shared by the two event loops: implementation object,
      test and world, batches of events handled in order, and the transfer of
      relations and invariants from one handler to whole runs.
    - [Server] and [ServerMain], [Client] and [ClientMain], [Program]:
      [server.rs], [client.rs] and the [main] of [main.rs]; one definition per
      arm of the event handlers ([on_control], [on_tcp_listener], [on_stream],
      ...).
    - [Counters], [Widths], [Total]: counting modulo [2^64], numbers of their
      fields' types, and freedom from exhausted fuel and from exits, each closed
      under the constructs of the handlers.
    - [Talk]: what a socket has taken of the messages that were to be sent.
    - [ServerSpec], [ServerTalk], [ServerFacts], [ServerTotal], [ClientSpec],
      [ClientFacts], [ClientSend], [ClientLimits], [ClientTotal], [WidthRuns],
      [UdpLoss], [UdpEnd], [ByteEnd], [Control], [Framing], [Agreement],
      [TestFacts]: the theorems.
    - [Codec], [ServerDemo], [ClientDemo], [Session]: a concrete JSON stand-in and whole
      runs evaluated by the kernel, on which the theorems are applied.

    The state of [ServerImpl], [ClientImpl], [Test], [PerfStream] and of the
    endpoints is a record with the fields of the Rust structure under its
    names, with a prefix where two records share a field.  Where the code
    mutates through [&mut], a definition returns the updated record.  The
    vectors [streams] and [tokens] are lists; an index out of range panics.

    ** What the theorems show

    - The protocol: every event of a server is a step of an abstract protocol
      of four components (state, streams wanted, streams made, cookies), and a
      running test has all its streams and as many cookies
      ([server_refines_protocol], [server_running_complete]); the client's
      states advance in the fixed order and its control connection carries
      exactly its part of the conversation ([client_follows_script]), and so
      does the server's ([server_conversation]); a whole session of both is
      evaluated, each side fed with what the other says ([whole_session]); and
      whenever the client's messages arrive one by one, the server follows it:
      same cookie, settings and streams, and no state out of order
      ([sides_agree]).
    - Counting: in every run of either side, totals are sums of streams and
      streams are sums of intervals ([server_conserves], [client_conserves],
      [end_test_settles]); a UDP sender numbers its datagrams without gaps and
      a receiver reports exactly the numbers that did not arrive, alone and
      with a network between them that drops datagrams
      ([send_numbers_datagrams], [udp_interval_loss], [udp_loss_end_to_end]);
      over any number of events of both sides, the bytes a client counts are
      those the server counts, those in its sockets and those lost
      ([bytes_end_to_end]).
      A limit on bytes or blocks does not stop a sender's loop
      ([limits_do_not_stop]).
    - Types: from the command line to the end of any run of either side every
      counter, setting and statistic is a number of its field's type, and
      intervals are numbered in order ([server_well_typed],
      [client_well_typed]); the kernel's [TCP_INFO] is read at the right
      offsets ([tcp_info_layout]).
    - The control connection: a message is read whole however it is cut, and
      settings and results arrive as they were sent ([drain_message_whole],
      [settings_exchange], [results_exchange]); but nothing marks where a
      message ends ([settings_taken_for_cookie]).
    - Ends: loops terminate, and with them whole runs of both sides
      ([server_total], [client_total], [drain_message_total]); what a server's
      runs return ([server_return_values]), and every way in which the process
      of either side can end ([program_exit_status]).
    - Wrappers and reports: a session without packet protection behaves as the
      one it wraps but for two kinds of keys ([no_protection_configs],
      [no_protection_packets]); the report of the gaps prints the buckets
      between two quantiles ([metrics_report]).
    - The command line, settings and buffers, and the error behaviour: which
      inputs panic, exit, or hang ([handshake_needs_session],
      [handshake_completes], [quic_write_outcomes],
      [udp_sender_push_panics], [long_block_panics], ...).

    ** Fuel

    [Net.drain_loop] gets one step more than the bytes and entries the socket
    still holds ([backlog] of the [Stream] class), each read of data removing
    some; the server's receive loop likewise ([recv_fuel]).  The accept,
    connect and handshake loops and the event loops run over lists of the
    events that [poll] will return, so they need no fuel; when its list is
    over, an event loop gives [None] (the program waits in [poll]) and the
    others [Blocked].  The client's send loop takes its fuel as an argument: without a
    target bitrate any number above the writes that all sockets of a run will
    accept is enough ([client_total]); with one the loop waits for the clock.

    ** What is not modelled

    The internals of [rustls], [quinn], [mio], [socket2], [serde_json],
    [argparse] and [tracing_timing]: [rustls] sessions and [quinn] streams
    answer from scripts, [serde_json] is a pair of functions with the round
    trips and the range checks its users rely on ([Serde]), the argument parser
    is the list of the options it stores, the histograms are a function of the
    number of traces ([Tracing]), and the traits of [quinn_proto] are records
    of functions.  What certificate files hold, the lines printed for debugging
    and for failures that are then ignored, and the variants for Windows are
    left out.

    ** To come

    What a client makes of the server's messages, whatever it finds them cut
    into; pacing; the cookie of a QUIC endpoint; bounds of the printed units. *)
From Stdlib Require Export ZArith Lia.
From stdpp Require Export base list strings numbers pretty.

Declare Scope nperf_scope.
Delimit Scope nperf_scope with nperf.
Open Scope nperf_scope.
Open Scope Z_scope.

(** ** How an execution can end *)

(** A Rust computation either produces a value or takes the whole process
    with it.  [Blocked] is a future that never resolves ([block_on] on a QUIC
    operation whose peer stays silent); [OutOfFuel] only exists in the model
    and the termination theorems exclude it. *)
Inductive crash : Type :=
| Panicked (why : string)
| Exited (code : Z)
| Blocked
| OutOfFuel.

Inductive res (A : Type) : Type :=
| Done (a : A)
| Crash (c : crash).
Arguments Done {A} a.
Arguments Crash {A} c.

(** [std::io::ErrorKind], as far as the program tells the kinds apart;
    [LastOsError] is whatever [Error::last_os_error()] holds, [WriteZero] what
    [write_all] makes of a write of nothing. *)
Inductive ErrorKind : Type :=
| WouldBlock
| Interrupted
| LastOsError
| WriteZero
| OtherError (code : Z).

#[global] Instance ErrorKind_eq_dec : EqDecision ErrorKind.
Proof. solve_decision. Defined.

(** [std::io::Result<A>] is an ordinary value. *)
Inductive io_result (A : Type) : Type :=
| IoOk (a : A)
| IoErr (e : ErrorKind).
Arguments IoOk {A} a.
Arguments IoErr {A} e.

(** ** The effect monad: a state of type [W] and crashes *)

Definition M (W A : Type) : Type := W → res (A * W).

Definition ret {W A} (a : A) : M W A := fun w => Done (a, w).

Definition bindM {W A B} (m : M W A) (f : A → M W B) : M W B := fun w =>
  match m w with
  | Done (a, w') => f a w'
  | Crash c => Crash c
  end.

Definition bindR {A B} (m : res A) (f : A → res B) : res B :=
  match m with Done a => f a | Crash c => Crash c end.

(** The [?] operator: an [Err] is returned to the caller at once. *)
Definition bindIo {W A B} (m : M W (io_result A)) (f : A → M W (io_result B)) :
    M W (io_result B) :=
  bindM m (fun r => match r with IoOk a => f a | IoErr e => ret (IoErr e) end).

Definition crashM {W A} (c : crash) : M W A := fun _ => Crash c.
Definition panic {W A} (why : string) : M W A := crashM (Panicked why).
Definition liftR {W A} (r : res A) : M W A := fun w =>
  match r with Done a => Done (a, w) | Crash c => Crash c end.

(** [Result::unwrap] and [Option::unwrap]. *)
Definition unwrap_io {W A} (m : M W (io_result A)) : M W A :=
  bindM m (fun r => match r with IoOk a => ret a | IoErr _ => panic "unwrap on Err" end).
Definition unwrap {A} (o : option A) : res A :=
  match o with Some a => Done a | None => Crash (Panicked "unwrap on None") end.

Notation "'let!' x ':=' m 'in' k" := (bindM m (fun x => k))
  (at level 10, x pattern, m at level 100, k at level 200) : nperf_scope.
Notation "'let?' x ':=' m 'in' k" := (bindIo m (fun x => k))
  (at level 10, x pattern, m at level 100, k at level 200) : nperf_scope.
Notation "'let-' x ':=' m 'in' k" := (bindR m (fun x => k))
  (at level 10, x pattern, m at level 100, k at level 200) : nperf_scope.

(** Iterating over a list with effects, left to right. *)
Fixpoint mapM {W A B} (f : A → M W B) (l : list A) : M W (list B) :=
  match l with
  | [] => ret []
  | x :: l' => let! y := f x in let! ys := mapM f l' in ret (y :: ys)
  end.

(** The same with an early exit through [?]. *)
Fixpoint mapIo {W A B} (f : A → M W (io_result B)) (l : list A) : M W (io_result (list B)) :=
  match l with
  | [] => ret (IoOk [])
  | x :: l' => let? y := f x in let? ys := mapIo f l' in ret (IoOk (y :: ys))
  end.

Lemma bindM_Done {W A B} (m : M W A) (f : A → M W B) w r :
  bindM m f w = Done r ↔ ∃ a w', m w = Done (a, w') ∧ f a w' = Done r.
Proof.
  unfold bindM. split.
  - destruct (m w) as [[a w']|]; [|done]. eauto.
  - intros (a & w' & -> & H). done.
Qed.

Lemma bindIo_Done {W A B} (m : M W (io_result A)) (f : A → M W (io_result B)) w r :
  bindIo m f w = Done r ↔
    (∃ a w', m w = Done (IoOk a, w') ∧ f a w' = Done r) ∨
    (∃ e w', m w = Done (IoErr e, w') ∧ r = (IoErr e, w')).
Proof.
  unfold bindIo. rewrite bindM_Done. split.
  - intros ([a|e] & w' & Hm & H); [left|right]; [by eauto|].
    unfold ret in H. naive_solver.
  - intros [(a & w' & Hm & H)|(e & w' & Hm & ->)]; eexists _, w'; by split.
Qed.

Lemma bindR_Done {A B} (m : res A) (f : A → res B) r :
  bindR m f = Done r ↔ ∃ a, m = Done a ∧ f a = Done r.
Proof. destruct m; simpl; split; [by eauto|by intros (? & [= ->] & ?)|done|by intros (? & ? & ?)]. Qed.

Lemma liftR_Done {W A} (m : res A) (w : W) r :
  liftR m w = Done r ↔ ∃ a, m = Done a ∧ r = (a, w).
Proof.
  unfold liftR. destruct m; split; [intros [= <-]; by eauto|by intros (? & [= ->] & ->)|done|].
  by intros (? & ? & ?).
Qed.

Lemma unwrap_io_Done {W A} (m : M W (io_result A)) (w : W) a w' :
  unwrap_io m w = Done (a, w') ↔ m w = Done (IoOk a, w').
Proof.
  unfold unwrap_io, bindM, ret, panic, crashM.
  destruct (m w) as [[[b|e] w'']|]; naive_solver.
Qed.

(** An iteration whose steps all return. *)
Lemma mapM_returns {W A B} (f : A → M W B) l w :
  (∀ x w0, ∃ y w1, f x w0 = Done (y, w1)) → ∃ ys w', mapM f l w = Done (ys, w').
Proof.
  intros Hf. revert w. induction l as [|x l IH]; intros w; cbn [mapM]; [by repeat eexists|].
  unfold bindM. destruct (Hf x w) as (y & w1 & ->). destruct (IH w1) as (ys & w2 & ->).
  by repeat eexists.
Qed.

(** What [mrun] does with computations that are defined in later files. *)
Ltac mrun_hook H := idtac.

(** [mrun H] takes a hypothesis [m w = Done r] apart, one [let] at a time. *)
Ltac mrun_step H :=
  lazymatch type of H with
  | bindM _ _ _ = Done _ =>
      let Hm := fresh "Hm" in
      apply bindM_Done in H; destruct H as (? & ? & Hm & H); mrun_step Hm
  | bindIo _ _ _ = Done _ =>
      let Hm := fresh "Hm" in
      apply bindIo_Done in H;
      destruct H as [(? & ? & Hm & H)|(? & ? & Hm & H)]; mrun_step Hm
  | bindR _ _ = Done _ =>
      let Hm := fresh "Hm" in
      apply bindR_Done in H; destruct H as (? & Hm & H); mrun_step Hm
  | liftR _ _ = Done _ =>
      let Hm := fresh "Hm" in
      apply liftR_Done in H; destruct H as (? & Hm & H); simplify_eq
  | unwrap_io _ _ = Done _ => apply unwrap_io_Done in H; mrun_step H
  | ret _ _ = Done _ => unfold ret in H; simplify_eq
  | Done _ = Done _ => simplify_eq
  | (_, _) = (_, _) => first [injection H as -> -> | simplify_eq]
  | panic _ _ = Done _ => discriminate H
  | crashM _ _ = Done _ => discriminate H
  | Crash _ = Done _ => discriminate H
  | (let (_, _) := ?x in _) _ = Done _ => destruct x; mrun_step H
  | (let (_, _) := ?x in _) = Done _ => destruct x; mrun_step H
  | _ => mrun_hook H
  end.
Ltac mrun H := repeat (progress (mrun_step H)).

(** ** Machine integers *)

(** [cargo build] checks arithmetic overflow, [cargo build --release] wraps. *)
Class Profile : Type := { overflow_checks : bool }.
Definition debug_profile : Profile := {| overflow_checks := true |}.
Definition release_profile : Profile := {| overflow_checks := false |}.

Definition fits (w x : Z) : Prop := 0 ≤ x < 2 ^ w.
#[global] Instance fits_dec w x : Decision (fits w x).
Proof. unfold fits. apply _. Defined.

Section Arith.
Context `{P : Profile}.

(** The result of an unsigned [w]-bit operation whose exact value is [x]. *)
Definition checked (w x : Z) : res Z :=
  if decide (fits w x) then Done x
  else if overflow_checks then Crash (Panicked "arithmetic overflow")
  else Done (x mod 2 ^ w).

Definition add_u (w x y : Z) : res Z := checked w (x + y).
Definition sub_u (w x y : Z) : res Z := checked w (x - y).
Definition mul_u (w x y : Z) : res Z := checked w (x * y).

(** [iter().sum()]. *)
Fixpoint sum_u_from (w acc : Z) (l : list Z) : res Z :=
  match l with
  | [] => Done acc
  | x :: l' => let- acc' := add_u w acc x in sum_u_from w acc' l'
  end.
Definition sum_u (w : Z) (l : list Z) : res Z := sum_u_from w 0 l.
End Arith.

(** [x as i8], [x as i32]: the two's complement reading of [w] bits. *)
Definition as_signed (w x : Z) : Z :=
  let y := x mod 2 ^ w in if y <? 2 ^ (w - 1) then y else y - 2 ^ w.
Definition as_unsigned (w x : Z) : Z := x mod 2 ^ w.

Fixpoint sumZ (l : list Z) : Z :=
  match l with [] => 0 | x :: l' => x + sumZ l' end.

Section ArithLemmas.
Context `{P : Profile}.

Lemma checked_fits w x : fits w x → checked w x = Done x.
Proof. intros. unfold checked. by rewrite decide_True. Qed.

Lemma checked_range w x y : 0 ≤ w → checked w x = Done y → fits w y.
Proof.
  unfold checked, fits. intros Hw.
  destruct (decide _) as [H|H]; [intros [= <-]; done|].
  destruct overflow_checks; [done|]. intros [= <-].
  apply Z.mod_pos_bound. lia.
Qed.

(** Whatever the profile, a result that comes back is right modulo [2^w]. *)
Lemma checked_mod w x y : 0 ≤ w → checked w x = Done y → y = x mod 2 ^ w.
Proof.
  unfold checked, fits. intros Hw.
  destruct (decide _) as [H|H]; [intros [= <-]; by rewrite Z.mod_small|].
  destruct overflow_checks; naive_solver.
Qed.

Lemma add_u_fits w x y : fits w (x + y) → add_u w x y = Done (x + y).
Proof. apply checked_fits. Qed.
Lemma sub_u_fits w x y : fits w (x - y) → sub_u w x y = Done (x - y).
Proof. apply checked_fits. Qed.
Lemma mul_u_fits w x y : fits w (x * y) → mul_u w x y = Done (x * y).
Proof. apply checked_fits. Qed.

Lemma sum_u_from_mod w acc l y :
  0 ≤ w → fits w acc → sum_u_from w acc l = Done y → y = (acc + sumZ l) mod 2 ^ w.
Proof.
  intros Hw. revert acc. induction l as [|x l IH]; simpl; intros acc Hacc H.
  - injection H as <-. rewrite Z.add_0_r, Z.mod_small; done.
  - mrun H. rename x0 into acc'. unfold add_u in Hm.
    pose proof (checked_range _ _ _ Hw Hm) as Hr.
    apply checked_mod in Hm; [|done]. subst acc'.
    apply IH in H; [|done]. subst y. rewrite Zplus_mod_idemp_l. f_equal. lia.
Qed.

Lemma sum_u_from_fits w acc l :
  Forall (λ x, 0 ≤ x) l → 0 ≤ acc → acc + sumZ l < 2 ^ w →
  sum_u_from w acc l = Done (acc + sumZ l).
Proof.
  intros Hl. revert acc. induction Hl as [|x l Hx Hl IH]; simpl; intros acc Ha Hs.
  - f_equal. lia.
  - assert (0 ≤ sumZ l) by (clear -Hl; induction Hl; simpl; lia).
    unfold bindR. rewrite add_u_fits by (unfold fits; lia).
    rewrite IH by lia. f_equal. lia.
Qed.

Lemma sum_u_fits w l :
  Forall (λ x, 0 ≤ x) l → sumZ l < 2 ^ w → sum_u w l = Done (sumZ l).
Proof. intros. apply (sum_u_from_fits w 0); [done|lia..]. Qed.

Lemma sum_u_mod w l y :
  0 ≤ w → sum_u w l = Done y → y = sumZ l mod 2 ^ w.
Proof.
  intros Hw H. apply (sum_u_from_mod w 0) in H; [done|done|].
  unfold fits. split; [lia|]. by apply Z.pow_pos_nonneg.
Qed.
End ArithLemmas.

Lemma sumZ_app l k : sumZ (l ++ k) = sumZ l + sumZ k.
Proof. induction l; simpl; lia. Qed.

Lemma sumZ_nonneg l : Forall (λ x, 0 ≤ x) l → 0 ≤ sumZ l.
Proof. induction 1; simpl; lia. Qed.

(** What a sum over the elements of a list does with the list's structure. *)
Create HintDb sums discriminated.
Create Rewrite HintDb sums.
#[export] Hint Rewrite @map_app @sumZ_app @length_app : sums.
#[export] Hint Resolve sumZ_nonneg : sums.

(** ** Bytes in network order *)

(** [u64::to_be_bytes] and [u64::from_be_bytes], for [n] bytes. *)
Fixpoint to_be_bytes (n : nat) (x : Z) : list Z :=
  match n with
  | O => []
  | S n' => (x / 2 ^ (8 * Z.of_nat n')) mod 256 :: to_be_bytes n' x
  end.

Definition from_be_bytes (bs : list Z) : Z := foldl (λ acc b, acc * 256 + b) 0 bs.

Lemma length_to_be_bytes n x : length (to_be_bytes n x) = n.
Proof. induction n; simpl; congruence. Qed.

Lemma to_be_bytes_range n x : Forall (λ b, 0 ≤ b < 256) (to_be_bytes n x).
Proof. induction n; simpl; constructor; [apply Z.mod_pos_bound; lia|done]. Qed.

Lemma from_be_bytes_foldl bs acc :
  foldl (λ acc b, acc * 256 + b) acc bs = acc * 256 ^ Z.of_nat (length bs) + from_be_bytes bs.
Proof.
  unfold from_be_bytes. revert acc. induction bs as [|b bs IH]; intros acc.
  - cbn [foldl length]. change (256 ^ Z.of_nat 0) with 1. lia.
  - cbn [foldl length]. rewrite IH, (IH (0 * 256 + b)).
    rewrite Nat2Z.inj_succ, Z.pow_succ_r by lia. ring.
Qed.

Lemma from_to_be_bytes n x : from_be_bytes (to_be_bytes n x) = x mod 256 ^ Z.of_nat n.
Proof.
  induction n as [|n IH].
  - cbn. by rewrite Z.mod_1_r.
  - cbn [to_be_bytes]. unfold from_be_bytes. cbn [foldl].
    rewrite from_be_bytes_foldl, length_to_be_bytes, IH.
    replace (2 ^ (8 * Z.of_nat n)) with (256 ^ Z.of_nat n)
      by (change 256 with (2 ^ 8); rewrite <- Z.pow_mul_r; f_equal; lia).
    rewrite Nat2Z.inj_succ, Z.pow_succ_r, (Z.mul_comm 256) by lia.
    rewrite Z.rem_mul_r by lia. ring.
Qed.

Lemma from_to_be_bytes_u64 x : fits 64 x → from_be_bytes (to_be_bytes 8 x) = x.
Proof. intros H. rewrite from_to_be_bytes. apply Z.mod_small. exact H. Qed.

Arguments to_be_bytes : simpl never.

(** ** Byte buffers *)

(** [[fill; len]] whose first bytes have been overwritten: the byte at [i] is
    [head !! i] below [length head] and [b_fill] from there to [b_len]. *)
Record Buf : Type := mkBuf { b_head : list Z; b_fill : Z; b_len : Z }.

Definition buf_repeat (x n : Z) : Buf := mkBuf [] x n.

(** The bytes of a buffer that are sent or read back. *)
Definition buf_bytes (n : nat) (b : Buf) : list Z :=
  take n (b_head b ++ replicate n (b_fill b)).

(** [&buf[..n]]: a slice index past the end panics. *)
Definition buf_slice_to (b : Buf) (n : Z) : res Buf :=
  if n <=? b_len b then Done (mkBuf (take (Z.to_nat n) (b_head b)) (b_fill b) n)
  else Crash (Panicked "range end index out of range").

(** The first [length bs] bytes are overwritten: [copy_from_slice], or a read. *)
Definition buf_write (bs : list Z) (b : Buf) : Buf :=
  mkBuf (bs ++ drop (length bs) (b_head b)) (b_fill b) (b_len b).

Lemma buf_slice_to_Done b n b' :
  buf_slice_to b n = Done b' →
  n ≤ b_len b ∧ b_len b' = n ∧ b_fill b' = b_fill b ∧ b_head b' = take (Z.to_nat n) (b_head b).
Proof.
  unfold buf_slice_to. destruct (Z.leb_spec n (b_len b)); [|done]. by intros [= <-].
Qed.

Lemma buf_bytes_write bs b :
  buf_bytes (length bs) (buf_write bs b) = bs.
Proof. unfold buf_bytes, buf_write; simpl. by rewrite <- app_assoc, take_app_length. Qed.

(** A write shorter than the part read back leaves the older bytes behind it. *)
Lemma buf_bytes_write_short n bs b :
  (length bs ≤ n)%nat →
  buf_bytes n (buf_write bs b) = bs ++ drop (length bs) (buf_bytes n b).
Proof.
  intros H. unfold buf_bytes, buf_write; cbn [b_head b_fill b_len].
  rewrite <- app_assoc, take_app_ge by done. f_equal.
  rewrite <- (Nat.sub_add (length bs) n) at 3 by done.
  rewrite Nat.add_comm, <- take_drop_commute, drop_app, !take_app, drop_replicate,
    !take_replicate.
  f_equal. f_equal. lia.
Qed.

(** ** Decimal numbers and padding *)

(** [{}] of an unsigned integer. *)
Definition show_u (x : Z) : string := pretty x.

(** [{:>n}] and [{:<n}] of a string that is already rendered. *)
Definition spaces (n : nat) : string := String.concat "" (replicate n " "%string).
Definition pad_left (n : nat) (s : string) : string := spaces (n - String.length s) +:+ s.
Definition pad_right (n : nat) (s : string) : string := s +:+ spaces (n - String.length s).
