(* ===== verification/F64.v ===== *)
(** * The part of [f64] the program computes with

    IEEE 754 binary64 through the Standard Library's executable [SpecFloat]:
    conversion from and to integers ([as f64], [as u64]), division, comparison,
    [Duration::as_secs_f64] and the [{:.p}] rendering.  A duration is a number
    of nanoseconds. *)
From Stdlib Require Import SpecFloat.
From S2P Require Import Prelude.

Definition f64 : Type := spec_float.

Definition f64_of_Z (z : Z) : f64 := binary_normalize 53 1024 z 0 false.
Definition f64_zero : f64 := S754_zero false.
Definition f64_add : f64 → f64 → f64 := SFadd 53 1024.
Definition f64_mul : f64 → f64 → f64 := SFmul 53 1024.
Definition f64_div : f64 → f64 → f64 := SFdiv 53 1024.
Definition f64_ltb : f64 → f64 → bool := SFltb.
Definition f64_leb : f64 → f64 → bool := SFleb.
Definition f64_eqb : f64 → f64 → bool := SFeqb.

(** The integral part of [m * 2 ^ e]. *)
Definition trunc_pos (m : positive) (e : Z) : Z :=
  if 0 <=? e then Z.pos m * 2 ^ e else Z.pos m / 2 ^ (- e).

(** [x as u64]: truncating, saturating, and 0 for NaN. *)
Definition f64_as_u64 (x : f64) : Z :=
  match x with
  | S754_nan => 0
  | S754_zero _ => 0
  | S754_infinity s => if s then 0 else 2 ^ 64 - 1
  | S754_finite s m e => if s then 0 else Z.min (trunc_pos m e) (2 ^ 64 - 1)
  end.

(** [x.ceil() as usize]: the integer above, saturating, and 0 for NaN and below
    zero. *)
Definition ceil_pos (m : positive) (e : Z) : Z :=
  if 0 <=? e then Z.pos m * 2 ^ e else - (- Z.pos m / 2 ^ (- e)).

Definition f64_ceil_as_usize (x : f64) : Z :=
  match x with
  | S754_nan => 0
  | S754_zero _ => 0
  | S754_infinity s => if s then 0 else 2 ^ 64 - 1
  | S754_finite s m e => if s then 0 else Z.min (ceil_pos m e) (2 ^ 64 - 1)
  end.

Definition NANOS_PER_SEC : Z := 1000000000.

(** [Duration::as_secs_f64]. *)
Definition as_secs_f64 (d : Z) : f64 :=
  f64_add (f64_of_Z (d / NANOS_PER_SEC))
          (f64_div (f64_of_Z (d mod NANOS_PER_SEC)) (f64_of_Z NANOS_PER_SEC)).

(** [m * 2 ^ e * 10 ^ p] rounded to an integer, ties to even. *)
Definition round_scaled (p : Z) (m : positive) (e : Z) : Z :=
  if 0 <=? e then Z.pos m * 10 ^ p * 2 ^ e
  else
    let n := Z.pos m * 10 ^ p in
    let d := 2 ^ (- e) in
    let q := n / d in
    let r := n mod d in
    match 2 * r ?= d with
    | Lt => q
    | Gt => q + 1
    | Eq => if Z.even q then q else q + 1
    end.

(** [n] as [p] digits, leading zeros kept. *)
Definition digits_padded (p : nat) (n : Z) : string :=
  let s := show_u n in
  String.concat "" (replicate (p - String.length s) "0"%string) +:+ s.

Definition fixed_point (p : nat) (n : Z) : string :=
  let d := 10 ^ Z.of_nat p in
  match p with
  | O => show_u n
  | S _ => show_u (n / d) +:+ "." +:+ digits_padded p (n mod d)
  end.

(** [format!("{:.p}", x)]. *)
Definition fmt_fixed (p : nat) (x : f64) : string :=
  match x with
  | S754_nan => "NaN"
  | S754_infinity s => if s then "-inf" else "inf"
  | S754_zero s => (if s then "-" else "") +:+ fixed_point p 0
  | S754_finite s m e =>
      (if s then "-" else "") +:+ fixed_point p (round_scaled (Z.of_nat p) m e)
  end.

Example fmt_fixed_ex : fmt_fixed 2 (f64_div (f64_of_Z 10) (f64_of_Z 3)) = "3.33"%string.
Proof. reflexivity. Qed.
Example fmt_fixed_tie : fmt_fixed 1 (f64_div (f64_of_Z 1) (f64_of_Z 4)) = "0.2"%string.
Proof. reflexivity. Qed.
Example ceil_ex : f64_ceil_as_usize (f64_div (f64_of_Z 10) (f64_of_Z 3)) = 4.
Proof. reflexivity. Qed.
Example as_secs_ex : f64_as_u64 (as_secs_f64 2500000000) = 2.
Proof. reflexivity. Qed.

(** Every cast to [u64] is a [u64]. *)
Lemma f64_as_u64_fits x : fits 64 (f64_as_u64 x).
Proof.
  unfold fits, f64_as_u64. destruct x as [s|s| |s m e]; try (destruct s); try lia.
  split; [|lia]. apply Z.min_glb; [|lia]. unfold trunc_pos.
  destruct (Z.leb_spec 0 e).
  - apply Z.mul_nonneg_nonneg; [lia|]. apply Z.pow_nonneg; lia.
  - apply Z.div_pos; [lia|]. apply Z.pow_pos_nonneg; lia.
Qed.

(** Zero divided by anything truncates to zero: it is a zero or a NaN. *)
Lemma f64_zero_div_as_u64 s y : f64_as_u64 (f64_div (S754_zero s) y) = 0.
Proof. destruct y; reflexivity. Qed.

Lemma f64_of_Z_0 : f64_of_Z 0 = f64_zero.
Proof. reflexivity. Qed.

(** ** The order *)

(** Numbers as triples under the lexicographic order: the class from -inf to
    +inf, the exponent, the mantissa. *)
Definition f64_key (x : f64) : option (Z * Z * Z) :=
  match x with
  | S754_nan => None
  | S754_infinity s => Some (if s then -2 else 2, 0, 0)
  | S754_zero _ => Some (0, 0, 0)
  | S754_finite s m e => Some (if s then (-1, - e, - Z.pos m) else (1, e, Z.pos m))
  end.

Definition key_lt (a b : Z * Z * Z) : Prop :=
  let '(c, e, m) := a in let '(c', e', m') := b in
  c < c' ∨ (c = c' ∧ (e < e' ∨ (e = e' ∧ m < m'))).

Lemma f64_ltb_key x y :
  f64_ltb x y = true ↔ ∃ a b, f64_key x = Some a ∧ f64_key y = Some b ∧ key_lt a b.
Proof.
  unfold f64_ltb, SFltb.
  split.
  - intros H. destruct x as [s|s| |s m e], y as [s'|s'| |s' m' e']; try done;
      destruct s, s'; try done; simpl in *; eexists _, _; (split_and!; [done..|]); simpl; try lia;
      destruct (Z.compare_spec e e'); try done; try lia;
      change (Pos.compare_cont Eq m m') with (Pos.compare m m') in H;
      destruct (Pos.compare_spec m m'); try done; lia.
  - intros (a & b & Ha & Hb & H). destruct x as [s|s| |s m e], y as [s'|s'| |s' m' e']; try done;
      destruct s, s'; simpl in *; simplify_eq; simpl in H; try lia; try done;
      destruct (Z.compare_spec e e'); try done; try lia;
      change (Pos.compare_cont Eq m m') with (Pos.compare m m');
      destruct (Pos.compare_spec m m'); simpl; try done; lia.
Qed.

Lemma f64_leb_key x y :
  f64_leb x y = true ↔ ∃ a b, f64_key x = Some a ∧ f64_key y = Some b ∧ ¬ key_lt b a.
Proof.
  unfold f64_leb, SFleb.
  split.
  - intros H. destruct x as [s|s| |s m e], y as [s'|s'| |s' m' e']; try done;
      destruct s, s'; try done; simpl in *; eexists _, _; (split_and!; [done..|]); simpl; try lia;
      destruct (Z.compare_spec e e'); try done; try lia;
      change (Pos.compare_cont Eq m m') with (Pos.compare m m') in H;
      destruct (Pos.compare_spec m m'); try done; lia.
  - intros (a & b & Ha & Hb & H). destruct x as [s|s| |s m e], y as [s'|s'| |s' m' e']; try done;
      destruct s, s'; simpl in *; simplify_eq; simpl in H; try lia; try done;
      destruct (Z.compare_spec e e'); try done; try lia;
      change (Pos.compare_cont Eq m m') with (Pos.compare m m');
      destruct (Pos.compare_spec m m'); simpl; try done; lia.
Qed.

Lemma key_lt_le a b c : key_lt a b → ¬ key_lt c b → key_lt a c.
Proof. destruct a as [[? ?] ?], b as [[? ?] ?], c as [[? ?] ?]; simpl. lia. Qed.
Lemma key_le_lt a b c : ¬ key_lt b a → key_lt b c → key_lt a c.
Proof. destruct a as [[? ?] ?], b as [[? ?] ?], c as [[? ?] ?]; simpl. lia. Qed.

Lemma key_lt_trans a b c : key_lt a b → key_lt b c → key_lt a c.
Proof. destruct a as [[? ?] ?], b as [[? ?] ?], c as [[? ?] ?]; simpl. lia. Qed.

Lemma f64_ltb_leb x y z : f64_ltb x y = true → f64_leb y z = true → f64_ltb x z = true.
Proof.
  rewrite !f64_ltb_key, f64_leb_key. intros (a & b & Ha & Hb & H1) (b' & c & Hb' & Hc & H2).
  simplify_eq. exists a, c. split_and!; [done..|]. by eapply key_lt_le.
Qed.
Lemma f64_leb_ltb x y z : f64_leb x y = true → f64_ltb y z = true → f64_ltb x z = true.
Proof.
  rewrite !f64_ltb_key, f64_leb_key. intros (a & b & Ha & Hb & H1) (b' & c & Hb' & Hc & H2).
  simplify_eq. exists a, c. split_and!; [done..|]. by eapply key_le_lt.
Qed.
Lemma f64_ltb_ltb x y z : f64_ltb x y = true → f64_ltb y z = true → f64_ltb x z = true.
Proof.
  rewrite !f64_ltb_key. intros (a & b & Ha & Hb & H1) (b' & c & Hb' & Hc & H2).
  simplify_eq. exists a, c. split_and!; [done..|].
  by eapply key_lt_trans.
Qed.
