(* ===== verification/Params.v ===== *)
(** * [src/src/params.rs]: the command line

    Rates and sizes with a K/M/G suffix, the parameters of a run and how the
    options stored by the argument parser become a [PerfParams].  A [&str] is
    the list of its characters (Unicode scalar values). *)
From S2P Require Import Prelude.
From Stdlib Require Import Ascii.

Abbreviation Str := (list Z).

Definition chars (s : string) : Str :=
  map (λ a, Z.of_N (N_of_ascii a)) (String.list_ascii_of_string s).

(** ** Integer parsing of the standard library *)

Definition is_digit (c : Z) : bool := (48 <=? c) && (c <=? 57).

Fixpoint parse_digits (w acc : Z) (cs : Str) : option Z :=
  match cs with
  | [] => Some acc
  | c :: cs' =>
      if is_digit c
      then let v := acc * 10 + (c - 48) in
           if v <? 2 ^ w then parse_digits w v cs' else None
      else None
  end.

(** [str::parse::<u64>] for [w = 64]: one optional plus sign, at least one
    digit, and an error when the value does not fit. *)
Definition parse_u (w : Z) (cs : Str) : option Z :=
  match cs with
  | [] => None
  | c :: cs' =>
      if c =? 43
      then match cs' with [] => None | _ => parse_digits w 0 cs' end
      else parse_digits w 0 cs
  end.

Definition is_ascii_alphabetic (c : Z) : bool :=
  ((65 <=? c) && (c <=? 90)) || ((97 <=? c) && (c <=? 122)).

(** [char::is_alphabetic]: the letters of ASCII, and beyond them the Unicode
    table of the standard library, which stays abstract. *)
Class Unicode : Type := { alphabetic_beyond_ascii : Z → bool }.
Definition is_alphabetic `{Unicode} (c : Z) : bool :=
  if c <? 128 then is_ascii_alphabetic c else alphabetic_beyond_ascii c.

(** ** Rates *)

Section Rates.
Context `{P : Profile} `{U : Unicode}.

Definition kmg_to_bits (rate kmg : Z) : res Z :=
  if (kmg =? 107) || (kmg =? 75) then mul_u 64 rate 1024
  else if (kmg =? 109) || (kmg =? 77) then
    let- r := mul_u 64 rate 1024 in mul_u 64 r 1024
  else if (kmg =? 103) || (kmg =? 71) then
    let- r := mul_u 64 rate 1024 in
    let- r := mul_u 64 r 1024 in mul_u 64 r 1024
  else Done rate.

Definition is_kmg (c : Z) : bool :=
  existsb (Z.eqb c) (chars "kKmMgG").

Definition getrate_in_bits (rate : Str) : res Z :=
  if bool_decide (rate = chars "abcdef") then Done 0
  else
    let- kmg := unwrap (last rate) in
    if is_kmg kmg then
      let- v := unwrap (parse_u 64 (removelast rate)) in
      kmg_to_bits v kmg
    else if is_alphabetic kmg then Done 0
    else unwrap (parse_u 64 rate).
End Rates.

(** ** Parameters *)

Inductive PerfMode : Type := SERVER | CLIENT.
#[global] Instance PerfMode_eq_dec : EqDecision PerfMode.
Proof. solve_decision. Defined.

Definition PerfMode_fmt (m : PerfMode) : string :=
  match m with SERVER => "server" | CLIENT => "client" end.

Record PerfParams : Type := mkPerfParams {
  p_mode : PerfMode;
  p_client : option Str;
  p_udp : bool;
  p_quic : bool;
  p_tls : bool;
  p_verbose : bool;
  p_debug : bool;
  p_bindaddr : option Str;
  p_port : Z;
  p_dev : Str;
  p_recv_timeout : Z;
  p_idle_timeout : Z;
  p_num_streams : Z;
  p_mss : Z;
  p_bitrate : Z;
  p_time : Z;
  p_bytes : Z;
  p_blks : Z;
  p_length : Z;
  p_sendbuf : Z;
  p_recvbuf : Z;
  p_skip_tls : bool;
  p_cert : option Str;
  p_key : option Str
}.

(** One option as the argument parser stores it into the variable that
    [refer] names. *)
Inductive Opt : Type :=
| OptServer | OptClient (host : Str) | OptPort (n : Z)
| OptUdp | OptQuic | OptTls | OptBindAddr (a : Str)
| OptBitrate (s : Str) | OptTime (n : Z) | OptBytes (s : Str)
| OptBlocks (n : Z) | OptLength (n : Z) | OptParallel (n : Z) | OptMss (n : Z)
| OptSkipTls | OptCert (s : Str) | OptKey (s : Str)
| OptVerbose | OptDebug.

(** The local variables of [parse_args] that options write to. *)
Record ArgVars : Type := mkArgVars {
  a_server : bool; a_client : option Str; a_port : Z;
  a_udp : bool; a_quic : bool; a_tls : bool; a_bindaddr : option Str;
  a_num_streams : Z; a_mss : Z; a_bitrate : Str; a_time : Z; a_bytes : Str;
  a_blks : Z; a_length : Z; a_skip_tls : bool; a_cert : option Str; a_key : option Str;
  a_verbose : bool; a_debug : bool
}.

Definition arg_defaults : ArgVars := {|
  a_server := false; a_client := None; a_port := 8080;
  a_udp := false; a_quic := false; a_tls := false; a_bindaddr := None;
  a_num_streams := 1; a_mss := 0; a_bitrate := chars "abcdef"; a_time := 10;
  a_bytes := chars "abcdef"; a_blks := 0; a_length := 0; a_skip_tls := false;
  a_cert := None; a_key := None; a_verbose := false; a_debug := false
|}.

Definition store (v : ArgVars) (o : Opt) : ArgVars :=
  let '(mkArgVars sv cl po ud qu tl ba ns ms br ti by_ bl le sk ce ke ve de) := v in
  match o with
  | OptServer => mkArgVars true cl po ud qu tl ba ns ms br ti by_ bl le sk ce ke ve de
  | OptClient x => mkArgVars sv (Some x) po ud qu tl ba ns ms br ti by_ bl le sk ce ke ve de
  | OptPort x => mkArgVars sv cl x ud qu tl ba ns ms br ti by_ bl le sk ce ke ve de
  | OptUdp => mkArgVars sv cl po true qu tl ba ns ms br ti by_ bl le sk ce ke ve de
  | OptQuic => mkArgVars sv cl po ud true tl ba ns ms br ti by_ bl le sk ce ke ve de
  | OptTls => mkArgVars sv cl po ud qu true ba ns ms br ti by_ bl le sk ce ke ve de
  | OptBindAddr x => mkArgVars sv cl po ud qu tl (Some x) ns ms br ti by_ bl le sk ce ke ve de
  | OptBitrate x => mkArgVars sv cl po ud qu tl ba ns ms x ti by_ bl le sk ce ke ve de
  | OptTime x => mkArgVars sv cl po ud qu tl ba ns ms br x by_ bl le sk ce ke ve de
  | OptBytes x => mkArgVars sv cl po ud qu tl ba ns ms br ti x bl le sk ce ke ve de
  | OptBlocks x => mkArgVars sv cl po ud qu tl ba ns ms br ti by_ x le sk ce ke ve de
  | OptLength x => mkArgVars sv cl po ud qu tl ba ns ms br ti by_ bl x sk ce ke ve de
  | OptParallel x => mkArgVars sv cl po ud qu tl ba x ms br ti by_ bl le sk ce ke ve de
  | OptMss x => mkArgVars sv cl po ud qu tl ba ns x br ti by_ bl le sk ce ke ve de
  | OptSkipTls => mkArgVars sv cl po ud qu tl ba ns ms br ti by_ bl le true ce ke ve de
  | OptCert x => mkArgVars sv cl po ud qu tl ba ns ms br ti by_ bl le sk (Some x) ke ve de
  | OptKey x => mkArgVars sv cl po ud qu tl ba ns ms br ti by_ bl le sk ce (Some x) ve de
  | OptVerbose => mkArgVars sv cl po ud qu tl ba ns ms br ti by_ bl le sk ce ke true de
  | OptDebug => mkArgVars sv cl po ud qu tl ba ns ms br ti by_ bl le sk ce ke ve true
  end.

Definition DEFAULT_SESSION_TIMEOUT : Z := 120.

Section ParseArgs.
Context `{P : Profile} `{U : Unicode}.

Definition parse_args (opts : list Opt) : res PerfParams :=
  let v := foldl store arg_defaults opts in
  if a_server v && negb (bool_decide (a_client v = None)) then Crash (Exited 1)
  else
    let mode := if a_server v then SERVER else CLIENT in
    let- bitrate := getrate_in_bits (a_bitrate v) in
    let- bytes := getrate_in_bits (a_bytes v) in
    Done {|
      p_mode := mode; p_client := a_client v; p_udp := a_udp v; p_quic := a_quic v;
      p_tls := a_tls v; p_verbose := a_verbose v; p_debug := a_debug v;
      p_bindaddr := a_bindaddr v; p_port := a_port v; p_dev := [];
      p_recv_timeout := DEFAULT_SESSION_TIMEOUT; p_idle_timeout := 0;
      p_num_streams := a_num_streams v; p_mss := a_mss v; p_bitrate := bitrate;
      p_time := a_time v; p_bytes := bytes; p_blks := a_blks v; p_length := a_length v;
      p_sendbuf := 0; p_recvbuf := 0; p_skip_tls := a_skip_tls v;
      p_cert := a_cert v; p_key := a_key v |}.
End ParseArgs.

(** ** Printed numbers parse back *)

Definition digit_chars (x : N) (s : string) : Prop :=
  Forall (λ c, is_digit c = true) (chars (pretty_N_go x s)).

Lemma pretty_char_digit x :
  (x < 10)%N → Z.of_N (N_of_ascii (pretty_N_char x)) = 48 + Z.of_N x.
Proof.
  intros H. assert (x = 0 ∨ x = 1 ∨ x = 2 ∨ x = 3 ∨ x = 4 ∨ x = 5 ∨ x = 6 ∨ x = 7
    ∨ x = 8 ∨ x = 9)%N as Hx by lia.
  by repeat destruct Hx as [->|Hx]; [..|subst x].
Qed.

Lemma is_digit_iff c : is_digit c = true ↔ 48 ≤ c ≤ 57.
Proof. unfold is_digit. rewrite andb_true_iff, !Z.leb_le. done. Qed.

Lemma pretty_go_digits x s :
  Forall (λ c, is_digit c = true) (chars s) → digit_chars x s.
Proof.
  unfold digit_chars. revert s. induction (N.lt_wf_0 x) as [x _ IH]; intros s Hs.
  destruct (decide (x = 0)%N) as [->|Hx]; [by rewrite pretty_N_go_0|].
  rewrite pretty_N_go_step by lia. apply IH; [apply N.div_lt; lia|].
  constructor; [|done]. rewrite pretty_char_digit by (apply N.mod_lt; lia).
  apply is_digit_iff. assert (x `mod` 10 < 10)%N as Hm by (apply N.mod_lt; lia).
  revert Hm. generalize (x `mod` 10)%N. lia.
Qed.

Lemma parse_pretty_go w x s :
  Z.of_N x < 2 ^ w →
  parse_digits w 0 (chars (pretty_N_go x s)) = parse_digits w (Z.of_N x) (chars s).
Proof.
  revert s. induction (N.lt_wf_0 x) as [x _ IH]; intros s Hx.
  destruct (decide (x = 0)%N) as [->|Hx0]; [by rewrite pretty_N_go_0|].
  assert (Hm : (x `mod` 10 < 10)%N) by (apply N.mod_lt; lia).
  assert (Hd : (x = 10 * (x `div` 10) + x `mod` 10)%N) by (apply N.div_mod; lia).
  rewrite pretty_N_go_step by lia.
  assert (Hlt : (x `div` 10 < x)%N) by (apply N.div_lt; lia).
  revert Hm Hd Hlt. generalize (x `mod` 10)%N (x `div` 10)%N. intros r q Hm Hd Hlt.
  rewrite IH by lia.
  change (chars (String (pretty_N_char r) s)) with
    (Z.of_N (N_of_ascii (pretty_N_char r)) :: chars s).
  cbn [parse_digits]. rewrite pretty_char_digit by done.
  replace (is_digit _) with true by (symmetry; apply is_digit_iff; lia).
  replace (_ * 10 + _) with (Z.of_N x) by lia.
  destruct (Z.ltb_spec (Z.of_N x) (2 ^ w)); [done|lia].
Qed.

Lemma chars_app s1 s2 : chars (s1 +:+ s2) = chars s1 ++ chars s2.
Proof. unfold chars. induction s1; simpl; [done|]. by f_equal. Qed.

Lemma show_u_digits n :
  0 ≤ n → chars (show_u n) ≠ [] ∧ Forall (λ c, is_digit c = true) (chars (show_u n)).
Proof.
  intros Hn. unfold show_u. destruct n as [|p|p];
    [|change (pretty (Z.pos p)) with (pretty_N_go (N.pos p) "")|lia].
  - split; [done|]. by repeat constructor.
  - split; [|by apply pretty_go_digits].
    intros Hc. assert (pretty_N_go (N.pos p) "" = ""%string) as He.
    { destruct (pretty_N_go (N.pos p) ""); done. }
    revert He. rewrite pretty_N_go_step by lia.
    assert (∀ x s, s ≠ ""%string → pretty_N_go x s ≠ ""%string) as Hne.
    { intros x. induction (N.lt_wf_0 x) as [x _ IH]; intros s Hs.
      destruct (decide (x = 0)%N) as [->|]; [by rewrite pretty_N_go_0|].
      rewrite pretty_N_go_step by lia. apply IH; [apply N.div_lt; lia|done]. }
    by apply Hne.
Qed.

(** Parsing undoes printing, at any width. *)
Lemma parse_show_u w n :
  0 < w → fits w n → parse_u w (chars (show_u n)) = Some n.
Proof.
  intros Hw [Hn0 Hn]. destruct (show_u_digits n Hn0) as [Hne Hd].
  assert (parse_digits w 0 (chars (show_u n)) = Some n) as Hp.
  { destruct n as [|p|p]; [..|lia].
    - transitivity (if 0 <? 2 ^ w then Some 0 else None); [reflexivity|].
      destruct (Z.ltb_spec 0 (2 ^ w)); [done|lia].
    - change (show_u (Z.pos p)) with (pretty_N_go (N.pos p) "").
      rewrite parse_pretty_go by lia. done. }
  unfold parse_u. destruct (chars (show_u n)) as [|c cs]; [done|].
  inversion Hd as [|?? Hc Hcs]; subst. apply is_digit_iff in Hc.
  destruct (Z.eqb_spec c 43); [lia|done].
Qed.

(** ** What a rate means *)

(** The factor a suffix stands for. *)
Definition kmg_factor (c : Z) : Z :=
  if (c =? 107) || (c =? 75) then 2 ^ 10
  else if (c =? 109) || (c =? 77) then 2 ^ 20
  else if (c =? 103) || (c =? 71) then 2 ^ 30 else 1.

Section RateTheorems.
Context `{P : Profile} `{U : Unicode}.

Lemma checked_mul_twice x a b :
  0 ≤ x → 1 ≤ a → 1 ≤ b →
  (let- r := mul_u 64 x a in mul_u 64 r b) = checked 64 (x * (a * b)).
Proof.
  intros Hx Ha Hb. unfold mul_u, checked, bindR, fits.
  destruct (decide (0 ≤ x * a < 2 ^ 64)) as [H|H].
  - by rewrite Z.mul_assoc.
  - destruct (decide (0 ≤ x * (a * b) < 2 ^ 64)) as [H'|H']; [nia|].
    destruct overflow_checks; [done|].
    rewrite Z.mul_assoc. destruct (decide _) as [H''|_].
    + f_equal. rewrite <- (Z.mod_small _ _ H''). by rewrite Zmult_mod_idemp_l.
    + f_equal. by rewrite Zmult_mod_idemp_l.
Qed.

Lemma kmg_to_bits_checked rate c :
  fits 64 rate → kmg_to_bits rate c = checked 64 (rate * kmg_factor c).
Proof.
  intros Hr. assert (0 ≤ rate) by apply Hr. unfold kmg_to_bits, kmg_factor.
  destruct ((c =? 107) || (c =? 75)); [done|].
  destruct ((c =? 109) || (c =? 77)); [by rewrite checked_mul_twice by lia|].
  destruct ((c =? 103) || (c =? 71)).
  - transitivity (let- r := (let- r0 := mul_u 64 rate 1024 in mul_u 64 r0 1024) in
      mul_u 64 r 1024).
    { by destruct (mul_u 64 rate 1024). }
    rewrite checked_mul_twice by lia.
    exact (checked_mul_twice rate (1024 * 1024) 1024 ltac:(lia) ltac:(lia) ltac:(lia)).
  - rewrite Z.mul_1_r. by rewrite checked_fits.
Qed.

Lemma digits_not_default cs c :
  is_digit c = true ∨ is_kmg c = true → cs ++ [c] ≠ chars "abcdef".
Proof.
  intros Hc He. apply (f_equal last) in He. rewrite last_snoc in He.
  injection He as ->. by destruct Hc.
Qed.

Lemma rate_with_suffix n c :
  fits 64 n → is_kmg c = true →
  getrate_in_bits (chars (show_u n) ++ [c]) = checked 64 (n * kmg_factor c).
Proof.
  intros Hn Hc. unfold getrate_in_bits.
  rewrite bool_decide_eq_false_2 by auto using digits_not_default.
  rewrite last_snoc. cbn [unwrap bindR]. rewrite Hc, removelast_last.
  rewrite parse_show_u by (done || lia). cbn [unwrap bindR].
  by apply kmg_to_bits_checked.
Qed.

Lemma rate_plain n :
  fits 64 n → getrate_in_bits (chars (show_u n)) = Done n.
Proof.
  intros Hn. pose proof (parse_show_u 64 n ltac:(lia) Hn) as Hp.
  destruct (show_u_digits n ltac:(apply Hn)) as [Hne Hd].
  revert Hp Hne Hd. generalize (chars (show_u n)). intros s Hp Hne Hd.
  destruct (exists_last Hne) as (cs & c & ->).
  assert (is_digit c = true) as Hc by (apply Forall_app in Hd as [_ Hd]; by inversion Hd).
  unfold getrate_in_bits.
  rewrite bool_decide_eq_false_2 by auto using digits_not_default.
  rewrite last_snoc. cbn [unwrap bindR].
  apply is_digit_iff in Hc as Hc'.
  replace (is_kmg c) with false.
  2:{ unfold is_kmg. cbn. symmetry. rewrite !orb_false_iff, !Z.eqb_neq. lia. }
  replace (is_alphabetic c) with false.
  2:{ unfold is_alphabetic, is_ascii_alphabetic.
      destruct (Z.ltb_spec c 128); [|lia]. symmetry.
      rewrite !orb_false_iff, !andb_false_iff, !Z.leb_gt. lia. }
  by rewrite Hp.
Qed.

(** C31: what a rate on the command line means: a number is itself; a number
    followed by one of [k K m M g G] is the number times 2^10, 2^20 or 2^30,
    with the profile's overflow behaviour (a panic under overflow checks, the
    value modulo 2^64 without); any other final letter makes it zero, whatever
    comes before; and an empty text panics. *)
Theorem getrate_reads n :
  fits 64 n →
  getrate_in_bits (chars (show_u n)) = Done n ∧
  (∀ c, is_kmg c = true →
     getrate_in_bits (chars (show_u n) ++ [c]) = checked 64 (n * kmg_factor c)) ∧
  (∀ s c, is_kmg c = false → is_alphabetic c = true → getrate_in_bits (s ++ [c]) = Done 0) ∧
  getrate_in_bits [] = Crash (Panicked "unwrap on None").
Proof.
  intros Hn. split_and!; [by apply rate_plain|intros; by apply rate_with_suffix| |done].
  intros s c Hk Ha. unfold getrate_in_bits. case_bool_decide; [done|].
  rewrite last_snoc. cbn [unwrap bindR]. by rewrite Hk, Ha.
Qed.
End RateTheorems.

(** ** The options decide the mode *)

Definition is_server_opt (o : Opt) : bool :=
  match o with OptServer => true | _ => false end.
Definition is_client_opt (o : Opt) : bool :=
  match o with OptClient _ => true | _ => false end.

Lemma store_server v o : a_server (store v o) = a_server v || is_server_opt o.
Proof. destruct v, o; simpl; by rewrite ?orb_true_r, ?orb_false_r. Qed.

Lemma store_client v o :
  bool_decide (a_client (store v o) = None)
  = bool_decide (a_client v = None) && negb (is_client_opt o).
Proof. destruct v as [? cl]; destruct o; simpl; by rewrite ?andb_true_r, ?andb_false_r. Qed.

Lemma foldl_store_server opts v :
  a_server (foldl store v opts) = a_server v || existsb is_server_opt opts.
Proof.
  revert v. induction opts as [|o opts IH]; intros v; simpl.
  - by rewrite orb_false_r.
  - by rewrite IH, store_server, orb_assoc.
Qed.

Lemma foldl_store_client opts v :
  bool_decide (a_client (foldl store v opts) = None)
  = bool_decide (a_client v = None) && negb (existsb is_client_opt opts).
Proof.
  revert v. induction opts as [|o opts IH]; intros v; simpl.
  - by rewrite andb_true_r.
  - by rewrite IH, store_client, negb_orb, andb_assoc.
Qed.

Section ParseArgsTheorems.
Context `{P : Profile} `{U : Unicode}.

(** C32: asking for both roles ends the process with status 1, wherever
    the two options stand on the command line and whatever the others say;
    otherwise the role is the server's exactly when [-s] was given, a server
    has no client address, and no option touches the fixed defaults. *)
Theorem parse_args_role opts :
  let s := existsb is_server_opt opts in
  let c := existsb is_client_opt opts in
  (s = true → c = true → parse_args opts = Crash (Exited 1)) ∧
  (∀ p, parse_args opts = Done p →
     s && c = false ∧
     p_mode p = (if s then SERVER else CLIENT) ∧
     (p_mode p = SERVER → p_client p = None) ∧
     p_recv_timeout p = DEFAULT_SESSION_TIMEOUT ∧ p_idle_timeout p = 0 ∧
     p_sendbuf p = 0 ∧ p_recvbuf p = 0).
Proof.
  intros s c. unfold parse_args.
  pose proof (foldl_store_server opts arg_defaults) as Hs.
  pose proof (foldl_store_client opts arg_defaults) as Hc.
  simpl in Hs, Hc. fold s in Hs. fold c in Hc. rewrite Hs, Hc, negb_involutive.
  split; [by intros -> ->|]. intros p H.
  destruct (s && c) eqn:Hsc; [done|]. mrun H. simpl.
  split_and!; [done|done| |done..]. intros Hmode.
  destruct (existsb is_server_opt opts); [|done].
  simpl in Hsc. subst c. rewrite Hsc in Hc. by apply bool_decide_eq_true_1 in Hc.
Qed.
End ParseArgsTheorems.

(** ** On concrete command lines *)

#[local] Instance no_alphabet : Unicode := {| alphabetic_beyond_ascii _ := false |}.

Lemma getrate_reads_witness :
  getrate_in_bits (P := debug_profile) (chars (show_u 1500)) = Done 1500 ∧
  getrate_in_bits (P := debug_profile) (chars (show_u 1500) ++ [77]) = Done 1572864000 ∧
  getrate_in_bits (P := debug_profile) [49; 122] = Done 0.
Proof.
  destruct (getrate_reads (P := debug_profile) 1500 ltac:(done)) as (H1 & H2 & H3 & _).
  split_and!; [exact H1|rewrite (H2 77 eq_refl); reflexivity|exact (H3 [49] 122 eq_refl eq_refl)].
Defined.

Lemma parse_args_role_witness :
  parse_args (P := debug_profile) [OptClient (chars "::1"); OptUdp; OptServer] = Crash (Exited 1).
Proof.
  exact (proj1 (parse_args_role (P := debug_profile) [OptClient (chars "::1"); OptUdp; OptServer])
           eq_refl eq_refl).
Defined.
