(* ===== verification/Env.v ===== *)
(** * The world the program runs in

    What the operating system, [mio] and the peer decide is an argument of the
    model: how far the clock moves between two readings, how each fallible
    system call ends, what a socket delivers and how much it accepts.  What the
    program asks for is recorded.  This file also holds the [Stream] trait of
    [src/src/test.rs] as a type class, with the laws its users rely on. *)
From S2P Require Import Prelude F64.

(** ** System calls, clock and output *)

Inductive Query : Type := LocalAddr | PeerAddr | SendBufferSize | RecvBufferSize | GetMss.

Inductive Sys : Type :=
| SysRegister (fd token : Z)
| SysReregister (fd token : Z)
| SysDeregister (fd : Z)
| SysPoll
| SysWaker
| SysWake
| SysShutdown (fd : Z)
| SysFinish (fd : Z)
| SysSetMss (fd mss : Z)
| SysQuery (fd : Z) (q : Query)
| SysSocket (fd : Z)
| SysSetNonblocking (fd : Z)
| SysSetNodelay (fd : Z)
| SysSetLinger (fd : Z)
| SysReuseAddr (fd : Z)
| SysSetRecvBuffer (fd n : Z)
| SysSetSendBuffer (fd n : Z)
| SysBind (fd : Z)
| SysListen (fd backlog : Z)
| SysConnect (fd : Z)
| SysReadFile (name : string)
| SysTlsConfig
| SysEndpoint (fd : Z) (protected : bool) (payload_size idle_timeout : Z)
| SysOut (line : string).

#[global] Instance Query_eq_dec : EqDecision Query.
Proof. solve_decision. Defined.
#[global] Instance Sys_eq_dec : EqDecision Sys.
Proof. solve_decision. Defined.

(** [w_ticks]: the nanoseconds that pass before each coming clock reading
    (none once the list is used up); [w_sys]: how the coming system calls end,
    success once it is used up; [w_log]: the calls that succeeded, oldest
    first. *)
Record World : Type := mkWorld {
  w_clock : Z;
  w_ticks : list Z;
  w_sys : list (option ErrorKind);
  w_log : list Sys
}.

(** [Instant::now()]: instants never go backwards. *)
Definition now : M World Z := fun w =>
  match w_ticks w with
  | [] => Done (w_clock w, w)
  | d :: ds =>
      let t := w_clock w + Z.max 0 d in
      Done (t, mkWorld t ds (w_sys w) (w_log w))
  end.

(** [t.elapsed()], saturating at zero. *)
Definition elapsed (t : Z) : M World Z :=
  let! t' := now in ret (Z.max 0 (t' - t)).

Definition log (c : Sys) : M World () := fun w =>
  Done ((), mkWorld (w_clock w) (w_ticks w) (w_sys w) (w_log w ++ [c])).

Definition syscall (c : Sys) : M World (io_result ()) := fun w =>
  match w_sys w with
  | Some e :: r => Done (IoErr e, mkWorld (w_clock w) (w_ticks w) r (w_log w))
  | None :: r => Done (IoOk (), mkWorld (w_clock w) (w_ticks w) r (w_log w ++ [c]))
  | [] => Done (IoOk (), mkWorld (w_clock w) (w_ticks w) [] (w_log w ++ [c]))
  end.

(** [thread::sleep(d)]. *)
Definition sleep (d : Z) : M World () := fun w =>
  Done ((), mkWorld (w_clock w + Z.max 0 d) (w_ticks w) (w_sys w) (w_log w)).

Definition println (line : string) : M World () := log (SysOut line).

Definition query (fd : Z) (q : Query) : M World () :=
  unwrap_io (syscall (SysQuery fd q)).

Definition ONE_SEC : Z := NANOS_PER_SEC.
Definition from_secs (s : Z) : Z := s * NANOS_PER_SEC.

(** ** Sockets *)

(** What the coming reads of a socket return, and what its coming writes
    accept.  A socket with nothing left to say answers [WouldBlock]. *)
Inductive Incoming : Type := InBytes (bs : list Z) | InErr (e : ErrorKind).
Inductive Outgoing : Type := OutAccept (room : Z) | OutErr (e : ErrorKind).

Record Sock : Type := mkSock {
  sk_fd : Z;
  sk_in : list Incoming;
  sk_out : list Outgoing;
  sk_sent : list Buf
}.

(** [read] into a buffer of [n] bytes from a byte stream: what does not fit
    stays for the next read. *)
Definition sock_read (n : nat) (s : Sock) : io_result (list Z) * Sock :=
  match sk_in s with
  | [] => (IoErr WouldBlock, s)
  | InErr e :: r => (IoErr e, mkSock (sk_fd s) r (sk_out s) (sk_sent s))
  | InBytes bs :: r =>
      if decide (length bs ≤ n)%nat
      then (IoOk bs, mkSock (sk_fd s) r (sk_out s) (sk_sent s))
      else (IoOk (take n bs), mkSock (sk_fd s) (InBytes (drop n bs) :: r) (sk_out s) (sk_sent s))
  end.

(** [recv] of one datagram: what does not fit is dropped. *)
Definition sock_recv (n : nat) (s : Sock) : io_result (list Z) * Sock :=
  match sk_in s with
  | [] => (IoErr WouldBlock, s)
  | InErr e :: r => (IoErr e, mkSock (sk_fd s) r (sk_out s) (sk_sent s))
  | InBytes bs :: r => (IoOk (take n bs), mkSock (sk_fd s) r (sk_out s) (sk_sent s))
  end.

(** [write]/[send]: the accepted prefix goes out. *)
Definition sock_write (b : Buf) (s : Sock) : io_result Z * Sock :=
  match sk_out s with
  | [] => (IoErr WouldBlock, s)
  | OutErr e :: r => (IoErr e, mkSock (sk_fd s) (sk_in s) r (sk_sent s))
  | OutAccept room :: r =>
      let n := Z.min (Z.max 0 room) (b_len b) in
      (IoOk n, mkSock (sk_fd s) (sk_in s) r
                 (sk_sent s ++ [mkBuf (take (Z.to_nat n) (b_head b)) (b_fill b) n]))
  end.

(** A message given by its bytes. *)
Definition buf_of (bs : list Z) : Buf := mkBuf bs 0 (Z.of_nat (length bs)).

(** ** The [Stream] trait *)

Inductive Conn : Type := TCP | UDP | QUIC | TLS.
#[global] Instance Conn_eq_dec : EqDecision Conn.
Proof. solve_decision. Defined.

(** A method on [&mut self] returns the new receiver beside its result; the
    bytes [read] puts into the buffer are part of the result. *)
Class Stream (T : Type) : Type := {
  stream_read : T → nat → M World (io_result (list Z) * T);
  stream_write : T → Buf → M World (io_result Z * T);
  stream_fd : T → Z;
  stream_register : T → Z → M World ();
  stream_deregister : T → M World ();
  stream_print_new : T → M World ();
  socket_type : T → res Conn;
  (** Not a method: a bound on the reads that can still make progress. *)
  backlog : T → nat
}.

(** What every implementation promises its users. *)
Class StreamLaws (T : Type) `{Stream T} : Prop := {
  read_returns s n w : ∃ r s' w', stream_read s n w = Done ((r, s'), w');
  read_progress s n w r s' w' :
    (0 < n)%nat → stream_read s n w = Done ((r, s'), w') →
    r = IoErr WouldBlock ∨ r = IoOk [] ∨ (backlog s' < backlog s)%nat;
  read_keeps_id s n w r s' w' :
    stream_read s n w = Done ((r, s'), w') →
    stream_fd s' = stream_fd s ∧ socket_type s' = socket_type s;
  read_bounded s n w bs s' w' :
    stream_read s n w = Done ((IoOk bs, s'), w') → (length bs ≤ n)%nat;
  write_keeps_id s b w r s' w' :
    stream_write s b w = Done ((r, s'), w') →
    stream_fd s' = stream_fd s ∧ socket_type s' = socket_type s;
  write_bounded s b w k s' w' :
    0 ≤ b_len b → stream_write s b w = Done ((IoOk k, s'), w') → 0 ≤ k ≤ b_len b
}.

(** ** Facts about the world and sockets *)

Lemma now_monotone w t w' : now w = Done (t, w') → w_clock w ≤ t ∧ w_clock w' = t.
Proof. unfold now. destruct (w_ticks w); intros; simplify_eq/=; lia. Qed.

Lemma now_returns w : ∃ t w', now w = Done (t, w').
Proof. unfold now. destruct (w_ticks w); by repeat eexists. Qed.

Lemma elapsed_returns t w : ∃ e w', elapsed t w = Done (e, w').
Proof.
  unfold elapsed, bindM, ret. destruct (now_returns w) as (t' & w' & ->). by repeat eexists.
Qed.

Lemma elapsed_nonneg t w d w' : elapsed t w = Done (d, w') → 0 ≤ d.
Proof. unfold elapsed. intros H. mrun H. lia. Qed.

Lemma sock_read_keeps_id n s r s' : sock_read n s = (r, s') → sk_fd s' = sk_fd s.
Proof. unfold sock_read. repeat case_match; intros; by simplify_eq/=. Qed.

Lemma sock_read_bounded n s bs s' : sock_read n s = (IoOk bs, s') → (length bs ≤ n)%nat.
Proof.
  unfold sock_read. repeat case_match; intros; simplify_eq/=; [done|].
  rewrite length_take. lia.
Qed.

Lemma sock_recv_keeps_id n s r s' : sock_recv n s = (r, s') → sk_fd s' = sk_fd s.
Proof. unfold sock_recv. repeat case_match; intros; by simplify_eq/=. Qed.

Lemma sock_recv_bounded n s bs s' : sock_recv n s = (IoOk bs, s') → (length bs ≤ n)%nat.
Proof.
  unfold sock_recv. repeat case_match; intros; simplify_eq/=.
  rewrite length_take. lia.
Qed.

Lemma sock_write_keeps_id b s r s' : sock_write b s = (r, s') → sk_fd s' = sk_fd s.
Proof. unfold sock_write. repeat case_match; intros; by simplify_eq/=. Qed.

Lemma sock_write_bounded b s k s' :
  0 ≤ b_len b → sock_write b s = (IoOk k, s') → 0 ≤ k ≤ b_len b.
Proof. unfold sock_write. repeat case_match; intros; simplify_eq/=. lia. Qed.

(** What a write sends: nothing, or the part that was accepted. *)
Lemma sock_write_sent b s r s' :
  sock_write b s = (r, s') →
  ∃ bs, sk_sent s' = sk_sent s ++ bs ∧
    match r with
    | IoOk n => ∃ b', bs = [b'] ∧ b_len b' = n ∧ n ≤ b_len b ∧
                  b_head b' = take (Z.to_nat n) (b_head b)
    | IoErr _ => bs = []
    end.
Proof.
  unfold sock_write. intros H. destruct (sk_out s) as [|[room|e] outs]; simplify_eq/=.
  - exists []. by rewrite app_nil_r.
  - eexists. split; [done|]. eexists. split_and!; [done..|lia|done].
  - exists []. by rewrite app_nil_r.
Qed.

(** How much a socket still has to deliver: every read makes it smaller. *)
Definition in_size (i : Incoming) : nat :=
  match i with InBytes bs => S (length bs) | InErr _ => 1 end.
Definition in_measure (l : list Incoming) : nat := foldr (λ i n, in_size i + n)%nat O l.

Lemma sock_read_measure n s r s' :
  (0 < n)%nat → sock_read n s = (r, s') →
  r = IoErr WouldBlock ∧ s' = s ∧ sk_in s = [] ∨
  (in_measure (sk_in s') < in_measure (sk_in s))%nat.
Proof.
  intros Hn. unfold sock_read. repeat case_match; intros; simplify_eq/=; [by left|right..];
    rewrite ?length_drop; lia.
Qed.

Lemma sock_recv_measure n s r s' :
  sock_recv n s = (r, s') →
  r = IoErr WouldBlock ∧ s' = s ∧ sk_in s = [] ∨
  (in_measure (sk_in s') < in_measure (sk_in s))%nat.
Proof.
  unfold sock_recv. repeat case_match; intros; simplify_eq/=; [by left|right..]; lia.
Qed.
