(* ===== verification/Kinds.v ===== *)
(** * The enumerations of [src/src/test.rs]

    Transport, test state and stream mode, with their numeric codes: the
    control connection carries test states as single bytes, and serialised
    streams carry their transport as an [i8]. *)
From S2P Require Import Prelude Env.

(** ** [Conn] *)

Definition Conn_fmt (c : Conn) : string :=
  match c with TCP => "TCP" | UDP => "UDP" | QUIC => "QUIC" | TLS => "TLS" end.

(** [conn as i8]. *)
Definition Conn_as_i8 (c : Conn) : Z :=
  match c with TCP => 0 | UDP => 1 | QUIC => 2 | TLS => 3 end.

Definition Conn_from_i8 (value : Z) : res Conn :=
  if value =? 0 then Done TCP
  else if value =? 1 then Done UDP
  else if value =? 2 then Done QUIC
  else if value =? 3 then Done TLS
  else Crash (Panicked ("Unknown value: " +:+ pretty value)).

(** ** [TestState] *)

Inductive TestState : Type :=
| Start | ParamExchange | CreateStreams | TestStart | TestRunning
| TestEnd | Wait | ExchangeResults | End_.

#[global] Instance TestState_eq_dec : EqDecision TestState.
Proof. solve_decision. Defined.

(** [state as u8]. *)
Definition TestState_as_u8 (s : TestState) : Z :=
  match s with
  | Start => 0 | ParamExchange => 1 | CreateStreams => 2 | TestStart => 3
  | TestRunning => 4 | TestEnd => 5 | Wait => 6 | ExchangeResults => 7 | End_ => 8
  end.

Definition TestState_from_i8 (value : Z) : res TestState :=
  if value =? 0 then Done Start
  else if value =? 1 then Done ParamExchange
  else if value =? 2 then Done CreateStreams
  else if value =? 3 then Done TestStart
  else if value =? 4 then Done TestRunning
  else if value =? 5 then Done TestEnd
  else if value =? 6 then Done Wait
  else if value =? 7 then Done ExchangeResults
  else if value =? 8 then Done End_
  else Crash (Panicked ("Unknown value: " +:+ pretty value)).

Definition TestState_default : TestState := Start.

(** ** [StreamMode] *)

Inductive StreamMode : Type := SENDER | RECEIVER | BOTH.
#[global] Instance StreamMode_eq_dec : EqDecision StreamMode.
Proof. solve_decision. Defined.

Definition StreamMode_fmt (m : StreamMode) : string :=
  match m with SENDER => "sender" | RECEIVER => "receiver" | BOTH => "both" end.

(** ** Codes *)

Lemma Conn_from_as_i8 c : Conn_from_i8 (Conn_as_i8 c) = Done c.
Proof. by destruct c. Qed.

Lemma TestState_as_u8_range s : 0 ≤ TestState_as_u8 s ≤ 8.
Proof. destruct s; simpl; lia. Qed.

(** The byte a peer sends for a state is read back as that state. *)
Lemma TestState_byte_roundtrip s : TestState_from_i8 (as_signed 8 (TestState_as_u8 s)) = Done s.
Proof. by destruct s. Qed.

(** Only the nine codes are states; every other byte takes the reader down. *)
Lemma TestState_from_i8_Done v s : TestState_from_i8 v = Done s ↔ v = TestState_as_u8 s.
Proof.
  split; [|intros ->; by destruct s].
  unfold TestState_from_i8. repeat (case_match; [intros [= <-]; simpl; lia|]). done.
Qed.

Lemma TestState_from_i8_panics v :
  ¬ (0 ≤ v ≤ 8) → ∃ why, TestState_from_i8 v = Crash (Panicked why).
Proof.
  intros Hv. destruct (TestState_from_i8 v) as [s|c] eqn:H.
  - apply TestState_from_i8_Done in H as ->. pose proof (TestState_as_u8_range s). lia.
  - unfold TestState_from_i8 in H. repeat (case_match; [done|]). injection H as <-. by eexists.
Qed.
