(* ===== verification/Tcp.v ===== *)
(** * [src/src/tcp.rs]: TCP streams

    The [Stream] implementation of [TcpStream], the [TCP_INFO] record read from
    the kernel, and the loops that establish connections. *)
From S2P Require Import Prelude Env Kinds.

(** ** [TcpInfo] *)

(** The kernel's record, field for field ([u8], [u32] and [u64] values). *)
Record TcpInfo : Type := mkTcpInfo {
  tcpi_state : Z; tcpi_ca_state : Z; tcpi_retransmits : Z; tcpi_probes : Z;
  tcpi_backoff : Z; tcpi_options : Z; tcpi_snd_rcv_wscale : Z;
  tcpi_delivery_rate_limited : Z; tcpi_rto : Z; tcpi_ato : Z; tcpi_snd_mss : Z;
  tcpi_rcv_mss : Z; tcpi_unacked : Z; tcpi_sacked : Z; tcpi_lost : Z; tcpi_retrans : Z;
  tcpi_fackets : Z; tcpi_last_data_sent : Z; tcpi_last_ack_sent : Z;
  tcpi_last_data_recv : Z; tcpi_last_ack_recv : Z; tcpi_pmtu : Z; tcpi_rcv_ssthresh : Z;
  tcpi_rtt : Z; tcpi_rttvar : Z; tcpi_snd_ssthresh : Z; tcpi_snd_cwnd : Z;
  tcpi_advmss : Z; tcpi_reordering : Z; tcpi_rcv_rtt : Z; tcpi_rcv_space : Z;
  tcpi_total_retrans : Z; tcpi_pacing_rate : Z; tcpi_max_pacing_rate : Z;
  tcpi_bytes_acked : Z; tcpi_bytes_received : Z; tcpi_segs_out : Z; tcpi_segs_in : Z;
  tcpi_notsent_bytes : Z; tcpi_min_rtt : Z; tcpi_data_segs_in : Z;
  tcpi_data_segs_out : Z; tcpi_delivery_rate : Z; tcpi_busy_time : Z;
  tcpi_rwnd_limited : Z; tcpi_sndbuf_limited : Z; tcpi_delivered : Z;
  tcpi_delivered_ce : Z; tcpi_bytes_sent : Z; tcpi_bytes_retrans : Z;
  tcpi_dsack_dups : Z; tcpi_reord_seen : Z; tcpi_rcv_ooopack : Z; tcpi_snd_wnd : Z
}.

Definition TcpInfo_default : TcpInfo :=
  mkTcpInfo
    0 0 0 0 0 0 0 0 0 0 0 0 0 0 0 0 0 0 0 0 0 0 0 0 0 0 0 0 0 0 0 0 0 0 0 0 0 0 0 0 0 0
    0 0 0 0 0 0 0 0 0 0 0 0.

(** The sizes in bytes of the fields, in the order of the record. *)
Definition tcp_info_widths : list Z :=
  [1; 1; 1; 1; 1; 1; 1; 1; 4; 4; 4; 4; 4; 4; 4; 4; 4; 4; 4; 4; 4; 4; 4; 4; 4; 4; 4; 4;
   4; 4; 4; 4; 8; 8; 8; 8; 4; 4; 4; 4; 4; 4; 8; 8; 8; 8; 4; 4; 8; 8; 4; 4; 4; 4].

(** [repr(C)]: a field of [w] bytes is aligned to [w], the record to its widest
    field. *)
Definition align_up (n w : Z) : Z := (n + w - 1) / w * w.

Fixpoint c_offsets (off : Z) (ws : list Z) : list Z :=
  match ws with
  | [] => []
  | w :: ws' => align_up off w :: c_offsets (align_up off w + w) ws'
  end.

Definition c_size (ws : list Z) : Z :=
  align_up (foldl (λ off w, align_up off w + w) 0 ws) (foldr Z.max 1 ws).

(** Numbers in memory, least significant byte first as on the machines the
    program is built for. *)
Definition from_le_bytes (bs : list Byte.byte) : Z :=
  foldr (λ b acc, Z.of_N (Byte.to_N b) + 256 * acc) 0 bs.

(** [w] bytes of memory at [off]. *)
Definition load (mem : list Byte.byte) (off w : Z) : Z :=
  from_le_bytes (take (Z.to_nat w) (drop (Z.to_nat off) mem)).

(** The record with these fields, and the fields of a record. *)
Definition TcpInfo_of (fields : list Z) : TcpInfo :=
  let f i := nth (Z.to_nat i) fields 0 in
  mkTcpInfo (f 0) (f 1) (f 2) (f 3) (f 4) (f 5) (f 6) (f 7) (f 8) (f 9) (f 10) (f 11) (f 12)
    (f 13) (f 14) (f 15) (f 16) (f 17) (f 18) (f 19) (f 20) (f 21) (f 22) (f 23) (f 24) (f 25)
    (f 26) (f 27) (f 28) (f 29) (f 30) (f 31) (f 32) (f 33) (f 34) (f 35) (f 36) (f 37) (f 38)
    (f 39) (f 40) (f 41) (f 42) (f 43) (f 44) (f 45) (f 46) (f 47) (f 48) (f 49) (f 50) (f 51)
    (f 52) (f 53).

Definition TcpInfo_fields (i : TcpInfo) : list Z :=
  [tcpi_state i; tcpi_ca_state i; tcpi_retransmits i; tcpi_probes i; tcpi_backoff i;
   tcpi_options i; tcpi_snd_rcv_wscale i; tcpi_delivery_rate_limited i; tcpi_rto i;
   tcpi_ato i; tcpi_snd_mss i; tcpi_rcv_mss i; tcpi_unacked i; tcpi_sacked i; tcpi_lost i;
   tcpi_retrans i; tcpi_fackets i; tcpi_last_data_sent i; tcpi_last_ack_sent i;
   tcpi_last_data_recv i; tcpi_last_ack_recv i; tcpi_pmtu i; tcpi_rcv_ssthresh i;
   tcpi_rtt i; tcpi_rttvar i; tcpi_snd_ssthresh i; tcpi_snd_cwnd i; tcpi_advmss i;
   tcpi_reordering i; tcpi_rcv_rtt i; tcpi_rcv_space i; tcpi_total_retrans i;
   tcpi_pacing_rate i; tcpi_max_pacing_rate i; tcpi_bytes_acked i; tcpi_bytes_received i;
   tcpi_segs_out i; tcpi_segs_in i; tcpi_notsent_bytes i; tcpi_min_rtt i;
   tcpi_data_segs_in i; tcpi_data_segs_out i; tcpi_delivery_rate i; tcpi_busy_time i;
   tcpi_rwnd_limited i; tcpi_sndbuf_limited i; tcpi_delivered i; tcpi_delivered_ce i;
   tcpi_bytes_sent i; tcpi_bytes_retrans i; tcpi_dsack_dups i; tcpi_reord_seen i;
   tcpi_rcv_ooopack i; tcpi_snd_wnd i].

(** The record that lies in memory. *)
Definition TcpInfo_at (mem : list Byte.byte) : TcpInfo :=
  TcpInfo_of (zip_with (load mem) (c_offsets 0 tcp_info_widths) tcp_info_widths).

(** What [getsockopt] makes of the caller's buffer: the kernel writes as much of
    its own record as fits and leaves the rest as it was. *)
Definition getsockopt (buffer kernel : list Byte.byte) : list Byte.byte :=
  take (length buffer) kernel ++ drop (length kernel) buffer.

(** The buffer of [tcp_info] is a record of zeros. *)
Definition filled (kernel : list Byte.byte) : list Byte.byte :=
  getsockopt (replicate (Z.to_nat (c_size tcp_info_widths)) Byte.x00) kernel.

(** ** [TcpStream] *)

(** A connected socket, the maximum segment size the kernel reports for it and
    the records its coming [TCP_INFO] requests find ([None]: the call fails). *)
Record TcpStream : Type := mkTcpStream {
  t_sock : Sock;
  t_mss : Z;
  t_info : list (option (list Byte.byte))
}.

Definition set_t_sock (s : Sock) (t : TcpStream) : TcpStream :=
  mkTcpStream s (t_mss t) (t_info t).

Definition TcpStream_read (t : TcpStream) (n : nat) : M World (io_result (list Z) * TcpStream) :=
  let (r, s) := sock_read n (t_sock t) in ret (r, set_t_sock s t).

Definition TcpStream_write (t : TcpStream) (b : Buf) : M World (io_result Z * TcpStream) :=
  let (r, s) := sock_write b (t_sock t) in ret (r, set_t_sock s t).

Definition TcpStream_register (t : TcpStream) (token : Z) : M World () :=
  unwrap_io (syscall (SysRegister (sk_fd (t_sock t)) token)).

Definition TcpStream_deregister (t : TcpStream) : M World () :=
  unwrap_io (syscall (SysDeregister (sk_fd (t_sock t)))).

Definition TcpStream_print_new_stream (t : TcpStream) : M World () :=
  let fd := sk_fd (t_sock t) in
  let! _ := query fd LocalAddr in
  let! _ := query fd PeerAddr in
  let! _ := query fd SendBufferSize in
  let! _ := query fd RecvBufferSize in
  query fd GetMss.

#[export] Instance TcpStream_Stream : Stream TcpStream := {
  stream_read := TcpStream_read;
  stream_write := TcpStream_write;
  stream_fd t := sk_fd (t_sock t);
  stream_register := TcpStream_register;
  stream_deregister := TcpStream_deregister;
  stream_print_new := TcpStream_print_new_stream;
  socket_type _ := Done TCP;
  backlog t := in_measure (sk_in (t_sock t))
}.

#[export] Instance TcpStream_StreamLaws : StreamLaws TcpStream.
Proof.
  split; cbn [stream_read stream_write stream_fd socket_type backlog TcpStream_Stream].
  - intros s n w. unfold TcpStream_read, ret. destruct (sock_read n (t_sock s)). by eauto.
  - intros s n w r s' w' Hn. unfold TcpStream_read, ret.
    destruct (sock_read n (t_sock s)) as [r0 s0] eqn:E. intros [= <- <- <-]. simpl.
    destruct (sock_read_measure _ _ _ _ Hn E) as [(-> & _)|?]; auto.
  - intros s n w r s' w'. unfold TcpStream_read, ret.
    destruct (sock_read n (t_sock s)) eqn:E. intros [= <- <- <-].
    by apply sock_read_keeps_id in E.
  - intros s n w bs s' w'. unfold TcpStream_read, ret.
    destruct (sock_read n (t_sock s)) eqn:E. intros [= -> <- <-].
    by apply sock_read_bounded in E.
  - intros s b w r s' w'. unfold TcpStream_write, ret.
    destruct (sock_write b (t_sock s)) eqn:E. intros [= <- <- <-].
    by apply sock_write_keeps_id in E.
  - intros s b w k s' w' Hb. unfold TcpStream_write, ret.
    destruct (sock_write b (t_sock s)) eqn:E. intros [= -> <- <-].
    by apply sock_write_bounded in E.
Qed.

(** [mss]: zero when the kernel does not say. *)
Definition mss (stream : TcpStream) : M World Z :=
  let! r := syscall (SysQuery (sk_fd (t_sock stream)) GetMss) in
  match r with IoOk _ => ret (t_mss stream) | IoErr _ => ret 0 end.

(** Unix only; a failure is reported and returned. *)
Definition _set_mss (stream : TcpStream) (mss : Z) : M World (io_result ()) :=
  syscall (SysSetMss (sk_fd (t_sock stream)) mss).

(** A listener of one's own making: every step is unwrapped; [fd] is the
    descriptor the system hands out. *)
Definition _bind (fd mss : Z) : M World () :=
  let! _ := unwrap_io (syscall (SysSocket fd)) in
  let! _ := unwrap_io (syscall (SysReuseAddr fd)) in
  let! _ := unwrap_io (syscall (SysSetMss fd mss)) in
  let! _ := unwrap_io (syscall (SysBind fd)) in
  unwrap_io (syscall (SysListen fd 1024)).

(** The bytes of the value that an option of any type [T] is read into:
    [payload] is the memory it is read into, which was never written, and
    [kernel] the value the system has ([None]: the call fails).  A value of
    another length is noticed in a debug build only. *)
Definition _getsockopt `{P : Profile} (payload : list Byte.byte)
    (kernel : option (list Byte.byte)) : res (io_result (list Byte.byte)) :=
  match kernel with
  | None => Done (IoErr LastOsError)
  | Some value =>
      if overflow_checks && negb (length value `min` length payload =? length payload)%nat
      then Crash (Panicked "assertion failed")
      else Done (IoOk (getsockopt payload value))
  end.

(** [getsockopt(TCP_INFO)]. *)
Definition tcp_info (stream : TcpStream) : io_result TcpInfo * TcpStream :=
  match t_info stream with
  | [] => (IoErr LastOsError, stream)
  | o :: r =>
      (match o with Some kernel => IoOk (TcpInfo_at (filled kernel)) | None => IoErr LastOsError end,
       mkTcpStream (t_sock stream) (t_mss stream) r)
  end.

Definition print_tcp_info (stream : TcpStream) : TcpInfo * TcpStream :=
  match tcp_info stream with
  | (IoOk tinfo, s) => (tinfo, s)
  | (IoErr _, s) => (TcpInfo_default, s)
  end.

(** ** Connecting and accepting *)

(** One event of a poll: its token, its readiness and what [peer_addr] says
    about the stream. *)
Record ConnEvent : Type := mkConnEvent {
  ce_token : Z; ce_ready : bool; ce_peer : io_result ()
}.

(** What happens to one call of [TcpStream::connect]: the unconnected stream
    and the events of the poll that follows. *)
Record Attempt : Type := mkAttempt { at_stream : TcpStream; at_events : list ConnEvent }.

(** The scan of one batch of events: the first writable event of the stream
    whose peer is known ends it; an unknown peer is retried. *)
Fixpoint connect_events (stream : TcpStream) (evs : list ConnEvent) :
    M World (io_result (option TcpStream)) :=
  match evs with
  | [] => ret (IoOk None)
  | ev :: evs' =>
      if (ce_token ev =? 1) && ce_ready ev then
        match ce_peer ev with
        | IoOk _ =>
            let? _ := syscall (SysDeregister (sk_fd (t_sock stream))) in
            ret (IoOk (Some stream))
        | IoErr _ => connect_events stream evs'
        end
      else connect_events stream evs'
  end.

(** The loop makes a new stream for every poll; with no attempt left the
    program would wait for ever. *)
Fixpoint connect (attempts : list Attempt) : M World (io_result TcpStream) :=
  match attempts with
  | [] => crashM Blocked
  | a :: rest =>
      let fd := sk_fd (t_sock (at_stream a)) in
      let? _ := syscall (SysConnect fd) in
      let? _ := syscall (SysRegister fd 1) in
      let? _ := syscall SysPoll in
      let? r := connect_events (at_stream a) (at_events a) in
      match r with
      | Some stream => ret (IoOk stream)
      | None => connect rest
      end
  end.

(** One event of the listener: [ac_stream] is what [accept] yields when the
    event makes the program call it. *)
Record AcceptEvent : Type := mkAcceptEvent {
  ac_token : Z; ac_ready : bool; ac_stream : io_result TcpStream; ac_peer : io_result ()
}.

Fixpoint accept_events (listener : Z) (evs : list AcceptEvent) :
    M World (io_result (option TcpStream)) :=
  match evs with
  | [] => ret (IoOk None)
  | ev :: evs' =>
      if (ac_token ev =? 1) && ac_ready ev then
        match ac_stream ev with
        | IoErr _ => panic "accept"
        | IoOk stream =>
            match ac_peer ev with
            | IoOk _ =>
                let? _ := syscall (SysDeregister listener) in
                ret (IoOk (Some stream))
            | IoErr _ => accept_events listener evs'
            end
        end
      else accept_events listener evs'
  end.

Fixpoint accept_rounds (listener : Z) (rounds : list (list AcceptEvent)) :
    M World (io_result TcpStream) :=
  match rounds with
  | [] => crashM Blocked
  | evs :: rest =>
      let? _ := syscall SysPoll in
      let? r := accept_events listener evs in
      match r with
      | Some stream => ret (IoOk stream)
      | None => accept_rounds listener rest
      end
  end.

Definition accept (listener : Z) (rounds : list (list AcceptEvent)) :
    M World (io_result TcpStream) :=
  let? _ := syscall (SysRegister listener 1) in
  accept_rounds listener rounds.

(** ** The layout of [TCP_INFO] *)

(** A number in [w] bytes, and the record as the kernel lays it out: one field
    after the other. *)
Definition byte_of (x : Z) : Byte.byte :=
  default Byte.x00 (Byte.of_N (Z.to_N (x mod 256))).

Fixpoint to_le_bytes (w : nat) (x : Z) : list Byte.byte :=
  match w with
  | O => []
  | S w' => byte_of x :: to_le_bytes w' (x / 256)
  end.

Definition kernel_record (fields : list Z) : list Byte.byte :=
  concat (zip_with (λ w x, to_le_bytes (Z.to_nat w) x) tcp_info_widths fields).

Lemma byte_of_value x : Z.of_N (Byte.to_N (byte_of x)) = x mod 256.
Proof.
  unfold byte_of. pose proof (Z.mod_pos_bound x 256 ltac:(lia)).
  destruct (Byte.of_N _) as [b|] eqn:E; simpl.
  - apply Byte.to_of_N in E. rewrite E. lia.
  - apply Byte.of_N_None_iff in E. lia.
Qed.

Lemma length_to_le_bytes w x : length (to_le_bytes w x) = w.
Proof. revert x. induction w; intros x; simpl; by f_equal. Qed.

Lemma from_to_le_bytes w x : fits (8 * Z.of_nat w) x → from_le_bytes (to_le_bytes w x) = x.
Proof.
  revert x. induction w as [|w IH]; intros x [H0 H].
  { change (2 ^ (8 * Z.of_nat 0)) with 1 in H. simpl. lia. }
  cbn [to_le_bytes from_le_bytes foldr]. fold (from_le_bytes (to_le_bytes w (x / 256))).
  rewrite IH, byte_of_value; [pose proof (Z.div_mod x 256); lia|].
  split; [apply Z.div_pos; lia|]. apply Z.div_lt_upper_bound; [lia|].
  change 256 with (2 ^ 8). rewrite <- Z.pow_add_r by lia. by replace (8 + _) with (8 * Z.of_nat (S w)) by lia.
Qed.

Lemma to_le_bytes_zero w : to_le_bytes w 0 = replicate w Byte.x00.
Proof. induction w as [|w IH]; [done|]. cbn [to_le_bytes replicate]. f_equal. apply IH. Qed.

(** Offsets without padding. *)
Fixpoint dense (off : Z) (ws : list Z) : list Z :=
  match ws with [] => [] | w :: ws' => off :: dense (off + w) ws' end.

(** A field of [w] bytes can hold [x]. *)
Definition field_ok (w x : Z) : Prop := 0 ≤ w ∧ fits (8 * w) x.
#[global] Instance field_ok_dec w x : Decision (field_ok w x).
Proof. unfold field_ok. apply _. Defined.

Definition layout (ws vs : list Z) : list Byte.byte :=
  concat (zip_with (λ w x, to_le_bytes (Z.to_nat w) x) ws vs).

Lemma load_layout ws vs pre post :
  Forall2 field_ok ws vs →
  zip_with (load (pre ++ layout ws vs ++ post)) (dense (Z.of_nat (length pre)) ws) ws = vs.
Proof.
  intros H. revert pre. induction H as [|w x ws vs [Hw Hx] _ IH]; intros pre; [done|].
  cbn [dense zip_with]. unfold layout. cbn [zip_with concat]. fold (layout ws vs).
  f_equal.
  - unfold load. rewrite Nat2Z.id, drop_app_length, <- app_assoc.
    rewrite <- (length_to_le_bytes (Z.to_nat w) x) at 1. rewrite take_app_length.
    apply from_to_le_bytes. by rewrite Z2Nat.id.
  - rewrite <- (IH (pre ++ to_le_bytes (Z.to_nat w) x)) at 2.
    rewrite length_app, length_to_le_bytes, Nat2Z.inj_add, Z2Nat.id by done.
    by rewrite <- !app_assoc.
Qed.

Lemma length_layout ws vs :
  length vs = length ws → length (layout ws vs) = sum_list (Z.to_nat <$> ws).
Proof.
  revert vs. induction ws as [|w ws IH]; intros [|x vs] [=]; [done|].
  unfold layout. cbn. fold (layout ws vs). by rewrite length_app, length_to_le_bytes, IH.
Qed.

Lemma layout_zeros ws m :
  layout ws (replicate m 0) = replicate (length (layout ws (replicate m 0))) Byte.x00.
Proof.
  revert m. induction ws as [|w ws IH]; intros [|m]; try done.
  unfold layout. cbn [replicate zip_with concat]. fold (layout ws (replicate m 0)).
  rewrite length_app, length_to_le_bytes, to_le_bytes_zero, IH at 1.
  by rewrite replicate_add.
Qed.

Lemma layout_app ws vs vs' :
  (length vs ≤ length ws)%nat →
  layout ws (vs ++ vs') = layout ws vs ++ layout (drop (length vs) ws) vs'.
Proof.
  revert ws. induction vs as [|x vs IH]; intros [|w ws] H; simpl in H; try done.
  unfold layout. cbn [app zip_with concat length drop].
  fold (layout ws (vs ++ vs')) (layout ws vs) (layout (drop (length vs) ws) vs').
  rewrite IH by lia. by rewrite app_assoc.
Qed.

Lemma filled_layout fields extra :
  (length fields ≤ 54)%nat → (length fields = 54%nat ∨ extra = []) →
  filled (kernel_record fields ++ extra)
  = layout tcp_info_widths (fields ++ replicate (54 - length fields) 0).
Proof.
  intros Hn He. set (all := fields ++ replicate (54 - length fields) 0).
  assert (length (layout tcp_info_widths all) = 232%nat) as Hl.
  { rewrite length_layout; [done|]. subst all. rewrite length_app, length_replicate.
    change (length tcp_info_widths) with 54%nat. lia. }
  assert (layout tcp_info_widths all = kernel_record fields ++
    replicate (232 - length (kernel_record fields)) Byte.x00) as Ha.
  { rewrite <- Hl. subst all. rewrite layout_app by exact Hn. rewrite length_app.
    fold (layout tcp_info_widths fields) in *. change (kernel_record fields) with (layout tcp_info_widths fields).
    f_equal. rewrite layout_zeros at 1. f_equal. lia. }
  assert (length (kernel_record fields) ≤ 232)%nat as Hk
    by (rewrite <- Hl, Ha, length_app; lia).
  unfold filled, getsockopt. change (Z.to_nat (c_size tcp_info_widths)) with 232%nat.
  rewrite length_replicate, drop_replicate, length_app, Ha.
  destruct He as [He| ->].
  - assert (length (kernel_record fields) = 232%nat) as Hf.
    { change (kernel_record fields) with (layout tcp_info_widths fields).
      by rewrite length_layout. }
    rewrite take_app_le by lia. rewrite take_ge by lia. f_equal. f_equal. lia.
  - rewrite app_nil_r, take_ge by lia. f_equal. f_equal. simpl. lia.
Qed.


