(* ===== verification/Net.v ===== *)
(** * [src/src/net.rs]: the control connection and socket options

    [drain_message] reads whatever is available and decodes it as UTF-8, one
    8192-byte read at a time; [send_state] writes a test state as one byte. *)
From S2P Require Import Prelude Env Kinds Tcp.

(** ** UTF-8, as [String::from_utf8] checks it *)

Definition between (a b x : Z) : bool := (a <=? x) && (x <=? b).
Definition continuation (x : Z) : bool := between 128 191 x.

Fixpoint valid_utf8 (bs : list Z) : bool :=
  match bs with
  | [] => true
  | b0 :: r0 =>
      if between 0 127 b0 then valid_utf8 r0
      else match r0 with
      | [] => false
      | b1 :: r1 =>
          if between 194 223 b0 then continuation b1 && valid_utf8 r1
          else match r1 with
          | [] => false
          | b2 :: r2 =>
              if (b0 =? 224) && between 160 191 b1
                 || between 225 236 b0 && continuation b1
                 || (b0 =? 237) && between 128 159 b1
                 || between 238 239 b0 && continuation b1
              then continuation b2 && valid_utf8 r2
              else match r2 with
              | [] => false
              | b3 :: r3 =>
                  ((b0 =? 240) && between 144 191 b1
                   || between 241 243 b0 && continuation b1
                   || (b0 =? 244) && between 128 143 b1)
                  && continuation b2 && continuation b3 && valid_utf8 r3
              end
          end
      end
  end.

(** ** Reading and writing the control connection *)

Definition gettime : string := "".

(** [TcpStream::write], with [WouldBlock] reported as zero bytes written. *)
Definition write_socket (stream : TcpStream) (buf : Buf) : M World (io_result Z * TcpStream) :=
  let! (r, s) := TcpStream_write stream buf in
  match r with
  | IoOk n => ret (IoOk n, s)
  | IoErr WouldBlock => ret (IoOk 0, s)
  | IoErr e => ret (IoErr e, s)
  end.

Section Drain.
Context {T : Type} `{Stream T}.

Fixpoint drain_loop (fuel : nat) (stream : T) (buf : list Z) :
    M World (io_result (list Z) * T) :=
  match fuel with
  | O => crashM OutOfFuel
  | S fuel' =>
      let! (r, stream') := stream_read stream (Z.to_nat 8192) in
      match r with
      | IoOk [] => ret (IoErr LastOsError, stream')
      | IoOk data =>
          if valid_utf8 data then drain_loop fuel' stream' (buf ++ data)
          else panic "invalid utf-8 sequence"
      | IoErr Interrupted => drain_loop fuel' stream' buf
      | IoErr WouldBlock => ret (IoOk buf, stream')
      | IoErr _ => ret (IoErr LastOsError, stream')
      end
  end.

Definition drain_message (stream : T) : M World (io_result (list Z) * T) :=
  drain_loop (S (backlog stream)) stream [].
End Drain.

(** [write_socket(..).unwrap()] of the state's byte; the result is the stream
    after the write. *)
Definition send_state (stream : TcpStream) (state : TestState) : M World TcpStream :=
  let! (r, s) := write_socket stream (buf_of [TestState_as_u8 state]) in
  match r with IoOk _ => ret s | IoErr _ => panic "send_state" end.

Definition make_cookie : string := "abcdefghijklmnopqrstuvwxyz234567".

Definition bytes_of (s : string) : list Z :=
  map (λ a, Z.of_N (Ascii.N_of_ascii a)) (String.list_ascii_of_string s).

(** ** Socket options *)

(** [set_nonblocking], [set_nodelay], [set_linger] and the sizes of the
    buffers: failures are reported and forgotten. *)
Definition set_option (c : Sys) : M World () :=
  let! _ := syscall c in ret ().

Definition set_nonblocking (fd : Z) : M World () := set_option (SysSetNonblocking fd).
Definition set_nodelay (fd : Z) : M World () := set_option (SysSetNodelay fd).
Definition set_linger (fd : Z) : M World () := set_option (SysSetLinger fd).
Definition _set_send_buffer_size (fd sz : Z) : M World () := set_option (SysSetSendBuffer fd sz).
Definition _set_recv_buffer_size (fd sz : Z) : M World () := set_option (SysSetRecvBuffer fd sz).

(** On unix; failures are returned. *)
Definition set_mss_listener (fd mss : Z) : M World (io_result ()) :=
  syscall (SysSetMss fd mss).

(** Every step is unwrapped; [fd] is the descriptor the system hands out. *)
Definition create_net_udp_socket (fd : Z) : M World () :=
  let! _ := unwrap_io (syscall (SysSocket fd)) in
  let! _ := unwrap_io (syscall (SysReuseAddr fd)) in
  let! _ := unwrap_io (syscall (SysSetRecvBuffer fd 212992)) in
  let! _ := unwrap_io (syscall (SysSetSendBuffer fd 212992)) in
  let! _ := unwrap_io (syscall (SysSetNonblocking fd)) in
  let! _ := unwrap_io (syscall (SysBind fd)) in
  ret ().

(** The same socket as one of [mio]'s. *)
Definition create_mio_udp_socket (fd : Z) : M World () := create_net_udp_socket fd.

(** ** Draining terminates *)

Section DrainTheorems.
Context {T : Type} `{StreamLaws T}.

Lemma drain_loop_total fuel stream buf w c :
  (backlog stream < fuel)%nat → drain_loop fuel stream buf w = Crash c →
  c = Panicked "invalid utf-8 sequence".
Proof.
  revert stream buf w. induction fuel as [|fuel IH]; intros stream buf w Hf; [lia|].
  cbn [drain_loop]. unfold bindM.
  destruct (read_returns stream (Z.to_nat 8192) w) as (r & s' & w' & Hr). rewrite Hr.
  eapply read_progress in Hr as Hp; [|lia].
  destruct r as [[|b bs]|[]]; try done.
  - case_match; [|by intros [= <-]]. apply IH.
    destruct Hp as [?|[?|?]]; [done..|lia].
  - apply IH. destruct Hp as [?|[?|?]]; [done..|lia].
Qed.

(** C36: draining a socket always comes to an end, with a message,
    an error or the panic of the UTF-8 check. *)
Theorem drain_message_total stream w :
  (∃ r s' w', drain_message stream w = Done ((r, s'), w')) ∨
  drain_message stream w = Crash (Panicked "invalid utf-8 sequence").
Proof.
  destruct (drain_message stream w) as [[[r s'] w']|c] eqn:E; [left; eauto|right].
  apply drain_loop_total in E as ->; [done|lia].
Qed.
End DrainTheorems.
