(* ===== verification/Udp.v ===== *)
(** * [src/src/udp.rs]: UDP sockets *)
From S2P Require Import Prelude Env Kinds Net.

Record UdpSocket : Type := mkUdpSocket { u_sock : Sock }.

Definition UdpSocket_read (u : UdpSocket) (n : nat) : M World (io_result (list Z) * UdpSocket) :=
  let (r, s) := sock_recv n (u_sock u) in ret (r, mkUdpSocket s).

Definition UdpSocket_write (u : UdpSocket) (b : Buf) : M World (io_result Z * UdpSocket) :=
  let (r, s) := sock_write b (u_sock u) in ret (r, mkUdpSocket s).

Definition UdpSocket_register (u : UdpSocket) (token : Z) : M World () :=
  unwrap_io (syscall (SysRegister (sk_fd (u_sock u)) token)).

Definition UdpSocket_deregister (u : UdpSocket) : M World () :=
  unwrap_io (syscall (SysDeregister (sk_fd (u_sock u)))).

Definition UdpSocket_print_new_stream (u : UdpSocket) : M World () :=
  let fd := sk_fd (u_sock u) in
  let! _ := query fd LocalAddr in
  let! _ := query fd PeerAddr in
  let! _ := query fd SendBufferSize in
  query fd RecvBufferSize.

#[export] Instance UdpSocket_Stream : Stream UdpSocket := {
  stream_read := UdpSocket_read;
  stream_write := UdpSocket_write;
  stream_fd u := sk_fd (u_sock u);
  stream_register := UdpSocket_register;
  stream_deregister := UdpSocket_deregister;
  stream_print_new := UdpSocket_print_new_stream;
  socket_type _ := Done UDP;
  backlog u := in_measure (sk_in (u_sock u))
}.

#[export] Instance UdpSocket_StreamLaws : StreamLaws UdpSocket.
Proof.
  split; cbn [stream_read stream_write stream_fd socket_type backlog UdpSocket_Stream].
  - intros s n w. unfold UdpSocket_read, ret. destruct (sock_recv n (u_sock s)). by eauto.
  - intros s n w r s' w' Hn. unfold UdpSocket_read, ret.
    destruct (sock_recv n (u_sock s)) as [r0 s0] eqn:E. intros [= <- <- <-]. simpl.
    destruct (sock_recv_measure _ _ _ _ E) as [(-> & _)|?]; auto.
  - intros s n w r s' w'. unfold UdpSocket_read, ret.
    destruct (sock_recv n (u_sock s)) eqn:E. intros [= <- <- <-].
    by apply sock_recv_keeps_id in E.
  - intros s n w bs s' w'. unfold UdpSocket_read, ret.
    destruct (sock_recv n (u_sock s)) eqn:E. intros [= -> <- <-].
    by apply sock_recv_bounded in E.
  - intros s b w r s' w'. unfold UdpSocket_write, ret.
    destruct (sock_write b (u_sock s)) eqn:E. intros [= <- <- <-].
    by apply sock_write_keeps_id in E.
  - intros s b w k s' w' Hb. unfold UdpSocket_write, ret.
    destruct (sock_write b (u_sock s)) eqn:E. intros [= -> <- <-].
    by apply sock_write_bounded in E.
Qed.

(** [connect]: the socket announces itself with a [hello] datagram. *)
Definition connect (u : UdpSocket) : M World (io_result UdpSocket) :=
  let fd := sk_fd (u_sock u) in
  let! _ := unwrap_io (syscall (SysBind fd)) in
  let! _ := unwrap_io (syscall (SysConnect fd)) in
  let! (r, u') := UdpSocket_write u (buf_of (bytes_of "hello")) in
  match r with IoOk _ => ret (IoOk u') | IoErr e => ret (IoErr e) end.
