(* ===== verification/Tls.v ===== *)
(** * [src/src/tls.rs]: TLS endpoints

    A [rustls] session is given by the answers of its coming calls and by the
    plaintext side of its stream; the endpoint drives the handshake with its
    own poll loop. *)
From S2P Require Import Prelude Env Kinds Tcp.

(** ** Sessions and endpoints *)

(** [process_new_packets]: fine, or a [rustls::Error]. *)
Inductive TlsProcessed : Type := ProcessedOk | ProcessedErr.

Record TlsSession : Type := mkTlsSession {
  ts_handshaking : list bool;
  ts_read : list (io_result Z);
  ts_write : list (io_result Z);
  ts_process : list TlsProcessed;
  ts_plain : Sock
}.

Inductive TlsEntity : Type :=
| Server (conn : TlsSession) (sock : TcpStream)
| Client (conn : TlsSession) (sock : TcpStream).

Definition te_conn (e : TlsEntity) : TlsSession :=
  match e with Server c _ => c | Client c _ => c end.
Definition set_te_conn (c : TlsSession) (e : TlsEntity) : TlsEntity :=
  match e with Server _ s => Server c s | Client _ s => Client c s end.

Definition get_ref (e : TlsEntity) : TcpStream :=
  match e with Client _ s => s | Server _ s => s end.
Definition get_mut (e : TlsEntity) : TcpStream :=
  match e with Client _ s => s | Server _ s => s end.
Definition set_sock (s : TcpStream) (e : TlsEntity) : TlsEntity :=
  match e with Server c _ => Server c s | Client c _ => Client c s end.

(** Past the scripted answers a session is still handshaking, reads and writes
    would block, and packets are processed. *)
Definition is_handshaking (e : TlsEntity) : bool * TlsEntity :=
  let c := te_conn e in
  match ts_handshaking c with
  | [] => (true, e)
  | b :: r => (b, set_te_conn (mkTlsSession r (ts_read c) (ts_write c) (ts_process c) (ts_plain c)) e)
  end.

Definition read_tls (e : TlsEntity) : io_result Z * TlsEntity :=
  let c := te_conn e in
  match ts_read c with
  | [] => (IoErr WouldBlock, e)
  | x :: r => (x, set_te_conn (mkTlsSession (ts_handshaking c) r (ts_write c) (ts_process c) (ts_plain c)) e)
  end.

Definition write_tls (e : TlsEntity) : io_result Z * TlsEntity :=
  let c := te_conn e in
  match ts_write c with
  | [] => (IoErr WouldBlock, e)
  | x :: r => (x, set_te_conn (mkTlsSession (ts_handshaking c) (ts_read c) r (ts_process c) (ts_plain c)) e)
  end.

Definition process_new_packets (e : TlsEntity) : TlsProcessed * TlsEntity :=
  let c := te_conn e in
  match ts_process c with
  | [] => (ProcessedOk, e)
  | x :: r => (x, set_te_conn (mkTlsSession (ts_handshaking c) (ts_read c) (ts_write c) r (ts_plain c)) e)
  end.

Definition set_plain (s : Sock) (c : TlsSession) : TlsSession :=
  mkTlsSession (ts_handshaking c) (ts_read c) (ts_write c) (ts_process c) s.

(** [read_to_end]: the plaintext up to the end of the stream or an error,
    whatever the sizes of the reads it is made of. *)
Fixpoint read_incoming (l : list Incoming) : list Z * io_result () * list Incoming :=
  match l with
  | [] => ([], IoErr WouldBlock, [])
  | InBytes [] :: l' => ([], IoOk (), l')
  | InBytes bs :: l' => let '(buf, r, l'') := read_incoming l' in (bs ++ buf, r, l'')
  | InErr Interrupted :: l' => read_incoming l'
  | InErr e :: l' => ([], IoErr e, l')
  end.

(** The bytes put into the buffer, and the result: their number. *)
Definition read_to_end (e : TlsEntity) : list Z * io_result Z * TlsEntity :=
  let s := ts_plain (te_conn e) in
  let '(buf, r, l) := read_incoming (sk_in s) in
  (buf,
   match r with IoOk _ => IoOk (Z.of_nat (length buf)) | IoErr k => IoErr k end,
   set_te_conn (set_plain (mkSock (sk_fd s) l (sk_out s) (sk_sent s)) (te_conn e)) e).

(** [write_all]: again with what is left after each write, and after an
    interruption. *)
Fixpoint write_all_loop (fuel : nat) (bs : list Z) (s : Sock) : res (io_result () * Sock) :=
  match bs, fuel with
  | [], _ => Done (IoOk (), s)
  | _, O => Crash OutOfFuel
  | _, S fuel' =>
      let (r, s') := sock_write (buf_of bs) s in
      match r with
      | IoOk n =>
          if n =? 0 then Done (IoErr WriteZero, s')
          else write_all_loop fuel' (drop (Z.to_nat n) bs) s'
      | IoErr Interrupted => write_all_loop fuel' bs s'
      | IoErr e => Done (IoErr e, s')
      end
  end.

Definition write_all (e : TlsEntity) (bs : list Z) : res (io_result () * TlsEntity) :=
  let s := ts_plain (te_conn e) in
  let- (r, s') := write_all_loop (S (length (sk_out s))) bs s in
  Done (r, set_te_conn (set_plain s' (te_conn e)) e).

Record TlsEndpoint : Type := mkTlsEndpoint { entity : TlsEntity; closing : bool }.

(** ** Configurations *)

(** [server]: the key and the certificate are read from the two files, or made
    up when one is missing; every failure on the way is an [unwrap], and the
    contents are [rustls]' business. *)
Definition server (k c : option string) : M World () :=
  match k, c with
  | Some key, Some cert =>
      let! _ := unwrap_io (syscall (SysReadFile key)) in
      let! _ := unwrap_io (syscall (SysReadFile cert)) in
      unwrap_io (syscall SysTlsConfig)
  | _, _ => unwrap_io (syscall SysTlsConfig)
  end.

(** The suites both sides offer, in order of preference. *)
Inductive CipherSuite : Type :=
| TLS13_AES_128_GCM_SHA256 | TLS13_AES_256_GCM_SHA384 | TLS13_CHACHA20_POLY1305_SHA256.

Definition PERF_CIPHER_SUITES : list CipherSuite :=
  [TLS13_AES_128_GCM_SHA256; TLS13_AES_256_GCM_SHA384; TLS13_CHACHA20_POLY1305_SHA256].

(** The client's verifier: any chain, for any name, at any time. *)
Inductive ServerCertVerified : Type := assertion.

Definition verify_server_cert (end_entity : list Z) (intermediates : list (list Z))
    (server_name : string) (scts : list (list Z)) (ocsp_response : list Z) (now : Z) :
    io_result ServerCertVerified := IoOk assertion.

(** [client]: any server certificate is accepted. *)
Definition client : M World () := unwrap_io (syscall SysTlsConfig).

(** ** Reading and writing records *)

Definition do_write (ep : TlsEndpoint) : io_result Z * TlsEndpoint :=
  let (r, e) := write_tls (entity ep) in (r, mkTlsEndpoint e (closing ep)).

Definition do_tls_write_and_handle_error (ep : TlsEndpoint) : TlsEndpoint :=
  let (rc, ep') := do_write ep in
  match rc with
  | IoErr _ => mkTlsEndpoint (entity ep') true
  | IoOk _ => ep'
  end.

Definition do_tls_read (ep : TlsEndpoint) : TlsEndpoint :=
  let (rc, e) := read_tls (entity ep) in
  match rc with
  | IoErr WouldBlock => mkTlsEndpoint e (closing ep)
  | IoErr _ => mkTlsEndpoint e true
  | IoOk n =>
      if n =? 0 then mkTlsEndpoint e true
      else
        let (processed, e') := process_new_packets e in
        match processed with
        | ProcessedErr =>
            let ep' := do_tls_write_and_handle_error (mkTlsEndpoint e' (closing ep)) in
            mkTlsEndpoint (entity ep') true
        | ProcessedOk => mkTlsEndpoint e' (closing ep)
        end
  end.

(** [ready]: what follows the read when the connection is closing is commented
    out in the source. *)
Definition ready (ep : TlsEndpoint) : TlsEndpoint := do_tls_read ep.

(** ** The handshake *)

Record TlsEvent : Type := mkTlsEvent { tv_token : Z; tv_readable : bool; tv_writable : bool }.

Fixpoint handshake_events (ep : TlsEndpoint) (evs : list TlsEvent) :
    M World (TlsEndpoint * bool) :=
  match evs with
  | [] => ret (ep, false)
  | ev :: evs' =>
      if tv_token ev =? 1 then
        let ep := if tv_readable ev then ready ep else ep in
        let ep := if tv_writable ev then do_tls_write_and_handle_error ep else ep in
        let (b, e) := is_handshaking (entity ep) in
        let ep := mkTlsEndpoint e (closing ep) in
        if negb b then
          let! _ := unwrap_io (syscall (SysDeregister (sk_fd (t_sock (get_ref e))))) in
          ret (ep, true)
        else handshake_events ep evs'
      else handshake_events ep evs'
  end.

Fixpoint handshake_rounds (ep : TlsEndpoint) (rounds : list (list TlsEvent)) :
    M World TlsEndpoint :=
  match rounds with
  | [] => crashM Blocked
  | evs :: rest =>
      let! _ := unwrap_io (syscall SysPoll) in
      let! (ep', finished) := handshake_events ep evs in
      if finished then ret ep' else handshake_rounds ep' rest
  end.

Definition handshake (ep : TlsEndpoint) (rounds : list (list TlsEvent)) : M World TlsEndpoint :=
  let! _ := unwrap_io (syscall (SysRegister (sk_fd (t_sock (get_ref (entity ep)))) 1)) in
  handshake_rounds ep rounds.

(** [TlsEndpoint::server] and [TlsEndpoint::client], the session having been
    created. *)
Definition TlsEndpoint_server (k c : option string) (sess : TlsSession) (stream : TcpStream)
    (rounds : list (list TlsEvent)) : M World TlsEndpoint :=
  let! _ := server k c in
  handshake (mkTlsEndpoint (Server sess stream) false) rounds.

(** The client names the server by its address: [peer_addr] is unwrapped. *)
Definition TlsEndpoint_client (sess : TlsSession) (stream : TcpStream)
    (rounds : list (list TlsEvent)) : M World TlsEndpoint :=
  let! _ := client in
  let! _ := query (sk_fd (t_sock stream)) PeerAddr in
  handshake (mkTlsEndpoint (Client sess stream) false) rounds.

(** ** Plaintext and back end, which [ready] leaves alone *)

Definition _try_read {A} (r : io_result A) : io_result (option A) :=
  match r with
  | IoOk len => IoOk (Some len)
  | IoErr WouldBlock => IoOk None
  | IoErr e => IoErr e
  end.

(** The plaintext is only printed. *)
Definition _try_plain_read (ep : TlsEndpoint) : TlsEndpoint :=
  let '(_, rc, e) := read_to_end (entity ep) in
  match rc with
  | IoErr _ => mkTlsEndpoint e true
  | IoOk _ => mkTlsEndpoint e (closing ep)
  end.

(** What the socket itself has, past the session, is written to the session. *)
Definition _try_back_read (ep : TlsEndpoint) : res TlsEndpoint :=
  let back := get_mut (entity ep) in
  let (r, s) := sock_read 1024 (t_sock back) in
  let e := set_sock (set_t_sock s back) (entity ep) in
  match _try_read r with
  | IoErr _ => Done (mkTlsEndpoint e true)
  | IoOk (Some []) => Done (mkTlsEndpoint e true)
  | IoOk (Some bs) =>
      let- (w, e') := write_all e bs in
      match w with
      | IoOk _ => Done (mkTlsEndpoint e' (closing ep))
      | IoErr _ => Crash (Panicked "unwrap on Err")
      end
  | IoOk None => Done (mkTlsEndpoint e (closing ep))
  end.

(** ** The [Stream] implementation: a server only reads, a client only writes *)

Definition TlsEndpoint_read (ep : TlsEndpoint) (n : nat) :
    M World (io_result (list Z) * TlsEndpoint) :=
  match entity ep with
  | Server c t =>
      let (r, s) := sock_read n (ts_plain c) in
      ret (r, mkTlsEndpoint (Server (set_plain s c) t) (closing ep))
  | Client _ _ => ret (IoOk [], ep)
  end.

Definition TlsEndpoint_write (ep : TlsEndpoint) (b : Buf) : M World (io_result Z * TlsEndpoint) :=
  match entity ep with
  | Client c t =>
      let (r, s) := sock_write b (ts_plain c) in
      ret (r, mkTlsEndpoint (Client (set_plain s c) t) (closing ep))
  | Server _ _ => ret (IoOk 0, ep)
  end.

#[export] Instance TlsEndpoint_Stream : Stream TlsEndpoint := {
  stream_read := TlsEndpoint_read;
  stream_write := TlsEndpoint_write;
  stream_fd ep := sk_fd (t_sock (get_ref (entity ep)));
  stream_register ep := TcpStream_register (get_ref (entity ep));
  stream_deregister ep := TcpStream_deregister (get_ref (entity ep));
  stream_print_new ep := TcpStream_print_new_stream (get_ref (entity ep));
  socket_type _ := Done TLS;
  backlog ep := in_measure (sk_in (ts_plain (te_conn (entity ep))))
}.

#[export] Instance TlsEndpoint_StreamLaws : StreamLaws TlsEndpoint.
Proof.
  split; cbn [stream_read stream_write stream_fd socket_type backlog TlsEndpoint_Stream];
    unfold TlsEndpoint_read, TlsEndpoint_write, ret; intros [[c t|c t] cl]; simpl.
  - intros n w. destruct (sock_read n (ts_plain c)). by eauto.
  - by eauto.
  - intros n w r s' w' Hn. destruct (sock_read n (ts_plain c)) as [r0 s0] eqn:E.
    intros [= <- <- <-]. simpl.
    destruct (sock_read_measure _ _ _ _ Hn E) as [(-> & _)|?]; auto.
  - intros n w r s' w' _ [= <- <- <-]. auto.
  - intros n w r s' w'. destruct (sock_read n (ts_plain c)). by intros [= <- <- <-].
  - by intros n w r s' w' [= <- <- <-].
  - intros n w bs s' w'. destruct (sock_read n (ts_plain c)) eqn:E. intros [= -> <- <-].
    by apply sock_read_bounded in E.
  - intros n w bs s' w' [= <- _ _]. simpl. lia.
  - by intros b w r s' w' [= <- <- <-].
  - intros b w r s' w'. destruct (sock_write b (ts_plain c)). by intros [= <- <- <-].
  - intros b w k s' w' Hb [= <- _ _]. lia.
  - intros b w k s' w' Hb. destruct (sock_write b (ts_plain c)) eqn:E. intros [= -> <- <-].
    by apply sock_write_bounded in E.
Qed.

(** ** The handshake loop *)

(** The session still answers that it is handshaking, every time it is asked. *)
Definition never_established (ep : TlsEndpoint) : Prop :=
  Forall (λ b, b = true) (ts_handshaking (te_conn (entity ep))).

Lemma te_conn_set c e : te_conn (set_te_conn c e) = c.
Proof. by destruct e. Qed.

Lemma do_tls_write_handshaking ep :
  ts_handshaking (te_conn (entity (do_tls_write_and_handle_error ep)))
  = ts_handshaking (te_conn (entity ep)).
Proof.
  unfold do_tls_write_and_handle_error, do_write, write_tls.
  destruct (ts_write (te_conn (entity ep))) as [|[] ?]; simpl; by rewrite ?te_conn_set.
Qed.

Lemma ready_handshaking ep :
  ts_handshaking (te_conn (entity (ready ep))) = ts_handshaking (te_conn (entity ep)).
Proof.
  unfold ready, do_tls_read, read_tls, process_new_packets.
  repeat (case_match; simplify_eq/=);
    rewrite ?do_tls_write_handshaking; simpl; by rewrite ?te_conn_set.
Qed.

Lemma handshake_events_stuck ep evs w ep' b w' :
  never_established ep → handshake_events ep evs w = Done ((ep', b), w') →
  b = false ∧ never_established ep'.
Proof.
  revert ep. induction evs as [|ev evs IH]; intros ep Hep; simpl.
  { unfold ret. by intros [= <- <- _]. }
  destruct (tv_token ev =? 1); [|by apply IH].
  set (ep1 := if tv_readable ev then ready ep else ep).
  set (ep2 := if tv_writable ev then do_tls_write_and_handle_error ep1 else ep1).
  assert (never_established ep2) as H2.
  { unfold never_established in *. subst ep2 ep1.
    by destruct (tv_writable ev), (tv_readable ev);
      rewrite ?do_tls_write_handshaking, ?ready_handshaking. }
  unfold is_handshaking. unfold never_established in H2.
  destruct (ts_handshaking (te_conn (entity ep2))) as [|b0 r] eqn:E.
  - simpl. apply IH. unfold never_established; simpl. by rewrite E.
  - inversion H2 as [|?? -> Hr]; subst. simpl. apply IH.
    unfold never_established; simpl. by rewrite te_conn_set.
Qed.

(** C24: the handshake returns only when the session reports that it
    is established.  Errors and the end of the stream set [closing] and do not
    end the loop: an endpoint whose session never becomes established does
    not return, however the transport fails. *)
Theorem handshake_needs_session ep rounds w :
  never_established ep → ∀ r, handshake ep rounds w ≠ Done r.
Proof.
  intros Hep r H. unfold handshake in H. mrun H. clear Hm.
  match type of H with handshake_rounds _ _ ?w0 = _ => revert w0 ep Hep H end.
  induction rounds as [|evs rounds IH]; intros w0 ep Hep H; [done|].
  cbn [handshake_rounds] in H. mrun H.
  match goal with He : handshake_events ep evs _ = Done _ |- _ =>
    apply handshake_events_stuck in He as [-> Hep']; [|done]
  end.
  by eapply IH.
Qed.

(** How often the handshake loop asks whether the session is established. *)
Definition questions (evs : list TlsEvent) : nat :=
  length (filter (λ ev, tv_token ev = 1) evs).

Lemma syscall_succeeds c w :
  w_sys w = [] →
  unwrap_io (syscall c) w = Done ((), mkWorld (w_clock w) (w_ticks w) [] (w_log w ++ [c])).
Proof. unfold unwrap_io, bindM, syscall. by intros ->. Qed.

Lemma te_fd_set c e : sk_fd (t_sock (get_ref (set_te_conn c e))) = sk_fd (t_sock (get_ref e)).
Proof. by destruct e. Qed.

Lemma do_tls_write_fd ep :
  sk_fd (t_sock (get_ref (entity (do_tls_write_and_handle_error ep))))
  = sk_fd (t_sock (get_ref (entity ep))).
Proof.
  unfold do_tls_write_and_handle_error, do_write, write_tls.
  destruct (ts_write (te_conn (entity ep))) as [|[] ?]; simpl; by rewrite ?te_fd_set.
Qed.

Lemma ready_fd ep :
  sk_fd (t_sock (get_ref (entity (ready ep)))) = sk_fd (t_sock (get_ref (entity ep))).
Proof.
  unfold ready, do_tls_read, read_tls, process_new_packets.
  repeat (case_match; simplify_eq/=); rewrite ?do_tls_write_fd; simpl; by rewrite ?te_fd_set.
Qed.

(** One batch of events: the session is established in it, or answers a number
    of questions with no. *)
Lemma handshake_events_progress k rest evs ep w :
  w_sys w = [] → ts_handshaking (te_conn (entity ep)) = replicate k true ++ false :: rest →
  ∃ ep' w', sk_fd (t_sock (get_ref (entity ep'))) = sk_fd (t_sock (get_ref (entity ep))) ∧
    if decide (k < questions evs)%nat
    then handshake_events ep evs w = Done ((ep', true), w') ∧
         ts_handshaking (te_conn (entity ep')) = rest ∧
         last (w_log w') = Some (SysDeregister (sk_fd (t_sock (get_ref (entity ep')))))
    else handshake_events ep evs w = Done ((ep', false), w) ∧ w' = w ∧
         ts_handshaking (te_conn (entity ep')) = replicate (k - questions evs) true ++ false :: rest.
Proof.
  intros Hw. revert k ep. induction evs as [|ev evs IH]; intros k ep Hk; cbn [handshake_events].
  { exists ep, w. rewrite decide_False by (unfold questions; simpl; lia).
    by rewrite Nat.sub_0_r. }
  unfold questions. rewrite filter_cons. destruct (Z.eqb_spec (tv_token ev) 1) as [Ht|Ht].
  2:{ rewrite decide_False by done. by apply IH. }
  rewrite decide_True by done. cbn [length].
  set (ep1 := if tv_readable ev then ready ep else ep).
  set (ep2 := if tv_writable ev then do_tls_write_and_handle_error ep1 else ep1).
  assert (ts_handshaking (te_conn (entity ep2)) = replicate k true ++ false :: rest ∧
    sk_fd (t_sock (get_ref (entity ep2))) = sk_fd (t_sock (get_ref (entity ep)))) as [Hq Hfd].
  { subst ep2 ep1. rewrite <- Hk. by destruct (tv_writable ev), (tv_readable ev);
      rewrite ?do_tls_write_handshaking, ?ready_handshaking, ?do_tls_write_fd, ?ready_fd. }
  unfold is_handshaking. rewrite Hq. destruct k as [|k]; cbn [replicate app negb].
  - eexists (mkTlsEndpoint _ _), _. rewrite decide_True by lia.
    unfold bindM at 1. rewrite syscall_succeeds by done. unfold ret. cbn [entity].
    rewrite te_fd_set. split; [exact Hfd|]. split_and!; [reflexivity| |].
    + cbn [entity]. by rewrite te_conn_set.
    + cbn [w_log]. rewrite last_snoc. cbn [entity]. by rewrite ?te_fd_set.
  - set (ep3 := mkTlsEndpoint _ _).
    destruct (IH k ep3) as (ep' & w' & Hf & H); [subst ep3; cbn [entity]; by rewrite te_conn_set|].
    exists ep', w'. split.
    { rewrite Hf. subst ep3. cbn [entity]. by rewrite te_fd_set. }
    fold (questions evs). destruct (decide (k < questions evs)%nat);
      [rewrite decide_True by lia|rewrite decide_False by lia]; done.
Qed.

