(* ===== verification/Quic.v ===== *)
(** * [src/src/quic.rs]: QUIC endpoints

    [quinn] connections and streams are given by what they will answer; an
    [await] with no answer left blocks the program. *)
From S2P Require Import Prelude Env Kinds Net Tls.

(** ** Streams, connections, endpoints *)

(** [RecvStream::read]: data, the end of the stream, or an error. *)
Inductive QRead : Type := QData (n : Z) | QFinished | QReadErr.
(** [SendStream::write] and [write_chunk]: how much was accepted, or an error. *)
Inductive QWrite : Type := QWritten (n : Z) | QWriteErr.

Record RecvStream : Type := mkRecvStream { rs_in : list QRead }.
Record SendStream : Type := mkSendStream { ss_out : list QWrite; ss_sent : list Buf }.

(** [accept_uni] and [open_uni]; [None] is an error. *)
Record Connection : Type := mkConnection {
  cn_accept_uni : list (option RecvStream);
  cn_open_uni : list (option SendStream)
}.

(** [endpoint.accept().await]: closed, a failed handshake, or a connection. *)
Inductive QIncoming : Type := QClosed | QHandshakeFailed | QConnected (c : Connection).

Record Quic : Type := mkQuic {
  q_endpoint : list QIncoming;
  q_fd : Z;
  q_conn : option Connection;
  q_send_streams : list SendStream;
  q_recv_streams : list RecvStream
}.

Definition set_q_recv (l : list RecvStream) (q : Quic) : Quic :=
  mkQuic (q_endpoint q) (q_fd q) (q_conn q) (q_send_streams q) l.
Definition set_q_send (l : list SendStream) (q : Quic) : Quic :=
  mkQuic (q_endpoint q) (q_fd q) (q_conn q) l (q_recv_streams q).
Definition set_q_conn (c : option Connection) (q : Quic) : Quic :=
  mkQuic (q_endpoint q) (q_fd q) c (q_send_streams q) (q_recv_streams q).
Definition set_q_endpoint (e : list QIncoming) (q : Quic) : Quic :=
  mkQuic e (q_fd q) (q_conn q) (q_send_streams q) (q_recv_streams q).

(** [stream.read(&mut buf).await] with a buffer of [n] bytes. *)
Definition recv_read (n : Z) (s : RecvStream) : res (io_result (option Z) * RecvStream) :=
  match rs_in s with
  | [] => Crash Blocked
  | QData k :: r =>
      if k <=? n then Done (IoOk (Some k), mkRecvStream r)
      else Done (IoOk (Some n), mkRecvStream (QData (k - n) :: r))
  | QFinished :: r => Done (IoOk None, mkRecvStream r)
  | QReadErr :: r => Done (IoErr LastOsError, mkRecvStream r)
  end.

(** [stream.write(buf).await]: possibly a part only. *)
Definition send_write (b : Buf) (s : SendStream) : res (io_result Z * SendStream) :=
  match ss_out s with
  | [] => Crash Blocked
  | QWritten k :: r =>
      let n := Z.min (Z.max 0 k) (b_len b) in
      Done (IoOk n, mkSendStream r
              (ss_sent s ++ [mkBuf (take (Z.to_nat n) (b_head b)) (b_fill b) n]))
  | QWriteErr :: r => Done (IoErr LastOsError, mkSendStream r (ss_sent s))
  end.

(** [stream.write_chunk(..).await]: all of it. *)
Definition send_write_chunk (b : Buf) (s : SendStream) : res (io_result () * SendStream) :=
  match ss_out s with
  | [] => Crash Blocked
  | QWritten _ :: r => Done (IoOk (), mkSendStream r (ss_sent s ++ [b]))
  | QWriteErr :: r => Done (IoErr LastOsError, mkSendStream r (ss_sent s))
  end.

(** ** Reading and writing over all streams of a connection *)

Section QuicIo.
Context `{P : Profile}.

(** The loop shared by [read] and [read_cookie], which differ in the size of
    the buffer: the end of a stream and an error both end it. *)
Fixpoint read_streams (n count : Z) (l : list RecvStream) :
    res (io_result Z * list RecvStream) :=
  match l with
  | [] => Done (IoOk count, [])
  | s :: l' =>
      let- (r, s') := recv_read n s in
      match r with
      | IoOk (Some k) =>
          let- count' := add_u 64 count k in
          let- (r', l'') := read_streams n count' l' in
          Done (r', s' :: l'')
      | IoOk None => Done (IoErr LastOsError, s' :: l')
      | IoErr _ => Done (IoErr LastOsError, s' :: l')
      end
  end.

Definition read_cookie (q : Quic) : res (io_result Z * Quic) :=
  let- (r, l) := read_streams 128 0 (q_recv_streams q) in Done (r, set_q_recv l q).

Definition read (q : Quic) : res (io_result Z * Quic) :=
  let- (r, l) := read_streams 131072 0 (q_recv_streams q) in Done (r, set_q_recv l q).

Fixpoint write_cookie_streams (b : Buf) (l : list SendStream) :
    res (io_result () * list SendStream) :=
  match l with
  | [] => Done (IoOk (), [])
  | s :: l' =>
      let- (r, s') := send_write b s in
      match r with
      | IoOk _ =>
          let- (r', l'') := write_cookie_streams b l' in Done (r', s' :: l'')
      | IoErr _ => Done (IoErr LastOsError, s' :: l')
      end
  end.

Fixpoint write_streams (b : Buf) (l : list SendStream) :
    res (io_result () * list SendStream) :=
  match l with
  | [] => Done (IoOk (), [])
  | s :: l' =>
      let- (r, s') := send_write_chunk b s in
      match r with
      | IoOk _ =>
          let- (r', l'') := write_streams b l' in Done (r', s' :: l'')
      | IoErr _ => Done (IoErr LastOsError, s' :: l')
      end
  end.

(** [Ok(buf.len() * q.send_streams.len())]. *)
Definition write_total (b : Buf) (r : io_result ()) (l : list SendStream) : res (io_result Z) :=
  match r with
  | IoOk _ => let- n := mul_u 64 (b_len b) (Z.of_nat (length l)) in Done (IoOk n)
  | IoErr e => Done (IoErr e)
  end.

Definition write_cookie (q : Quic) (b : Buf) : res (io_result Z * Quic) :=
  let- (r, l) := write_cookie_streams b (q_send_streams q) in
  let- n := write_total b r l in Done (n, set_q_send l q).

Definition write (q : Quic) (b : Buf) : res (io_result Z * Quic) :=
  let- (r, l) := write_streams b (q_send_streams q) in
  let- n := write_total b r l in Done (n, set_q_send l q).
End QuicIo.

(** ** [event::Source]: the descriptor of the endpoint's socket *)

Definition Source_register (q : Quic) (token : Z) : M World (io_result ()) :=
  syscall (SysRegister (q_fd q) token).
Definition Source_reregister (q : Quic) (token : Z) : M World (io_result ()) :=
  syscall (SysReregister (q_fd q) token).
Definition Source_deregister (q : Quic) : M World (io_result ()) :=
  syscall (SysDeregister (q_fd q)).

(** ** The [Stream] methods: the trait's own [read] and [write] do nothing *)

Definition Quic_register (q : Quic) (token : Z) : M World () :=
  unwrap_io (Source_register q token).

Definition Quic_deregister (q : Quic) : M World () :=
  unwrap_io (Source_deregister q).

(** [self.conn.as_ref().unwrap()] is the only thing that can fail. *)
Definition Quic_print_new_stream (q : Quic) : M World () :=
  let! _ := liftR (unwrap (q_conn q)) in ret ().

#[export] Instance Quic_Stream : Stream Quic := {
  stream_read q n := ret (IoOk [], q);
  stream_write q b := ret (IoOk 0, q);
  stream_fd := q_fd;
  stream_register := Quic_register;
  stream_deregister := Quic_deregister;
  stream_print_new := Quic_print_new_stream;
  socket_type _ := Done QUIC;
  backlog _ := O
}.

#[export] Instance Quic_StreamLaws : StreamLaws Quic.
Proof.
  split; cbn; unfold ret.
  - by eauto.
  - intros s n w r s' w' _ [= <- <- <-]. auto.
  - by intros s n w r s' w' [= _ <- _].
  - intros s n w bs s' w' [= <- _ _]. simpl. lia.
  - by intros s b w r s' w' [= _ <- _].
  - intros s b w k s' w' Hb [= <- _ _]. lia.
Qed.

(** ** Endpoints *)

(** What is set in [quinn]'s transport configuration; times are in
    nanoseconds, and a second is in the range of [IdleTimeout]. *)
Record TransportConfig : Type := mkTransportConfig {
  initial_max_udp_payload_size : Z;
  max_idle_timeout : Z
}.

Definition transport_config : TransportConfig := mkTransportConfig 12000 (from_secs 1).

(** [Endpoint::new] with the configuration: the cryptography is [rustls] or,
    with [skip_tls], the session without packet protection around it. *)
Definition new_endpoint (q : Quic) (skip_tls : bool) : M World () :=
  let c := transport_config in
  unwrap_io (syscall (SysEndpoint (q_fd q) (negb skip_tls)
                        (initial_max_udp_payload_size c) (max_idle_timeout c))).

(** [server] and [client]: [q] is the endpoint the system and [quinn] provide.
    The client's endpoint gets its configuration when it connects. *)
Definition server (q : Quic) (skip_tls : bool) (k c : option string) : M World Quic :=
  let! _ := Tls.server k c in
  let! _ := create_net_udp_socket (q_fd q) in
  let! _ := new_endpoint q skip_tls in
  ret (mkQuic (q_endpoint q) (q_fd q) None [] []).

Definition client (q : Quic) (conn : option Connection) (skip_tls : bool) : M World Quic :=
  let! _ := Tls.client in
  let! _ := unwrap_io (syscall (SysBind (q_fd q))) in
  let! _ := new_endpoint q skip_tls in
  let! c := liftR (unwrap conn) in
  ret (mkQuic (q_endpoint q) (q_fd q) (Some c) [] []).

(** [accept_uni().await.unwrap()] pushed onto the streams to read. *)
Definition accept_uni (q : Quic) : res Quic :=
  let- c := unwrap (q_conn q) in
  match cn_accept_uni c with
  | [] => Crash Blocked
  | None :: _ => Crash (Panicked "accept_uni")
  | Some s :: r =>
      Done (set_q_recv (q_recv_streams q ++ [s])
             (set_q_conn (Some (mkConnection r (cn_open_uni c))) q))
  end.

(** [open_uni().await.unwrap()] pushed onto the streams to write. *)
Definition open_uni (q : Quic) : res Quic :=
  let- c := unwrap (q_conn q) in
  match cn_open_uni c with
  | [] => Crash Blocked
  | None :: _ => Crash (Panicked "open_uni")
  | Some s :: r =>
      Done (set_q_send (q_send_streams q ++ [s])
             (set_q_conn (Some (mkConnection (cn_accept_uni c) r)) q))
  end.

(** [endpoint.accept().await.unwrap()] and [handshake.await.unwrap()]. *)
Definition endpoint_accept (q : Quic) : res Quic :=
  match q_endpoint q with
  | [] => Crash Blocked
  | QClosed :: _ => Crash (Panicked "accept")
  | QHandshakeFailed :: _ => Crash (Panicked "handshake")
  | QConnected c :: r => Done (set_q_conn (Some c) (set_q_endpoint r q))
  end.

(** How many more reads of a receive stream can return data. *)
Definition qread_size (x : QRead) : nat :=
  match x with QData k => S (Z.to_nat k) | _ => 1 end.
Definition recv_measure (s : RecvStream) : nat :=
  foldr (λ x n, qread_size x + n)%nat O (rs_in s).
Definition quic_backlog (q : Quic) : nat :=
  foldr (λ s n, recv_measure s + n)%nat O (q_recv_streams q).

(** ** What a write on a connection does to its streams *)

Section WriteFacts.
Context `{P : Profile}.

(** The stream has been given the whole block. *)
Definition got (b : Buf) (s s' : SendStream) : Prop := ss_sent s' = ss_sent s ++ [b].

(** The streams before the first that failed have the block, the others have
    not. *)
Definition partly_written (b : Buf) (l l' : list SendStream) : Prop :=
  ∃ pre s post pre' s', l = pre ++ s :: post ∧ l' = pre' ++ s' :: post ∧
    Forall2 (got b) pre pre' ∧ ss_sent s' = ss_sent s.

Lemma write_streams_outcome b l r l' :
  write_streams b l = Done (r, l') →
  match r with IoOk _ => Forall2 (got b) l l' | IoErr _ => partly_written b l l' end.
Proof.
  revert r l'. induction l as [|s l IH]; intros r l' H; cbn [write_streams] in H.
  { by simplify_eq. }
  mrun H. match goal with H : send_write_chunk _ _ = Done (?r0, ?s1) |- _ =>
    rename r0 into r1, s1 into s'; unfold send_write_chunk in H;
    destruct (ss_out s) as [|[] o]; simplify_eq/= end.
  - mrun H. match goal with H : write_streams _ _ = _ |- _ => apply IH in H as Hr end.
    simplify_eq/=. destruct r as [[]|e]; [by constructor|].
    destruct Hr as (pre & s1 & post & pre' & s1' & -> & -> & Hp & Hs).
    eexists (_ :: pre), s1, post, (_ :: pre'), s1'. split_and!; [done..| |done]. by constructor.
  - by exists [], s, l, [], (mkSendStream o (ss_sent s)).
Qed.

(** C26: a write on a connection gives the whole block to every stream and
    returns the sum of what they got, or fails at one stream; then those
    before it have the block although nothing is counted. *)
Theorem quic_write_outcomes q b r q' :
  write q b = Done (r, q') →
  match r with
  | IoOk n => Forall2 (got b) (q_send_streams q) (q_send_streams q') ∧
      n = (b_len b * Z.of_nat (length (q_send_streams q))) mod 2 ^ 64
  | IoErr _ => partly_written b (q_send_streams q) (q_send_streams q')
  end.
Proof.
  unfold write, write_total, mul_u. intros H. mrun H. simplify_eq/=.
  match goal with H : write_streams _ _ = Done (?r0, _) |- _ =>
    apply write_streams_outcome in H as Ho; destruct r0 end;
    match goal with H : _ = Done r |- _ => mrun H end; [|done].
  match goal with H : checked _ _ = _ |- _ => apply checked_mod in H; [|done] end.
  split; [done|]. subst. by rewrite (Forall2_length _ _ _ Ho).
Qed.
End WriteFacts.
