(* ===== verification/NoProtection.v ===== *)
(** * [src/src/noprotection.rs]: QUIC without packet protection

    Wrappers around the configurations, sessions and packet keys of
    [quinn_proto], whose traits are records of operations here: the wrapped key
    leaves packets in the clear, the wrapped session forwards its calls and
    wraps keys it hands out. *)
From S2P Require Import Prelude.

(** ** Packets *)

Section PacketKey.
Context `{P : Profile}.

(** [buf.split_at_mut(mid)]. *)
Definition split_at_mut (buf : list Z) (mid : Z) : res (list Z * list Z) :=
  if mid <=? Z.of_nat (length buf)
  then Done (take (Z.to_nat mid) buf, drop (Z.to_nat mid) buf)
  else Crash (Panicked "mid > len").

(** [encrypt]: only the tag is written, with the byte 42. *)
Definition encrypt (tag_len : Z) (buf : list Z) (header_len : Z) : res (list Z) :=
  let- (header, payload_tag) := split_at_mut buf header_len in
  let- mid := sub_u 64 (Z.of_nat (length payload_tag)) tag_len in
  let- (payload, tag_storage) := split_at_mut payload_tag mid in
  Done (header ++ payload ++ replicate (length tag_storage) 42).

(** [decrypt]: the tag is cut off and not looked at; [truncate] to more than
    the length does nothing. *)
Definition decrypt (tag_len : Z) (payload : list Z) : res (list Z) :=
  let- plain_len := sub_u 64 (Z.of_nat (length payload)) tag_len in
  Done (if plain_len <=? Z.of_nat (length payload)
        then take (Z.to_nat plain_len) payload else payload).
End PacketKey.

(** ** The interfaces of [quinn_proto::crypto] *)

(** [dyn PacketKey]; the result of [decrypt] is the payload it leaves, or
    [CryptoError]. *)
Record PacketKey : Type := mkPacketKey {
  key_encrypt : Z → list Z → Z → res (list Z);
  key_decrypt : Z → list Z → list Z → res (option (list Z));
  key_tag_len : Z;
  key_confidentiality_limit : Z;
  key_integrity_limit : Z
}.

(** [NoProtectionPacketKey]: the packet number and the header are not looked
    at, lengths and limits are the inner key's. *)
Definition NoProtectionPacketKey `{P : Profile} (inner : PacketKey) : PacketKey :=
  mkPacketKey
    (λ packet buf header_len, encrypt (key_tag_len inner) buf header_len)
    (λ packet header payload,
       let- plain := decrypt (key_tag_len inner) payload in Done (Some plain))
    (key_tag_len inner)
    (key_confidentiality_limit inner)
    (key_integrity_limit inner).

Section Sessions.
Context `{P : Profile}.

(** The types of [quinn_proto] and [rustls] that are only passed on: header
    keys, connection identifiers, sides, transport parameters, what a session
    tells of the handshake and the peer, and the errors. *)
Context {HKey ConnectionId Side Params Any TransportError ExportError ConnectError UnsupportedVersion : Type}.

(** [crypto::Keys]: local and remote header keys, local and remote packet keys. *)
Record Keys : Type := mkKeys { k_header : HKey * HKey; k_packet : PacketKey * PacketKey }.

(** [dyn Session] over sessions in states [S]. *)
Record Session (S : Type) : Type := mkSession {
  initial_keys : S → ConnectionId → Side → Keys;
  handshake_data : S → option Any;
  peer_identity : S → option Any;
  early_crypto : S → option (HKey * PacketKey);
  early_data_accepted : S → option bool;
  is_handshaking : S → bool;
  read_handshake : S → list Z → (bool + TransportError) * S;
  transport_parameters : S → option Params + TransportError;
  write_handshake : S → list Z → option Keys * list Z * S;
  next_1rtt_keys : S → option (PacketKey * PacketKey) * S;
  is_valid_retry : S → ConnectionId → list Z → list Z → bool;
  export_keying_material : S → list Z → list Z → list Z → (() + ExportError) * list Z
}.
#[global] Arguments mkSession {S}.
#[global] Arguments initial_keys {S}.
#[global] Arguments handshake_data {S}.
#[global] Arguments peer_identity {S}.
#[global] Arguments early_crypto {S}.
#[global] Arguments early_data_accepted {S}.
#[global] Arguments is_handshaking {S}.
#[global] Arguments read_handshake {S}.
#[global] Arguments transport_parameters {S}.
#[global] Arguments write_handshake {S}.
#[global] Arguments next_1rtt_keys {S}.
#[global] Arguments is_valid_retry {S}.
#[global] Arguments export_keying_material {S}.

(** [impl crypto::Session for NoProtectionSession]. *)
Definition NoProtectionSession {S} (inner : Session S) : Session S :=
  mkSession
    (initial_keys inner)
    (handshake_data inner)
    (peer_identity inner)
    (λ s, '(hkey, pkey) ← early_crypto inner s; Some (hkey, NoProtectionPacketKey pkey))
    (early_data_accepted inner)
    (is_handshaking inner)
    (read_handshake inner)
    (transport_parameters inner)
    (write_handshake inner)
    (λ s, let (keys, s') := next_1rtt_keys inner s in
       (match keys with
        | Some (l, r) => Some (NoProtectionPacketKey l, NoProtectionPacketKey r)
        | None => None
        end, s'))
    (is_valid_retry inner)
    (export_keying_material inner).

(** ** The configurations *)

(** [Box<dyn Session>]: the operations and the session's state. *)
Definition BoxSession (S : Type) : Type := Session S * S.

Definition ClientConfig (S : Type) : Type :=
  Z → string → Params → BoxSession S + ConnectError.

Record ServerConfig (S : Type) : Type := mkServerConfig {
  sc_initial_keys : Z → ConnectionId → Side → Keys + UnsupportedVersion;
  sc_retry_tag : Z → ConnectionId → list Z → list Z;
  sc_start_session : Z → Params → BoxSession S
}.
#[global] Arguments mkServerConfig {S}.
#[global] Arguments sc_initial_keys {S}.
#[global] Arguments sc_retry_tag {S}.
#[global] Arguments sc_start_session {S}.

Definition NoProtectionClientConfig {S} (inner : ClientConfig S) : ClientConfig S :=
  λ version server_name params,
    match inner version server_name params with
    | inl (ops, s) => inl (NoProtectionSession ops, s)
    | inr e => inr e
    end.

Definition NoProtectionServerConfig {S} (inner : ServerConfig S) : ServerConfig S :=
  mkServerConfig (sc_initial_keys inner) (sc_retry_tag inner)
    (λ version params,
       let (ops, s) := sc_start_session inner version params in (NoProtectionSession ops, s)).

(** ** What the connection sees of a session *)

(** The calls a connection makes, and their answers. *)
Inductive Call : Type :=
| CInitialKeys (c : ConnectionId) (d : Side)
| CHandshakeData
| CPeerIdentity
| CEarlyCrypto
| CEarlyDataAccepted
| CIsHandshaking
| CReadHandshake (buf : list Z)
| CTransportParameters
| CWriteHandshake (buf : list Z)
| CNext1RttKeys
| CIsValidRetry (c : ConnectionId) (header payload : list Z)
| CExport (output label context : list Z).

Inductive Answer : Type :=
| AKeys (k : Keys)
| AData (a : option Any)
| AEarly (k : option (HKey * PacketKey))
| AOptBool (b : option bool)
| ABool (b : bool)
| ARead (r : bool + TransportError)
| AParams (r : option Params + TransportError)
| AWritten (k : option Keys) (buf : list Z)
| ANext (k : option (PacketKey * PacketKey))
| AExported (r : () + ExportError) (output : list Z).

Definition call {S} (b : BoxSession S) (c : Call) : Answer * BoxSession S :=
  let (ops, s) := b in
  match c with
  | CInitialKeys c d => (AKeys (initial_keys ops s c d), b)
  | CHandshakeData => (AData (handshake_data ops s), b)
  | CPeerIdentity => (AData (peer_identity ops s), b)
  | CEarlyCrypto => (AEarly (early_crypto ops s), b)
  | CEarlyDataAccepted => (AOptBool (early_data_accepted ops s), b)
  | CIsHandshaking => (ABool (is_handshaking ops s), b)
  | CReadHandshake buf =>
      let (r, s') := read_handshake ops s buf in (ARead r, (ops, s'))
  | CTransportParameters => (AParams (transport_parameters ops s), b)
  | CWriteHandshake buf =>
      let '(k, buf', s') := write_handshake ops s buf in (AWritten k buf', (ops, s'))
  | CNext1RttKeys => let (k, s') := next_1rtt_keys ops s in (ANext k, (ops, s'))
  | CIsValidRetry c h p => (ABool (is_valid_retry ops s c h p), b)
  | CExport o l c => let (r, o') := export_keying_material ops s o l c in (AExported r o', b)
  end.

Fixpoint calls {S} (b : BoxSession S) (cs : list Call) : list Answer :=
  match cs with
  | [] => []
  | c :: cs' => let (a, b') := call b c in a :: calls b' cs'
  end.

(** What the wrapper makes of an answer: early keys and the keys of updates no
    longer protect, all other answers, the handshake's keys among them, are
    the inner session's. *)
Definition unprotected (a : Answer) : Answer :=
  match a with
  | AEarly k => AEarly ('(hkey, pkey) ← k; Some (hkey, NoProtectionPacketKey pkey))
  | ANext k => ANext ('(l, r) ← k; Some (NoProtectionPacketKey l, NoProtectionPacketKey r))
  | _ => a
  end.

Lemma call_no_protection {S} (ops : Session S) s c :
  ∃ s', call (ops, s) c = (fst (call (ops, s) c), (ops, s')) ∧
    call (NoProtectionSession ops, s) c
    = (unprotected (fst (call (ops, s) c)), (NoProtectionSession ops, s')).
Proof.
  destruct c; cbn; try (by eexists).
  - destruct (read_handshake ops s buf). by eexists.
  - destruct (write_handshake ops s buf) as [[? ?] ?]. by eexists.
  - destruct (next_1rtt_keys ops s) as [[[? ?]|] ?]; by eexists.
  - destruct (export_keying_material ops s output label context). by eexists.
Qed.

(** Through a whole life of calls, a session without protection answers
    what the inner session answers, except for the packet keys of early data
    and of key updates, which are wrapped; the keys that the handshake yields
    are passed on and still protect the packets. *)
Theorem no_protection_session {S} (ops : Session S) s cs :
  calls (NoProtectionSession ops, s) cs = map unprotected (calls (ops, s) cs).
Proof.
  revert s. induction cs as [|c cs IH]; intros s; [done|]. cbn [calls map].
  destruct (call_no_protection ops s c) as (s' & E & ->). rewrite E. cbn [map].
  by rewrite IH.
Qed.

(** C37: through a whole life of calls, the sessions that the two wrapped
    configurations start answer what the sessions of the inner ones answer,
    except for the packet keys of early data and of key updates, which are
    wrapped; the keys that the handshake yields are passed on and still
    protect the packets. *)
Theorem no_protection_configs {S} (cc : ClientConfig S) (sc : ServerConfig S) v name params cs :
  match NoProtectionClientConfig cc v name params, cc v name params with
  | inl b, inl b' => calls b cs = map unprotected (calls b' cs)
  | inr e, inr e' => e = e'
  | _, _ => False
  end ∧
  calls (sc_start_session (NoProtectionServerConfig sc) v params) cs
  = map unprotected (calls (sc_start_session sc v params) cs).
Proof.
  unfold NoProtectionClientConfig. cbn. split.
  - destruct (cc v name params) as [[ops s]|e]; [apply no_protection_session|done].
  - destruct (sc_start_session sc v params) as [ops s]. apply no_protection_session.
Qed.
End Sessions.

(** ** Round trip *)

Section Roundtrip.
Context `{P : Profile}.

Lemma split_at_app (a b : list Z) :
  split_at_mut (a ++ b) (Z.of_nat (length a)) = Done (a, b).
Proof.
  unfold split_at_mut. rewrite length_app, (proj2 (Z.leb_le _ _)) by lia.
  rewrite Nat2Z.id. by rewrite take_app_length, drop_app_length.
Qed.

(** A packet with room for the tag keeps its header and its
    payload in the clear, and decrypting its payload and tag gives the
    payload back. *)
Theorem encrypt_decrypt header payload tag :
  Z.of_nat (length (payload ++ tag)) < 2 ^ 64 →
  let n := Z.of_nat (length tag) in
  encrypt n (header ++ payload ++ tag) (Z.of_nat (length header))
  = Done (header ++ payload ++ replicate (length tag) 42) ∧
  decrypt n (payload ++ replicate (length tag) 42) = Done payload.
Proof.
  intros Hl n. rewrite length_app in Hl. split.
  - unfold encrypt. rewrite split_at_app. cbn [bindR]. unfold sub_u.
    rewrite length_app, checked_fits by (unfold fits; subst n; lia). cbn [bindR].
    replace (Z.of_nat (length payload + length tag) - n) with (Z.of_nat (length payload))
      by (subst n; lia).
    by rewrite split_at_app.
  - unfold decrypt, sub_u. rewrite length_app, length_replicate.
    rewrite checked_fits by (unfold fits; subst n; lia). cbn [bindR].
    rewrite (proj2 (Z.leb_le _ _)) by (subst n; lia).
    replace (Z.to_nat _) with (length payload) by (subst n; lia).
    by rewrite take_app_length.
Qed.

(** A payload shorter than the tag is no error: with overflow
    checks it panics, without them it is taken whole as plain text. *)
Theorem decrypt_short tag_len payload :
  Z.of_nat (length payload) < tag_len < 2 ^ 63 →
  decrypt tag_len payload
  = if overflow_checks then Crash (Panicked "arithmetic overflow") else Done payload.
Proof.
  intros Hl. unfold decrypt, sub_u, checked. rewrite decide_False by (unfold fits; lia).
  destruct overflow_checks; [done|]. cbn [bindR].
  replace (Z.of_nat (length payload) - tag_len) with (- (tag_len - Z.of_nat (length payload))) by lia.
  rewrite Z_mod_nz_opp_full; rewrite Z.mod_small; try lia.
  by rewrite (proj2 (Z.leb_gt _ _)) by lia.
Qed.

(** C38: a key without protection, whatever the key it wraps: a packet with
    room for the tag keeps its header and payload in the clear, and decrypting
    payload and tag gives the payload back under any number and header; a
    payload shorter than the tag is no error: with overflow checks it panics,
    without them it is taken whole as plain text. *)
Theorem no_protection_packets inner number header payload tag :
  key_tag_len inner = Z.of_nat (length tag) →
  Z.of_nat (length (payload ++ tag)) < 2 ^ 63 →
  let key := NoProtectionPacketKey inner in
  let sealed := payload ++ replicate (length tag) 42 in
  key_encrypt key number (header ++ payload ++ tag) (Z.of_nat (length header))
  = Done (header ++ sealed) ∧
  (∀ number' header', key_decrypt key number' header' sealed = Done (Some payload)) ∧
  (∀ number' header' short, (length short < length tag)%nat →
     key_decrypt key number' header' short
     = if overflow_checks then Crash (Panicked "arithmetic overflow") else Done (Some short)).
Proof.
  intros Ht Hl. cbn [key_encrypt key_decrypt NoProtectionPacketKey]. rewrite Ht.
  destruct (encrypt_decrypt header payload tag) as [H1 H2]; [lia|].
  split_and!; [exact H1| |].
  - intros _ _. by rewrite H2.
  - intros _ _ short Hs. rewrite length_app in Hl.
    rewrite decrypt_short by lia. by destruct overflow_checks.
Qed.
End Roundtrip.

(** ** On concrete packets *)

(** A key that cannot be used, with a tag of two bytes. *)
Definition demo_key : PacketKey :=
  mkPacketKey (λ _ _ _, Crash Blocked) (λ _ _ _, Crash Blocked) 2 0 0.

Lemma no_protection_packets_witness :
  let key := NoProtectionPacketKey (P := release_profile) demo_key in
  key_encrypt key 7 [1; 2; 3; 4; 0; 0] 1 = Done [1; 2; 3; 4; 42; 42] ∧
  key_decrypt key 7 [1] [2; 3; 4; 42; 42] = Done (Some [2; 3; 4]) ∧
  key_decrypt key 7 [1] [9] = Done (Some [9]).
Proof.
  destruct (no_protection_packets (P := release_profile) demo_key 7 [1] [2; 3; 4] [0; 0]
    eq_refl ltac:(done)) as (H1 & H2 & H3).
  split_and!; [exact H1|exact (H2 7 [1])|]. apply (H3 7 [1] [9]). simpl. lia.
Defined.
