(* ===== verification/Metrics.v ===== *)
(** * [src/src/metrics.rs]: the gaps between blocks

    The histogram and its recording belong to [tracing_timing]: what it answers
    for the traces made so far is a class.  The program's own part is when a
    trace is made, which buckets of the histogram are printed, and how. *)
From Stdlib Require Import Sorted.
From stdpp Require Import gmap.
From S2P Require Import Prelude F64 Env.

(** ** Recording *)

(** A histogram by its answers, in nanoseconds; [h_linear n] are the buckets
    of [iter_linear(n)]. *)
Record IterValue : Type := mkIterValue {
  iv_iterated_to : Z;
  iv_quantile : f64;
  iv_percentile : f64;
  iv_count : Z
}.

Record Histogram : Type := mkHistogram {
  h_mean : f64;
  h_value_at_quantile : f64 → Z;
  h_max : Z;
  h_len : Z;
  h_iter_linear : Z → list IterValue
}.

(** What [with_histograms] shows after so many traces, synchronised and
    refreshed: histograms by span and by event. *)
Class Tracing : Type :=
  with_histograms : nat → gmap string (gmap string Histogram).

(** How many gaps have been traced; the clones share the dispatcher. *)
Record Metrics : Type := mkMetrics { m_traces : nat }.
Definition Metrics_default : Metrics := mkMetrics 0.
Definition Metrics_record (record : bool) (m : Metrics) : Metrics :=
  if record then mkMetrics (S (m_traces m)) else m.

(** ** The buckets that are printed *)

Section BreakOnce.
Context {A : Type} (f : A → bool).

(** [take_while] with the flag its closure carries. *)
Fixpoint take_while_once (got_true : bool) (it : list A) : list A :=
  match it with
  | [] => []
  | i :: it' =>
      if got_true then []
      else i :: take_while_once (if f i then true else got_true) it'
  end.

Definition break_once (it : list A) : list A := take_while_once false it.

(** It yields its input up to and including the first element that satisfies
    the predicate, and all of it if there is none. *)
Lemma break_once_spec it :
  (Forall (λ i, f i = false) it ∧ break_once it = it) ∨
  (∃ pre x post, it = pre ++ x :: post ∧ Forall (λ i, f i = false) pre ∧ f x = true ∧
     break_once it = pre ++ [x]).
Proof.
  induction it as [|i it IH]; [by left|]. unfold break_once in *. cbn [take_while_once].
  destruct (f i) eqn:E.
  - right. exists [], i, it. split_and!; [done..|]. by destruct it.
  - destruct IH as [[Hf IH]|(pre & x & post & -> & Hf & Hx & IH)]; rewrite IH.
    + left. by split; [constructor|].
    + right. exists (i :: pre), x, post. split_and!; [done|by constructor|done..].
Qed.
End BreakOnce.

(** [skip_while]. *)
Fixpoint skip_while {A} (f : A → bool) (it : list A) : list A :=
  match it with
  | [] => []
  | i :: it' => if f i then skip_while f it' else it
  end.

Definition f64_cent (n : Z) : f64 := f64_div (f64_of_Z n) (f64_of_Z 100).

Definition printed_buckets (it : list IterValue) : list IterValue :=
  break_once (λ v, f64_ltb (f64_cent 95) (iv_quantile v))
    (skip_while (λ v, f64_ltb (iv_quantile v) (f64_cent 1)) it).

(** ** Printing *)

Section Print.
Context `{P : Profile} `{TR : Tracing}.

(** One star for each fortieth of the traces. *)
Definition stars (h : Histogram) (v : IterValue) : Z :=
  f64_ceil_as_usize
    (f64_div (f64_mul (f64_of_Z (iv_count v)) (f64_of_Z 40)) (f64_of_Z (h_len h))).

Definition repeat_str (s : string) (n : Z) : string :=
  String.concat "" (replicate (Z.to_nat n) s).

(** The line of a bucket that reaches to [to - 1]. *)
Definition bucket_line (h : Histogram) (to : Z) (v : IterValue) : string :=
  pad_left 4 (fmt_fixed 1 (f64_div (f64_of_Z to) (f64_of_Z 1000))) +:+ "µs | "
  +:+ pad_right 40 (repeat_str "*" (stars h v)) +:+ " | "
  +:+ pad_left 4 (fmt_fixed 1 (iv_percentile v)) +:+ "th %-ile".

Definition print_bucket (h : Histogram) (v : IterValue) : M World () :=
  let! to := liftR (add_u 64 (iv_iterated_to v) 1) in
  println (bucket_line h to v).

Definition summary_line (h : Histogram) : string :=
  "avg: " +:+ fmt_fixed 1 (f64_div (h_mean h) (f64_of_Z 1000)) +:+ "µs, p50: "
  +:+ show_u (h_value_at_quantile h (f64_cent 50) / 1000) +:+ "µs, p90: "
  +:+ show_u (h_value_at_quantile h (f64_cent 90) / 1000) +:+ "µs, p99: "
  +:+ show_u (h_value_at_quantile h (f64_cent 99) / 1000) +:+ "µs, max: "
  +:+ show_u (h_max h / 1000) +:+ "µs, " +:+ show_u (h_len h) +:+ " traces".

(** [print]: nothing unless there is exactly one span. *)
Definition Metrics_print (m : Metrics) : M World () :=
  let hs := with_histograms (m_traces m) in
  if decide (size hs = 1%nat) then
    let! hs := liftR (unwrap (hs !! "request"%string)) in
    let! h := liftR (unwrap (hs !! "gap"%string)) in
    let! _ := println "Inter-packet gap metrics:" in
    let! _ := println (summary_line h) in
    let! _ := mapM (print_bucket h) (printed_buckets (h_iter_linear h 1000)) in
    println ""
  else ret ().
End Print.

(** ** Which lines are printed *)

(** The quantiles of the buckets ascend. *)
Definition ascending (it : list IterValue) : Prop :=
  StronglySorted (λ v w, f64_leb (iv_quantile v) (iv_quantile w) = true) it.

(** Past 95 per cent; from 1 to 95 per cent. *)
Definition above (v : IterValue) : Prop := f64_ltb (f64_cent 95) (iv_quantile v) = true.
Definition below (v : IterValue) : Prop := f64_ltb (iv_quantile v) (f64_cent 1) = true.
#[global] Instance above_dec v : Decision (above v).
Proof. unfold above. apply _. Defined.
#[global] Instance below_dec v : Decision (below v).
Proof. unfold below. apply _. Defined.

Lemma above_not_below v : above v → below v → False.
Proof.
  unfold above, below. intros H1 H2. pose proof (f64_ltb_ltb _ _ _ H1 H2) as H.
  vm_compute in H. discriminate H.
Qed.

(** What the two adaptors keep of ascending buckets. *)
Lemma break_once_ascending it :
  ascending it → Forall (λ v, ¬ below v) it →
  break_once (λ v, f64_ltb (f64_cent 95) (iv_quantile v)) it
  = filter (λ v, ¬ below v ∧ ¬ above v) it ++ take 1 (filter above it).
Proof.
  intros Ha Hb. induction it as [|v it IH]; [done|].
  inversion Ha as [|? ? Ha1 Ha2]; subst. inversion Hb as [|? ? Hb1 Hb2]; subst.
  unfold break_once in *. cbn [take_while_once]. destruct (decide (above v)) as [Hv|Hv].
  - rewrite Hv, filter_cons_False by tauto. rewrite (filter_cons_True above) by done.
    assert (filter (λ v, ¬ below v ∧ ¬ above v) it = []) as ->.
    { clear -Ha2 Hv. induction Ha2 as [|w it Hw _ IH]; [done|].
      rewrite filter_cons_False; [done|]. intros [_ H]. apply H. by eapply f64_ltb_leb. }
    simpl. by destruct it.
  - rewrite filter_cons_True by done. rewrite (filter_cons_False above) by done.
    unfold above in Hv. rewrite not_true_iff_false in Hv. rewrite Hv. simpl. f_equal. by apply IH.
Qed.

Lemma printed_ascending it :
  ascending it →
  printed_buckets it = filter (λ v, ¬ below v ∧ ¬ above v) it ++ take 1 (filter above it).
Proof.
  intros Ha. unfold printed_buckets. induction it as [|v it IH]; [done|].
  inversion Ha as [|? ? Ha1 Ha2]; subst. cbn [skip_while].
  destruct (decide (below v)) as [Hv|Hv].
  - rewrite Hv, (IH Ha1). rewrite filter_cons_False by tauto.
    by rewrite (filter_cons_False above) by (intros H; by eapply above_not_below).
  - pose proof Hv as Hv'. unfold below in Hv'. rewrite not_true_iff_false in Hv'. rewrite Hv'.
    apply break_once_ascending; [done|]. constructor; [done|].
    clear -Ha2 Hv. induction Ha2 as [|w it Hw _ IH]; constructor; [|done].
    intros H. apply Hv. by eapply f64_leb_ltb.
Qed.

Section Lines.
Context `{P : Profile} `{TR : Tracing}.

Lemma print_buckets_log h it w :
  Forall (λ v, fits 64 (iv_iterated_to v + 1)) it →
  ∃ u w', mapM (print_bucket h) it w = Done (u, w') ∧
    w_log w' = w_log w ++ map (λ v, SysOut (bucket_line h (iv_iterated_to v + 1) v)) it.
Proof.
  intros Hf. revert w. induction Hf as [|v it Hv _ IH]; intros w; cbn [mapM].
  { exists [], w. by rewrite app_nil_r. }
  unfold bindM, print_bucket at 1, bindM, liftR, add_u. rewrite checked_fits by done.
  unfold println, log.
  edestruct IH as (u & w' & -> & Hl). eexists _, w'. split; [reflexivity|].
  rewrite Hl. cbn [w_log map]. by rewrite <- (assoc_L (++)).
Qed.

(** C40: the report of the gaps: nothing without traces; otherwise the title,
    the summary, one line for each bucket from the first to the 95th per cent
    and for the first one past it, and an empty line. *)
Theorem metrics_report m w :
  let hs := with_histograms (m_traces m) in
  let gap := hs !! "request"%string ≫= lookup "gap"%string in
  (size hs ≠ 1%nat → Metrics_print m w = Done ((), w)) ∧
  (size hs = 1%nat → gap = None → Metrics_print m w = Crash (Panicked "unwrap on None")) ∧
  ∀ h, size hs = 1%nat → gap = Some h →
    let it := h_iter_linear h 1000 in
    ascending it → Forall (λ v, fits 64 (iv_iterated_to v + 1)) it →
    let shown := filter (λ v, ¬ below v ∧ ¬ above v) it ++ take 1 (filter above it) in
    ∃ w', Metrics_print m w = Done ((), w') ∧
      w_log w' = w_log w ++ map SysOut (["Inter-packet gap metrics:"%string; summary_line h]
        ++ map (λ v, bucket_line h (iv_iterated_to v + 1) v) shown ++ [""%string]).
Proof.
  intros hs gap. subst gap. unfold Metrics_print. fold hs. split_and!.
  - intros Hs. by rewrite decide_False.
  - intros Hs Hg. rewrite decide_True by done. unfold bindM, liftR.
    destruct (hs !! _) as [hs'|]; simpl in *; [|done]. by rewrite Hg.
  - intros h Hs Hg Ha Hf. set (it := h_iter_linear h 1000) in *. set (shown := filter _ it ++ _).
    rewrite decide_True by done. unfold bindM at 1, liftR at 1.
    destruct (hs !! _) as [hs'|]; [|done]. simpl in Hg. cbn [unwrap].
    unfold bindM at 1, liftR at 1. rewrite Hg. cbn [unwrap].
    unfold bindM at 1, println at 1, log at 1. unfold bindM at 1, println at 1, log at 1.
    cbn [w_clock w_ticks w_sys w_log]. fold it. rewrite printed_ascending by done. fold shown.
    set (w1 := mkWorld _ _ _ _).
    destruct (print_buckets_log h shown w1) as (u & w' & H & Hl).
    { apply Forall_app. split; [|apply Forall_take];
        apply Forall_forall; intros v [_ Hv]%list_elem_of_filter; by eapply Forall_forall in Hf. }
    unfold bindM. rewrite H. unfold println, log. eexists. split; [reflexivity|].
    cbn [w_log]. rewrite Hl. subst w1. cbn [w_log]. rewrite !map_app, map_map. cbn [map].
    by rewrite <- !(assoc_L (++)).
Qed.
End Lines.

(** ** A concrete report *)

(** Four buckets of a microsecond each: half a per cent, then up to 50, 96 and
    100 per cent of two hundred traces. *)
Definition demo_gaps : Histogram :=
  mkHistogram (f64_of_Z 2500) (λ _, 2000) 4000 200
    (λ _, map (λ '(to, q, n), mkIterValue to (f64_div (f64_of_Z q) (f64_of_Z 1000))
                                (f64_div (f64_of_Z q) (f64_of_Z 10)) n)
      [(999, 5, 1); (1999, 500, 99); (2999, 960, 92); (3999, 1000, 8)]).

Lemma metrics_report_witness : ∃ w',
  Metrics_print (P := debug_profile) (TR := λ _, {["request" := {["gap" := demo_gaps]}]})%string
    (mkMetrics 200) (mkWorld 0 [] [] []) = Done ((), w') ∧
  w_log w' = map SysOut
    ["Inter-packet gap metrics:";
     "avg: 2.5µs, p50: 2µs, p90: 2µs, p99: 2µs, max: 4µs, 200 traces";
     " 2.0µs | ********************                     | 50.0th %-ile";
     " 3.0µs | *******************                      | 96.0th %-ile";
     ""]%string.
Proof.
  destruct (proj2 (proj2 (metrics_report (P := debug_profile)
    (TR := λ _, {["request" := {["gap" := demo_gaps]}]})%string (mkMetrics 200)
    (mkWorld 0 [] [] []))) demo_gaps) as (w' & H & Hl).
  - vm_compute. reflexivity.
  - vm_compute. reflexivity.
  - repeat constructor.
  - repeat constructor; done.
  - exists w'. split; [exact H|]. rewrite Hl. vm_compute. reflexivity.
Defined.
