(* ===== verification/Report.v ===== *)
(** * Counters and how they are printed ([src/src/test.rs])

    [StreamData], the human-readable sizes and rates ([fmt_bytes], [fmt_rate],
    [kmg]) and the per-line statistics. *)
From S2P Require Import Prelude F64 Env Kinds.

Record StreamData : Type := mkStreamData {
  sd_bytes : Z;
  sd_blks : Z;
  sd_lost : Z;
  sd_retr : Z;
  sd_cwnd : Z
}.

Definition StreamData_default : StreamData := mkStreamData 0 0 0 0 0.

(** [u64] totals and losses, [u32] retransmissions and window. *)
Definition data_ok (d : StreamData) : Prop :=
  fits 64 (sd_bytes d) ∧ fits 64 (sd_blks d) ∧ fits 64 (sd_lost d) ∧
  fits 32 (sd_retr d) ∧ fits 32 (sd_cwnd d).
#[global] Instance data_ok_dec d : Decision (data_ok d).
Proof. unfold data_ok. apply _. Defined.

Definition with_bytes (v : Z) (d : StreamData) : StreamData :=
  mkStreamData v (sd_blks d) (sd_lost d) (sd_retr d) (sd_cwnd d).
Definition with_blks (v : Z) (d : StreamData) : StreamData :=
  mkStreamData (sd_bytes d) v (sd_lost d) (sd_retr d) (sd_cwnd d).
Definition with_lost (v : Z) (d : StreamData) : StreamData :=
  mkStreamData (sd_bytes d) (sd_blks d) v (sd_retr d) (sd_cwnd d).
Definition with_retr (v : Z) (d : StreamData) : StreamData :=
  mkStreamData (sd_bytes d) (sd_blks d) (sd_lost d) v (sd_cwnd d).
Definition with_cwnd (v : Z) (d : StreamData) : StreamData :=
  mkStreamData (sd_bytes d) (sd_blks d) (sd_lost d) (sd_retr d) v.

(** ** Units *)

Definition ONE_KB : Z := 1024.
Definition ONE_MB : Z := 1024 * 1024.
Definition ONE_GB : Z := 1024 * 1024 * 1024.
Definition ONE_TB : Z := 1024 * 1024 * 1024 * 1024.
Definition ONE_K : Z := 1000.
Definition ONE_M : Z := 1000 * 1000.
Definition ONE_G : Z := 1000 * 1000 * 1000.
Definition ONE_T : Z := 1000 * 1000 * 1000 * 1000.

Definition f64_geb (x y : f64) : bool := f64_leb y x.

(** Every caller passes an integer cast to [f64]; the cast is done here. *)
Definition fmt_bytes (n : Z) : string :=
  let bytes := f64_of_Z n in
  if f64_eqb bytes f64_zero then ""
  else if f64_geb bytes (f64_of_Z ONE_TB) then
    pad_right 7 (fmt_fixed 2 (f64_div bytes (f64_of_Z ONE_TB))) +:+ " TBytes"
  else if f64_geb bytes (f64_of_Z ONE_GB) then
    pad_right 7 (fmt_fixed 2 (f64_div bytes (f64_of_Z ONE_GB))) +:+ " GBytes"
  else if f64_geb bytes (f64_of_Z ONE_MB) then
    pad_right 7 (fmt_fixed 2 (f64_div bytes (f64_of_Z ONE_MB))) +:+ " MBytes"
  else if f64_geb bytes (f64_of_Z ONE_KB) then
    pad_right 7 (fmt_fixed 2 (f64_div bytes (f64_of_Z ONE_KB))) +:+ " KBytes"
  else pad_right 8 (show_u n) +:+ " Bytes".

(** The rates below a gigabit are shown as zero for less than a second. *)
Definition fmt_rate (bits dur : f64) : string :=
  let short := f64_ltb dur (f64_of_Z 1) in
  let r x := if short then f64_zero else x in
  if f64_geb bits (f64_of_Z ONE_TB) then
    pad_right 6 (fmt_fixed 1 (f64_div (f64_div bits (f64_of_Z ONE_T)) dur)) +:+ " Tbits/sec"
  else if f64_geb bits (f64_of_Z ONE_GB) then
    pad_right 6 (fmt_fixed 1 (f64_div (f64_div bits (f64_of_Z ONE_G)) dur)) +:+ " Gbits/sec"
  else if f64_geb bits (f64_of_Z ONE_MB) then
    pad_right 6 (fmt_fixed 1 (r (f64_div (f64_div bits (f64_of_Z ONE_M)) dur))) +:+ " Mbits/sec"
  else if f64_geb bits (f64_of_Z ONE_KB) then
    pad_right 6 (fmt_fixed 1 (r (f64_div (f64_div bits (f64_of_Z ONE_K)) dur))) +:+ " Kbits/sec"
  else
    pad_right 7 (fmt_fixed 1 (r (f64_div bits dur))) +:+ " bits/sec".

Section Kmg.
Context `{P : Profile}.

Definition kmg (bytes : Z) (dur : f64) : res string :=
  let- bits := mul_u 64 bytes 8 in
  Done (fmt_bytes bytes +:+ "   " +:+ fmt_rate (f64_of_Z bits) dur).
End Kmg.

(** ** One line of statistics *)

Definition print_stat_line (data : StreamData) (mode : StreamMode) (conn : Conn) : string :=
  match mode with
  | SENDER =>
      match conn with
      | TCP | TLS =>
          pad_right 4 (show_u (sd_retr data)) +:+ "    "
          +:+ pad_right 18 (fmt_bytes (sd_cwnd data))
      | _ => pad_right 26 (show_u (sd_blks data))
      end
  | RECEIVER =>
      match conn with
      | UDP =>
          pad_right 18 (show_u (sd_lost data) +:+ " / " +:+ show_u (sd_blks data))
          +:+ "  ("
          +:+ fmt_fixed 1 (f64_mul (f64_div (f64_of_Z (sd_lost data)) (f64_of_Z (sd_blks data)))
                                   (f64_of_Z 100))
          +:+ "%)"
      | TCP | TLS => pad_right 26 ""
      | QUIC => pad_right 26 (show_u (sd_blks data))
      end
  | BOTH => ""
  end.

Example fmt_bytes_ex : fmt_bytes 1536 = "1.50    KBytes"%string.
Proof. reflexivity. Qed.
Example fmt_rate_ex :
  fmt_rate (f64_of_Z 3000000) (as_secs_f64 1500000000) = "2.0    Mbits/sec"%string.
Proof. reflexivity. Qed.
Example print_stat_line_ex :
  print_stat_line (mkStreamData 0 200 5 0 0) RECEIVER UDP = "5 / 200             (2.5%)"%string.
Proof. reflexivity. Qed.
