(* ===== verification/PerfStream.v ===== *)
(** * Streams and their per-interval statistics ([src/src/test.rs])

    [Box<dyn Stream>] with its downcasts, the [Dummy] stream that stands for a
    peer's stream after the exchange of results, and [PerfStream] with
    [push_stat], which closes an interval. *)
From S2P Require Import Prelude F64 Env Kinds Tcp Net Udp Quic Tls Report.

(** ** [Dummy] and [Box<dyn Stream>] *)

Record Dummy : Type := mkDummy { d_fd : Z; d_conn : Z }.

#[export] Instance Dummy_Stream : Stream Dummy := {
  stream_read d n := ret (IoOk [], d);
  stream_write d b := ret (IoOk 0, d);
  stream_fd d := as_signed 32 (d_fd d);
  stream_register _ _ := ret ();
  stream_deregister _ := ret ();
  stream_print_new _ := ret ();
  socket_type d := Conn_from_i8 (d_conn d);
  backlog _ := O
}.

#[export] Instance Dummy_StreamLaws : StreamLaws Dummy.
Proof.
  split; cbn; unfold ret.
  - by eauto.
  - intros s n w r s' w' _ [= <- <- <-]. auto.
  - by intros s n w r s' w' [= _ <- _].
  - intros s n w bs s' w' [= <- _ _]. simpl. lia.
  - by intros s b w r s' w' [= _ <- _].
  - intros s b w k s' w' Hb [= <- _ _]. lia.
Qed.

Inductive BoxStream : Type :=
| BTcp (t : TcpStream)
| BUdp (u : UdpSocket)
| BQuic (q : Quic)
| BTls (e : TlsEndpoint)
| BDummy (d : Dummy).

(** A result whose receiver is boxed again. *)
Definition boxed {A T} (f : T → BoxStream) (m : M World (A * T)) : M World (A * BoxStream) :=
  let! (r, s) := m in ret (r, f s).

#[export] Instance BoxStream_Stream : Stream BoxStream := {
  stream_read b n := match b with
    | BTcp s => boxed BTcp (stream_read s n) | BUdp s => boxed BUdp (stream_read s n)
    | BQuic s => boxed BQuic (stream_read s n) | BTls s => boxed BTls (stream_read s n)
    | BDummy s => boxed BDummy (stream_read s n) end;
  stream_write b d := match b with
    | BTcp s => boxed BTcp (stream_write s d) | BUdp s => boxed BUdp (stream_write s d)
    | BQuic s => boxed BQuic (stream_write s d) | BTls s => boxed BTls (stream_write s d)
    | BDummy s => boxed BDummy (stream_write s d) end;
  stream_fd b := match b with
    | BTcp s => stream_fd s | BUdp s => stream_fd s | BQuic s => stream_fd s
    | BTls s => stream_fd s | BDummy s => stream_fd s end;
  stream_register b t := match b with
    | BTcp s => stream_register s t | BUdp s => stream_register s t
    | BQuic s => stream_register s t | BTls s => stream_register s t
    | BDummy s => stream_register s t end;
  stream_deregister b := match b with
    | BTcp s => stream_deregister s | BUdp s => stream_deregister s
    | BQuic s => stream_deregister s | BTls s => stream_deregister s
    | BDummy s => stream_deregister s end;
  stream_print_new b := match b with
    | BTcp s => stream_print_new s | BUdp s => stream_print_new s
    | BQuic s => stream_print_new s | BTls s => stream_print_new s
    | BDummy s => stream_print_new s end;
  socket_type b := match b with
    | BTcp s => socket_type s | BUdp s => socket_type s | BQuic s => socket_type s
    | BTls s => socket_type s | BDummy s => socket_type s end;
  backlog b := match b with
    | BTcp s => backlog s | BUdp s => backlog s | BQuic s => backlog s
    | BTls s => backlog s | BDummy s => backlog s end
}.

(** Dynamic dispatch keeps the promises of the implementations. *)
#[export] Instance BoxStream_StreamLaws : StreamLaws BoxStream.
Proof.
  split.
  - intros [s|s|s|s|s] n w; cbn [stream_read BoxStream_Stream]; unfold boxed, bindM;
      destruct (read_returns s n w) as (r & s' & w' & ->); by repeat eexists.
  - intros [s|s|s|s|s] n w r b' w' Hn H; cbn [stream_read BoxStream_Stream] in H;
      unfold boxed in H; mrun H;
      eapply read_progress in Hm; eauto.
  - intros [s|s|s|s|s] n w r b' w' H; cbn [stream_read BoxStream_Stream] in H;
      unfold boxed in H; mrun H;
      by eapply read_keeps_id in Hm.
  - intros [s|s|s|s|s] n w r b' w' H; cbn [stream_read BoxStream_Stream] in H;
      unfold boxed in H; mrun H;
      by eapply read_bounded in Hm.
  - intros [s|s|s|s|s] n w r b' w' H; cbn [stream_write BoxStream_Stream] in H;
      unfold boxed in H; mrun H;
      by eapply write_keeps_id in Hm.
  - intros [s|s|s|s|s] n w r b' w' Hn H; cbn [stream_write BoxStream_Stream] in H;
      unfold boxed in H; mrun H;
      by eapply write_bounded in Hm.
Qed.

(** The [From<&Box<dyn Stream>>] conversions: a wrong type panics. *)
Definition as_TcpStream (b : BoxStream) : res TcpStream :=
  match b with BTcp t => Done t | _ => Crash (Panicked "Stream is not a TcpStream") end.
Definition as_UdpSocket (b : BoxStream) : res UdpSocket :=
  match b with BUdp u => Done u | _ => Crash (Panicked "Stream is not a UdpSocket") end.
Definition as_Quic (b : BoxStream) : res Quic :=
  match b with BQuic q => Done q | _ => Crash (Panicked "Stream is not a Quic") end.
Definition as_TlsEndpoint (b : BoxStream) : res TlsEndpoint :=
  match b with BTls e => Done e | _ => Crash (Panicked "Stream is not a TlsEndpoint") end.

(** [Serialize for Box<dyn Stream>]: only the descriptor and the transport. *)
Definition serialize_stream (b : BoxStream) : res (Z * Z) :=
  let- c := socket_type b in Done (stream_fd b, Conn_as_i8 c).

(** [Deserialize]: the derived reader of [Dummy], boxed.  That the two numbers
    are a [u32] and an [i8] is part of reading the text. *)
Definition deserialize_stream (x : Z * Z) : BoxStream := BDummy (mkDummy (fst x) (snd x)).

(** ** Intervals *)

Record Timers : Type := mkTimers {
  tm_created : Z;
  tm_start : Z;
  tm_end : Z;
  tm_curr : Z
}.

(** Four readings of the clock. *)
Definition Timers_default : M World Timers :=
  let! a := now in let! b := now in let! c := now in let! d := now in
  ret (mkTimers a b c d).

Definition with_start (v : Z) (t : Timers) : Timers :=
  mkTimers (tm_created t) v (tm_end t) (tm_curr t).
Definition with_end (v : Z) (t : Timers) : Timers :=
  mkTimers (tm_created t) (tm_start t) v (tm_curr t).
Definition with_curr (v : Z) (t : Timers) : Timers :=
  mkTimers (tm_created t) (tm_start t) (tm_end t) v.

Record IntervalStats : Type := mkIntervalStats {
  is_iter : Z;
  is_timers : Timers;
  is_data : StreamData
}.

Record PerfStream : Type := mkPerfStream {
  ps_mode : StreamMode;
  ps_stream : BoxStream;
  ps_timers : Timers;
  ps_elapsed : f64;
  ps_data : StreamData;
  ps_first_recvd : Z;
  ps_last_recvd : Z;
  ps_stats : list IntervalStats;
  ps_iter : Z;
  ps_temp : StreamData
}.

Definition with_ps_stream (v : BoxStream) (p : PerfStream) : PerfStream :=
  mkPerfStream (ps_mode p) v (ps_timers p) (ps_elapsed p) (ps_data p) (ps_first_recvd p)
    (ps_last_recvd p) (ps_stats p) (ps_iter p) (ps_temp p).
Definition with_ps_timers (v : Timers) (p : PerfStream) : PerfStream :=
  mkPerfStream (ps_mode p) (ps_stream p) v (ps_elapsed p) (ps_data p) (ps_first_recvd p)
    (ps_last_recvd p) (ps_stats p) (ps_iter p) (ps_temp p).
Definition with_ps_elapsed (v : f64) (p : PerfStream) : PerfStream :=
  mkPerfStream (ps_mode p) (ps_stream p) (ps_timers p) v (ps_data p) (ps_first_recvd p)
    (ps_last_recvd p) (ps_stats p) (ps_iter p) (ps_temp p).
Definition with_ps_data (v : StreamData) (p : PerfStream) : PerfStream :=
  mkPerfStream (ps_mode p) (ps_stream p) (ps_timers p) (ps_elapsed p) v
    (ps_first_recvd p) (ps_last_recvd p) (ps_stats p) (ps_iter p) (ps_temp p).
Definition with_ps_first_recvd (v : Z) (p : PerfStream) : PerfStream :=
  mkPerfStream (ps_mode p) (ps_stream p) (ps_timers p) (ps_elapsed p) (ps_data p) v
    (ps_last_recvd p) (ps_stats p) (ps_iter p) (ps_temp p).
Definition with_ps_last_recvd (v : Z) (p : PerfStream) : PerfStream :=
  mkPerfStream (ps_mode p) (ps_stream p) (ps_timers p) (ps_elapsed p) (ps_data p)
    (ps_first_recvd p) v (ps_stats p) (ps_iter p) (ps_temp p).
Definition with_ps_stats (v : list IntervalStats) (p : PerfStream) : PerfStream :=
  mkPerfStream (ps_mode p) (ps_stream p) (ps_timers p) (ps_elapsed p) (ps_data p)
    (ps_first_recvd p) (ps_last_recvd p) v (ps_iter p) (ps_temp p).
Definition with_ps_iter (v : Z) (p : PerfStream) : PerfStream :=
  mkPerfStream (ps_mode p) (ps_stream p) (ps_timers p) (ps_elapsed p) (ps_data p)
    (ps_first_recvd p) (ps_last_recvd p) (ps_stats p) v (ps_temp p).
Definition with_ps_temp (v : StreamData) (p : PerfStream) : PerfStream :=
  mkPerfStream (ps_mode p) (ps_stream p) (ps_timers p) (ps_elapsed p) (ps_data p)
    (ps_first_recvd p) (ps_last_recvd p) (ps_stats p) (ps_iter p) v.

Section Intervals.
Context `{P : Profile}.

Definition IntervalStats_fmt (s : IntervalStats) : res string :=
  let- line := kmg (sd_bytes (is_data s))
    (as_secs_f64 (Z.max 0 (tm_end (is_timers s) - tm_start (is_timers s)))) in
  Done (pad_left 4 (show_u (is_iter s)) +:+ "s  " +:+ line).

Definition PerfStream_fmt (p : PerfStream) : res string :=
  let- line := kmg (sd_bytes (ps_data p)) (ps_elapsed p) in
  let- conn := socket_type (ps_stream p) in
  Done ("[" +:+ pad_left 3 (pretty (stream_fd (ps_stream p))) +:+ "] "
        +:+ pad_left 4 (show_u (f64_as_u64 (ps_elapsed p))) +:+ "s  " +:+ line +:+ "  "
        +:+ print_stat_line (ps_data p) (ps_mode p) conn +:+ "  "
        +:+ StreamMode_fmt (ps_mode p)).

Definition PerfStream_new (stream : BoxStream) (mode : StreamMode) : M World PerfStream :=
  let! timers := Timers_default in
  ret (mkPerfStream mode stream timers f64_zero StreamData_default 0 0 [] 0 StreamData_default).

(** The [match] of [push_stat] on the transport: the interval's counters and
    the stream after its bookkeeping. *)
Definition interval_data (p : PerfStream) (d : StreamData) : res (StreamData * PerfStream) :=
  let- conn := socket_type (ps_stream p) in
  match conn with
  | UDP =>
      let- a := sub_u 64 (ps_last_recvd p) (ps_first_recvd p) in
      let- lost := sub_u 64 a (sd_blks (ps_temp p)) in
      Done (with_lost lost d, with_ps_first_recvd (ps_last_recvd p) p)
  | TCP | TLS =>
      let- (tinfo, stream) :=
        match conn with
        | TCP =>
            let- t := as_TcpStream (ps_stream p) in
            let (i, t') := print_tcp_info t in Done (i, BTcp t')
        | _ =>
            let- e := as_TlsEndpoint (ps_stream p) in
            let (i, t') := print_tcp_info (get_ref (entity e)) in
            Done (i, BTls (mkTlsEndpoint (set_sock t' (entity e)) (closing e)))
        end in
      let- retr := sub_u 32 (tcpi_total_retrans tinfo) (sd_retr (ps_temp p)) in
      let- cwnd := mul_u 32 (tcpi_snd_cwnd tinfo) (tcpi_snd_mss tinfo) in
      Done (with_cwnd cwnd (with_retr retr d),
            with_ps_temp (with_retr (tcpi_total_retrans tinfo) (ps_temp p))
              (with_ps_stream stream p))
  | QUIC => Done (d, p)
  end.

(** [push_stat].  The debug lines are not rendered, but the clock reading
    they make is kept. *)
Definition push_stat (debug : bool) (p : PerfStream) : M World PerfStream :=
  let! timers := Timers_default in
  let d0 := mkStreamData (sd_bytes (ps_temp p)) (sd_blks (ps_temp p)) 0 0 0 in
  let! (d, p1) := liftR (interval_data p d0) in
  let stat := mkIntervalStats (ps_iter p) (with_start (tm_curr (ps_timers p)) timers) d in
  let! line := liftR (IntervalStats_fmt stat) in
  let! conn := liftR (socket_type (ps_stream p1)) in
  let! _ := println ("[" +:+ pad_left 3 (pretty (stream_fd (ps_stream p1))) +:+ "] " +:+ line
                     +:+ "  " +:+ print_stat_line d (ps_mode p) conn) in
  let! _ := (if debug then let! _ := elapsed (tm_start (is_timers stat)) in ret () else ret ()) in
  let! iter := liftR (add_u 64 (ps_iter p1) 1) in
  let! curr := now in
  ret (with_ps_temp (with_blks 0 (with_bytes 0 (ps_temp p1)))
        (with_ps_timers (with_curr curr (ps_timers p1))
          (with_ps_iter iter
            (with_ps_stats (ps_stats p1 ++ [stat]) p1)))).

Definition PerfStream_write (p : PerfStream) (b : Buf) : M World (io_result Z * PerfStream) :=
  let! (r, s) := stream_write (ps_stream p) b in ret (r, with_ps_stream s p).

(** One block of [n] bytes on a stream whose test has the counters [d]: the
    six additions, in the order in which both ends of a test make them. *)
Definition count_block (n : Z) (p : PerfStream) (d : StreamData) :
    res (PerfStream * StreamData) :=
  let- pb := add_u 64 (sd_bytes (ps_data p)) n in
  let- tb := add_u 64 (sd_bytes d) n in
  let- ib := add_u 64 (sd_bytes (ps_temp p)) n in
  let- pk := add_u 64 (sd_blks (ps_data p)) 1 in
  let- tk := add_u 64 (sd_blks d) 1 in
  let- ik := add_u 64 (sd_blks (ps_temp p)) 1 in
  Done (with_ps_temp (with_blks ik (with_bytes ib (ps_temp p)))
          (with_ps_data (with_blks pk (with_bytes pb (ps_data p))) p),
        with_blks tk (with_bytes tb d)).
End Intervals.
