(* ===== verification/TestCore.v ===== *)
(** * The test object ([struct Test] of [src/src/test.rs])

    Settings, how they follow from the parameters, the state transitions, the
    end of a test, and the exchange of settings and results.  [serde_json] is a
    parameter: two pairs of functions with the round trips its documentation
    promises for the types it is used at. *)
From S2P Require Import Prelude F64 Params Env Kinds Tcp Udp Quic Tls Metrics Report PerfStream.

(** ** Settings *)

Definition MAX_TCP_PAYLOAD : Z := 131072.
Definition MAX_UDP_PAYLOAD : Z := 65500.
Definition MAX_QUIC_PAYLOAD : Z := 65500.

(** [cfg_time] is a duration in nanoseconds. *)
Record Settings : Type := mkSettings {
  cfg_conn : Conn;
  cfg_num_streams : Z;
  cfg_recv_timeout : Z;
  cfg_mss : Z;
  cfg_bitrate : Z;
  cfg_sndbuf : Z;
  cfg_rcvbuf : Z;
  cfg_time : Z;
  cfg_bytes : Z;
  cfg_blks : Z;
  cfg_length : Z
}.

Definition Settings_default : Settings :=
  mkSettings TCP 1 DEFAULT_SESSION_TIMEOUT 0 0 0 0 (from_secs 10) 0 0 0.

Definition with_cfg_conn (v : Conn) (c : Settings) : Settings :=
  mkSettings v (cfg_num_streams c) (cfg_recv_timeout c) (cfg_mss c) (cfg_bitrate c)
    (cfg_sndbuf c) (cfg_rcvbuf c) (cfg_time c) (cfg_bytes c) (cfg_blks c) (cfg_length c).
Definition with_cfg_num_streams (v : Z) (c : Settings) : Settings :=
  mkSettings (cfg_conn c) v (cfg_recv_timeout c) (cfg_mss c) (cfg_bitrate c)
    (cfg_sndbuf c) (cfg_rcvbuf c) (cfg_time c) (cfg_bytes c) (cfg_blks c) (cfg_length c).
Definition with_cfg_mss (v : Z) (c : Settings) : Settings :=
  mkSettings (cfg_conn c) (cfg_num_streams c) (cfg_recv_timeout c) v (cfg_bitrate c)
    (cfg_sndbuf c) (cfg_rcvbuf c) (cfg_time c) (cfg_bytes c) (cfg_blks c) (cfg_length c).
Definition with_cfg_bitrate (v : Z) (c : Settings) : Settings :=
  mkSettings (cfg_conn c) (cfg_num_streams c) (cfg_recv_timeout c) (cfg_mss c) v
    (cfg_sndbuf c) (cfg_rcvbuf c) (cfg_time c) (cfg_bytes c) (cfg_blks c) (cfg_length c).
Definition with_cfg_sndbuf (v : Z) (c : Settings) : Settings :=
  mkSettings (cfg_conn c) (cfg_num_streams c) (cfg_recv_timeout c) (cfg_mss c)
    (cfg_bitrate c) v (cfg_rcvbuf c) (cfg_time c) (cfg_bytes c) (cfg_blks c)
    (cfg_length c).
Definition with_cfg_rcvbuf (v : Z) (c : Settings) : Settings :=
  mkSettings (cfg_conn c) (cfg_num_streams c) (cfg_recv_timeout c) (cfg_mss c)
    (cfg_bitrate c) (cfg_sndbuf c) v (cfg_time c) (cfg_bytes c) (cfg_blks c)
    (cfg_length c).
Definition with_cfg_time (v : Z) (c : Settings) : Settings :=
  mkSettings (cfg_conn c) (cfg_num_streams c) (cfg_recv_timeout c) (cfg_mss c)
    (cfg_bitrate c) (cfg_sndbuf c) (cfg_rcvbuf c) v (cfg_bytes c) (cfg_blks c)
    (cfg_length c).
Definition with_cfg_bytes (v : Z) (c : Settings) : Settings :=
  mkSettings (cfg_conn c) (cfg_num_streams c) (cfg_recv_timeout c) (cfg_mss c)
    (cfg_bitrate c) (cfg_sndbuf c) (cfg_rcvbuf c) (cfg_time c) v (cfg_blks c)
    (cfg_length c).
Definition with_cfg_blks (v : Z) (c : Settings) : Settings :=
  mkSettings (cfg_conn c) (cfg_num_streams c) (cfg_recv_timeout c) (cfg_mss c)
    (cfg_bitrate c) (cfg_sndbuf c) (cfg_rcvbuf c) (cfg_time c) (cfg_bytes c) v
    (cfg_length c).
Definition with_cfg_length (v : Z) (c : Settings) : Settings :=
  mkSettings (cfg_conn c) (cfg_num_streams c) (cfg_recv_timeout c) (cfg_mss c)
    (cfg_bitrate c) (cfg_sndbuf c) (cfg_rcvbuf c) (cfg_time c) (cfg_bytes c)
    (cfg_blks c) v.

(** ** [Test] *)

Record Test : Type := mkTest {
  test_mode : StreamMode;
  test_state : TestState;
  test_verbose : bool;
  test_debug : bool;
  test_skip_tls : bool;
  test_cookie : list Z;
  test_cookie_count : Z;
  test_settings : Settings;
  test_idle_timeout : option Z;
  test_reset_counter : Z;
  test_streams : list PerfStream;
  test_peer_streams : list PerfStream;
  test_tokens : list Z;
  test_timers : Timers;
  test_elapsed : f64;
  test_data : StreamData;
  test_peer_elapsed : f64;
  test_peer : StreamData;
  test_peer_mode : StreamMode;
  test_metrics : Metrics;
  test_cert : option Str;
  test_key : option Str
}.

Definition with_test_mode (v : StreamMode) (t : Test) : Test :=
  mkTest v (test_state t) (test_verbose t) (test_debug t) (test_skip_tls t)
    (test_cookie t) (test_cookie_count t) (test_settings t) (test_idle_timeout t)
    (test_reset_counter t) (test_streams t) (test_peer_streams t) (test_tokens t)
    (test_timers t) (test_elapsed t) (test_data t) (test_peer_elapsed t) (test_peer t)
    (test_peer_mode t) (test_metrics t) (test_cert t) (test_key t).
Definition with_test_state (v : TestState) (t : Test) : Test :=
  mkTest (test_mode t) v (test_verbose t) (test_debug t) (test_skip_tls t)
    (test_cookie t) (test_cookie_count t) (test_settings t) (test_idle_timeout t)
    (test_reset_counter t) (test_streams t) (test_peer_streams t) (test_tokens t)
    (test_timers t) (test_elapsed t) (test_data t) (test_peer_elapsed t) (test_peer t)
    (test_peer_mode t) (test_metrics t) (test_cert t) (test_key t).
Definition with_test_verbose (v : bool) (t : Test) : Test :=
  mkTest (test_mode t) (test_state t) v (test_debug t) (test_skip_tls t) (test_cookie t)
    (test_cookie_count t) (test_settings t) (test_idle_timeout t) (test_reset_counter t)
    (test_streams t) (test_peer_streams t) (test_tokens t) (test_timers t)
    (test_elapsed t) (test_data t) (test_peer_elapsed t) (test_peer t)
    (test_peer_mode t) (test_metrics t) (test_cert t) (test_key t).
Definition with_test_debug (v : bool) (t : Test) : Test :=
  mkTest (test_mode t) (test_state t) (test_verbose t) v (test_skip_tls t)
    (test_cookie t) (test_cookie_count t) (test_settings t) (test_idle_timeout t)
    (test_reset_counter t) (test_streams t) (test_peer_streams t) (test_tokens t)
    (test_timers t) (test_elapsed t) (test_data t) (test_peer_elapsed t) (test_peer t)
    (test_peer_mode t) (test_metrics t) (test_cert t) (test_key t).
Definition with_test_skip_tls (v : bool) (t : Test) : Test :=
  mkTest (test_mode t) (test_state t) (test_verbose t) (test_debug t) v (test_cookie t)
    (test_cookie_count t) (test_settings t) (test_idle_timeout t) (test_reset_counter t)
    (test_streams t) (test_peer_streams t) (test_tokens t) (test_timers t)
    (test_elapsed t) (test_data t) (test_peer_elapsed t) (test_peer t)
    (test_peer_mode t) (test_metrics t) (test_cert t) (test_key t).
Definition with_test_cookie (v : list Z) (t : Test) : Test :=
  mkTest (test_mode t) (test_state t) (test_verbose t) (test_debug t) (test_skip_tls t)
    v (test_cookie_count t) (test_settings t) (test_idle_timeout t)
    (test_reset_counter t) (test_streams t) (test_peer_streams t) (test_tokens t)
    (test_timers t) (test_elapsed t) (test_data t) (test_peer_elapsed t) (test_peer t)
    (test_peer_mode t) (test_metrics t) (test_cert t) (test_key t).
Definition with_test_cookie_count (v : Z) (t : Test) : Test :=
  mkTest (test_mode t) (test_state t) (test_verbose t) (test_debug t) (test_skip_tls t)
    (test_cookie t) v (test_settings t) (test_idle_timeout t) (test_reset_counter t)
    (test_streams t) (test_peer_streams t) (test_tokens t) (test_timers t)
    (test_elapsed t) (test_data t) (test_peer_elapsed t) (test_peer t)
    (test_peer_mode t) (test_metrics t) (test_cert t) (test_key t).
Definition with_test_settings (v : Settings) (t : Test) : Test :=
  mkTest (test_mode t) (test_state t) (test_verbose t) (test_debug t) (test_skip_tls t)
    (test_cookie t) (test_cookie_count t) v (test_idle_timeout t) (test_reset_counter t)
    (test_streams t) (test_peer_streams t) (test_tokens t) (test_timers t)
    (test_elapsed t) (test_data t) (test_peer_elapsed t) (test_peer t)
    (test_peer_mode t) (test_metrics t) (test_cert t) (test_key t).
Definition with_test_idle_timeout (v : option Z) (t : Test) : Test :=
  mkTest (test_mode t) (test_state t) (test_verbose t) (test_debug t) (test_skip_tls t)
    (test_cookie t) (test_cookie_count t) (test_settings t) v (test_reset_counter t)
    (test_streams t) (test_peer_streams t) (test_tokens t) (test_timers t)
    (test_elapsed t) (test_data t) (test_peer_elapsed t) (test_peer t)
    (test_peer_mode t) (test_metrics t) (test_cert t) (test_key t).
Definition with_test_reset_counter (v : Z) (t : Test) : Test :=
  mkTest (test_mode t) (test_state t) (test_verbose t) (test_debug t) (test_skip_tls t)
    (test_cookie t) (test_cookie_count t) (test_settings t) (test_idle_timeout t) v
    (test_streams t) (test_peer_streams t) (test_tokens t) (test_timers t)
    (test_elapsed t) (test_data t) (test_peer_elapsed t) (test_peer t)
    (test_peer_mode t) (test_metrics t) (test_cert t) (test_key t).
Definition with_test_streams (v : list PerfStream) (t : Test) : Test :=
  mkTest (test_mode t) (test_state t) (test_verbose t) (test_debug t) (test_skip_tls t)
    (test_cookie t) (test_cookie_count t) (test_settings t) (test_idle_timeout t)
    (test_reset_counter t) v (test_peer_streams t) (test_tokens t) (test_timers t)
    (test_elapsed t) (test_data t) (test_peer_elapsed t) (test_peer t)
    (test_peer_mode t) (test_metrics t) (test_cert t) (test_key t).
Definition with_test_peer_streams (v : list PerfStream) (t : Test) : Test :=
  mkTest (test_mode t) (test_state t) (test_verbose t) (test_debug t) (test_skip_tls t)
    (test_cookie t) (test_cookie_count t) (test_settings t) (test_idle_timeout t)
    (test_reset_counter t) (test_streams t) v (test_tokens t) (test_timers t)
    (test_elapsed t) (test_data t) (test_peer_elapsed t) (test_peer t)
    (test_peer_mode t) (test_metrics t) (test_cert t) (test_key t).
Definition with_test_tokens (v : list Z) (t : Test) : Test :=
  mkTest (test_mode t) (test_state t) (test_verbose t) (test_debug t) (test_skip_tls t)
    (test_cookie t) (test_cookie_count t) (test_settings t) (test_idle_timeout t)
    (test_reset_counter t) (test_streams t) (test_peer_streams t) v (test_timers t)
    (test_elapsed t) (test_data t) (test_peer_elapsed t) (test_peer t)
    (test_peer_mode t) (test_metrics t) (test_cert t) (test_key t).
Definition with_test_timers (v : Timers) (t : Test) : Test :=
  mkTest (test_mode t) (test_state t) (test_verbose t) (test_debug t) (test_skip_tls t)
    (test_cookie t) (test_cookie_count t) (test_settings t) (test_idle_timeout t)
    (test_reset_counter t) (test_streams t) (test_peer_streams t) (test_tokens t) v
    (test_elapsed t) (test_data t) (test_peer_elapsed t) (test_peer t)
    (test_peer_mode t) (test_metrics t) (test_cert t) (test_key t).
Definition with_test_elapsed (v : f64) (t : Test) : Test :=
  mkTest (test_mode t) (test_state t) (test_verbose t) (test_debug t) (test_skip_tls t)
    (test_cookie t) (test_cookie_count t) (test_settings t) (test_idle_timeout t)
    (test_reset_counter t) (test_streams t) (test_peer_streams t) (test_tokens t)
    (test_timers t) v (test_data t) (test_peer_elapsed t) (test_peer t)
    (test_peer_mode t) (test_metrics t) (test_cert t) (test_key t).
Definition with_test_data (v : StreamData) (t : Test) : Test :=
  mkTest (test_mode t) (test_state t) (test_verbose t) (test_debug t) (test_skip_tls t)
    (test_cookie t) (test_cookie_count t) (test_settings t) (test_idle_timeout t)
    (test_reset_counter t) (test_streams t) (test_peer_streams t) (test_tokens t)
    (test_timers t) (test_elapsed t) v (test_peer_elapsed t) (test_peer t)
    (test_peer_mode t) (test_metrics t) (test_cert t) (test_key t).
Definition with_test_peer_elapsed (v : f64) (t : Test) : Test :=
  mkTest (test_mode t) (test_state t) (test_verbose t) (test_debug t) (test_skip_tls t)
    (test_cookie t) (test_cookie_count t) (test_settings t) (test_idle_timeout t)
    (test_reset_counter t) (test_streams t) (test_peer_streams t) (test_tokens t)
    (test_timers t) (test_elapsed t) (test_data t) v (test_peer t) (test_peer_mode t)
    (test_metrics t) (test_cert t) (test_key t).
Definition with_test_peer (v : StreamData) (t : Test) : Test :=
  mkTest (test_mode t) (test_state t) (test_verbose t) (test_debug t) (test_skip_tls t)
    (test_cookie t) (test_cookie_count t) (test_settings t) (test_idle_timeout t)
    (test_reset_counter t) (test_streams t) (test_peer_streams t) (test_tokens t)
    (test_timers t) (test_elapsed t) (test_data t) (test_peer_elapsed t) v
    (test_peer_mode t) (test_metrics t) (test_cert t) (test_key t).
Definition with_test_peer_mode (v : StreamMode) (t : Test) : Test :=
  mkTest (test_mode t) (test_state t) (test_verbose t) (test_debug t) (test_skip_tls t)
    (test_cookie t) (test_cookie_count t) (test_settings t) (test_idle_timeout t)
    (test_reset_counter t) (test_streams t) (test_peer_streams t) (test_tokens t)
    (test_timers t) (test_elapsed t) (test_data t) (test_peer_elapsed t) (test_peer t) v
    (test_metrics t) (test_cert t) (test_key t).
Definition with_test_metrics (v : Metrics) (t : Test) : Test :=
  mkTest (test_mode t) (test_state t) (test_verbose t) (test_debug t) (test_skip_tls t)
    (test_cookie t) (test_cookie_count t) (test_settings t) (test_idle_timeout t)
    (test_reset_counter t) (test_streams t) (test_peer_streams t) (test_tokens t)
    (test_timers t) (test_elapsed t) (test_data t) (test_peer_elapsed t) (test_peer t)
    (test_peer_mode t) v (test_cert t) (test_key t).
Definition with_test_cert (v : option Str) (t : Test) : Test :=
  mkTest (test_mode t) (test_state t) (test_verbose t) (test_debug t) (test_skip_tls t)
    (test_cookie t) (test_cookie_count t) (test_settings t) (test_idle_timeout t)
    (test_reset_counter t) (test_streams t) (test_peer_streams t) (test_tokens t)
    (test_timers t) (test_elapsed t) (test_data t) (test_peer_elapsed t) (test_peer t)
    (test_peer_mode t) (test_metrics t) v (test_key t).
Definition with_test_key (v : option Str) (t : Test) : Test :=
  mkTest (test_mode t) (test_state t) (test_verbose t) (test_debug t) (test_skip_tls t)
    (test_cookie t) (test_cookie_count t) (test_settings t) (test_idle_timeout t)
    (test_reset_counter t) (test_streams t) (test_peer_streams t) (test_tokens t)
    (test_timers t) (test_elapsed t) (test_data t) (test_peer_elapsed t) (test_peer t)
    (test_peer_mode t) (test_metrics t) (test_cert t) v.

(** [Test::new]. *)
Definition Test_new : M World Test :=
  let! timers := Timers_default in
  ret (mkTest RECEIVER TestState_default false false false [] 0 Settings_default None 0
         [] [] [] timers f64_zero StreamData_default f64_zero StreamData_default RECEIVER
         Metrics_default None None).

Definition set_idle_timeout (idle_timeout : Z) (t : Test) : Test :=
  if 0 <? idle_timeout then with_test_idle_timeout (Some (from_secs idle_timeout)) t else t.

(** The settings of [Test::from]: later flags override earlier ones. *)
Definition settings_from (param : PerfParams) (c : Settings) : Settings :=
  let c := with_cfg_num_streams (p_num_streams param) c in
  let c := with_cfg_mss (p_mss param) c in
  let c := with_cfg_bitrate (p_bitrate param) c in
  let c := with_cfg_sndbuf (p_sendbuf param) c in
  let c := with_cfg_rcvbuf (p_recvbuf param) c in
  let c := if p_udp param then with_cfg_conn UDP c else c in
  let c := if p_quic param then with_cfg_conn QUIC c else c in
  let c := if p_tls param then with_cfg_conn TLS c else c in
  let c := with_cfg_time (from_secs (p_time param)) c in
  let c := if 0 <? p_bytes param
           then with_cfg_time (from_secs 3600) (with_cfg_bytes (p_bytes param) c) else c in
  let c := if 0 <? p_blks param
           then with_cfg_time (from_secs 3600) (with_cfg_blks (p_blks param) c) else c in
  let c := if 0 <? p_length param then with_cfg_length (p_length param) c else c in
  if 0 <? p_mss param then with_cfg_mss (p_mss param) c else c.

Definition Test_from (param : PerfParams) : M World Test :=
  let! test := Test_new in
  let test := set_idle_timeout (p_idle_timeout param) test in
  let test := with_test_verbose (p_verbose param) test in
  let test := with_test_debug (p_debug param) test in
  let test := with_test_skip_tls (p_skip_tls param) test in
  let test := with_test_settings (settings_from param (test_settings test)) test in
  ret (with_test_key (p_key param) (with_test_cert (p_cert param) test)).

Definition reset (t : Test) : Test :=
  with_test_tokens [] (with_test_streams [] (with_test_cookie [] (with_test_state Start t))).

Definition transition (s : TestState) (t : Test) : Test := with_test_state s t.

Definition conn (t : Test) : Conn := cfg_conn (test_settings t).
Definition num_streams (t : Test) : Z := cfg_num_streams (test_settings t).
Definition test_mss (t : Test) : Z := cfg_mss (test_settings t).
Definition bitrate (t : Test) : Z := cfg_bitrate (test_settings t).
Definition time (t : Test) : Z := cfg_time (test_settings t).
Definition bytes (t : Test) : Z := cfg_bytes (test_settings t).
Definition blks (t : Test) : Z := cfg_blks (test_settings t).
Definition test_length (t : Test) : Z := cfg_length (test_settings t).
Definition set_length (n : Z) (t : Test) : Test :=
  with_test_settings (with_cfg_length n (test_settings t)) t.

(** [start]: every stream's interval begins now. *)
Definition start (t : Test) : M World Test :=
  let! streams := mapM (fun p =>
    let! c := now in ret (with_ps_timers (with_curr c (ps_timers p)) p)) (test_streams t) in
  let! s := now in
  ret (with_test_timers (with_start s (test_timers t)) (with_test_streams streams t)).

(** ** The end of a test *)

Section End_of_test.
Context `{P : Profile}.

Definition reset_counter_inc (t : Test) : res (Z * Test) :=
  let- n := add_u 16 (test_reset_counter t) 1 in
  Done (n, with_test_reset_counter n t).

(** The first loop of [end]: the open interval is closed, the stream's timers
    stop and it leaves the poll. *)
Definition end_stream (debug : bool) (p : PerfStream) : M World PerfStream :=
  let! p := (if 0 <? sd_bytes (ps_temp p) then push_stat debug p else ret p) in
  let! e := now in
  let p := with_ps_timers (with_end e (ps_timers p)) p in
  let! d := elapsed (tm_start (ps_timers p)) in
  let p := with_ps_elapsed (as_secs_f64 d) p in
  let! _ := stream_deregister (ps_stream p) in
  ret p.

Definition stats_lost (p : PerfStream) : list Z :=
  map (λ s, sd_lost (is_data s)) (ps_stats p).

(** The second loop, by the test's transport. *)
Definition end_totals (c : Conn) (debug : bool) (p : PerfStream) : res PerfStream :=
  match c with
  | UDP =>
      let- lost := sum_u 64 (stats_lost p) in
      Done (with_ps_data (with_lost lost (ps_data p)) p)
  | TCP =>
      let- t := as_TcpStream (ps_stream p) in
      let (tinfo, t') := print_tcp_info t in
      Done (with_ps_data (with_retr (tcpi_total_retrans tinfo) (ps_data p))
              (with_ps_stream (BTcp t') p))
  | QUIC =>
      let- q := as_Quic (ps_stream p) in
      if debug then let- _ := unwrap (q_conn q) in Done p else Done p
  | TLS =>
      let- e := as_TlsEndpoint (ps_stream p) in
      let (tinfo, t') := print_tcp_info (get_ref (entity e)) in
      Done (with_ps_data (with_retr (tcpi_total_retrans tinfo) (ps_data p))
              (with_ps_stream (BTls (mkTlsEndpoint (set_sock t' (entity e)) (closing e))) p))
  end.

Definition end_sums (t : Test) : res Test :=
  match conn t with
  | UDP =>
      let- l := sum_u 64 (map (λ p, sd_lost (ps_data p)) (test_streams t)) in
      Done (with_test_data (with_lost l (test_data t)) t)
  | TCP | TLS =>
      let- r := sum_u 32 (map (λ p, sd_retr (ps_data p)) (test_streams t)) in
      Done (with_test_data (with_retr r (test_data t)) t)
  | QUIC => Done t
  end.

Definition end_test (t : Test) : M World Test :=
  let! streams := mapM (end_stream (test_debug t)) (test_streams t) in
  let! streams := mapM (λ p, liftR (end_totals (conn t) (test_debug t) p)) streams in
  let! t := liftR (end_sums (with_test_streams streams t)) in
  let! d := elapsed (tm_start (test_timers t)) in
  ret (with_test_elapsed (as_secs_f64 d) t).
End End_of_test.

(** ** Exchange of settings and results *)

(** The fields of [PerfStream] and [Test] that are not marked
    [#[serde(skip)]]. *)
Record StreamWire : Type := mkStreamWire {
  sw_mode : StreamMode; sw_stream : Z * Z; sw_elapsed : f64; sw_data : StreamData
}.
Record TestWire : Type := mkTestWire {
  tw_mode : StreamMode; tw_streams : list StreamWire; tw_elapsed : f64;
  tw_data : StreamData; tw_peer_mode : StreamMode
}.

(** [serde_json::to_string] and [from_str] at the two types that travel. *)
Class Serde : Type := {
  settings_to_json : Settings → list Z;
  settings_from_json : list Z → option Settings;
  results_to_json : TestWire → list Z;
  results_from_json : list Z → option TestWire
}.

(** A JSON number for an [f64] may come back rounded differently, so the
    elapsed times are left out of the comparison. *)
Definition wire_agree (a b : TestWire) : Prop :=
  tw_mode a = tw_mode b ∧ tw_data a = tw_data b ∧ tw_peer_mode a = tw_peer_mode b ∧
  map (λ s, (sw_mode s, sw_stream s, sw_data s)) (tw_streams a)
  = map (λ s, (sw_mode s, sw_stream s, sw_data s)) (tw_streams b).

Definition ascii_message (bs : list Z) : Prop := bs ≠ [] ∧ Forall (λ b, 0 ≤ b < 128) bs.

Definition f64_finite (x : f64) : Prop :=
  match x with SpecFloat.S754_nan | SpecFloat.S754_infinity _ => False | _ => True end.
#[global] Instance f64_finite_dec x : Decision (f64_finite x).
Proof. destruct x; apply _. Defined.

(** What the reader of [Dummy] accepts, numbers JSON can write, and counters
    of the declared widths. *)
Definition stream_wire_ok (s : StreamWire) : Prop :=
  f64_finite (sw_elapsed s) ∧ fits 32 (fst (sw_stream s)) ∧
  -128 ≤ snd (sw_stream s) < 128 ∧ data_ok (sw_data s).
#[global] Instance stream_wire_ok_dec s : Decision (stream_wire_ok s).
Proof. unfold stream_wire_ok. apply _. Defined.
Definition wire_ok (a : TestWire) : Prop :=
  f64_finite (tw_elapsed a) ∧ data_ok (tw_data a) ∧ Forall stream_wire_ok (tw_streams a).
#[global] Instance wire_ok_dec a : Decision (wire_ok a).
Proof. unfold wire_ok. apply _. Defined.

(** [u8], [u32], [u64] and [usize] fields. *)
Definition settings_ok (c : Settings) : Prop :=
  fits 8 (cfg_num_streams c) ∧ fits 32 (cfg_recv_timeout c) ∧ fits 32 (cfg_mss c) ∧
  fits 64 (cfg_bitrate c) ∧ fits 64 (cfg_sndbuf c) ∧ fits 64 (cfg_rcvbuf c) ∧
  0 ≤ cfg_time c < 2 ^ 64 * NANOS_PER_SEC ∧
  fits 64 (cfg_bytes c) ∧ fits 64 (cfg_blks c) ∧ fits 64 (cfg_length c).
#[global] Instance settings_ok_dec c : Decision (settings_ok c).
Proof. unfold settings_ok. apply _. Defined.

(** [str::trim], on ASCII white space. *)
Definition is_space (c : Z) : bool := ((9 <=? c) && (c <=? 13)) || (c =? 32).
Fixpoint trim_start (s : list Z) : list Z :=
  match s with
  | [] => []
  | c :: s' => if is_space c then trim_start s' else s
  end.
Definition trim (s : list Z) : list Z := reverse (trim_start (reverse (trim_start s))).

(** What [serde_json] documents: a value is read back from its own text, the
    text of these types is ASCII, no white space surrounds it, and a text with a
    number that does not fit its field is refused. *)
Class SerdeLaws `{Serde} : Prop := {
  settings_json_roundtrip c : settings_ok c → settings_from_json (settings_to_json c) = Some c;
  settings_json_ascii c : ascii_message (settings_to_json c);
  results_json_roundtrip a :
    wire_ok a → ∃ b, results_from_json (results_to_json a) = Some b ∧ wire_agree a b;
  results_json_ascii a : ascii_message (results_to_json a);
  results_json_trimmed a : trim (results_to_json a) = results_to_json a;
  settings_json_typed s c : settings_from_json s = Some c → settings_ok c;
  results_json_typed s a : results_from_json s = Some a → wire_ok a
}.

Section Exchange.
Context `{J : Serde}.

Definition settings (t : Test) : list Z := settings_to_json (test_settings t).

Definition set_settings (json : list Z) (t : Test) : res Test :=
  let- c := unwrap (settings_from_json json) in Done (with_test_settings c t).

Definition stream_wire (p : PerfStream) : res StreamWire :=
  let- x := serialize_stream (ps_stream p) in
  Done (mkStreamWire (ps_mode p) x (ps_elapsed p) (ps_data p)).

Fixpoint streams_wire (l : list PerfStream) : res (list StreamWire) :=
  match l with
  | [] => Done []
  | p :: l' =>
      let- x := stream_wire p in let- xs := streams_wire l' in Done (x :: xs)
  end.

Definition test_wire (t : Test) : res TestWire :=
  let- ss := streams_wire (test_streams t) in
  Done (mkTestWire (test_mode t) ss (test_elapsed t) (test_data t) (test_peer_mode t)).

Definition results (t : Test) : res (list Z) :=
  let- x := test_wire t in Done (results_to_json x).

(** The derived [Deserialize] fills skipped fields with their defaults. *)
Definition stream_of_wire (x : StreamWire) : M World PerfStream :=
  let! timers := Timers_default in
  ret (mkPerfStream (sw_mode x) (deserialize_stream (sw_stream x)) timers
         (sw_elapsed x) (sw_data x) 0 0 [] 0 StreamData_default).

(** [from_serde]: text that is no [Test] is reported and ignored.  The
    deserialised test's own timers are four more clock readings. *)
Definition from_serde (json : list Z) (t : Test) : M World Test :=
  match results_from_json json with
  | None => ret t
  | Some x =>
      let! streams := mapM stream_of_wire (tw_streams x) in
      let! _ := Timers_default in
      let peer := with_lost (sd_lost (tw_data x))
                    (with_blks (sd_blks (tw_data x))
                      (with_bytes (sd_bytes (tw_data x)) (test_peer t))) in
      ret (with_test_peer_mode (tw_mode x)
            (with_test_peer peer
              (with_test_peer_elapsed (tw_elapsed x)
                (with_test_peer_streams streams t))))
  end.
End Exchange.

(** ** Printing *)

Section Printing.
Context `{P : Profile} `{TR : Tracing}.

Definition print_stream (p : PerfStream) : M World () :=
  let! line := liftR (PerfStream_fmt p) in println line.

Definition sum_line (e : f64) (d : StreamData) (m : StreamMode) (c : Conn) : M World () :=
  let! line := liftR (kmg (sd_bytes d) e) in
  println ("[Sum]  " +:+ pad_left 3 (show_u (f64_as_u64 e)) +:+ "s  " +:+ line +:+ "  "
           +:+ print_stat_line d m c +:+ "  " +:+ StreamMode_fmt m).

(** A receiver prints its own sum only. *)
Definition print_stats (t : Test) : M World () :=
  let! _ := println
    "- - - - - - - - - - - - - Results Per Stream- - - - - - - - - - - - - - - -" in
  let! _ := mapM print_stream (test_streams t) in
  let! _ := mapM print_stream (test_peer_streams t) in
  let! _ := println
    "- - - - - - - - - - - - - - - All Streams - - - - - - - - - - - - - - - - -" in
  let! _ := sum_line (test_elapsed t) (test_data t) (test_mode t) (conn t) in
  if decide (test_mode t = RECEIVER) then
    let! _ := println "" in Metrics_print (test_metrics t)
  else
    let! _ := sum_line (test_peer_elapsed t) (test_peer t) (test_peer_mode t) (conn t) in
    let! _ := println "" in Metrics_print (test_metrics t).

Definition header_columns (m : StreamMode) (c : Conn) : option string :=
  match m with
  | SENDER =>
      Some (match c with
      | UDP => "[ FD]  Time  Transfer         Rate              Total Datagrams"
      | TCP | TLS => "[ FD]  Time  Transfer         Rate              Retr    Cwnd"
      | QUIC => "[ FD]  Time  Transfer         Rate              Total Datagrams"
      end)
  | RECEIVER =>
      Some (match c with
      | UDP => "[ FD]  Time  Transfer         Rate              Lost/Total Datagrams"
      | TCP | TLS => "[ FD]  Time  Transfer         Rate              "
      | QUIC => "[ FD]  Time  Transfer         Rate              Total Datagrams"
      end)
  | BOTH => None
  end%string.

Definition dashes : string :=
  "- - - - - - - - - - - - - - - - - - - - - - - - - - - - - - - - - - - - - -".

Definition header (t : Test) : M World () :=
  let! _ := println ("Starting Test: protocol: " +:+ Conn_fmt (conn t) +:+ ", "
    +:+ show_u (num_streams t) +:+ " streams, " +:+ show_u (test_length t)
    +:+ " byte blocks, " +:+ show_u (time t / NANOS_PER_SEC) +:+ " seconds test") in
  let! _ := println dashes in
  let! _ := match header_columns (test_mode t) (conn t) with
            | Some l => println l
            | None => ret () end in
  println dashes.
End Printing.

(** ** What the operations leave alone *)

Lemma mapM_length {W A B} (f : A → M W B) l w l' w' :
  mapM f l w = Done (l', w') → length l' = length l.
Proof.
  revert w l' w'. induction l as [|x l IH]; intros w l' w' H; cbn [mapM] in H.
  - unfold ret in H. by simplify_eq.
  - mrun H. simpl. f_equal. by eapply IH.
Qed.

(** A property of every result, from one of every element. *)
Lemma mapM_Forall2 {W A B} (f : A → M W B) (R : A → B → Prop) l w l' w' :
  (∀ x w0 y w1, f x w0 = Done (y, w1) → R x y) →
  mapM f l w = Done (l', w') → Forall2 R l l'.
Proof.
  intros Hf. revert w l' w'. induction l as [|x l IH]; intros w l' w' H; cbn [mapM] in H.
  - unfold ret in H. simplify_eq. constructor.
  - mrun H. constructor; [by eapply Hf|by eapply IH].
Qed.

(** The part of a test that drives the state machines. *)
Definition frame_of (t : Test) : TestState * Settings * Z * list Z * nat * StreamMode :=
  (test_state t, test_settings t, test_cookie_count t, test_tokens t,
   length (test_streams t), test_mode t).

Lemma start_frame t w t' w' : start t w = Done (t', w') → frame_of t' = frame_of t.
Proof.
  unfold start. intros H. mrun H. unfold frame_of. simpl.
  by erewrite mapM_length by done.
Qed.

Lemma from_serde_frame `{Serde} json t w t' w' :
  from_serde json t w = Done (t', w') → frame_of t' = frame_of t.
Proof.
  unfold from_serde. intros H'. destruct (results_from_json json); mrun H'; done.
Qed.

Section EndFrame.
Context `{P : Profile}.

Lemma end_sums_frame t t' : end_sums t = Done t' → frame_of t' = frame_of t.
Proof. unfold end_sums. intros H. destruct (conn t); mrun H; done. Qed.

Lemma end_test_frame t w t' w' : end_test t w = Done (t', w') → frame_of t' = frame_of t.
Proof.
  unfold end_test. intros H. mrun H.
  match goal with Hs : end_sums _ = Done _ |- _ => apply end_sums_frame in Hs as Hf end.
  etransitivity; [exact Hf|]. unfold frame_of. simpl.
  repeat match goal with Hm : mapM _ _ _ = Done _ |- _ => apply mapM_length in Hm end.
  congruence.
Qed.
End EndFrame.
