(* ===== verification/Talk.v ===== *)
(** * Messages on a control connection

    How the messages that were to be sent relate to what a socket has taken:
    they may be cut short or lost; they are never reordered, repeated or joined
    by others.  Both sides' conversations are stated in these terms. *)
From S2P Require Import Prelude Env Kinds Tcp Net.

(** [said bufs ms]: the buffers that went out when the messages were sent in
    order, each whole, cut short, or not at all. *)
Inductive said : list Buf → list (list Z) → Prop :=
| said_nil : said [] []
| said_sent bs ms b m : said bs ms → b_len b ≤ Z.of_nat (length m) →
    b_head b = take (Z.to_nat (b_len b)) m → said (bs ++ [b]) (ms ++ [m])
| said_lost bs ms m : said bs ms → said bs (ms ++ [m]).

Section Talk.
Context `{P : Profile}.

(** Reading leaves what was sent alone. *)
Lemma drain_message_sent (t : TcpStream) w r t' w' :
  drain_message t w = Done ((r, t'), w') → sk_sent (t_sock t') = sk_sent (t_sock t).
Proof.
  unfold drain_message. generalize (S (backlog t)), (@nil Z). intros fuel. revert t w.
  induction fuel as [|fuel IH]; intros t w buf H; [done|]. cbn [drain_loop] in H.
  mrun H. cbn in Hm. unfold TcpStream_read, ret in Hm.
  destruct (sock_read _ _) as [r0 s0] eqn:E. injection Hm as <- <- <-.
  assert (sk_sent s0 = sk_sent (t_sock t)) as Hs.
  { unfold sock_read in E. repeat case_match; by simplify_eq/=. }
  repeat case_match; try (mrun H; done); apply IH in H; simpl in H; congruence.
Qed.

(** One write on the socket. *)
Lemma TcpStream_write_said t m w r t' w' ms :
  TcpStream_write t (buf_of m) w = Done ((r, t'), w') → said (sk_sent (t_sock t)) ms →
  match r with
  | IoOk _ => said (sk_sent (t_sock t')) (ms ++ [m])
  | IoErr _ => sk_sent (t_sock t') = sk_sent (t_sock t)
  end.
Proof.
  unfold TcpStream_write, ret. intros Hw Hs. destruct (sock_write _ _) as [r0 s0] eqn:E.
  injection Hw as <- <- <-. apply sock_write_sent in E as (bs & E & Hr).
  destruct r0 as [n|e]; simpl; rewrite E.
  - destruct Hr as (b & -> & Hl & Hle & Hb). constructor; [done| |]; simpl in *; congruence.
  - by rewrite Hr, app_nil_r.
Qed.

(** A write either puts the message, or the part that was accepted, on the
    connection, or loses it; an error that is returned has sent nothing. *)
Lemma write_socket_said t m w r t' w' ms :
  write_socket t (buf_of m) w = Done ((r, t'), w') → said (sk_sent (t_sock t)) ms →
  match r with
  | IoOk _ => said (sk_sent (t_sock t')) (ms ++ [m])
  | IoErr _ => said (sk_sent (t_sock t')) ms
  end.
Proof.
  unfold write_socket. intros H Hs. mrun H.
  match goal with H : TcpStream_write _ _ _ = _ |- _ =>
    eapply TcpStream_write_said in H; [|exact Hs] end.
  case_match; [by mrun H|]. repeat case_match; mrun H; try constructor; congruence.
Qed.

Lemma send_state_said t st w t' w' ms :
  send_state t st w = Done (t', w') → said (sk_sent (t_sock t)) ms →
  said (sk_sent (t_sock t')) (ms ++ [[TestState_as_u8 st]]).
Proof.
  unfold send_state. intros H Hs. mrun H.
  match goal with H : write_socket _ _ _ = _ |- _ =>
    eapply write_socket_said in H; [|exact Hs] end.
  case_match; by mrun H.
Qed.
End Talk.
