(* ===== verification/Node.v ===== *)
(** * What the two event loops share

    A node is the implementation object, the test and the world; the handlers
    are computations on nodes.  An event is a token with its readiness, and a
    batch of events is what one [poll] returns. *)
From S2P Require Import Prelude Env Tcp TestCore.

Record Node (I : Type) : Type := mkNode { n_impl : I; n_test : Test; n_world : World }.
Arguments mkNode {I} _ _ _.
Arguments n_impl {I} _.
Arguments n_test {I} _.
Arguments n_world {I} _.

Section Access.
Context {I : Type}.

Definition onWorld {A} (m : M World A) : M (Node I) A := fun s =>
  match m (n_world s) with
  | Done (a, w) => Done (a, mkNode (n_impl s) (n_test s) w)
  | Crash c => Crash c
  end.

Definition getTest : M (Node I) Test := fun s => Done (n_test s, s).
Definition putTest (t : Test) : M (Node I) () := fun s =>
  Done ((), mkNode (n_impl s) t (n_world s)).
Definition modTest (f : Test → Test) : M (Node I) () := fun s =>
  Done ((), mkNode (n_impl s) (f (n_test s)) (n_world s)).
Definition getImpl : M (Node I) I := fun s => Done (n_impl s, s).
Definition modImpl (f : I → I) : M (Node I) () := fun s =>
  Done ((), mkNode (f (n_impl s)) (n_test s) (n_world s)).

(** An effectful method of the test. *)
Definition updTest (f : Test → M World Test) : M (Node I) () :=
  let! t := getTest in let! t' := onWorld (f t) in putTest t'.
End Access.

(** ** Events *)

Record Event : Type := mkEvent { ev_token : Z; ev_readable : bool; ev_writable : bool }.

Definition CONTROL : Z := 1024.

(** How the body of the [for event in events] loop ends: with the next event,
    with a [break], or with a [return Ok(v)]. *)
Inductive Flow : Type := Next | Break | Return (v : Z).

Section Loop.
Context {I : Type} (handle : Event → M (Node I) (io_result Flow)).

(** One batch; [Some v] is the value returned. *)
Fixpoint handle_events (evs : list Event) : M (Node I) (io_result (option Z)) :=
  match evs with
  | [] => ret (IoOk None)
  | ev :: evs' =>
      let? f := handle ev in
      match f with
      | Next => handle_events evs'
      | Break => ret (IoOk None)
      | Return v => ret (IoOk (Some v))
      end
  end.

Context (idle : M (Node I) (io_result (option Z))).

(** The outer [loop]: [idle] is what happens on an empty batch.  The result
    is [None] when the batches are used up and the program waits in [poll]. *)
Fixpoint event_loop (batches : list (list Event)) : M (Node I) (io_result (option Z)) :=
  match batches with
  | [] => ret (IoOk None)
  | evs :: rest =>
      let? _ := onWorld (syscall SysPoll) in
      let? r := match evs with [] => idle | _ => handle_events evs end in
      match r with
      | Some v => ret (IoOk (Some v))
      | None => event_loop rest
      end
  end.
End Loop.

(** ** Taking a run of a node apart *)

Section NodeFacts.
Context {I : Type}.
Implicit Types (s : Node I).

Lemma onWorld_Done {A} (m : M World A) s r :
  onWorld m s = Done r ↔
  ∃ a w, m (n_world s) = Done (a, w) ∧ r = (a, mkNode (n_impl s) (n_test s) w).
Proof.
  unfold onWorld. destruct (m (n_world s)) as [[a w]|c]; split.
  - intros [= <-]. by eauto.
  - by intros (? & ? & [= -> ->] & ->).
  - done.
  - by intros (? & ? & ? & _).
Qed.

Lemma updTest_Done (f : Test → M World Test) s r :
  updTest f s = Done r ↔
  ∃ t w, f (n_test s) (n_world s) = Done (t, w) ∧ r = ((), mkNode (n_impl s) t w).
Proof.
  unfold updTest, getTest, putTest. unfold bindM at 1. rewrite bindM_Done. split.
  - intros (t & s' & H & Hr). apply onWorld_Done in H as (t' & w & Hf & [= -> ->]).
    simpl in Hr. injection Hr as <-. by eauto.
  - intros (t & w & Hf & ->). eexists t, _. rewrite onWorld_Done. by eauto 10.
Qed.

(** A computation that does not touch the test. *)
Definition keeps_test {A} (m : M (Node I) A) : Prop :=
  ∀ s a s', m s = Done (a, s') → n_test s' = n_test s.

Lemma keeps_ret {A} (a : A) : keeps_test (ret a).
Proof. intros s b s' H. unfold ret in H. by simplify_eq. Qed.
Lemma keeps_liftR {A} (r : res A) : keeps_test (liftR r).
Proof. intros s b s' H. mrun H. done. Qed.
Lemma keeps_crash {A} c : keeps_test (@crashM _ A c).
Proof. done. Qed.
Lemma keeps_panic {A} c : keeps_test (@panic _ A c).
Proof. done. Qed.
Lemma keeps_onWorld {A} (m : M World A) : keeps_test (onWorld m).
Proof. intros s a s' H. by apply onWorld_Done in H as (? & ? & _ & [= -> ->]). Qed.
Lemma keeps_getTest : keeps_test getTest.
Proof. intros s a s' H. by injection H as <- <-. Qed.
Lemma keeps_getImpl : keeps_test getImpl.
Proof. intros s a s' H. by injection H as <- <-. Qed.
Lemma keeps_modImpl f : keeps_test (modImpl f).
Proof. intros s a s' H. by injection H as <- <-. Qed.
Lemma keeps_bind {A B} (m : M (Node I) A) (f : A → M (Node I) B) :
  keeps_test m → (∀ a, keeps_test (f a)) → keeps_test (bindM m f).
Proof.
  intros Hm Hf s a s' H. apply bindM_Done in H as (b & s1 & H1 & H2).
  apply Hm in H1. apply Hf in H2. congruence.
Qed.
Lemma keeps_bindIo {A B} (m : M (Node I) (io_result A)) (f : A → M (Node I) (io_result B)) :
  keeps_test m → (∀ a, keeps_test (f a)) → keeps_test (bindIo m f).
Proof.
  intros Hm Hf. apply keeps_bind; [done|]. intros [a|e]; [apply Hf|apply keeps_ret].
Qed.
End NodeFacts.

Create HintDb keeps discriminated.
#[export] Hint Constants Opaque : keeps.
#[export] Hint Variables Opaque : keeps.
#[export] Hint Resolve keeps_ret keeps_liftR keeps_crash keeps_panic keeps_onWorld
  keeps_getTest keeps_getImpl keeps_modImpl keeps_bind keeps_bindIo : keeps.
#[export] Hint Extern 1 (keeps_test (match ?x with _ => _ end)) => destruct x : keeps.
#[export] Hint Extern 1 (∀ _, keeps_test _) => intro : keeps.

(** Nodes' own operations, for [mrun]; states are named by what comes first. *)
Ltac mrun_inj H := first [injection H as <- <- | simplify_eq]; simpl in *.
Ltac mrun_hook H ::=
  lazymatch type of H with
  | onWorld _ _ = Done _ =>
      let Hw := fresh "Hw" in
      apply onWorld_Done in H; destruct H as (? & ? & Hw & H); simplify_eq/=; mrun_step Hw
  | updTest _ _ = Done _ =>
      let Hw := fresh "Hw" in
      apply updTest_Done in H; destruct H as (? & ? & Hw & H); simplify_eq/=
  | getTest _ = Done _ => unfold getTest in H; mrun_inj H
  | getImpl _ = Done _ => unfold getImpl in H; mrun_inj H
  | putTest _ _ = Done _ => unfold putTest in H; mrun_inj H
  | modTest _ _ = Done _ => unfold modTest in H; mrun_inj H
  | modImpl _ _ = Done _ => unfold modImpl in H; mrun_inj H
  | _ => idtac
  end.

(** A reflexive and transitive relation that every event respects is respected
    by the whole loop. *)
Section LoopRel.
Context {I : Type} (handle : Event → M (Node I) (io_result Flow)).
Context (idle : M (Node I) (io_result (option Z))).
Context (R : Node I → Node I → Prop) `{!PreOrder R}.
Context (R_handle : ∀ ev s f s', handle ev s = Done (f, s') → R s s').
Context (R_idle : ∀ s r s', idle s = Done (r, s') → R s s').
Context (R_world : ∀ s w, R s (mkNode (n_impl s) (n_test s) w)).

Lemma handle_events_rel evs s r s' : handle_events handle evs s = Done (r, s') → R s s'.
Proof using R_handle PreOrder0.
  revert s. induction evs as [|ev evs IH]; intros s H; cbn [handle_events] in H.
  - mrun H. reflexivity.
  - mrun H; [|by eapply R_handle].
    match goal with H : handle ev s = Done (IoOk ?f, ?s1) |- _ =>
      apply R_handle in H; etrans; [exact H|]; destruct f end; mrun H; [|reflexivity..].
    by apply IH.
Qed.

Lemma event_loop_rel batches s r s' :
  event_loop handle idle batches s = Done (r, s') → R s s'.
Proof using R_handle R_idle R_world PreOrder0.
  revert s. induction batches as [|evs rest IH]; intros s H; cbn [event_loop] in H.
  - mrun H. reflexivity.
  - mrun H; try (by apply R_world).
    + match goal with H : _ _ = Done (IoOk ?v, ?s1), H' : _ ?s1 = Done (r, s') |- _ =>
        assert (R s s1) as H1 by
          (etrans; [apply R_world|];
           destruct evs; [by eapply R_idle|by eapply handle_events_rel]);
        destruct v
      end; mrun H; [done|]. etrans; [exact H1|]. by apply IH.
    + etrans; [apply R_world|].
      destruct evs; [by eapply R_idle|by eapply handle_events_rel].
Qed.
End LoopRel.

(** An invariant of the nodes that a failing handler may leave: then only [Post]
    is left, with which the loop ends. *)
Section LoopPost.
Context {I : Type} (handle : Event → M (Node I) (io_result Flow)).
Context (idle : M (Node I) (io_result (option Z))).
Context (Inv Post : Node I → Prop) (Inv_Post : ∀ s, Inv s → Post s).

Definition after {A} (r : io_result A) (s : Node I) : Prop :=
  match r with IoOk _ => Inv s | IoErr _ => Post s end.

Context (H_handle : ∀ ev s r s', handle ev s = Done (r, s') → Inv s → after r s').
Context (H_idle : ∀ s r s', idle s = Done (r, s') → Inv s → after r s').
Context (H_world : ∀ s w, Inv s → Inv (mkNode (n_impl s) (n_test s) w)).

Lemma handle_events_after evs s r s' :
  handle_events handle evs s = Done (r, s') → Inv s → after r s'.
Proof using H_handle.
  revert s. induction evs as [|ev evs IH]; intros s H HI; cbn [handle_events] in H.
  - mrun H. done.
  - mrun H; match goal with H1 : handle ev s = Done _ |- _ => apply H_handle in H1; [|done] end; [|done].
    match type of H with (match ?f with _ => _ end) _ = _ => destruct f end; mrun H; [|done..].
    by apply IH in H.
Qed.

Lemma event_loop_after batches s r s' :
  event_loop handle idle batches s = Done (r, s') → Inv s → Post s'.
Proof using H_handle H_idle H_world Inv_Post.
  revert s. induction batches as [|evs rest IH]; intros s H HI; cbn [event_loop] in H.
  - mrun H. auto.
  - mrun H; try (by apply Inv_Post, H_world).
    + match goal with H1 : _ _ = Done (IoOk ?v, ?s1) |- _ => assert (after (IoOk v) s1) as HA by
        (destruct evs; [eapply H_idle|eapply handle_events_after]; eauto) end.
      match type of H with (match ?v with _ => _ end) _ = _ => destruct v end; mrun H; [by auto|].
      by apply IH in H.
    + match goal with H1 : _ _ = Done (IoErr ?e, ?s1) |- _ => assert (after (@IoErr (option Z) e) s1) as HA by
        (destruct evs; [eapply H_idle|eapply handle_events_after]; eauto) end.
      exact HA.
Qed.
End LoopPost.

(** ** Invariants of the test

    [preserves Inv m]: a run of [m] that comes to an end leaves [Inv] true if
    it was.  The rules follow the way handlers are written: what was read from
    the test satisfies [Inv], and the results of pure and of world
    computations come with their equations. *)
Section Preserves.
Context {I : Type} (Inv : Test → Prop).

Definition preserves {A} (m : M (Node I) A) : Prop :=
  ∀ s a s', m s = Done (a, s') → Inv (n_test s) → Inv (n_test s').

Lemma preserves_keeps {A} (m : M (Node I) A) : keeps_test m → preserves m.
Proof. intros Hm s a s' H HI. by rewrite (Hm _ _ _ H). Qed.

Lemma preserves_bind {A B} (m : M (Node I) A) (f : A → M (Node I) B) :
  preserves m → (∀ a, preserves (f a)) → preserves (bindM m f).
Proof.
  intros Hm Hf s b s' H HI. apply bindM_Done in H as (a & s1 & H1 & H2).
  eapply Hf; [exact H2|]. by eapply Hm.
Qed.

Lemma preserves_bindIo {A B} (m : M (Node I) (io_result A)) (f : A → M (Node I) (io_result B)) :
  preserves m → (∀ a, preserves (f a)) → preserves (bindIo m f).
Proof.
  intros Hm Hf. apply preserves_bind; [done|]. intros [a|e]; [done|].
  apply preserves_keeps, keeps_ret.
Qed.

Lemma preserves_getTest {A} (f : Test → M (Node I) A) :
  (∀ t, Inv t → preserves (f t)) → preserves (bindM getTest f).
Proof. intros Hf s b s' H HI. exact (Hf (n_test s) HI s b s' H HI). Qed.

Lemma preserves_liftR {A B} (r : res A) (f : A → M (Node I) B) :
  (∀ a, r = Done a → preserves (f a)) → preserves (bindM (liftR r) f).
Proof.
  intros Hf s b s' H HI. apply bindM_Done in H as (a & s1 & H1 & H2).
  apply liftR_Done in H1 as (a' & Hr & [= -> ->]). by eapply Hf.
Qed.

Lemma preserves_onWorld {A B} (m : M World A) (f : A → M (Node I) B) :
  (∀ a w w', m w = Done (a, w') → preserves (f a)) → preserves (bindM (onWorld m) f).
Proof.
  intros Hf s b s' H HI. apply bindM_Done in H as (a & s1 & H1 & H2).
  apply onWorld_Done in H1 as (a' & w & Hr & [= -> ->]). by eapply Hf.
Qed.

Lemma preserves_onWorldIo {A B} (m : M World (io_result A)) (f : A → M (Node I) (io_result B)) :
  (∀ a w w', m w = Done (IoOk a, w') → preserves (f a)) → preserves (bindIo (onWorld m) f).
Proof.
  intros Hf. apply preserves_onWorld. intros [a|e] w w' H; [by eapply Hf|].
  apply preserves_keeps, keeps_ret.
Qed.

Lemma preserves_modTest f : (∀ t, Inv t → Inv (f t)) → preserves (modTest f).
Proof. intros Hf s a s' H HI. injection H as <- <-. by apply Hf. Qed.

Lemma preserves_putTest t : Inv t → preserves (putTest t).
Proof. intros Ht s a s' H HI. by injection H as <- <-. Qed.

Lemma preserves_updTest f :
  (∀ t w t' w', f t w = Done (t', w') → Inv t → Inv t') → preserves (updTest f).
Proof.
  intros Hf s a s' H HI. apply updTest_Done in H as (t & w & H & [= -> ->]). by eapply Hf.
Qed.

(** The invariant survives the whole loop. *)
Lemma preserves_loop handle idle batches :
  (∀ ev, preserves (handle ev)) → preserves idle →
  preserves (event_loop handle idle batches).
Proof.
  intros Hh Hi s r s' H.
  assert (PreOrder (λ s s' : Node I, Inv (n_test s) → Inv (n_test s'))) as HP.
  { split; [intros x; tauto|intros x y z; tauto]. }
  eapply (event_loop_rel handle idle (λ s s', Inv (n_test s) → Inv (n_test s')));
    [intros ev; apply Hh|exact Hi|done|exact H].
Qed.
End Preserves.

(** [preserves_tac]: one rule per construct; computations known to keep the
    test are looked up in [keeps], and the obligations about single updates
    are left. *)
Ltac preserves_step :=
  lazymatch goal with
  | |- preserves _ (match ?x with _ => _ end) => destruct x eqn:?
  | |- preserves _ (bindM getTest _) => apply preserves_getTest; intros ? ?
  | |- preserves _ (bindM (liftR _) _) => apply preserves_liftR; intros ? ?
  | |- preserves _ (bindM (onWorld _) _) => apply preserves_onWorld; intros ? ? ? ?
  | |- preserves _ (bindIo (onWorld _) _) => apply preserves_onWorldIo; intros ? ? ? ?
  | |- preserves _ (bindM _ _) => apply preserves_bind; [|intros ?]
  | |- preserves _ (bindIo _ _) => apply preserves_bindIo; [|intros ?]
  | |- preserves _ (modTest _) => apply preserves_modTest
  | |- preserves _ (putTest _) => apply preserves_putTest
  | |- preserves _ (updTest _) => apply preserves_updTest
  | |- preserves _ _ => solve [apply preserves_keeps; auto with keeps]
  end.
Ltac preserves_tac := repeat preserves_step.
