(* ===== verification/Counters.v ===== *)
(** * Accounting: every byte and block is counted once at each level

    Three levels count the same traffic: the test, its streams and the
    intervals of a stream.  The equations hold modulo [2^64], the width of the
    counters, so they do not depend on the overflow behaviour of the build. *)
From S2P Require Import Prelude F64 Env Kinds Tcp Udp Tls Quic Metrics Report PerfStream TestCore Node.

Definition cong (a b : Z) : Prop := a mod 2 ^ 64 = b mod 2 ^ 64.

#[export] Instance cong_equiv : Equivalence cong.
Proof. split; unfold cong; congruence. Qed.

Lemma cong_add a b c d : cong a b → cong c d → cong (a + c) (b + d).
Proof.
  unfold cong. intros H1 H2. rewrite (Zplus_mod a), (Zplus_mod b), H1, H2. done.
Qed.

#[export] Instance Zadd_cong : Proper (cong ==> cong ==> cong) Z.add.
Proof. intros a b H c d H'. by apply cong_add. Qed.

Lemma cong_fits a b : fits 64 a → fits 64 b → cong a b → a = b.
Proof. unfold fits, cong. intros Ha Hb H. by rewrite !Z.mod_small in H. Qed.

Lemma checked_cong `{Profile} x y : checked 64 x = Done y → cong y x.
Proof.
  intros H'. apply checked_mod in H' as ->; [|lia]. unfold cong. by rewrite Zmod_mod.
Qed.

(** The totals over a stream's intervals, the open one included. *)
Definition interval_bytes (p : PerfStream) : Z :=
  sumZ (map (λ s, sd_bytes (is_data s)) (ps_stats p)) + sd_bytes (ps_temp p).
Definition interval_blks (p : PerfStream) : Z :=
  sumZ (map (λ s, sd_blks (is_data s)) (ps_stats p)) + sd_blks (ps_temp p).

Definition stream_conserved (p : PerfStream) : Prop :=
  cong (interval_bytes p) (sd_bytes (ps_data p)) ∧
  cong (interval_blks p) (sd_blks (ps_data p)).

Definition streams_bytes (ps : list PerfStream) : Z := sumZ (map (λ p, sd_bytes (ps_data p)) ps).
Definition streams_blks (ps : list PerfStream) : Z := sumZ (map (λ p, sd_blks (ps_data p)) ps).

Definition conserved (ps : list PerfStream) (d : StreamData) : Prop :=
  cong (streams_bytes ps) (sd_bytes d) ∧ cong (streams_blks ps) (sd_blks d) ∧
  Forall stream_conserved ps.

Definition test_conserved (t : Test) : Prop := conserved (test_streams t) (test_data t).

(** A stream whose counters, up to loss and retransmissions, are those of
    another one. *)
Definition same_counters (p q : PerfStream) : Prop :=
  sd_bytes (ps_data q) = sd_bytes (ps_data p) ∧ sd_blks (ps_data q) = sd_blks (ps_data p) ∧
  interval_bytes q = interval_bytes p ∧ interval_blks q = interval_blks p.

#[export] Instance same_counters_preorder : PreOrder same_counters.
Proof. split; unfold same_counters; [done|]. intros p q r. intuition congruence. Qed.

Lemma same_counters_conserved p q : same_counters p q → stream_conserved p → stream_conserved q.
Proof. unfold same_counters, stream_conserved. intros (-> & -> & -> & ->). done. Qed.

Lemma conserved_Forall2 ps qs d :
  Forall2 same_counters ps qs → conserved ps d → conserved qs d.
Proof.
  intros HF (Hb & Hk & Hs).
  assert (streams_bytes qs = streams_bytes ps ∧ streams_blks qs = streams_blks ps) as [E1 E2].
  { clear Hb Hk Hs. unfold streams_bytes, streams_blks.
    induction HF as [|p q ps qs (Hp & Hq & _) HF [IH1 IH2]]; simpl; [done|]. lia. }
  unfold conserved. rewrite E1, E2. split_and!; [done..|]. clear Hb Hk E1 E2.
  induction HF; inversion Hs; subst; constructor; eauto using same_counters_conserved.
Qed.

(** ** Counting on a stream and on its test *)

(** Some number of bytes and blocks went to the stream and to the test
    alike. *)
Definition counted (p p' : PerfStream) (d d' : StreamData) : Prop :=
  ∃ n k, cong (sd_bytes (ps_data p')) (sd_bytes (ps_data p) + n) ∧
    cong (sd_blks (ps_data p')) (sd_blks (ps_data p) + k) ∧
    cong (sd_bytes d') (sd_bytes d + n) ∧ cong (sd_blks d') (sd_blks d + k) ∧
    (stream_conserved p → stream_conserved p').

Lemma counted_refl p q d : same_counters p q → counted p q d d.
Proof.
  intros Hs. exists 0, 0. rewrite !Z.add_0_r. destruct Hs as (H1 & H2 & H3 & H4).
  rewrite H1, H2. split_and!; [done..|]. unfold stream_conserved. by rewrite H1, H2, H3, H4.
Qed.

Lemma counted_trans p1 p2 p3 d1 d2 d3 :
  counted p1 p2 d1 d2 → counted p2 p3 d2 d3 → counted p1 p3 d1 d3.
Proof.
  intros (n & k & A1 & A2 & A3 & A4 & A5) (n' & k' & B1 & B2 & B3 & B4 & B5).
  exists (n + n'), (k + k'). rewrite B1, B2, B3, B4, A1, A2, A3, A4, !Z.add_assoc.
  split_and!; [done..|auto].
Qed.

(** A stream without the statistics its kernel keeps. *)
Definition strip (b : BoxStream) : BoxStream :=
  match b with
  | BTcp t => BTcp (mkTcpStream (t_sock t) (t_mss t) [])
  | BTls e =>
      let t := get_ref (entity e) in
      BTls (mkTlsEndpoint (set_sock (mkTcpStream (t_sock t) (t_mss t) []) (entity e)) (closing e))
  | _ => b
  end.

Section Operations.
Context `{P : Profile}.

(** ** A block counts at all levels *)

Lemma count_block_spec n p d p' d' :
  count_block n p d = Done (p', d') →
  cong (sd_bytes (ps_data p')) (sd_bytes (ps_data p) + n) ∧
  cong (sd_blks (ps_data p')) (sd_blks (ps_data p) + 1) ∧
  cong (sd_bytes d') (sd_bytes d + n) ∧ cong (sd_blks d') (sd_blks d + 1) ∧
  (stream_conserved p → stream_conserved p').
Proof.
  unfold count_block, add_u. intros H. mrun H.
  repeat match goal with Hc : checked _ _ = Done _ |- _ => apply checked_cong in Hc end.
  unfold stream_conserved, interval_bytes, interval_blks. simpl.
  split_and!; try done. intros [Hb Hk]. split.
  - match goal with H1 : cong ?x (sd_bytes (ps_temp p) + n),
      H2 : cong ?y (sd_bytes (ps_data p) + n) |- cong (_ + ?x) ?y => rewrite H1, H2 end.
    rewrite Z.add_assoc. by rewrite Hb.
  - match goal with H1 : cong ?x (sd_blks (ps_temp p) + 1),
      H2 : cong ?y (sd_blks (ps_data p) + 1) |- cong (_ + ?x) ?y => rewrite H1, H2 end.
    rewrite Z.add_assoc. by rewrite Hk.
Qed.

Lemma count_block_stream n p d p' d' :
  count_block n p d = Done (p', d') → ps_stream p' = ps_stream p ∧ ps_timers p' = ps_timers p.
Proof. unfold count_block. intros H. mrun H. done. Qed.

(** One stream of a test gets a block. *)
Lemma conserved_insert ps i p p' d d' n :
  ps !! i = Some p → conserved ps d →
  cong (sd_bytes (ps_data p')) (sd_bytes (ps_data p) + n) →
  cong (sd_bytes d') (sd_bytes d + n) →
  ∀ m, cong (sd_blks (ps_data p')) (sd_blks (ps_data p) + m) →
  cong (sd_blks d') (sd_blks d + m) → stream_conserved p' →
  conserved (<[i:=p']> ps) d'.
Proof.
  intros Hi (Hb & Hk & Hs) H1 H2 m H3 H4 Hp'. unfold conserved.
  assert (∀ f : PerfStream → Z,
    sumZ (map f (<[i:=p']> ps)) = sumZ (map f ps) - f p + f p') as Hsum.
  { intros f. revert i Hi. clear. induction ps as [|q ps IH]; intros [|i] Hi; simplify_eq/=; [lia|].
    rewrite IH by done. lia. }
  unfold streams_bytes, streams_blks in *. rewrite !Hsum. split_and!.
  - rewrite H1, H2, <- Hb. unfold cong. f_equal. lia.
  - rewrite H3, H4, <- Hk. unfold cong. f_equal. lia.
  - by apply Forall_insert.
Qed.

(** ** Closing an interval *)

Lemma interval_data_bytes p d d' p' :
  interval_data p d = Done (d', p') →
  sd_bytes d' = sd_bytes d ∧ sd_blks d' = sd_blks d ∧
  sd_bytes (ps_temp p') = sd_bytes (ps_temp p) ∧ sd_blks (ps_temp p') = sd_blks (ps_temp p) ∧
  ps_stats p' = ps_stats p ∧ ps_data p' = ps_data p ∧ ps_iter p' = ps_iter p.
Proof. unfold interval_data. intros H. mrun H. destruct x; mrun H; done. Qed.

(** [push_stat] moves the open interval to the list: no counter is lost. *)
Lemma push_stat_counters debug p w p' w' :
  push_stat debug p w = Done (p', w') →
  same_counters p p' ∧
  (∃ stat, ps_stats p' = ps_stats p ++ [stat] ∧
     sd_bytes (is_data stat) = sd_bytes (ps_temp p) ∧
     sd_blks (is_data stat) = sd_blks (ps_temp p)) ∧
  sd_bytes (ps_temp p') = 0 ∧ sd_blks (ps_temp p') = 0.
Proof.
  unfold push_stat. intros H. mrun H.
  match goal with Hd : interval_data _ _ = Done _ |- _ =>
    apply interval_data_bytes in Hd as (Hb & Hk & Htb & Htk & Hst & Hda & _) end.
  simpl in *. split_and!; [|eexists; split_and!; simpl|done|done].
  - unfold same_counters, interval_bytes, interval_blks. simpl.
    rewrite Hst, Hda. autorewrite with sums. simpl. lia.
  - by rewrite Hst.
  - done.
  - done.
Qed.

(** Nor does it touch the socket, apart from the kernel's statistics. *)
Lemma print_tcp_info_strip t i t' :
  print_tcp_info t = (i, t') → mkTcpStream (t_sock t') (t_mss t') [] = mkTcpStream (t_sock t) (t_mss t) [].
Proof. unfold print_tcp_info, tcp_info. intros H. repeat case_match; by simplify_eq/=. Qed.

Lemma interval_data_strip p d d' p' :
  interval_data p d = Done (d', p') →
  strip (ps_stream p') = strip (ps_stream p) ∧ ps_timers p' = ps_timers p.
Proof.
  unfold interval_data. intros H. mrun H.
  destruct (ps_stream p) as [t|u|q|e|y] eqn:E; simplify_eq/=.
  - destruct (print_tcp_info t) eqn:Ep. apply print_tcp_info_strip in Ep.
    mrun H. split; simpl in *; congruence.
  - mrun H. simpl. by rewrite E.
  - by rewrite E.
  - destruct (print_tcp_info _) eqn:Ep. apply print_tcp_info_strip in Ep.
    mrun H. destruct e as [[] ?]; split; simpl in *; congruence.
  - match goal with H : Conn_from_i8 _ = Done ?c |- _ => destruct c end;
      mrun H; simpl; by rewrite E.
Qed.

Lemma push_stat_strip debug p w p' w' :
  push_stat debug p w = Done (p', w') → strip (ps_stream p') = strip (ps_stream p).
Proof.
  unfold push_stat. intros H. mrun H.
  match goal with H : interval_data _ _ = _ |- _ => by apply interval_data_strip in H as [H _] end.
Qed.

Lemma start_conserved t w t' w' : start t w = Done (t', w') → test_conserved t → test_conserved t'.
Proof.
  unfold start, test_conserved. intros H Ht. mrun H. simpl.
  eapply conserved_Forall2; [|exact Ht].
  match goal with H : mapM _ _ _ = Done _ |- _ => eapply mapM_Forall2 in H; [exact H|] end.
  intros ? ? ? ? Hx. mrun Hx. done.
Qed.

Lemma end_stream_counters debug p w p' w' :
  end_stream debug p w = Done (p', w') → same_counters p p'.
Proof.
  unfold end_stream. intros H. mrun H.
  match goal with H : (if _ then _ else _) _ = _ |- _ =>
    destruct (0 <? sd_bytes (ps_temp p)); [apply push_stat_counters in H as [H _]|mrun H] end;
  done.
Qed.

Lemma end_totals_counters c debug p p' : end_totals c debug p = Done p' → same_counters p p'.
Proof.
  unfold end_totals. intros H. destruct c; mrun H; try done.
  destruct debug; by mrun H.
Qed.

Lemma end_sums_data t t' :
  end_sums t = Done t' →
  test_streams t' = test_streams t ∧ sd_bytes (test_data t') = sd_bytes (test_data t) ∧
  sd_blks (test_data t') = sd_blks (test_data t).
Proof. unfold end_sums. intros H. destruct (conn t); mrun H; done. Qed.

Lemma conserved_data ps d d' :
  sd_bytes d' = sd_bytes d → sd_blks d' = sd_blks d → conserved ps d → conserved ps d'.
Proof. unfold conserved. by intros -> ->. Qed.

Lemma end_test_conserved t w t' w' :
  end_test t w = Done (t', w') → test_conserved t → test_conserved t'.
Proof.
  unfold end_test, test_conserved. intros H Ht. mrun H. simpl.
  match goal with H : end_sums _ = Done _ |- _ => apply end_sums_data in H as (-> & Hb & Hk) end.
  eapply conserved_data; [exact Hb|exact Hk|]. simpl.
  repeat match goal with H : mapM _ _ _ = Done _ |- _ => revert H end. intros M1 M2.
  eapply mapM_Forall2 in M1; [|intros ????; apply end_stream_counters].
  eapply mapM_Forall2 in M2; [|intros ???? Hx; mrun Hx; by eapply end_totals_counters].
  eapply conserved_Forall2; [exact M2|]. by eapply conserved_Forall2.
Qed.

Lemma PerfStream_new_conserved b mode w p w' :
  PerfStream_new b mode w = Done (p, w') →
  stream_conserved p ∧ sd_bytes (ps_data p) = 0 ∧ sd_blks (ps_data p) = 0.
Proof. unfold PerfStream_new. intros H. mrun H. done. Qed.

Lemma push_conserved t p :
  stream_conserved p ∧ sd_bytes (ps_data p) = 0 ∧ sd_blks (ps_data p) = 0 →
  test_conserved t → test_conserved (with_test_streams (test_streams t ++ [p]) t).
Proof.
  intros (Hp & Hb & Hk) (H1 & H2 & H3). unfold test_conserved, conserved, streams_bytes, streams_blks in *.
  simpl. autorewrite with sums. simpl. rewrite Hb, Hk, !Z.add_0_r.
  split_and!; [done..|]. apply Forall_app. by split; [|constructor].
Qed.
End Operations.
