(* ===== verification/Widths.v ===== *)
(** * Every number keeps the width of its field

    The fields of the program's structures are [u8], [u16], [u32], [u64] and
    [usize]; the model has [Z].  These are the types as predicates: what the
    command line stores is of its types, the operations on streams and tests
    keep them, and intervals are numbered as they are closed. *)
From S2P Require Import Prelude F64 Params Env Kinds Tcp Udp Tls Quic Metrics Report PerfStream.
From S2P Require Import TestCore Node.

Create HintDb width discriminated.

(** ** Arithmetic *)

Section Arith.
Context `{P : Profile}.

Lemma fits_zero w : 0 ≤ w → fits w 0.
Proof. intros H. split; [lia|]. by apply Z.pow_pos_nonneg. Qed.

Lemma add_u_range w x y z : 0 ≤ w → add_u w x y = Done z → fits w z.
Proof. apply checked_range. Qed.
Lemma sub_u_range w x y z : 0 ≤ w → sub_u w x y = Done z → fits w z.
Proof. apply checked_range. Qed.
Lemma mul_u_range w x y z : 0 ≤ w → mul_u w x y = Done z → fits w z.
Proof. apply checked_range. Qed.

Lemma sum_u_range w l z : 0 ≤ w → sum_u w l = Done z → fits w z.
Proof.
  intros Hw H. apply sum_u_mod in H as ->; [|done]. apply Z.mod_pos_bound.
  by apply Z.pow_pos_nonneg.
Qed.
End Arith.

(** Proves [fits 64 x] and the like from the operation that made [x]. *)
Ltac width :=
  first
    [ assumption
    | eapply add_u_range; [|eassumption]; lia
    | eapply sub_u_range; [|eassumption]; lia
    | eapply mul_u_range; [|eassumption]; lia
    | eapply sum_u_range; [|eassumption]; lia
    | apply fits_zero; lia
    | unfold fits; simpl; lia ].

(** ** The command line *)

(** What the parser of each option's type lets through. *)
Definition opt_ok (o : Opt) : Prop :=
  match o with
  | OptPort n => fits 16 n
  | OptTime n | OptBlocks n => fits 64 n
  | OptLength n | OptMss n => fits 32 n
  | OptParallel n => fits 8 n
  | _ => True
  end.

Definition vars_ok (v : ArgVars) : Prop :=
  fits 16 (a_port v) ∧ fits 8 (a_num_streams v) ∧ fits 32 (a_mss v) ∧ fits 64 (a_time v) ∧
  fits 64 (a_blks v) ∧ fits 32 (a_length v).

Definition params_ok (p : PerfParams) : Prop :=
  fits 16 (p_port p) ∧ fits 32 (p_recv_timeout p) ∧ fits 32 (p_idle_timeout p) ∧
  fits 8 (p_num_streams p) ∧ fits 32 (p_mss p) ∧ fits 64 (p_bitrate p) ∧ fits 64 (p_time p) ∧
  fits 64 (p_bytes p) ∧ fits 64 (p_blks p) ∧ fits 32 (p_length p) ∧ fits 32 (p_sendbuf p) ∧
  fits 32 (p_recvbuf p).

Lemma store_ok v o : opt_ok o → vars_ok v → vars_ok (store v o).
Proof. destruct v, o; unfold vars_ok; simpl; tauto. Qed.

Lemma stores_ok opts v : Forall opt_ok opts → vars_ok v → vars_ok (foldl store v opts).
Proof.
  intros H. revert v. induction H as [|o opts Ho _ IH]; intros v Hv; [done|].
  apply IH. by apply store_ok.
Qed.

Lemma parse_digits_range w acc cs v : fits w acc → parse_digits w acc cs = Some v → fits w v.
Proof.
  revert acc. induction cs as [|c cs IH]; intros acc Ha H; cbn [parse_digits] in H; [by simplify_eq|].
  destruct (is_digit c) eqn:Hd; [|done]. cbv zeta in H.
  destruct (Z.ltb_spec (acc * 10 + (c - 48)) (2 ^ w)); [|done].
  eapply IH; [|exact H]. unfold is_digit in Hd. rewrite andb_true_iff, !Z.leb_le in Hd.
  unfold fits in *. lia.
Qed.

Lemma parse_u_range w cs v : 0 ≤ w → parse_u w cs = Some v → fits w v.
Proof.
  intros Hw. unfold parse_u. destruct cs as [|c cs]; [done|]. pose proof (fits_zero w Hw).
  destruct (c =? 43); [destruct cs as [|]; [done|]|]; by apply parse_digits_range.
Qed.

Section CommandLine.
Context `{P : Profile} `{U : Unicode}.

Lemma getrate_range s v : getrate_in_bits s = Done v → fits 64 v.
Proof.
  unfold getrate_in_bits. case_bool_decide; [intros [= <-]; width|]. intros H'. mrun H'.
  unfold unwrap in *. repeat (case_match; simplify_eq/=; mrun H'); try width;
    try (by eapply parse_u_range; [|eassumption]).
  all: unfold kmg_to_bits in *; repeat case_match; mrun H'; try width;
    by eapply parse_u_range; [|eassumption].
Qed.

Lemma parse_args_ok opts param :
  Forall opt_ok opts → parse_args opts = Done param → params_ok param.
Proof.
  intros Ho H. assert (vars_ok (foldl store arg_defaults opts)) as Hv
    by (apply stores_ok; [done|by vm_compute]).
  unfold parse_args in H. cbv zeta in H. case_match; [done|]. mrun H.
  repeat match goal with H : getrate_in_bits _ = _ |- _ => apply getrate_range in H end.
  unfold vars_ok in Hv. unfold params_ok. simpl. unfold DEFAULT_SESSION_TIMEOUT.
  destruct Hv as (? & ? & ? & ? & ? & ?). split_and!; width.
Qed.
End CommandLine.

(** ** Streams *)

(** The intervals carry their numbers, from zero. *)
Definition numbered (p : PerfStream) : Prop :=
  ps_iter p = Z.of_nat (length (ps_stats p)) mod 2 ^ 64 ∧
  ∀ i s, ps_stats p !! i = Some s → is_iter s = Z.of_nat i mod 2 ^ 64.

Definition stream_ok (p : PerfStream) : Prop :=
  data_ok (ps_data p) ∧ data_ok (ps_temp p) ∧ Forall (λ s, data_ok (is_data s)) (ps_stats p) ∧
  numbered p.

Definition test_ok (t : Test) : Prop :=
  settings_ok (test_settings t) ∧ fits 8 (test_cookie_count t) ∧ fits 16 (test_reset_counter t) ∧
  data_ok (test_data t) ∧ data_ok (test_peer t) ∧
  Forall stream_ok (test_streams t) ∧ Forall stream_ok (test_peer_streams t).

Lemma data_ok_default : data_ok StreamData_default.
Proof. by vm_compute. Qed.

(** The kernel's four-byte fields. *)
Lemma from_le_bytes_range bs : fits (8 * Z.of_nat (length bs)) (from_le_bytes bs).
Proof.
  induction bs as [|b bs IH]; [by vm_compute|]. cbn [from_le_bytes foldr length].
  fold (from_le_bytes bs). pose proof (Byte.to_N_bounded b).
  replace (8 * Z.of_nat (S (length bs))) with (8 + 8 * Z.of_nat (length bs)) by lia.
  unfold fits in *. rewrite Z.pow_add_r by lia. change (2 ^ 8) with 256. lia.
Qed.

Lemma load_range mem off w : 0 ≤ w → fits (8 * w) (load mem off w).
Proof.
  intros Hw. unfold load. set (bs := take _ _).
  assert (Z.of_nat (length bs) ≤ w) as Hl by (subst bs; rewrite length_take; lia).
  destruct (from_le_bytes_range bs) as [H0 H]. split; [done|].
  eapply Z.lt_le_trans; [exact H|]. apply Z.pow_le_mono_r; lia.
Qed.

Lemma retrans_at mem : tcpi_total_retrans (TcpInfo_at mem) = load mem 100 4.
Proof. reflexivity. Qed.

Lemma print_tcp_info_retrans s i s' :
  print_tcp_info s = (i, s') → fits 32 (tcpi_total_retrans i).
Proof.
  unfold print_tcp_info, tcp_info. intros H. repeat case_match; simplify_eq;
    try (rewrite retrans_at; by apply (load_range _ 100 4)); by apply fits_zero.
Qed.

Section Streams.
Context `{P : Profile}.

Lemma count_block_ok n p d p' d' :
  count_block n p d = Done (p', d') → stream_ok p → data_ok d → stream_ok p' ∧ data_ok d'.
Proof.
  unfold count_block. intros H (H1 & H2 & H3 & H4) H5. mrun H.
  unfold stream_ok, data_ok in *. simpl in *. split_and!; try tauto; width.
Qed.

Lemma interval_data_ok p d d' p' :
  interval_data p d = Done (d', p') → data_ok d → stream_ok p →
  data_ok d' ∧ stream_ok p' ∧ ps_iter p' = ps_iter p ∧ ps_stats p' = ps_stats p.
Proof.
  unfold interval_data. intros H Hd (H1 & H2 & H3 & H4). mrun H.
  assert (∀ tinfo stream, fits 32 (tcpi_total_retrans tinfo) →
    stream_ok (with_ps_temp (with_retr (tcpi_total_retrans tinfo) (ps_temp p))
                 (with_ps_stream stream p))) as Ht.
  { intros tinfo stream Hr. unfold stream_ok, data_ok in *. simpl. tauto. }
  match type of H with match ?c with _ => _ end = _ => destruct c end; mrun H;
    repeat (case_match; mrun H); simplify_eq;
    repeat match goal with H : print_tcp_info _ = _ |- _ => apply print_tcp_info_retrans in H end;
    (split; [unfold data_ok in *; simpl; split_and!; try tauto; width|]);
    split; auto; by split_and!.
Qed.

Lemma push_stat_ok debug p w p' w' :
  push_stat debug p w = Done (p', w') → stream_ok p → stream_ok p'.
Proof.
  unfold push_stat. intros H Hp. mrun H.
  match goal with H : interval_data _ _ = Done _ |- _ =>
    apply interval_data_ok in H as (Hd & (H1 & H2 & H3 & H4 & H5) & Hi & Hs) end;
    [|destruct Hp as (_ & Hp & _); unfold data_ok in *; simpl; split_and!; try tauto; width|done].
  unfold stream_ok, numbered. simpl. split_and!; [done| | | |].
  - unfold data_ok in *. simpl. split_and!; try tauto; width.
  - apply Forall_app. split; [done|]. by constructor.
  - rewrite length_app. match goal with H : add_u _ _ _ = Done _ |- _ =>
      apply checked_mod in H as ->; [|lia] end.
    rewrite H4, Zplus_mod_idemp_l. f_equal. simpl. lia.
  - intros i stat [[? Hl]|[-> Hl]]%lookup_snoc_Some; [|simplify_eq].
    + by apply H5.
    + simpl. rewrite <- Hi. exact H4.
Qed.

Lemma PerfStream_new_ok b mode w p w' : PerfStream_new b mode w = Done (p, w') → stream_ok p.
Proof. unfold PerfStream_new. intros H. mrun H. split_and!; try apply data_ok_default; done. Qed.

Lemma stream_of_wire_ok x w p w' :
  stream_of_wire x w = Done (p, w') → stream_wire_ok x → stream_ok p.
Proof.
  unfold stream_of_wire. intros H (_ & _ & _ & Hx). mrun H.
  match goal with H : ret _ _ = _ |- _ => mrun H | _ => idtac end.
  split_and!; try done; apply data_ok_default.
Qed.
End Streams.

(** ** Tests *)

Lemma Forall_results {W A B} (f : A → M W B) (I : A → Prop) (J : B → Prop) l w l' w' :
  (∀ x w0 y w1, f x w0 = Done (y, w1) → I x → J y) →
  mapM f l w = Done (l', w') → Forall I l → Forall J l'.
Proof.
  intros Hf H HI. eapply (mapM_Forall2 f (λ x y, I x → J y)) in H; [|exact Hf].
  induction H; inversion HI; subst; constructor; auto.
Qed.

Lemma settings_from_ok param c :
  params_ok param → settings_ok c → settings_ok (settings_from param c).
Proof.
  intros (H1 & H2 & H3 & H4 & H5 & H6 & H7 & H8 & H9 & H10 & H11 & H12) Hc.
  assert (∀ w x, fits 32 x → 32 ≤ w → fits w x) as Hw.
  { intros w x [? Hx] ?. split; [done|]. eapply Z.lt_le_trans; [exact Hx|]. apply Z.pow_le_mono_r; lia. }
  assert (∀ x, fits 64 x → 0 ≤ from_secs x < 2 ^ 64 * NANOS_PER_SEC) as Ht
    by (unfold fits, from_secs, NANOS_PER_SEC; intros; lia).
  unfold settings_ok in *. unfold settings_from.
  repeat case_match; simpl; split_and!; auto; try tauto; try (by apply Hw);
    by first [apply Ht | vm_compute].
Qed.

Lemma settings_default_ok : settings_ok Settings_default.
Proof. by vm_compute. Qed.

(** A test made from the command line is well typed. *)
Lemma Test_from_ok param w t w' :
  params_ok param → Test_from param w = Done (t, w') → test_ok t.
Proof.
  intros Hp H. unfold Test_from, Test_new in H. mrun H.
  match goal with H : ret _ _ = Done _ |- _ => mrun H | _ => idtac end.
  unfold set_idle_timeout. unfold test_ok. case_match; simpl; split_and!;
    try done; try apply data_ok_default; by apply settings_from_ok.
Qed.

Section Tests.
Context `{P : Profile}.

Lemma stream_ok_timers v p : stream_ok p → stream_ok (with_ps_timers v p).
Proof. done. Qed.

Lemma test_ok_streams t ps :
  test_ok t → Forall stream_ok ps → test_ok (with_test_streams ps t).
Proof. unfold test_ok. simpl. tauto. Qed.

Lemma test_ok_set_stream t i p :
  test_ok t → stream_ok p → test_ok (with_test_streams (<[i:=p]> (test_streams t)) t).
Proof.
  intros Ht Hp. apply test_ok_streams; [done|]. apply Forall_insert; [|done].
  by destruct Ht as (_ & _ & _ & _ & _ & Ht & _).
Qed.

Lemma test_ok_push t p :
  test_ok t → stream_ok p → test_ok (with_test_streams (test_streams t ++ [p]) t).
Proof.
  intros Ht Hp. apply test_ok_streams; [done|]. apply Forall_app. split; [|by constructor].
  by destruct Ht as (_ & _ & _ & _ & _ & Ht & _).
Qed.

Lemma test_ok_data t d : test_ok t → data_ok d → test_ok (with_test_data d t).
Proof. unfold test_ok. simpl. tauto. Qed.

Lemma start_ok t w t' w' : start t w = Done (t', w') → test_ok t → test_ok t'.
Proof.
  unfold start. intros H Ht. mrun H. apply (test_ok_streams t); [done|].
  match goal with H : mapM _ _ _ = _ |- _ => eapply (Forall_results _ stream_ok stream_ok) in H; [exact H| |] end.
  - intros p w0 q w1 Hq Hp. cbv beta in Hq. mrun Hq. exact Hp.
  - by destruct Ht as (_ & _ & _ & _ & _ & Ht & _).
Qed.

Lemma end_stream_ok debug p w p' w' :
  end_stream debug p w = Done (p', w') → stream_ok p → stream_ok p'.
Proof.
  unfold end_stream. intros H Hp. mrun H.
  match goal with H : (if _ then _ else _) _ = Done (?q, _) |- _ =>
    assert (stream_ok q) as Hq by (destruct (0 <? sd_bytes (ps_temp p));
      [by eapply push_stat_ok|mrun H; done]) end.
  exact Hq.
Qed.

Lemma end_totals_ok c debug p p' : end_totals c debug p = Done p' → stream_ok p → stream_ok p'.
Proof.
  unfold end_totals. intros H (H1 & H2 & H3 & H4).
  assert (∀ d b, data_ok d → stream_ok (with_ps_data d (with_ps_stream b p))) as Hok
    by (intros d b Hd; by split_and!).
  destruct c; apply bindR_Done in H as (x & Hx & H).
  - destruct (print_tcp_info x) eqn:E. apply print_tcp_info_retrans in E. simplify_eq.
    apply Hok. unfold data_ok in *. simpl. tauto.
  - simplify_eq. split_and!; try done. unfold data_ok in *. simpl. split_and!; try tauto. width.
  - destruct debug; mrun H; by split_and!.
  - destruct (print_tcp_info _) eqn:E in H. apply print_tcp_info_retrans in E. simplify_eq.
    apply Hok. unfold data_ok in *. simpl. tauto.
Qed.

Lemma end_sums_ok t t' : end_sums t = Done t' → test_ok t → test_ok t'.
Proof.
  unfold end_sums. intros H Ht. destruct (conn t); mrun H; [| |done|].
  all: apply test_ok_data; [done|]; destruct Ht as (_ & _ & _ & Hd & _);
    unfold data_ok in *; simpl; split_and!; try tauto; width.
Qed.

Lemma end_test_ok t w t' w' : end_test t w = Done (t', w') → test_ok t → test_ok t'.
Proof.
  unfold end_test. intros H Ht. mrun H.
  match goal with H : end_sums _ = Done ?t1 |- test_ok (with_test_elapsed _ _) =>
    apply end_sums_ok in H; [exact H|]; apply test_ok_streams; [done|] end.
  repeat match goal with H : mapM _ _ _ = Done _ |- _ => revert H end. intros M1 M2.
  eapply Forall_results in M1; [|intros ????; apply end_stream_ok|].
  - eapply Forall_results in M2; [exact M2| |exact M1].
    intros p w0 q w1 Hq. mrun Hq. by eapply end_totals_ok.
  - by destruct Ht as (_ & _ & _ & _ & _ & Ht & _).
Qed.

Lemma reset_counter_ok t n t' : reset_counter_inc t = Done (n, t') → test_ok t → test_ok t'.
Proof.
  unfold reset_counter_inc. intros H Ht. mrun H. unfold test_ok in *. simpl.
  split_and!; try tauto. width.
Qed.
End Tests.

Section Exchange.
Context {J : Serde} {SL : SerdeLaws}.

Lemma set_settings_ok json t t' : set_settings json t = Done t' → test_ok t → test_ok t'.
Proof.
  unfold set_settings. intros H Ht. mrun H.
  destruct (settings_from_json json) eqn:E; simplify_eq/=.
  apply settings_json_typed in E. unfold test_ok in *. simpl. tauto.
Qed.

Lemma from_serde_ok json t w t' w' : from_serde json t w = Done (t', w') → test_ok t → test_ok t'.
Proof.
  unfold from_serde. intros H Ht. destruct (results_from_json json) as [x|] eqn:E; mrun H; [|done].
  apply results_json_typed in E as (_ & Hd & Hs).
  match goal with H : mapM _ _ _ = _ |- _ => eapply Forall_results in H; [|intros ????; apply stream_of_wire_ok|exact Hs] end.
  unfold test_ok, data_ok in *. simpl. split_and!; tauto.
Qed.
End Exchange.
