(* ===== verification/Total.v ===== *)
(** * Termination

    Loops carry fuel in the model.  [fuel_ok m] says that [m] never runs out
    of it, nor ends the process by itself: every run ends with a value, a panic
    or a future that stays pending.  It is closed under the constructs of the
    handlers, so only the loops need an argument of their own. *)
From S2P Require Import Prelude F64 Env Kinds Tcp Net Udp Tls Quic Metrics Report PerfStream TestCore.
From S2P Require Import Node.

(** A result is a value, or one of the crashes [ok]. *)
Definition ends {A} (ok : crash → Prop) (r : res A) : Prop :=
  match r with Done _ => True | Crash c => ok c end.

Definition benign (c : crash) : Prop :=
  match c with Panicked _ | Blocked => True | Exited _ | OutOfFuel => False end.

Definition res_ok {A} (r : res A) : Prop := ends benign r.
Definition fuel_ok {W A} (m : M W A) : Prop := ∀ w, res_ok (m w).

Lemma ends_Crash {A} ok (r : res A) c : ends ok r → r = Crash c → ok c.
Proof. by intros H ->. Qed.

(** The program comes to the end of what it does, panics, or waits for a
    peer: it does not go on for ever, nor exit. *)
Definition concludes {A} (r : res A) : Prop :=
  (∃ a, r = Done a) ∨ (∃ why, r = Crash (Panicked why)) ∨ r = Crash Blocked.

Lemma res_ok_concludes {A} (r : res A) : res_ok r → concludes r.
Proof. unfold concludes. destruct r as [a|[]]; simpl; eauto; done. Qed.
Lemma res_ok_fuel {A} (r : res A) : res_ok r → r ≠ Crash OutOfFuel.
Proof. by intros H ->. Qed.

(** What two of the rules need of the crashes. *)
Section Ends.
Context (ok : crash → Prop).

Lemma ends_bind {W A B} (m : M W A) (f : A → M W B) :
  (∀ w, ends ok (m w)) → (∀ a w, ends ok (f a w)) → ∀ w, ends ok (bindM m f w).
Proof.
  intros Hm Hf w. unfold bindM. specialize (Hm w).
  destruct (m w) as [[a w']|c]; [apply Hf|exact Hm].
Qed.

Lemma ends_bindIo {W A B} (m : M W (io_result A)) (f : A → M W (io_result B)) :
  (∀ w, ends ok (m w)) → (∀ a w, ends ok (f a w)) → ∀ w, ends ok (bindIo m f w).
Proof. intros Hm Hf. apply ends_bind; [done|]. by intros [a|e]. Qed.

Lemma ends_loop {I} handle idle batches :
  (∀ ev s, ends ok (handle ev s)) → (∀ s, ends ok (idle s)) →
  ∀ s, ends ok (event_loop (I := I) handle idle batches s).
Proof.
  intros Hh Hi. assert (∀ evs s, ends ok (handle_events (I := I) handle evs s)) as He.
  { induction evs as [|ev evs IH]; cbn [handle_events]; [done|].
    apply ends_bindIo; [done|]. intros []; [done|done..]. }
  induction batches as [|evs rest IH]; cbn [event_loop]; [done|].
  apply ends_bindIo; [intros s; unfold onWorld, syscall; by repeat case_match|].
  intros _. apply ends_bindIo; [by destruct evs|]. by intros [].
Qed.

Lemma ends_weaken (ok' : crash → Prop) {A} (r : res A) :
  (∀ c, ok c → ok' c) → ends ok r → ends ok' r.
Proof. intros H. destruct r; simpl; auto. Qed.
End Ends.

Section Rules.
Context {W : Type}.

Lemma res_ok_Done {A} (a : A) : res_ok (Done a).
Proof. done. Qed.
Lemma res_ok_panic {A} why : res_ok (@Crash A (Panicked why)).
Proof. done. Qed.
Lemma res_ok_blocked {A} : res_ok (@Crash A Blocked).
Proof. done. Qed.
Lemma res_ok_bind {A B} (m : res A) (f : A → res B) :
  res_ok m → (∀ a, res_ok (f a)) → res_ok (bindR m f).
Proof. intros Hm Hf. destruct m; [apply Hf|exact Hm]. Qed.

Lemma fuel_ok_ret {A} (a : A) : fuel_ok (W := W) (ret a).
Proof. done. Qed.
Lemma fuel_ok_panic {A} why : fuel_ok (W := W) (A := A) (panic why).
Proof. done. Qed.
Lemma fuel_ok_blocked {A} : fuel_ok (W := W) (A := A) (crashM Blocked).
Proof. done. Qed.
Lemma fuel_ok_liftR {A} (r : res A) : res_ok r → fuel_ok (W := W) (liftR r).
Proof. intros Hr w. unfold liftR. by destruct r. Qed.
Lemma fuel_ok_bind {A B} (m : M W A) (f : A → M W B) :
  fuel_ok m → (∀ a, fuel_ok (f a)) → fuel_ok (bindM m f).
Proof. exact (ends_bind benign m f). Qed.
(** The same for one state, with what [m] did there. *)
Lemma res_ok_step {A B} (m : M W A) (f : A → M W B) w :
  fuel_ok m → (∀ a w', m w = Done (a, w') → res_ok (f a w')) → res_ok (bindM m f w).
Proof. intros Hm Hf. unfold bindM. specialize (Hm w). destruct (m w) as [[a w']|c]; [by apply Hf|exact Hm]. Qed.
Lemma fuel_ok_bindIo {A B} (m : M W (io_result A)) (f : A → M W (io_result B)) :
  fuel_ok m → (∀ a, fuel_ok (f a)) → fuel_ok (bindIo m f).
Proof.
  intros Hm Hf. apply fuel_ok_bind; [done|]. intros [a|e]; [apply Hf|apply fuel_ok_ret].
Qed.
Lemma fuel_ok_unwrap_io {A} (m : M W (io_result A)) : fuel_ok m → fuel_ok (unwrap_io m).
Proof.
  intros Hm. apply fuel_ok_bind; [done|].
  intros [a|e]; [apply fuel_ok_ret|apply fuel_ok_panic].
Qed.
Lemma fuel_ok_mapM {A B} (f : A → M W B) l : (∀ a, fuel_ok (f a)) → fuel_ok (mapM f l).
Proof.
  intros Hf. induction l; cbn [mapM]; [apply fuel_ok_ret|].
  apply fuel_ok_bind; [done|]. intros b. apply fuel_ok_bind; [done|]. intros bs.
  apply fuel_ok_ret.
Qed.
Lemma fuel_ok_mapIo {A B} (f : A → M W (io_result B)) l :
  (∀ a, fuel_ok (f a)) → fuel_ok (mapIo f l).
Proof.
  intros Hf. induction l; cbn [mapIo]; [apply fuel_ok_ret|].
  apply fuel_ok_bindIo; [done|]. intros b. apply fuel_ok_bindIo; [done|]. intros bs.
  apply fuel_ok_ret.
Qed.
End Rules.

Section NodeRules.
Context {I : Type}.
Lemma fuel_ok_onWorld {A} (m : M World A) : fuel_ok m → fuel_ok (W := Node I) (onWorld m).
Proof.
  intros Hm s. unfold onWorld. specialize (Hm (n_world s)).
  by destruct (m (n_world s)) as [[a w]|c].
Qed.
Lemma fuel_ok_getTest : fuel_ok (W := Node I) getTest.
Proof. done. Qed.
Lemma fuel_ok_getImpl : fuel_ok (W := Node I) getImpl.
Proof. done. Qed.
Lemma fuel_ok_putTest t : fuel_ok (W := Node I) (putTest t).
Proof. done. Qed.
Lemma fuel_ok_modTest f : fuel_ok (W := Node I) (modTest f).
Proof. done. Qed.
Lemma fuel_ok_modImpl f : fuel_ok (W := Node I) (modImpl f).
Proof. done. Qed.
Lemma fuel_ok_updTest f : (∀ t, fuel_ok (f t)) → fuel_ok (W := Node I) (updTest f).
Proof.
  intros Hf. unfold updTest. apply fuel_ok_bind; [apply fuel_ok_getTest|]. intros t.
  apply fuel_ok_bind; [by apply fuel_ok_onWorld|]. intros t'. apply fuel_ok_putTest.
Qed.

Lemma fuel_ok_loop handle idle batches :
  (∀ ev, fuel_ok (handle ev)) → fuel_ok idle →
  fuel_ok (W := Node I) (event_loop handle idle batches).
Proof. exact (ends_loop benign handle idle batches). Qed.
End NodeRules.

Lemma fuel_ok_now : fuel_ok now.
Proof. intros w. unfold now. by case_match. Qed.
Lemma fuel_ok_sleep d : fuel_ok (sleep d).
Proof. done. Qed.
Lemma fuel_ok_log c : fuel_ok (log c).
Proof. done. Qed.
Lemma fuel_ok_syscall c : fuel_ok (syscall c).
Proof. intros w. unfold syscall. by repeat case_match. Qed.
Lemma res_ok_checked `{Profile} w x : res_ok (checked w x).
Proof. unfold checked. by repeat case_match. Qed.
Lemma res_ok_unwrap {A} (o : option A) : res_ok (unwrap o).
Proof. by destruct o. Qed.
Lemma res_ok_slice b n : res_ok (buf_slice_to b n).
Proof. unfold buf_slice_to. by case_match. Qed.
Lemma res_ok_Conn_from v : res_ok (Conn_from_i8 v).
Proof. unfold Conn_from_i8. by repeat case_match. Qed.
Lemma res_ok_State_from v : res_ok (TestState_from_i8 v).
Proof. unfold TestState_from_i8. by repeat case_match. Qed.

Create HintDb fuel discriminated.
#[export] Hint Constants Opaque : fuel.
#[export] Hint Resolve res_ok_Done res_ok_panic res_ok_blocked res_ok_bind fuel_ok_ret
  fuel_ok_panic fuel_ok_blocked fuel_ok_liftR fuel_ok_bind fuel_ok_bindIo fuel_ok_unwrap_io
  fuel_ok_mapM fuel_ok_mapIo fuel_ok_onWorld fuel_ok_getTest fuel_ok_getImpl fuel_ok_putTest
  fuel_ok_modTest fuel_ok_modImpl fuel_ok_updTest fuel_ok_now fuel_ok_sleep fuel_ok_log
  fuel_ok_syscall res_ok_checked res_ok_unwrap res_ok_slice res_ok_Conn_from
  res_ok_State_from : fuel.
#[export] Hint Extern 1 (fuel_ok (match ?x with _ => _ end)) => destruct x : fuel.
#[export] Hint Extern 1 (res_ok (match ?x with _ => _ end)) => destruct x : fuel.
#[export] Hint Extern 1 (∀ _, fuel_ok _) => intro : fuel.
#[export] Hint Extern 1 (∀ _, res_ok _) => intro : fuel.
Ltac fuel_tac := auto 30 with fuel.

(** ** Pure functions *)

Section Pure.
Context `{P : Profile} `{TR : Tracing}.

Lemma res_ok_sum w l : res_ok (sum_u w l).
Proof.
  unfold sum_u. generalize 0. induction l; intros z; cbn [sum_u_from]; unfold add_u; fuel_tac.
Qed.
Lemma res_ok_kmg n d : res_ok (kmg n d).
Proof. unfold kmg, mul_u. fuel_tac. Qed.
Lemma res_ok_count n p d : res_ok (count_block n p d).
Proof. unfold count_block, add_u. fuel_tac. Qed.
Lemma res_ok_socket_type (b : BoxStream) : res_ok (socket_type b).
Proof. destruct b; simpl; fuel_tac. Qed.
Hint Resolve res_ok_kmg res_ok_socket_type : fuel.
Lemma res_ok_interval_data p d : res_ok (interval_data p d).
Proof.
  unfold interval_data, sub_u, mul_u, as_TcpStream, as_TlsEndpoint. fuel_tac.
Qed.
Lemma res_ok_end_totals c b p : res_ok (end_totals c b p).
Proof.
  unfold end_totals, as_TcpStream, as_TlsEndpoint, as_Quic.
  destruct c; auto 20 using res_ok_sum with fuel.
Qed.
Lemma res_ok_end_sums t : res_ok (end_sums t).
Proof. unfold end_sums. auto 20 using res_ok_sum with fuel. Qed.
Lemma res_ok_results `{Serde} t : res_ok (results t).
Proof.
  unfold results, test_wire. apply res_ok_bind; [apply res_ok_bind|]; [|fuel_tac..].
  induction (test_streams t); cbn [streams_wire]; [fuel_tac|].
  unfold stream_wire, serialize_stream. fuel_tac.
Qed.

(** ** World computations *)

Lemma fuel_ok_elapsed t : fuel_ok (elapsed t).
Proof. unfold elapsed. fuel_tac. Qed.
Lemma fuel_ok_println l : fuel_ok (println l).
Proof. unfold println. fuel_tac. Qed.
Lemma fuel_ok_query fd q : fuel_ok (query fd q).
Proof. unfold query. fuel_tac. Qed.
Lemma fuel_ok_timers : fuel_ok Timers_default.
Proof. unfold Timers_default. fuel_tac. Qed.
Hint Resolve fuel_ok_elapsed fuel_ok_println fuel_ok_query fuel_ok_timers
  res_ok_interval_data res_ok_end_totals res_ok_end_sums : fuel.
Lemma fuel_ok_push_stat b p : fuel_ok (push_stat b p).
Proof. unfold push_stat, IntervalStats_fmt, add_u. fuel_tac. Qed.
Hint Resolve fuel_ok_push_stat : fuel.
Lemma fuel_ok_deregister (b : BoxStream) : fuel_ok (stream_deregister b).
Proof.
  destruct b; cbn; unfold TcpStream_deregister, UdpSocket_deregister, Quic_deregister,
    Source_deregister; fuel_tac.
Qed.
Lemma fuel_ok_register (b : BoxStream) t : fuel_ok (stream_register b t).
Proof.
  destruct b; cbn; unfold TcpStream_register, UdpSocket_register, Quic_register,
    Source_register; fuel_tac.
Qed.
Lemma fuel_ok_print_new (b : BoxStream) : fuel_ok (stream_print_new b).
Proof.
  destruct b; cbn; unfold TcpStream_print_new_stream, UdpSocket_print_new_stream,
    Quic_print_new_stream; fuel_tac.
Qed.
Hint Resolve fuel_ok_deregister : fuel.
Lemma fuel_ok_end_test t : fuel_ok (end_test t).
Proof. unfold end_test, end_stream. fuel_tac. Qed.
Lemma fuel_ok_start t : fuel_ok (start t).
Proof. unfold start. fuel_tac. Qed.
Lemma fuel_ok_metrics m : fuel_ok (Metrics_print m).
Proof. unfold Metrics_print, print_bucket, add_u. auto 20 with fuel. Qed.
Hint Resolve fuel_ok_metrics : fuel.
Lemma fuel_ok_print_stats t : fuel_ok (print_stats t).
Proof. unfold print_stats, print_stream, sum_line, PerfStream_fmt. fuel_tac. Qed.
Lemma fuel_ok_header t : fuel_ok (header t).
Proof. unfold header. fuel_tac. Qed.
Lemma fuel_ok_PerfStream_new b m : fuel_ok (PerfStream_new b m).
Proof. unfold PerfStream_new. fuel_tac. Qed.
Lemma fuel_ok_drain {T} `{StreamLaws T} (s : T) : fuel_ok (drain_message s).
Proof.
  intros w. destruct (drain_message s w) as [|c] eqn:E; [done|].
  apply drain_loop_total in E as ->; [done|lia].
Qed.
Lemma fuel_ok_write_socket t b : fuel_ok (write_socket t b).
Proof.
  unfold write_socket, TcpStream_write. apply fuel_ok_bind; [fuel_tac|]. fuel_tac.
Qed.
Lemma fuel_ok_send_state t st : fuel_ok (send_state t st).
Proof. unfold send_state. auto 10 using fuel_ok_write_socket with fuel. Qed.
Lemma fuel_ok_udp_new fd : fuel_ok (create_net_udp_socket fd).
Proof. unfold create_net_udp_socket. fuel_tac. Qed.
Lemma fuel_ok_udp_mio fd : fuel_ok (create_mio_udp_socket fd).
Proof. apply fuel_ok_udp_new. Qed.
End Pure.

#[export] Hint Resolve res_ok_sum res_ok_kmg res_ok_count res_ok_socket_type
  res_ok_interval_data res_ok_end_totals res_ok_end_sums res_ok_results fuel_ok_elapsed
  fuel_ok_println fuel_ok_query fuel_ok_timers fuel_ok_push_stat fuel_ok_deregister
  fuel_ok_register fuel_ok_print_new fuel_ok_end_test fuel_ok_start fuel_ok_print_stats
  fuel_ok_header fuel_ok_PerfStream_new fuel_ok_drain fuel_ok_send_state
  fuel_ok_write_socket fuel_ok_udp_new fuel_ok_udp_mio : fuel.
