(* ===== verification/TestFacts.v ===== *)
(** * The test object: settings from parameters, and what the end of a test
    leaves behind *)
From S2P Require Import Prelude F64 Params Env Kinds Tcp Udp Quic Tls Report PerfStream.
From S2P Require Import TestCore Node Counters.

(** ** Settings *)

(** The transport: TLS over QUIC over UDP over TCP. *)
Definition transport (p : PerfParams) : Conn :=
  if p_tls p then TLS else if p_quic p then QUIC else if p_udp p then UDP else TCP.

(** A limit on bytes or blocks replaces the duration by an hour. *)
Definition limited (p : PerfParams) : bool := (0 <? p_bytes p) || (0 <? p_blks p).

Lemma max_ltb x : Z.max 0 x = if 0 <? x then x else 0.
Proof. destruct (Z.ltb_spec 0 x); lia. Qed.

(** C28: the settings of a test made from parameters: the transport flags
    have a fixed precedence, a byte or block limit overrides the time that was
    asked for, and every other field is the parameter's. *)
Theorem settings_from_spec p :
  settings_from p Settings_default
  = mkSettings (transport p) (p_num_streams p) DEFAULT_SESSION_TIMEOUT (p_mss p) (p_bitrate p)
      (p_sendbuf p) (p_recvbuf p) (if limited p then from_secs 3600 else from_secs (p_time p))
      (Z.max 0 (p_bytes p)) (Z.max 0 (p_blks p)) (Z.max 0 (p_length p)).
Proof.
  destruct p as [m c u q t v d ba po de rt it ns ms br ti by_ bl le sb rb sk ce ke].
  rewrite !max_ltb. unfold settings_from, transport, limited. cbn.
  by destruct u, q, t, (0 <? by_), (0 <? bl), (0 <? le), (0 <? ms).
Qed.

(** ** The end of a test *)

Section EndTest.
Context `{P : Profile}.

(** The sums of a stream over the intervals that are closed. *)
Definition closed_bytes (p : PerfStream) : Z := sumZ (map (λ s, sd_bytes (is_data s)) (ps_stats p)).
Definition total_lost (p : PerfStream) : Z := sumZ (stats_lost p).

Lemma end_stream_closes debug p w p' w' :
  0 ≤ sd_bytes (ps_temp p) → end_stream debug p w = Done (p', w') → sd_bytes (ps_temp p') = 0.
Proof.
  unfold end_stream. intros Hn H. mrun H. simpl.
  match goal with H : (if _ then _ else _) _ = _ |- _ =>
    destruct (Z.ltb_spec 0 (sd_bytes (ps_temp p)));
    [apply push_stat_counters in H as (_ & _ & -> & _)|mrun H] end; [done|lia].
Qed.

Lemma end_totals_keeps c debug p p' :
  end_totals c debug p = Done p' →
  ps_stats p' = ps_stats p ∧ ps_temp p' = ps_temp p ∧
  sd_bytes (ps_data p') = sd_bytes (ps_data p) ∧
  (c = UDP → sd_lost (ps_data p') = total_lost p' mod 2 ^ 64).
Proof.
  unfold end_totals, total_lost. intros H. destruct c; mrun H; try done.
  - split_and!; [done..|]. intros _. simpl.
    match goal with H : sum_u _ _ = _ |- _ => by apply sum_u_mod in H end.
  - destruct debug; mrun H; done.
Qed.

(** C21: when a test ends, no stream keeps bytes in its open interval; the
    bytes of each stream are those of its closed intervals, and those of the
    test the sum over its streams; a UDP test has lost what its streams'
    intervals have lost together.  All modulo the counters' width. *)
Theorem end_test_settles t w t' w' :
  test_conserved t → Forall (λ p, 0 ≤ sd_bytes (ps_temp p)) (test_streams t) →
  end_test t w = Done (t', w') →
  Forall (λ p, sd_bytes (ps_temp p) = 0 ∧ cong (closed_bytes p) (sd_bytes (ps_data p)))
    (test_streams t') ∧
  cong (streams_bytes (test_streams t')) (sd_bytes (test_data t')) ∧
  (conn t = UDP →
     sd_lost (test_data t') = sumZ (map (λ p, total_lost p mod 2 ^ 64) (test_streams t')) mod 2 ^ 64).
Proof.
  intros Hc Hn H. pose proof (end_test_conserved _ _ _ _ H Hc) as (Hb & _ & Hs).
  unfold end_test in H. mrun H. simpl in *.
  repeat match goal with H : mapM _ _ _ = Done _ |- _ => revert H end. intros M1 M2.
  eapply (mapM_Forall2 _ (λ p q, 0 ≤ sd_bytes (ps_temp p) → sd_bytes (ps_temp q) = 0)) in M1;
    [|intros ???? Hx ?; by eapply end_stream_closes].
  eapply mapM_Forall2 in M2; [|intros ???? Hx; mrun Hx; eapply end_totals_keeps; eassumption].
  match goal with H : end_sums ?t0 = Done ?t1 |- _ =>
    pose proof (end_sums_data _ _ H) as (Es & _ & _); simpl in Es;
    rename H into Hsum; rename t1 into tf end. rewrite Es in *.
  split_and!; [|done|].
  - rewrite !Forall_forall. intros q Hq. pose proof Hq as Hq'.
    apply list_elem_of_lookup in Hq as [i Hi].
    destruct (Forall2_lookup_r _ _ _ _ _ M2 Hi) as (p1 & Hi1 & _ & Et & _).
    destruct (Forall2_lookup_r _ _ _ _ _ M1 Hi1) as (p0 & Hi0 & Ez).
    rewrite Forall_forall in Hn, Hs. apply list_elem_of_lookup_2 in Hi0. apply Hn in Hi0.
    rewrite Et, (Ez Hi0). split; [done|]. apply Hs in Hq' as [Hq' _].
    unfold interval_bytes in Hq'. rewrite Et, (Ez Hi0), Z.add_0_r in Hq'. done.
  - intros Hu. unfold end_sums in Hsum. change (conn (with_test_streams _ t)) with (conn t) in Hsum.
    rewrite Hu in Hsum. mrun Hsum. simpl.
    match goal with H : sum_u _ _ = _ |- _ => apply sum_u_mod in H as ->; [|done] end.
    rewrite <- Hsum at 1. simpl. f_equal.
    clear -M2 Hu. induction M2 as [|p q l k (_ & _ & _ & Hl) _ IH]; [done|].
    cbn [map sumZ]. by rewrite IH, Hl.
Qed.
End EndTest.
