(* ===== verification/Server.v ===== *)
(** * The server ([src/src/server.rs])

    The event loop of [ServerImpl::run]: one handler per token and state, the
    creation of data streams, and the receive loop. *)
From S2P Require Import Prelude F64 Env Kinds Tcp Net Udp Tls Quic Metrics Report PerfStream TestCore.
From S2P Require Import Node.

Definition TCP_LISTENER : Z := 1025.
Definition UDP_LISTENER : Z := 1026.
Definition QUIC_LISTENER : Z := 1027.
Definition TLS_LISTENER : Z := 1028.
Definition TOKEN_START : Z := 0.

(** A listening socket and what its coming [accept]s return. *)
Record Listener : Type := mkListener { l_fd : Z; l_accepts : list (io_result TcpStream) }.

(** What the system hands out when the server asks for new endpoints. *)
Record Supply : Type := mkSupply {
  sup_udp : list UdpSocket;
  sup_quic : list Quic;
  sup_tls : list (TlsSession * list (list TlsEvent))
}.

Record ServerImpl : Type := mkServerImpl {
  s_ctrl : option TcpStream;
  s_t : option Listener;
  s_u : option UdpSocket;
  s_q : option Quic;
  s_supply : Supply
}.

Definition with_ctrl (c : option TcpStream) (s : ServerImpl) : ServerImpl :=
  mkServerImpl c (s_t s) (s_u s) (s_q s) (s_supply s).
Definition with_t (l : option Listener) (s : ServerImpl) : ServerImpl :=
  mkServerImpl (s_ctrl s) l (s_u s) (s_q s) (s_supply s).
Definition with_u (u : option UdpSocket) (s : ServerImpl) : ServerImpl :=
  mkServerImpl (s_ctrl s) (s_t s) u (s_q s) (s_supply s).
Definition with_q (q : option Quic) (s : ServerImpl) : ServerImpl :=
  mkServerImpl (s_ctrl s) (s_t s) (s_u s) q (s_supply s).
Definition with_supply (p : Supply) (s : ServerImpl) : ServerImpl :=
  mkServerImpl (s_ctrl s) (s_t s) (s_u s) (s_q s) p.

Abbreviation Srv := (M (Node ServerImpl)).

Section Server.
Context `{P : Profile} `{J : Serde} `{TR : Tracing}.

(** ** Access to the sockets of the server: [as_mut().unwrap()] *)

Definition get_ctrl : Srv TcpStream :=
  let! s := getImpl in liftR (unwrap (s_ctrl s)).
Definition put_ctrl (c : TcpStream) : Srv () := modImpl (with_ctrl (Some c)).

Definition drain_ctrl : Srv (io_result (list Z)) :=
  let! c := get_ctrl in
  let! (r, c') := onWorld (drain_message c) in
  let! _ := put_ctrl c' in
  ret r.

Definition send_ctrl_state (st : TestState) : Srv () :=
  let! c := get_ctrl in
  let! c' := onWorld (send_state c st) in
  put_ctrl c'.

Definition wake : Srv (io_result ()) := onWorld (syscall SysWake).

(** ** Listeners for the data streams *)

(** A new UDP socket bound to the server's address. *)
Definition new_udp : Srv UdpSocket :=
  let! s := getImpl in
  match sup_udp (s_supply s) with
  | [] => crashM Blocked
  | u :: r =>
      let! _ := modImpl (with_supply (mkSupply r (sup_quic (s_supply s)) (sup_tls (s_supply s)))) in
      let! _ := onWorld (create_mio_udp_socket (stream_fd u)) in
      ret u
  end.

Definition new_quic : Srv Quic :=
  let! s := getImpl in
  let! t := getTest in
  match sup_quic (s_supply s) with
  | [] => crashM Blocked
  | q :: r =>
      let! _ := modImpl (with_supply (mkSupply (sup_udp (s_supply s)) r (sup_tls (s_supply s)))) in
      onWorld (Quic.server q (test_skip_tls t) (Some "cert.key"%string) (Some "cert.crt"%string))
  end.

Definition register_listener (fd token : Z) : Srv (io_result ()) :=
  onWorld (syscall (SysRegister fd token)).

(** The [match test.conn()] of the [ParamExchange] state. *)
Definition listen : Srv (io_result ()) :=
  let! t := getTest in
  match conn t with
  | TCP | TLS =>
      let! s := getImpl in
      let! l := liftR (unwrap (s_t s)) in
      let? _ := (if 0 <? test_mss t
                 then onWorld (set_mss_listener (l_fd l) (test_mss t))
                 else ret (IoOk ())) in
      register_listener (l_fd l) (match conn t with TCP => TCP_LISTENER | _ => TLS_LISTENER end)
  | UDP =>
      let! u := new_udp in
      let! _ := modImpl (with_u (Some u)) in
      register_listener (stream_fd u) UDP_LISTENER
  | QUIC =>
      let! q := new_quic in
      let! _ := modImpl (with_q (Some q)) in
      register_listener (q_fd q) QUIC_LISTENER
  end.

(** ** The control connection *)

(** [TestRunning]: one byte is the next state; anything else, and any error,
    ends the test. *)
Definition read_next_state : Srv TestState :=
  let! r := drain_ctrl in
  match r with
  | IoOk [b] => liftR (TestState_from_i8 (as_signed 8 b))
  | _ => let! _ := updTest end_test in ret End_
  end.

Definition on_control (ev : Event) : Srv (io_result Flow) :=
  let! t := getTest in
  match test_state t with
  | Start =>
      if ev_readable ev then
        let? cookie := drain_ctrl in
        let! _ := modTest (with_test_cookie cookie) in
        let! _ := modTest (transition ParamExchange) in
        let! _ := send_ctrl_state ParamExchange in
        ret (IoOk Next)
      else ret (IoOk Next)
  | ParamExchange =>
      if ev_readable ev then
        let? buf := drain_ctrl in
        let! t' := liftR (set_settings buf t) in
        let! _ := putTest t' in
        let? _ := listen in
        let! _ := modTest (transition CreateStreams) in
        let! _ := send_ctrl_state CreateStreams in
        ret (IoOk Next)
      else ret (IoOk Next)
  | CreateStreams => ret (IoOk Next)
  | TestStart => ret (IoOk Next)
  | TestRunning =>
      if ev_readable ev then
        let! st := read_next_state in
        let! _ := modTest (transition st) in
        let? _ := wake in
        ret (IoOk Next)
      else ret (IoOk Next)
  | TestEnd =>
      let! _ := updTest end_test in
      let! _ := modTest (transition ExchangeResults) in
      let? _ := wake in
      ret (IoOk Next)
  | ExchangeResults =>
      let! json := liftR (results t) in
      let! c := get_ctrl in
      let! (r, c') := onWorld (stream_write c (buf_of json)) in
      let! _ := put_ctrl c' in
      let? _ := ret r in
      let! _ := modTest (transition End_) in
      ret (IoOk Next)
  | End_ =>
      let! _ := onWorld (print_stats t) in
      ret (IoOk (Return 0))
  | Wait => ret (IoOk Break)
  end.

(** ** Creating data streams *)

Definition new_token : Srv Z :=
  let! t := getTest in
  let token := TOKEN_START + Z.of_nat (length (test_tokens t)) in
  let! _ := modTest (with_test_tokens (test_tokens t ++ [token])) in
  ret token.

Definition push_stream (b : BoxStream) : Srv () :=
  let! _ := onWorld (stream_print_new b) in
  let! t := getTest in
  let! p := onWorld (PerfStream_new b (test_mode t)) in
  modTest (λ t, with_test_streams (test_streams t ++ [p]) t).

(** [accept().unwrap()] of the non-blocking listener. *)
Definition accept_stream : Srv TcpStream :=
  let! s := getImpl in
  let! l := liftR (unwrap (s_t s)) in
  match l_accepts l with
  | IoOk stream :: r =>
      let! _ := modImpl (with_t (Some (mkListener (l_fd l) r))) in ret stream
  | _ => panic "accept"
  end.

Definition create_tcp_stream : Srv () :=
  let! stream := accept_stream in
  let! token := new_token in
  let! _ := onWorld (unwrap_io (syscall (SysRegister (stream_fd stream) token))) in
  push_stream (BTcp stream).

Definition create_tls_stream : Srv () :=
  let! stream := accept_stream in
  let! token := new_token in
  let! _ := onWorld (unwrap_io (syscall (SysRegister (stream_fd stream) token))) in
  let! s := getImpl in
  match sup_tls (s_supply s) with
  | [] => crashM Blocked
  | (sess, rounds) :: r =>
      let! _ := modImpl (with_supply (mkSupply (sup_udp (s_supply s)) (sup_quic (s_supply s)) r)) in
      let! ep := onWorld (TlsEndpoint_server (Some "cert.key"%string) (Some "cert.crt"%string)
                            sess stream rounds) in
      push_stream (BTls ep)
  end.

Definition more_streams (t : Test) : bool := Z.of_nat (length (test_streams t)) <? num_streams t.

(** The first datagram tells the peer's address; the socket is connected to
    it and becomes the stream, and a new one listens if streams are missing. *)
Definition create_udp_stream : Srv () :=
  let! s := getImpl in
  let! u := liftR (unwrap (s_u s)) in
  let! (r, u) := onWorld (stream_read u (Z.to_nat 131072)) in
  match r with
  | IoErr _ => panic "recv_from"
  | IoOk _ =>
      let! _ := onWorld (unwrap_io (syscall (SysConnect (stream_fd u)))) in
      let! token := new_token in
      let! _ := onWorld (unwrap_io (syscall (SysReregister (stream_fd u) token))) in
      let! _ := push_stream (BUdp u) in
      let! _ := modImpl (with_u None) in
      let! t := getTest in
      if more_streams t then
        let! u' := new_udp in
        let! _ := modImpl (with_u (Some u')) in
        onWorld (unwrap_io (syscall (SysRegister (stream_fd u') UDP_LISTENER)))
      else ret ()
  end.

Definition create_quic_stream : Srv () :=
  let! s := getImpl in
  let! q := liftR (unwrap (s_q s)) in
  let! q := liftR (endpoint_accept q) in
  let! token := new_token in
  let! _ := onWorld (unwrap_io (syscall (SysReregister (q_fd q) token))) in
  let! _ := push_stream (BQuic q) in
  let! _ := modImpl (with_q None) in
  let! t := getTest in
  if more_streams t then
    let! q' := new_quic in
    let! _ := modImpl (with_q (Some q')) in
    onWorld (unwrap_io (syscall (SysRegister (q_fd q') QUIC_LISTENER)))
  else ret ().

(** What follows the creation of a stream: too many streams panic, the last
    one starts the test. *)
Definition streams_created : Srv () :=
  let! t := getTest in
  let n := Z.of_nat (length (test_streams t)) in
  if num_streams t <? n then panic "Incorrect parallel streams"
  else if n =? num_streams t then
    let! _ := modTest (transition TestStart) in
    let! _ := send_ctrl_state TestStart in
    let! t := getTest in
    onWorld (header t)
  else ret ().

Definition on_tcp_listener (ev : Event) : Srv (io_result Flow) :=
  let! t := getTest in
  match test_state t with
  | CreateStreams =>
      let! _ := create_tcp_stream in let! _ := streams_created in ret (IoOk Next)
  | _ => ret (IoOk Next)
  end.

Definition on_tls_listener (ev : Event) : Srv (io_result Flow) :=
  let! t := getTest in
  match test_state t with
  | CreateStreams =>
      let! _ := create_tls_stream in let! _ := streams_created in ret (IoOk Next)
  | _ => ret (IoOk Next)
  end.

Definition on_udp_listener (ev : Event) : Srv (io_result Flow) :=
  let! t := getTest in
  match test_state t with
  | CreateStreams =>
      if ev_readable ev then
        let! _ := create_udp_stream in let! _ := streams_created in ret (IoOk Next)
      else ret (IoOk Next)
  | _ => ret (IoOk Next)
  end.

Definition on_quic_listener (ev : Event) : Srv (io_result Flow) :=
  let! t := getTest in
  match test_state t with
  | CreateStreams =>
      if ev_readable ev then
        let! _ := create_quic_stream in let! _ := streams_created in ret (IoOk Break)
      else ret (IoOk Next)
  | _ => ret (IoOk Next)
  end.

(** ** Receiving *)

(** One read of the receive loop: how many bytes came, and the buffer, whose
    first bytes they overwrite except on QUIC, which reads into its own. *)
Definition read_block (c : Conn) (p : PerfStream) (buf : Buf) :
    M World (io_result Z * PerfStream * Buf) :=
  match c with
  | QUIC =>
      let! q := liftR (as_Quic (ps_stream p)) in
      let! (r, q') := liftR (Quic.read q) in
      ret (r, with_ps_stream (BQuic q') p, buf)
  | TCP =>
      let! t := liftR (as_TcpStream (ps_stream p)) in
      let! (r, t') := stream_read t (Z.to_nat 131072) in
      ret (match r with IoOk bs => IoOk (Z.of_nat (length bs)) | IoErr e => IoErr e end,
           with_ps_stream (BTcp t') p,
           match r with IoOk bs => buf_write bs buf | IoErr _ => buf end)
  | TLS =>
      let! t := liftR (as_TlsEndpoint (ps_stream p)) in
      let! (r, t') := stream_read t (Z.to_nat 131072) in
      ret (match r with IoOk bs => IoOk (Z.of_nat (length bs)) | IoErr e => IoErr e end,
           with_ps_stream (BTls t') p,
           match r with IoOk bs => buf_write bs buf | IoErr _ => buf end)
  | UDP =>
      let! u := liftR (as_UdpSocket (ps_stream p)) in
      let! (r, u') := stream_read u (Z.to_nat 131072) in
      ret (match r with IoOk bs => IoOk (Z.of_nat (length bs)) | IoErr e => IoErr e end,
           with_ps_stream (BUdp u') p,
           match r with IoOk bs => buf_write bs buf | IoErr _ => buf end)
  end.

(** The sequence number in front of a block. *)
Definition sequence_of (buf : Buf) : Z := from_be_bytes (buf_bytes 8 buf).

(** The loop over one readable stream: the stream, the test's counters and
    the metrics are what it changes. *)
Fixpoint recv_loop (fuel : nat) (c : Conn) (verbose debug : bool)
    (p : PerfStream) (d : StreamData) (m : Metrics) (buf : Buf) :
    M World (PerfStream * StreamData * Metrics) :=
  match fuel with
  | O => crashM OutOfFuel
  | S fuel' =>
      let! (r, p, buf) := read_block c p buf in
      match r with
      | IoErr _ => ret (p, d, m)
      | IoOk n =>
          if n =? 0 then ret (p, d, m)
          else
            let m := Metrics_record verbose m in
            let! (p, d) := liftR (count_block n p d) in
            let p := with_ps_last_recvd (sequence_of buf) p in
            let! e := elapsed (tm_curr (ps_timers p)) in
            let! p := (if ONE_SEC <? e then push_stat debug p else ret p) in
            recv_loop fuel' c verbose debug p d m buf
      end
  end.

(** Enough for every read that can return data. *)
Definition recv_fuel (p : PerfStream) : nat :=
  S (match ps_stream p with BQuic q => quic_backlog q | b => backlog b end).

Definition receive (t : Test) (i : nat) : M World Test :=
  let! p := liftR (unwrap (test_streams t !! i)) in
  let! (p, d, m) := recv_loop (recv_fuel p) (conn t) (test_verbose t) (test_debug t)
                      p (test_data t) (test_metrics t) (buf_repeat 0 131072) in
  ret (with_test_metrics m
        (with_test_data d (with_test_streams (<[i:=p]> (test_streams t)) t))).

(** ** The first message on a data stream *)

Definition read_stream_cookie (t : Test) (i : nat) : M World (io_result Test) :=
  let! p := liftR (unwrap (test_streams t !! i)) in
  let put b := with_test_streams (<[i:=with_ps_stream b p]> (test_streams t)) t in
  match conn t with
  | QUIC =>
      let! q := liftR (as_Quic (ps_stream p)) in
      let! q := liftR (accept_uni q) in
      let! (r, q) := liftR (read_cookie q) in
      match r with
      | IoOk _ => ret (IoOk (put (BQuic q)))
      | IoErr _ => panic "read_cookie"
      end
  | TCP =>
      let! s := liftR (as_TcpStream (ps_stream p)) in
      let! (r, s) := drain_message s in
      ret (match r with IoOk _ => IoOk (put (BTcp s)) | IoErr e => IoErr e end)
  | TLS =>
      let! s := liftR (as_TlsEndpoint (ps_stream p)) in
      let! (r, s) := drain_message s in
      ret (match r with IoOk _ => IoOk (put (BTls s)) | IoErr e => IoErr e end)
  | UDP =>
      let! s := liftR (as_UdpSocket (ps_stream p)) in
      let! (r, s) := drain_message s in
      ret (match r with IoOk _ => IoOk (put (BUdp s)) | IoErr e => IoErr e end)
  end.

(** Every message counts as a cookie; the last one starts the transfer. *)
Definition count_cookie : Srv () :=
  let! t := getTest in
  let! n := liftR (add_u 8 (test_cookie_count t) 1) in
  let! _ := modTest (with_test_cookie_count n) in
  if num_streams t =? n then
    let! _ := modTest (transition TestRunning) in
    let! _ := send_ctrl_state TestRunning in
    updTest start
  else ret ().

(** [token => ..]: a data stream, [token] being its index. *)
Definition on_stream (ev : Event) : Srv (io_result Flow) :=
  let! t := getTest in
  let i := Z.to_nat (ev_token ev) in
  match test_state t with
  | TestRunning =>
      if ev_readable ev then
        let! _ := updTest (λ t, receive t i) in ret (IoOk Next)
      else ret (IoOk Next)
  | TestStart =>
      if ev_readable ev then
        let? t' := onWorld (read_stream_cookie t i) in
        let! _ := putTest t' in
        let! _ := count_cookie in
        ret (IoOk Next)
      else ret (IoOk Next)
  | TestEnd => ret (IoOk Next)
  | _ => ret (IoOk Break)
  end.

(** ** The event loop *)

Definition handle (ev : Event) : Srv (io_result Flow) :=
  if ev_token ev =? CONTROL then on_control ev
  else if ev_token ev =? TCP_LISTENER then on_tcp_listener ev
  else if ev_token ev =? UDP_LISTENER then on_udp_listener ev
  else if ev_token ev =? QUIC_LISTENER then on_quic_listener ev
  else if ev_token ev =? TLS_LISTENER then on_tls_listener ev
  else on_stream ev.

(** An empty batch: the idle timeout has passed. *)
Definition on_idle : Srv (io_result (option Z)) :=
  let! t := getTest in
  let! (_, t') := liftR (reset_counter_inc t) in
  let! _ := putTest t' in
  let! _ := liftR (unwrap (test_idle_timeout t')) in
  let! _ := onWorld (print_stats t') in
  ret (IoOk (Some 2)).

(** [run]: the control connection is accepted and set up, then the loop. *)
Definition run (rounds : list (list AcceptEvent)) (batches : list (list Event)) :
    Srv (io_result (option Z)) :=
  let! s := getImpl in
  let! l := liftR (unwrap (s_t s)) in
  let? stream := onWorld (accept (l_fd l) rounds) in
  let fd := stream_fd stream in
  let? _ := onWorld (syscall (SysQuery fd PeerAddr)) in
  let! _ := onWorld (set_nodelay fd) in
  let! _ := onWorld (set_linger fd) in
  let! _ := onWorld (set_nonblocking fd) in
  let! _ := put_ctrl stream in
  let? _ := onWorld (syscall (SysRegister fd CONTROL)) in
  let? _ := onWorld (syscall SysWaker) in
  event_loop handle on_idle batches.
End Server.
