(* ===== verification/Client.v ===== *)
(** * The client ([src/src/client.rs])

    The event loop of [ClientImpl::run]: the control connection's state
    machine, the creation of data streams and the send loop. *)
From S2P Require Import Prelude F64 Env Kinds Tcp Net Udp Tls Quic Metrics Report PerfStream TestCore.
From S2P Require Import Node.

Definition STREAM : Z := 0.

(** What the system and the peer provide for the connections to come. *)
Record ClientSupply : Type := mkClientSupply {
  cs_tcp : list (list Attempt);
  cs_udp : list UdpSocket;
  cs_quic : list (Quic * option Connection);
  cs_tls : list (TlsSession * list (list TlsEvent))
}.

Record ClientImpl : Type := mkClientImpl {
  c_ctrl : TcpStream;
  c_running : bool;
  c_supply : ClientSupply
}.

Definition with_c_ctrl (x : TcpStream) (c : ClientImpl) : ClientImpl :=
  mkClientImpl x (c_running c) (c_supply c).
Definition with_running (b : bool) (c : ClientImpl) : ClientImpl :=
  mkClientImpl (c_ctrl c) b (c_supply c).
Definition with_c_supply (s : ClientSupply) (c : ClientImpl) : ClientImpl :=
  mkClientImpl (c_ctrl c) (c_running c) s.

Abbreviation Cli := (M (Node ClientImpl)).

(** ** The length of a block *)

(** What [run] does to the length before the loop. *)
Definition setup_length (ctrl_mss : Z) (t : Test) : Test :=
  match conn t with
  | TCP | TLS =>
      if test_length t =? 0 then set_length MAX_TCP_PAYLOAD t else t
  | UDP | QUIC =>
      let t := if MAX_UDP_PAYLOAD <? test_length t then set_length MAX_UDP_PAYLOAD t else t in
      if test_length t =? 0 then set_length ctrl_mss t else t
  end.

(** ** Sending *)

(** What the send loop reads from the test before it starts. *)
Record SendPlan : Type := mkSendPlan {
  sp_conn : Conn; sp_bitrate : Z; sp_bytes : Z; sp_blks : Z; sp_len : Z; sp_time : Z;
  sp_start : Z; sp_verbose : bool; sp_debug : bool
}.

(** What it changes besides the streams. *)
Record SendState : Type := mkSendState {
  ss_data : StreamData;
  ss_metrics : Metrics;
  ss_elapsed : Z;
  ss_udp_buf : Buf;
  ss_try_later : bool
}.

Definition with_ss_later (b : bool) (s : SendState) : SendState :=
  mkSendState (ss_data s) (ss_metrics s) (ss_elapsed s) (ss_udp_buf s) b.

Definition TCP_BUF : Buf := buf_repeat 1 MAX_TCP_PAYLOAD.
Definition QUIC_BUF : Buf := buf_repeat 1 MAX_QUIC_PAYLOAD.

Definition plan_of (t : Test) : SendPlan :=
  mkSendPlan (conn t) (bitrate t) (bytes t) (blks t) (test_length t) (time t)
    (tm_start (test_timers t)) (test_verbose t) (test_debug t).

(** The volume limits, on the test's counters. *)
Definition limit_reached (sp : SendPlan) (d : StreamData) : bool :=
  (negb (sp_blks sp =? 0) && (sp_blks sp <=? sd_blks d))
  || (negb (sp_bytes sp =? 0) && (sp_bytes sp <=? sd_bytes d)).

Section Client.
Context `{P : Profile} `{J : Serde} `{TR : Tracing}.

(** The pacing test: the interval's rate against the target, in [f64]. *)
Definition throttled (sp : SendPlan) (p : PerfStream) (t : Z) : res bool :=
  if sp_bitrate sp =? 0 then Done false
  else
    let- bits := mul_u 64 (sd_bytes (ps_temp p)) 8 in
    let rate := f64_div (f64_of_Z bits) (as_secs_f64 t) in
    Done (sp_bitrate sp <? f64_as_u64 rate).

(** One write: the result, the stream and the UDP buffer. *)
Definition write_block (sp : SendPlan) (p : PerfStream) (udp_buf : Buf) :
    M World (io_result Z * PerfStream * Buf) :=
  match sp_conn sp with
  | TCP =>
      let! t := liftR (as_TcpStream (ps_stream p)) in
      let! b := liftR (buf_slice_to TCP_BUF (sp_len sp)) in
      let! (r, t') := stream_write t b in
      ret (r, with_ps_stream (BTcp t') p, udp_buf)
  | TLS =>
      let! t := liftR (as_TlsEndpoint (ps_stream p)) in
      let! b := liftR (buf_slice_to TCP_BUF (sp_len sp)) in
      let! (r, t') := stream_write t b in
      ret (r, with_ps_stream (BTls t') p, udp_buf)
  | UDP =>
      let! seq := liftR (add_u 64 (sd_blks (ps_data p)) 1) in
      let udp_buf := buf_write (to_be_bytes 8 seq) udp_buf in
      let! u := liftR (as_UdpSocket (ps_stream p)) in
      let! b := liftR (buf_slice_to udp_buf (sp_len sp)) in
      let! (r, u') := stream_write u b in
      ret (r, with_ps_stream (BUdp u') p, udp_buf)
  | QUIC =>
      let! q := liftR (as_Quic (ps_stream p)) in
      let! b := liftR (buf_slice_to QUIC_BUF (sp_len sp)) in
      let! (r, q') := liftR (Quic.write q b) in
      ret (r, with_ps_stream (BQuic q') p, udp_buf)
  end.

(** The body of [for pstream in &mut test.streams]; the flag is a [break]. *)
Definition send_one (sp : SendPlan) (p : PerfStream) (s : SendState) :
    M World (PerfStream * SendState * bool) :=
  let! t := elapsed (tm_curr (ps_timers p)) in
  let! skip := liftR (throttled sp p t) in
  if (skip : bool) then ret (p, s, false)
  else
    let! (r, p, udp_buf) := write_block sp p (ss_udp_buf s) in
    let s := mkSendState (ss_data s) (ss_metrics s) (ss_elapsed s) udp_buf (ss_try_later s) in
    match r with
    | IoErr _ => ret (p, with_ss_later true s, true)
    | IoOk n =>
        if n =? 0 then ret (p, with_ss_later true s, true)
        else
          let! (p, d) := liftR (count_block n p (ss_data s)) in
          let m := Metrics_record (sp_verbose sp) (ss_metrics s) in
          if limit_reached sp d || (ONE_SEC <? t) then
            let! p := push_stat (sp_debug sp) p in
            let! e := elapsed (sp_start sp) in
            ret (p, mkSendState d m e udp_buf (ss_try_later s || (sp_time sp <? e)), false)
          else ret (p, mkSendState d m (ss_elapsed s) udp_buf (ss_try_later s), false)
    end.

Fixpoint send_streams (sp : SendPlan) (ps : list PerfStream) (s : SendState) :
    M World (list PerfStream * SendState) :=
  match ps with
  | [] => ret ([], s)
  | p :: ps' =>
      let! (p, s, brk) := send_one sp p s in
      if (brk : bool) then ret (p :: ps', s)
      else
        let! (ps', s) := send_streams sp ps' s in
        ret (p :: ps', s)
  end.

(** [while try_later == false]. *)
Fixpoint send_loop (fuel : nat) (sp : SendPlan) (ps : list PerfStream) (s : SendState) :
    M World (list PerfStream * SendState) :=
  if ss_try_later s then ret (ps, s)
  else match fuel with
  | O => crashM OutOfFuel
  | S fuel' =>
      let! (ps, s) := send_streams sp ps s in
      send_loop fuel' sp ps s
  end.

(** ** Access to the control connection *)

Definition drain_ctrl : Cli (io_result (list Z)) :=
  let! c := getImpl in
  let! (r, s) := onWorld (drain_message (c_ctrl c)) in
  let! _ := modImpl (with_c_ctrl s) in
  ret r.

Definition write_ctrl (b : list Z) : Cli (io_result Z) :=
  let! c := getImpl in
  let! (r, s) := onWorld (write_socket (c_ctrl c) (buf_of b)) in
  let! _ := modImpl (with_c_ctrl s) in
  ret r.

Definition send_ctrl_state (st : TestState) : Cli () :=
  let! c := getImpl in
  let! s := onWorld (send_state (c_ctrl c) st) in
  modImpl (with_c_ctrl s).

Definition wake : Cli (io_result ()) := onWorld (syscall SysWake).

(** ** Creating data streams *)

Definition push_stream (b : BoxStream) : Cli () :=
  let! _ := onWorld (stream_print_new b) in
  let! t := getTest in
  let! p := onWorld (PerfStream_new b (test_mode t)) in
  modTest (λ t, with_test_streams (test_streams t ++ [p]) t).

Definition next_tcp : Cli (io_result TcpStream) :=
  let! c := getImpl in
  match cs_tcp (c_supply c) with
  | [] => crashM Blocked
  | a :: r =>
      let k := c_supply c in
      let! _ := modImpl (with_c_supply (mkClientSupply r (cs_udp k) (cs_quic k) (cs_tls k))) in
      onWorld (Tcp.connect a)
  end.

Definition create_stream : Cli (io_result ()) :=
  let! _ := onWorld (sleep 10000000) in
  let! t := getTest in
  match conn t with
  | UDP =>
      let! c := getImpl in
      match cs_udp (c_supply c) with
      | [] => crashM Blocked
      | u :: r =>
          let k := c_supply c in
          let! _ := modImpl (with_c_supply (mkClientSupply (cs_tcp k) r (cs_quic k) (cs_tls k))) in
          let? u := onWorld (Udp.connect u) in
          let! _ := push_stream (BUdp u) in ret (IoOk ())
      end
  | TCP =>
      let? s := next_tcp in
      let! _ := push_stream (BTcp s) in ret (IoOk ())
  | TLS =>
      let? s := next_tcp in
      let! c := getImpl in
      match cs_tls (c_supply c) with
      | [] => crashM Blocked
      | (sess, rounds) :: r =>
          let k := c_supply c in
          let! _ := modImpl (with_c_supply (mkClientSupply (cs_tcp k) (cs_udp k) (cs_quic k) r)) in
          let! e := onWorld (TlsEndpoint_client sess s rounds) in
          let! _ := push_stream (BTls e) in ret (IoOk ())
      end
  | QUIC =>
      let! c := getImpl in
      match cs_quic (c_supply c) with
      | [] => crashM Blocked
      | (q, qc) :: r =>
          let k := c_supply c in
          let! _ := modImpl (with_c_supply (mkClientSupply (cs_tcp k) (cs_udp k) r (cs_tls k))) in
          let! q := onWorld (Quic.client q qc (test_skip_tls t)) in
          let! _ := push_stream (BQuic q) in ret (IoOk ())
      end
  end.

(** [for _ in 0..test.num_streams()]. *)
Fixpoint create_streams (n : nat) : Cli (io_result ()) :=
  match n with
  | O => ret (IoOk ())
  | S n' => let? _ := create_stream in create_streams n'
  end.

(** ** Cookies: a failed write is reported and skipped *)

Definition send_cookie (c : Conn) (p : PerfStream) : M World PerfStream :=
  match c with
  | QUIC =>
      let! _ := sleep 500000000 in
      let! q := liftR (as_Quic (ps_stream p)) in
      let! q := liftR (open_uni q) in
      let! (_, q) := liftR (write_cookie q (buf_of (bytes_of make_cookie))) in
      ret (with_ps_stream (BQuic q) p)
  | _ =>
      let! (_, p) := PerfStream_write p (buf_of (bytes_of make_cookie)) in
      ret p
  end.

Definition send_cookies (t : Test) : M World Test :=
  let! _ := (match conn t with QUIC => sleep 10000000 | _ => ret () end) in
  let! ps := mapM (send_cookie (conn t)) (test_streams t) in
  ret (with_test_streams ps t).

(** ** The control connection's events *)

Definition register_streams (t : Test) : M World () :=
  let! _ := mapM (λ p, stream_register (ps_stream p) STREAM) (test_streams t) in ret ().

Definition on_control (ev : Event) : Cli (io_result Flow) :=
  let! t := getTest in
  match test_state t with
  | Start =>
      if ev_writable ev then
        let? _ := write_ctrl (bytes_of make_cookie) in
        let! _ := modTest (transition ParamExchange) in
        ret (IoOk Next)
      else ret (IoOk Next)
  | ParamExchange =>
      let? _ := (if ev_readable ev then drain_ctrl else ret (IoOk [])) in
      let? _ := write_ctrl (settings t) in
      let! _ := modTest (transition CreateStreams) in
      ret (IoOk Next)
  | CreateStreams =>
      let? _ := (if ev_readable ev then drain_ctrl else ret (IoOk [])) in
      let? _ := create_streams (Z.to_nat (num_streams t)) in
      let! _ := modTest (transition TestStart) in
      ret (IoOk Next)
  | TestStart =>
      let? _ := (if ev_readable ev then drain_ctrl else ret (IoOk [])) in
      let! _ := updTest send_cookies in
      let! _ := modTest (transition TestRunning) in
      ret (IoOk Next)
  | TestRunning =>
      if ev_readable ev then
        let! c := getImpl in
        if c_running c then
          let! _ := updTest end_test in
          let! t := getTest in
          let! _ := onWorld (print_stats t) in
          ret (IoOk (Return 0))
        else
          let? _ := drain_ctrl in
          let! _ := modImpl (with_running true) in
          let! _ := onWorld (header t) in
          let! _ := onWorld (register_streams t) in
          let! _ := updTest start in
          ret (IoOk Next)
      else ret (IoOk Next)
  | ExchangeResults =>
      if ev_readable ev then
        let! r := drain_ctrl in
        match r with
        | IoErr _ => ret (IoOk Next)
        | IoOk json =>
            let! _ := updTest (from_serde (trim json)) in
            let! _ := modTest (transition End_) in
            let! _ := send_ctrl_state End_ in
            let? _ := wake in
            ret (IoOk Next)
        end
      else ret (IoOk Next)
  | End_ =>
      let! c := getImpl in
      let? _ := onWorld (syscall (SysShutdown (stream_fd (c_ctrl c)))) in
      let! _ := onWorld (print_stats t) in
      ret (IoOk (Return 0))
  | TestEnd | Wait =>
      if ev_readable ev then
        let? buf := drain_ctrl in
        let! b := liftR (unwrap (head buf)) in
        let! st := liftR (TestState_from_i8 (as_signed 8 b)) in
        let! _ := modTest (transition st) in
        ret (IoOk Next)
      else ret (IoOk Next)
  end.

(** ** The data streams' events *)

Definition shutdown_stream (p : PerfStream) : M World (io_result ()) :=
  let! t := liftR (as_TcpStream (ps_stream p)) in
  syscall (SysShutdown (stream_fd t)).

Definition finish_streams (p : PerfStream) : M World () :=
  let! q := liftR (as_Quic (ps_stream p)) in
  let! _ := mapM (λ _, unwrap_io (syscall (SysFinish (q_fd q)))) (q_send_streams q) in ret ().

Definition close_streams (t : Test) : M World (io_result ()) :=
  match conn t with
  | TCP => let? _ := mapIo shutdown_stream (test_streams t) in ret (IoOk ())
  | QUIC => let! _ := mapM finish_streams (test_streams t) in ret (IoOk ())
  | _ => ret (IoOk ())
  end.

(** The send loop on a whole test; the result carries the last [elapsed]. *)
Definition send (fuel : nat) (t : Test) : M World (Test * Z) :=
  let sp := plan_of t in
  let! e := elapsed (sp_start sp) in
  let! (ps, s) := send_loop fuel sp (test_streams t)
    (mkSendState (test_data t) (test_metrics t) e (buf_repeat 1 MAX_UDP_PAYLOAD) false) in
  ret (with_test_metrics (ss_metrics s)
        (with_test_data (ss_data s) (with_test_streams ps t)), ss_elapsed s).

Definition on_stream (fuel : nat) (ev : Event) : Cli (io_result Flow) :=
  let! t := getTest in
  match test_state t with
  | TestRunning =>
      if ev_writable ev then
        let! (t, e) := onWorld (send fuel t) in
        let! _ := putTest t in
        if limit_reached (plan_of t) (test_data t) || (time t <? e) then
          let? _ := onWorld (close_streams t) in
          let! _ := updTest end_test in
          let! _ := modTest (transition ExchangeResults) in
          let! _ := send_ctrl_state TestEnd in
          ret (IoOk Next)
        else ret (IoOk Next)
      else ret (IoOk Next)
  | _ => ret (IoOk Next)
  end.

(** ** The event loop *)

Definition handle (fuel : nat) (ev : Event) : Cli (io_result Flow) :=
  if ev_token ev =? CONTROL then on_control ev
  else if ev_token ev =? STREAM then on_stream fuel ev
  else ret (IoOk Next).

(** Everything [run] does before its loop. *)
Definition prepare : Cli (io_result ()) :=
  let! c := getImpl in
  let? _ := onWorld (syscall (SysRegister (stream_fd (c_ctrl c)) CONTROL)) in
  let? _ := onWorld (syscall SysWaker) in
  let! _ := modTest (with_test_mode SENDER) in
  let! n := onWorld (Tcp.mss (c_ctrl c)) in
  let! _ := modTest (setup_length n) in
  ret (IoOk ()).

Definition run (fuel : nat) (batches : list (list Event)) : Cli (io_result (option Z)) :=
  let? _ := prepare in
  event_loop (handle fuel) (ret (IoOk None)) batches.
End Client.
