(* ===== verification/ServerSpec.v ===== *)
(** * What the server promises: an abstract protocol and its refinement

    The abstract protocol only knows the test state, how many streams the
    settings ask for, how many exist and how many cookies have arrived.  Every
    event the server handles is one of its steps. *)
From stdpp Require Import relations.
From S2P Require Import Prelude F64 Env Kinds Tcp Net Udp Tls Quic Metrics Report PerfStream TestCore.
From S2P Require Import Node Server.

(** ** The abstract protocol *)

Record View : Type := mkView {
  v_state : TestState;
  v_required : Z;
  v_created : Z;
  v_cookies : Z
}.

Definition view_of (t : Test) : View :=
  mkView (test_state t) (num_streams t) (Z.of_nat (length (test_streams t))) (test_cookie_count t).

Inductive vstep : View → View → Prop :=
| vs_idle v : vstep v v
| vs_cookie n c k : vstep (mkView Start n c k) (mkView ParamExchange n c k)
| vs_params n n' c k : vstep (mkView ParamExchange n c k) (mkView CreateStreams n' c k)
| vs_params_failed n n' c k : vstep (mkView ParamExchange n c k) (mkView ParamExchange n' c k)
| vs_stream n c k : c + 1 < n → vstep (mkView CreateStreams n c k) (mkView CreateStreams n (c + 1) k)
| vs_last_stream n c k : c + 1 = n → vstep (mkView CreateStreams n c k) (mkView TestStart n (c + 1) k)
| vs_first_data n c k k' : k' ≠ n → vstep (mkView TestStart n c k) (mkView TestStart n c k')
| vs_go n c k : vstep (mkView TestStart n c k) (mkView TestRunning n c n)
| vs_peer st n c k : vstep (mkView TestRunning n c k) (mkView st n c k)
| vs_results n c k : vstep (mkView TestEnd n c k) (mkView ExchangeResults n c k)
| vs_done n c k : vstep (mkView ExchangeResults n c k) (mkView End_ n c k).

Create HintDb vstep discriminated.
#[export] Hint Constructors vstep : vstep.

(** Token [i] stands for stream [i]. *)
Definition tokens_ok (t : Test) : Prop :=
  test_tokens t = map Z.of_nat (seq 0 (length (test_streams t))).

Lemma frame_view t t' : frame_of t' = frame_of t → view_of t' = view_of t.
Proof. unfold frame_of, view_of, num_streams. intros [= -> -> -> _ -> _]. done. Qed.

Lemma frame_tokens t t' : frame_of t' = frame_of t → tokens_ok t → tokens_ok t'.
Proof. unfold frame_of, tokens_ok. intros [= _ _ _ -> -> _]. done. Qed.

Section Frames.
Context `{P : Profile} `{J : Serde} `{TR : Tracing}.

(** ** Operations that leave the test alone *)

Lemma keeps_get_ctrl : keeps_test get_ctrl.
Proof. unfold get_ctrl. auto with keeps. Qed.
Lemma keeps_put_ctrl c : keeps_test (put_ctrl c).
Proof. unfold put_ctrl. auto with keeps. Qed.
Hint Resolve keeps_get_ctrl keeps_put_ctrl : keeps.
Lemma keeps_drain_ctrl : keeps_test drain_ctrl.
Proof. unfold drain_ctrl. auto with keeps. Qed.
Lemma keeps_send_ctrl_state st : keeps_test (send_ctrl_state st).
Proof. unfold send_ctrl_state. auto with keeps. Qed.
Lemma keeps_wake : keeps_test wake.
Proof. unfold wake. auto with keeps. Qed.
Lemma keeps_new_udp : keeps_test new_udp.
Proof. unfold new_udp. auto 10 with keeps. Qed.
Lemma keeps_new_quic : keeps_test new_quic.
Proof. unfold new_quic. auto 10 with keeps. Qed.
Lemma keeps_register_listener fd tok : keeps_test (register_listener fd tok).
Proof. unfold register_listener. auto with keeps. Qed.
Hint Resolve keeps_new_udp keeps_new_quic keeps_register_listener : keeps.
Lemma keeps_listen : keeps_test listen.
Proof. unfold listen. auto 12 with keeps. Qed.
Lemma keeps_accept_stream : keeps_test accept_stream.
Proof. unfold accept_stream. auto 10 with keeps. Qed.
End Frames.

#[export] Hint Resolve keeps_get_ctrl keeps_put_ctrl keeps_drain_ctrl keeps_send_ctrl_state
  keeps_wake keeps_new_udp keeps_new_quic keeps_register_listener keeps_listen
  keeps_accept_stream : keeps.

(** Replaces every run of a computation that keeps the test by the equation
    that says so. *)
Ltac use_keeps :=
  repeat match goal with
  | H : ?m ?s = Done (?a, ?s1) |- _ =>
      let K := fresh "K" in
      assert (n_test s1 = n_test s) as K
        by (refine ((_ : keeps_test m) s a s1 H); solve [auto with keeps]);
      clear H
  end.

(** Follows the test backwards through the goal. *)
Ltac rw_tests :=
  repeat match goal with
  | H : n_test ?x = _ |- context [n_test ?x] => rewrite H
  end.

Section Refinement.
Context `{P : Profile} `{J : Serde} `{TR : Tracing}.

(** ** One more stream *)

(** What creating a stream does to the test. *)
Definition stream_added (t t' : Test) : Prop :=
  ∃ p, t' = with_test_streams (test_streams t ++ [p])
              (with_test_tokens (test_tokens t ++ [Z.of_nat (length (test_tokens t))]) t).

Lemma new_token_Done s z s' :
  new_token s = Done (z, s') →
  n_test s' = with_test_tokens (test_tokens (n_test s) ++ [Z.of_nat (length (test_tokens (n_test s)))])
                (n_test s).
Proof. unfold new_token. intros H. mrun H. done. Qed.

Lemma push_stream_Done b s u s' :
  push_stream b s = Done (u, s') →
  ∃ p, n_test s' = with_test_streams (test_streams (n_test s) ++ [p]) (n_test s).
Proof. unfold push_stream. intros H. mrun H. by eexists. Qed.

Ltac stream_tac H :=
  mrun H;
  repeat match goal with
  | H' : new_token _ = Done _ |- _ => apply new_token_Done in H'
  | H' : push_stream _ _ = Done _ |- _ => apply push_stream_Done in H' as [? H']
  end;
  use_keeps; eexists; rw_tests; reflexivity.

Lemma create_tcp_stream_added s u s' :
  create_tcp_stream s = Done (u, s') → stream_added (n_test s) (n_test s').
Proof. unfold create_tcp_stream. intros H. stream_tac H. Qed.

Lemma create_tls_stream_added s u s' :
  create_tls_stream s = Done (u, s') → stream_added (n_test s) (n_test s').
Proof.
  unfold create_tls_stream. intros H. mrun H.
  destruct (sup_tls _) as [|[sess rounds] r]; [done|]. stream_tac H.
Qed.

Lemma create_udp_stream_added s u s' :
  create_udp_stream s = Done (u, s') → stream_added (n_test s) (n_test s').
Proof.
  unfold create_udp_stream. intros H. mrun H.
  match type of H with (match ?x with _ => _ end) _ = _ => destruct x; [|done] end.
  mrun H. case_match; stream_tac H.
Qed.

Lemma create_quic_stream_added s u s' :
  create_quic_stream s = Done (u, s') → stream_added (n_test s) (n_test s').
Proof.
  unfold create_quic_stream. intros H. mrun H. case_match; stream_tac H.
Qed.

Lemma stream_added_tokens t t' : stream_added t t' → tokens_ok t → tokens_ok t'.
Proof.
  intros [p ->] Ht. unfold tokens_ok in *. simpl. rewrite Ht at 1 2.
  rewrite length_map, length_seq, length_app, seq_app, map_app. done.
Qed.

Lemma stream_added_view t t' :
  stream_added t t' →
  view_of t' = mkView (test_state t) (num_streams t)
    (Z.of_nat (length (test_streams t)) + 1) (test_cookie_count t).
Proof.
  intros [p ->]. unfold view_of. simpl. f_equal. rewrite length_app. simpl. lia.
Qed.

(** The check after the creation of a stream. *)
Lemma streams_created_Done s u s' :
  streams_created s = Done (u, s') →
  let n := Z.of_nat (length (test_streams (n_test s))) in
  (n < num_streams (n_test s) ∧ n_test s' = n_test s) ∨
  (n = num_streams (n_test s) ∧ n_test s' = transition TestStart (n_test s)).
Proof.
  unfold streams_created. intros H. mrun H.
  destruct (Z.ltb_spec (num_streams (n_test s)) (Z.of_nat (length (test_streams (n_test s)))));
    [done|].
  destruct (Z.eqb_spec (Z.of_nat (length (test_streams (n_test s)))) (num_streams (n_test s))).
  - right. split; [done|]. mrun H. use_keeps. by rw_tests.
  - left. mrun H. split; [lia|done].
Qed.

(** ** Every event is a step of the protocol *)

Definition refines {A} (m : Srv A) : Prop :=
  ∀ s a s', m s = Done (a, s') →
    vstep (view_of (n_test s)) (view_of (n_test s')) ∧
    (tokens_ok (n_test s) → tokens_ok (n_test s')).

Lemma step_same t t' : t' = t → vstep (view_of t) (view_of t') ∧ (tokens_ok t → tokens_ok t').
Proof. intros ->. split; [constructor|done]. Qed.

Lemma view_state t st : test_state t = st →
  view_of t = mkView st (num_streams t) (Z.of_nat (length (test_streams t))) (test_cookie_count t).
Proof. by intros <-. Qed.

(** The states a stream's creation and the check after it can lead to. *)
Lemma creation_step t t1 t' :
  test_state t = CreateStreams → stream_added t t1 →
  let n := Z.of_nat (length (test_streams t1)) in
  (n < num_streams t1 ∧ t' = t1) ∨ (n = num_streams t1 ∧ t' = transition TestStart t1) →
  vstep (view_of t) (view_of t') ∧ (tokens_ok t → tokens_ok t').
Proof.
  intros Hst Hadd n Hn. pose proof (stream_added_view _ _ Hadd) as Hv.
  pose proof (stream_added_tokens _ _ Hadd) as Ht. rewrite (view_state t _ Hst).
  rewrite Hst in Hv. injection Hv as Hs Hr Hl Hk. subst n.
  destruct Hn as [[Hlt ->]|[Heq ->]]; (split; [|exact Ht]).
  - rewrite (view_state t1 _ Hs), Hl, Hr, Hk. constructor. lia.
  - change (view_of (transition TestStart t1)) with
      (mkView TestStart (num_streams t1) (Z.of_nat (length (test_streams t1)))
         (test_cookie_count t1)).
    rewrite Hl, Hr, Hk. constructor. lia.
Qed.

Ltac creation_tac Hst :=
  match goal with H : streams_created _ = Done _ |- _ => apply streams_created_Done in H end;
  eapply creation_step; [exact Hst|eassumption|assumption].

Lemma on_tcp_listener_refines ev : refines (on_tcp_listener ev).
Proof.
  intros s a s' H. unfold on_tcp_listener in H. mrun H.
  destruct (test_state (n_test s)) eqn:Hst; mrun H; try by apply step_same.
  match goal with H : create_tcp_stream _ = _ |- _ => apply create_tcp_stream_added in H end.
  creation_tac Hst.
Qed.

Lemma on_tls_listener_refines ev : refines (on_tls_listener ev).
Proof.
  intros s a s' H. unfold on_tls_listener in H. mrun H.
  destruct (test_state (n_test s)) eqn:Hst; mrun H; try by apply step_same.
  match goal with H : create_tls_stream _ = _ |- _ => apply create_tls_stream_added in H end.
  creation_tac Hst.
Qed.

Lemma on_udp_listener_refines ev : refines (on_udp_listener ev).
Proof.
  intros s a s' H. unfold on_udp_listener in H. mrun H.
  destruct (test_state (n_test s)) eqn:Hst; mrun H; try by apply step_same.
  destruct (ev_readable ev); mrun H; [|by apply step_same].
  match goal with H : create_udp_stream _ = _ |- _ => apply create_udp_stream_added in H end.
  creation_tac Hst.
Qed.

Lemma on_quic_listener_refines ev : refines (on_quic_listener ev).
Proof.
  intros s a s' H. unfold on_quic_listener in H. mrun H.
  destruct (test_state (n_test s)) eqn:Hst; mrun H; try by apply step_same.
  destruct (ev_readable ev); mrun H; [|by apply step_same].
  match goal with H : create_quic_stream _ = _ |- _ => apply create_quic_stream_added in H end.
  creation_tac Hst.
Qed.

(** Ending the test and reading the peer's byte leave the frame alone. *)
Lemma read_next_state_frame s st s' :
  read_next_state s = Done (st, s') → frame_of (n_test s') = frame_of (n_test s).
Proof.
  unfold read_next_state. intros H. mrun H. rename x into r.
  destruct r as [[|b [|b' bs]]|e]; mrun H; use_keeps;
    try match goal with H : end_test _ _ = Done _ |- _ => apply end_test_frame in H end;
    simpl in *; rw_tests; congruence.
Qed.

Lemma frame_step t t' v :
  frame_of t' = frame_of t → vstep (view_of t) v → v = view_of t' →
  vstep (view_of t) (view_of t') ∧ (tokens_ok t → tokens_ok t').
Proof. intros Hf Hv <-. split; [done|]. by apply frame_tokens. Qed.

Lemma frame_transition st t t' :
  frame_of t' = frame_of t →
  view_of (transition st t') = mkView st (num_streams t) (Z.of_nat (length (test_streams t)))
    (test_cookie_count t) ∧
  (tokens_ok t → tokens_ok (transition st t')).
Proof.
  intros Hf. split; [|intros Ht; by apply (frame_tokens _ _ Hf) in Ht].
  apply frame_view in Hf. injection Hf as _ Hn Hc Hk. unfold view_of. simpl.
  change (num_streams (transition st t')) with (num_streams t'). congruence.
Qed.

(** A step out of state [st] that ends in [transition st' t1]. *)
Lemma transition_step st st' t t1 :
  test_state t = st → frame_of t1 = frame_of t →
  (∀ n c k, vstep (mkView st n c k) (mkView st' n c k)) →
  vstep (view_of t) (view_of (transition st' t1)) ∧
  (tokens_ok t → tokens_ok (transition st' t1)).
Proof.
  intros Hst Hf Hv. destruct (frame_transition st' _ _ Hf) as [-> Ht].
  rewrite (view_state t _ Hst). by split.
Qed.

Lemma set_settings_step st' buf t t1 t' :
  test_state t = ParamExchange → set_settings buf t = Done t1 →
  t' = transition st' t1 ∧ st' = CreateStreams ∨ t' = t1 →
  vstep (view_of t) (view_of t') ∧ (tokens_ok t → tokens_ok t').
Proof.
  intros Hst H Ht'. unfold set_settings in H. mrun H. rewrite (view_state t _ Hst).
  destruct Ht' as [[-> ->]| ->]; (split; [|done]); [apply vs_params|].
  unfold view_of. simpl. rewrite Hst. apply vs_params_failed.
Qed.

Lemma on_control_refines ev : refines (on_control ev).
Proof.
  intros s a s' H. unfold on_control in H. mrun H.
  destruct (test_state (n_test s)) eqn:Hst.
  - destruct (ev_readable ev); mrun H; use_keeps; rw_tests; try by apply step_same.
    apply (transition_step Start); [done|by rw_tests|constructor].
  - destruct (ev_readable ev); [|mrun H; by apply step_same].
    mrun H; use_keeps; rw_tests; try by apply step_same.
    all: eapply (set_settings_step CreateStreams); [done|eassumption|by auto].
  - mrun H. by apply step_same.
  - mrun H. by apply step_same.
  - destruct (ev_readable ev); [|mrun H; by apply step_same].
    mrun H; use_keeps; rw_tests;
      match goal with H : read_next_state _ = _ |- _ => apply read_next_state_frame in H end;
      (eapply transition_step; [exact Hst|done|constructor]).
  - mrun H; use_keeps; rw_tests;
      match goal with H : end_test _ _ = _ |- _ => apply end_test_frame in H end;
      (eapply transition_step; [exact Hst|done|constructor]).
  - mrun H. apply step_same. done.
  - mrun H; use_keeps; rw_tests; try by apply step_same.
    eapply transition_step; [exact Hst|by rw_tests|constructor].
  - mrun H. by apply step_same.
Qed.

(** ** Data streams *)

Lemma insert_stream_frame i p t :
  frame_of (with_test_streams (<[i:=p]> (test_streams t)) t) = frame_of t.
Proof. unfold frame_of. simpl. by rewrite length_insert. Qed.

Lemma receive_frame t i w t' w' : receive t i w = Done (t', w') → frame_of t' = frame_of t.
Proof.
  unfold receive. intros H. mrun H. apply insert_stream_frame.
Qed.

Lemma read_stream_cookie_frame t i w t' w' :
  read_stream_cookie t i w = Done (IoOk t', w') → frame_of t' = frame_of t.
Proof.
  unfold read_stream_cookie. intros H. mrun H.
  destruct (conn t); mrun H; repeat (case_match; mrun H); simplify_eq;
    apply insert_stream_frame.
Qed.

Lemma count_cookie_step t s u s' :
  test_state (n_test s) = TestStart → frame_of (n_test s) = frame_of t →
  count_cookie s = Done (u, s') →
  vstep (view_of t) (view_of (n_test s')) ∧ (tokens_ok t → tokens_ok (n_test s')).
Proof.
  intros Hst Hf H. revert Hf. unfold count_cookie in H. mrun H. intros Hf.
  assert (vstep (view_of (n_test s)) (view_of (n_test s')) ∧
    test_tokens (n_test s') = test_tokens (n_test s) ∧
    length (test_streams (n_test s')) = length (test_streams (n_test s))) as (Hv & Htok & Hlen).
  { rewrite (view_state _ _ Hst).
    lazymatch type of H with (if ?a =? ?b then _ else _) _ = _ =>
      destruct (Z.eqb_spec a b) as [Heq|Hne] end; mrun H.
    - use_keeps. match goal with Hs : start _ _ = _ |- _ => apply start_frame in Hs as Hsf end.
      simpl in *. unfold frame_of in Hsf. rw_tests.
      match goal with K : n_test _ = _ |- _ => rewrite K in Hsf end.
      simpl in Hsf. injection Hsf as Hs1 Hs2 Hs3 Hs4 Hs5 _.
      unfold view_of, num_streams. rewrite Hs1, Hs2, Hs3, Hs4, Hs5. simpl. split_and!; [|done..].
      apply vs_go.
    - simpl. split_and!; [|done..]. unfold view_of. simpl. rewrite Hst.
      apply vs_first_data. done. }
  rewrite <- (frame_view _ _ Hf). split; [done|]. intros Ht.
  apply (frame_tokens _ _ Hf) in Ht. unfold tokens_ok in *. congruence.
Qed.

Lemma on_stream_refines ev : refines (on_stream ev).
Proof.
  intros s a s' H. unfold on_stream in H. mrun H.
  destruct (test_state (n_test s)) eqn:Hst; try (mrun H; by apply step_same).
  - destruct (ev_readable ev); [|mrun H; by apply step_same].
    mrun H; [|by apply step_same].
    match goal with H : read_stream_cookie _ _ _ = _ |- _ =>
      apply read_stream_cookie_frame in H as Hf end.
    eapply count_cookie_step; [| |eassumption]; [|exact Hf].
    simpl. unfold frame_of in Hf. congruence.
  - destruct (ev_readable ev); [|mrun H; by apply step_same].
    mrun H. match goal with H : receive _ _ _ = _ |- _ => apply receive_frame in H as Hf end.
    simpl. rewrite (frame_view _ _ Hf). split; [constructor|by apply frame_tokens].
Qed.

Lemma handle_refines ev : refines (handle ev).
Proof.
  intros s a s' H. unfold handle in H.
  repeat case_match; first
    [by eapply on_control_refines|by eapply on_tcp_listener_refines
    |by eapply on_udp_listener_refines|by eapply on_quic_listener_refines
    |by eapply on_tls_listener_refines|by eapply on_stream_refines].
Qed.
End Refinement.

(** ** Whole runs *)

Section Runs.
Context `{P : Profile} `{J : Serde} `{TR : Tracing}.

Definition proto_rel (s s' : Node ServerImpl) : Prop :=
  rtc vstep (view_of (n_test s)) (view_of (n_test s')) ∧
  (tokens_ok (n_test s) → tokens_ok (n_test s')).

#[local] Instance proto_rel_preorder : PreOrder proto_rel.
Proof.
  split.
  - intros s. split; [reflexivity|done].
  - intros s1 s2 s3 [H1 T1] [H2 T2]. split; [by etrans|auto].
Qed.

Lemma on_idle_rel s r s' : on_idle s = Done (r, s') → proto_rel s s'.
Proof.
  unfold on_idle. intros H. mrun H.
  unfold reset_counter_inc in *.
  match goal with H : bindR _ _ = Done _ |- _ => mrun H end.
  split; [reflexivity|done].
Qed.

Lemma loop_proto_rel batches s r s' :
  event_loop handle on_idle batches s = Done (r, s') → proto_rel s s'.
Proof.
  intros H. eapply (event_loop_rel handle on_idle proto_rel); [| | |exact H].
  - intros ev s0 f s1 H1. apply handle_refines in H1 as [Hv Ht].
    split; [by apply rtc_once|done].
  - apply on_idle_rel.
  - intros s0 w. split; [reflexivity|done].
Qed.

(** C1: however the system and the peer behave, what the server does to
    its test from one [poll] to the next is a sequence of steps of the
    abstract protocol. *)
Theorem server_refines_protocol batches s r s' :
  event_loop handle on_idle batches s = Done (r, s') →
  rtc vstep (view_of (n_test s)) (view_of (n_test s')).
Proof. intros H. by apply loop_proto_rel in H as [H _]. Qed.
End Runs.

(** ** What the protocol guarantees *)

(** Once the test has started, every requested stream exists; once data flows,
    every stream has shown its cookie. *)
Definition proto_inv (v : View) : Prop :=
  (v_state v = TestStart → v_created v = v_required v) ∧
  (v_state v = TestRunning → v_created v = v_required v ∧ v_cookies v = v_required v).

Lemma vstep_inv v v' : vstep v v' → proto_inv v → proto_inv v'.
Proof.
  unfold proto_inv. intros Hs [H1 H2].
  destruct Hs; simpl in *; split; try done; try (intros ->); intuition lia.
Qed.

Lemma rtc_vstep_inv v v' : rtc vstep v v' → proto_inv v → proto_inv v'.
Proof. induction 1; eauto using vstep_inv. Qed.

Section Safety.
Context `{P : Profile} `{J : Serde} `{TR : Tracing}.

(** C6: from a server that has not begun, whatever events come, a
    running test has exactly the requested number of streams, as many cookie
    messages have been counted, and each stream's token leads back to it. *)
Theorem server_running_complete batches s r s' :
  test_state (n_test s) = Start → test_streams (n_test s) = [] →
  test_tokens (n_test s) = [] →
  event_loop handle on_idle batches s = Done (r, s') →
  test_state (n_test s') = TestRunning →
  let t := n_test s' in
  Z.of_nat (length (test_streams t)) = num_streams t ∧
  test_cookie_count t = num_streams t ∧
  (∀ i, (i < length (test_streams t))%nat →
     test_tokens t !! i = Some (Z.of_nat i) ∧ is_Some (test_streams t !! i)).
Proof.
  intros Hst Hstr Htok H Hrun t. apply loop_proto_rel in H as [Hv Ht].
  apply rtc_vstep_inv in Hv as [_ Hinv].
  2:{ unfold proto_inv. simpl. rewrite Hst. done. }
  destruct (Hinv Hrun) as [Hc Hk]. split_and!; [done..|].
  intros i Hi. split; [|by apply lookup_lt_is_Some].
  assert (tokens_ok t) as -> by (apply Ht; unfold tokens_ok; by rewrite Hstr, Htok).
  rewrite list_lookup_fmap, lookup_seq_lt by done. done.
Qed.
End Safety.
