(* ===== verification/ServerTalk.v ===== *)
(** * What the server says on the control connection

    Each event makes the server send nothing, the byte of the state it goes
    to, or its results; the messages of a run are those of its steps, in
    order. *)
From stdpp Require Import relations.
From S2P Require Import Prelude F64 Env Kinds Tcp Net Udp Tls Quic Metrics Report PerfStream TestCore.
From S2P Require Import Talk Node Server ServerSpec.

(** ** The abstract conversation *)

(** The transitions that are answered with the byte of the new state. *)
Inductive answered : TestState → TestState → Prop :=
| a_cookie : answered Start ParamExchange
| a_settings : answered ParamExchange CreateStreams
| a_streams : answered CreateStreams TestStart
| a_cookies : answered TestStart TestRunning.

Section Conversation.
Context `{P : Profile} `{J : Serde} `{TR : Tracing}.

(** One event: what is sent between two states of the test. *)
Inductive says (t : Test) : list (list Z) → Test → Prop :=
| says_nothing t' : test_state t' = test_state t → says t [] t'
| says_answer st st' t' : answered st st' → test_state t = st → test_state t' = st' →
    says t [[TestState_as_u8 st']] t'
| says_obeys t' : test_state t = TestRunning → says t [] t'
| says_ends t' : test_state t = TestEnd → test_state t' = ExchangeResults → says t [] t'
| says_results json t' : test_state t = ExchangeResults → results t = Done json →
    test_state t' = End_ → says t [json] t'.

(** A run: the messages of its events in order. *)
Inductive conversation : Test → list (list Z) → Test → Prop :=
| conv_refl t : conversation t [] t
| conv_step t1 ms t2 ms' t3 :
    says t1 ms t2 → conversation t2 ms' t3 → conversation t1 (ms ++ ms') t3.

Lemma conversation_trans t1 ms1 t2 ms2 t3 :
  conversation t1 ms1 t2 → conversation t2 ms2 t3 → conversation t1 (ms1 ++ ms2) t3.
Proof.
  induction 1 as [|ta ms tb ms' tc Hs _ IH]; intros H; [done|].
  rewrite <- (assoc_L (++)). econstructor; [exact Hs|by apply IH].
Qed.

End Conversation.

(** ** Operations that leave the control connection as it is

    [still f m]: what [f] shows of the control connection stays the same
    through [m].  What goes out ([sent]) only changes by messages, what is to
    come in ([coming]) only by draining. *)

Definition sent (c : TcpStream) : list Buf := sk_sent (t_sock c).
Definition coming (c : TcpStream) : list Incoming := sk_in (t_sock c).

Definition of_ctrl {O} (f : TcpStream → O) (s : Node ServerImpl) : option O :=
  f <$> s_ctrl (n_impl s).
Abbreviation ctrl_sent := (of_ctrl sent).
Abbreviation ctrl_coming := (of_ctrl coming).

Definition still {O} (f : TcpStream → O) {A} (m : Srv A) : Prop :=
  ∀ s a s', m s = Done (a, s') → of_ctrl f s' = of_ctrl f s.

Section Still.
Context {O : Type} (f : TcpStream → O).

Lemma still_ret {A} (a : A) : still f (ret a).
Proof. intros s b s' H. mrun H. done. Qed.
Lemma still_liftR {A} (r : res A) : still f (liftR r).
Proof. intros s b s' H. mrun H. done. Qed.
Lemma still_crash {A} c : still f (@crashM _ A c).
Proof. done. Qed.
Lemma still_panic {A} c : still f (@panic _ A c).
Proof. done. Qed.
Lemma still_onWorld {A} (m : M World A) : still f (onWorld m).
Proof. intros s b s' H. apply onWorld_Done in H as (? & ? & _ & [= -> ->]). done. Qed.
Lemma still_getTest : still f getTest.
Proof. intros s b s' H. mrun H. done. Qed.
Lemma still_getImpl : still f getImpl.
Proof. intros s b s' H. mrun H. done. Qed.
Lemma still_putTest t : still f (putTest t).
Proof. intros s b s' H. mrun H. done. Qed.
Lemma still_modTest g : still f (modTest g).
Proof. intros s b s' H. mrun H. done. Qed.
Lemma still_updTest g : still f (updTest g).
Proof. intros s b s' H. mrun H. done. Qed.
Lemma still_supply k : still f (modImpl (with_supply k)).
Proof. intros s b s' H. mrun H. done. Qed.
Lemma still_t k : still f (modImpl (with_t k)).
Proof. intros s b s' H. mrun H. done. Qed.
Lemma still_u k : still f (modImpl (with_u k)).
Proof. intros s b s' H. mrun H. done. Qed.
Lemma still_q k : still f (modImpl (with_q k)).
Proof. intros s b s' H. mrun H. done. Qed.
Lemma still_bind {A B} (m : Srv A) (g : A → Srv B) :
  still f m → (∀ a, still f (g a)) → still f (bindM m g).
Proof. intros Hm Hg s b s' H. mrun H. etrans; [by eapply Hg|by eapply Hm]. Qed.
Lemma still_bindIo {A B} (m : Srv (io_result A)) (g : A → Srv (io_result B)) :
  still f m → (∀ a, still f (g a)) → still f (bindIo m g).
Proof. intros Hm Hg. unfold bindIo. apply still_bind; [done|]. intros [a|e]; [done|apply still_ret]. Qed.
End Still.

Create HintDb still discriminated.
#[export] Hint Constants Opaque : still.
#[export] Hint Variables Opaque : still.
#[export] Hint Resolve still_ret still_liftR still_crash still_panic still_onWorld still_getTest
  still_getImpl still_putTest still_modTest still_updTest still_supply still_t still_u still_q
  still_bind still_bindIo : still.
#[export] Hint Extern 1 (still _ (match ?x with _ => _ end)) => destruct x : still.
#[export] Hint Extern 1 (∀ _, still _ _) => intro : still.

Lemma get_ctrl_Done s c s' :
  get_ctrl s = Done (c, s') → s' = s ∧ s_ctrl (n_impl s) = Some c.
Proof.
  unfold get_ctrl. intros H. mrun H.
  destruct (s_ctrl (n_impl s)); by simplify_eq/=.
Qed.

(** *** Operations that leave it alone altogether *)

Section Apart.
Context `{P : Profile} `{J : Serde} `{TR : Tracing}.
Context {O : Type} (f : TcpStream → O).

Lemma still_wake : still f wake.
Proof. unfold wake. auto with still. Qed.
Lemma still_new_udp : still f new_udp.
Proof. unfold new_udp. auto 10 with still. Qed.
Lemma still_new_quic : still f new_quic.
Proof. unfold new_quic. auto 10 with still. Qed.
Lemma still_register fd tok : still f (register_listener fd tok).
Proof. unfold register_listener. auto with still. Qed.
Hint Resolve still_new_udp still_new_quic still_register : still.
Lemma still_listen : still f listen.
Proof. unfold listen. auto 12 with still. Qed.
Lemma still_new_token : still f new_token.
Proof. unfold new_token. auto 12 with still. Qed.
Lemma still_push b : still f (push_stream b).
Proof. unfold push_stream. auto 12 with still. Qed.
Lemma still_accept : still f accept_stream.
Proof. unfold accept_stream. auto 12 with still. Qed.
Hint Resolve still_new_token still_push still_accept : still.
Lemma still_tcp : still f create_tcp_stream.
Proof. unfold create_tcp_stream. auto 12 with still. Qed.
Lemma still_tls : still f create_tls_stream.
Proof. unfold create_tls_stream. auto 16 with still. Qed.
Lemma still_udp : still f create_udp_stream.
Proof. unfold create_udp_stream. auto 20 with still. Qed.
Lemma still_quic : still f create_quic_stream.
Proof. unfold create_quic_stream. auto 20 with still. Qed.
Lemma still_on_idle : still f on_idle.
Proof. unfold on_idle. auto 12 with still. Qed.
End Apart.

#[export] Hint Resolve still_wake still_new_udp still_new_quic still_register still_listen
  still_new_token still_push still_accept still_tcp still_tls still_udp still_quic
  still_on_idle : still.

(** *** Draining says nothing, and messages do not change what is to come *)

Section Ctrl.
Context `{P : Profile} `{J : Serde} `{TR : Tracing}.

Lemma still_drain_ctrl : still sent drain_ctrl.
Proof.
  unfold drain_ctrl, put_ctrl. intros s a s' H. mrun H. unfold of_ctrl, sent. simpl.
  match goal with H : get_ctrl _ = _ |- _ => apply get_ctrl_Done in H as [-> ->] end.
  simpl. by erewrite drain_message_sent by eassumption.
Qed.
Hint Resolve still_drain_ctrl : still.
Lemma still_read_next : still sent read_next_state.
Proof. unfold read_next_state. auto 12 with still. Qed.
End Ctrl.

#[export] Hint Resolve still_drain_ctrl still_read_next : still.

(** ** Messages *)

Section Handlers.
Context `{P : Profile} `{J : Serde} `{TR : Tracing}.

(** [told s ms s']: from [s] to [s'] the control connection has been given the
    messages [ms]. *)
Definition told (s : Node ServerImpl) (ms : list (list Z)) (s' : Node ServerImpl) : Prop :=
  ∀ bs0 ms0, ctrl_sent s = Some bs0 → said bs0 ms0 →
  ∃ bs, ctrl_sent s' = Some bs ∧ said bs (ms0 ++ ms).

Lemma told_still s s' : ctrl_sent s' = ctrl_sent s → told s [] s'.
Proof. intros E bs ms H Hs. exists bs. rewrite E, app_nil_r. by split. Qed.

Lemma told_trans s1 ms s2 ms' s3 : told s1 ms s2 → told s2 ms' s3 → told s1 (ms ++ ms') s3.
Proof.
  intros H1 H2 bs ms0 H Hs. destruct (H1 _ _ H Hs) as (bs1 & E1 & S1).
  rewrite (assoc_L (++)). by apply (H2 bs1).
Qed.

Lemma send_ctrl_state_told st s u s' :
  send_ctrl_state st s = Done (u, s') → told s [[TestState_as_u8 st]] s' ∧ n_test s' = n_test s.
Proof.
  unfold send_ctrl_state, put_ctrl. intros H. mrun H.
  match goal with H : get_ctrl _ = _ |- _ => apply get_ctrl_Done in H as [-> Hc] end.
  split; [|done]. intros bs ms E Hs.
  unfold of_ctrl, sent in *. rewrite Hc in E. simplify_eq/=. eexists. split; [done|].
  by eapply send_state_said.
Qed.

(** What an event does: it says something that fits the change of the test. *)
Definition spoken {A} (m : Srv A) : Prop :=
  ∀ s a s', m s = Done (a, s') → ∃ ms, says (n_test s) ms (n_test s') ∧ told s ms s'.

Lemma spoken_nothing s s' :
  test_state (n_test s') = test_state (n_test s) → ctrl_sent s' = ctrl_sent s →
  ∃ ms, says (n_test s) ms (n_test s') ∧ told s ms s'.
Proof. intros Ht Hc. exists []. split; [by constructor|by apply told_still]. Qed.

(** The byte of the new state, after operations that are silent. *)
Lemma spoken_answer st st' s s1 u s2 s' :
  answered st st' → test_state (n_test s) = st →
  ctrl_sent s1 = ctrl_sent s → test_state (n_test s1) = st' →
  send_ctrl_state st' s1 = Done (u, s2) →
  ctrl_sent s' = ctrl_sent s2 → test_state (n_test s') = test_state (n_test s2) →
  ∃ ms, says (n_test s) ms (n_test s') ∧ told s ms s'.
Proof.
  intros Ha Hs Hc1 Hs1 H Hc2 Hs2. apply send_ctrl_state_told in H as [Ht Hn].
  exists [[TestState_as_u8 st']]. split.
  - apply (says_answer _ st st'); [done..|]. congruence.
  - intros bs ms E Hsd. rewrite <- Hc1 in E. destruct (Ht _ _ E Hsd) as (bs' & E' & S').
    exists bs'. by rewrite Hc2.
Qed.

End Handlers.

(** Nothing was said. *)
Ltac silent :=
  match goal with |- context [told _ _ ?s'] => apply (spoken_nothing _ s') end.

(** The byte of the state [st'] was said. *)
Ltac answer_tac st st' Hst :=
  match goal with H : send_ctrl_state _ _ = _ |- context [told _ _ ?s'] =>
    eapply (spoken_answer st st' _ _ _ _ s');
      [constructor|exact Hst| | |exact H|reflexivity|reflexivity]; clear H
  end.

Section Created.
Context `{P : Profile} `{J : Serde} `{TR : Tracing}.

Lemma streams_created_spoken s s0 u s' :
  test_state (n_test s0) = CreateStreams → ctrl_sent s = ctrl_sent s0 →
  test_state (n_test s) = CreateStreams → streams_created s = Done (u, s') →
  ∃ ms, says (n_test s0) ms (n_test s') ∧ told s0 ms s'.
Proof.
  intros H0 Hc Hs H. unfold streams_created in H. mrun H.
  destruct (_ <? _); [mrun H|]. destruct (_ =? _); mrun H.
  - answer_tac CreateStreams TestStart H0; [exact Hc|reflexivity].
  - apply spoken_nothing; congruence.
Qed.
End Created.

(** Every run of a silent computation becomes the equation that says so. *)
Ltac use_still f :=
  repeat match goal with
  | H : ?m ?s = Done (?a, ?s1) |- _ =>
      let K := fresh "K" in
      assert (of_ctrl f s1 = of_ctrl f s) as K
        by (refine ((_ : still f m) s a s1 H); solve [auto with still]);
      clear H
  end.
Ltac ctrl_tac := use_still sent; unfold of_ctrl, sent in *; simpl in *; congruence.
Ltac state_tac := use_keeps; simpl in *; rw_tests; simpl in *; congruence.

(** A stream has been created, by what the lemma [added] is about. *)
Ltac created_tac Hst added :=
  match goal with H : streams_created ?s1 = _ |- _ =>
    eapply (streams_created_spoken s1 _ _ _ Hst); [| |exact H]; clear H; [ctrl_tac|];
    match goal with H1 : _ = Done (_, s1) |- _ => apply added in H1 as [? ->]; exact Hst end
  end.

Section Events.
Context `{P : Profile} `{J : Serde} `{TR : Tracing}.

Lemma on_tcp_listener_spoken ev : spoken (on_tcp_listener ev).
Proof.
  intros s a s' H. unfold on_tcp_listener in H. mrun H.
  destruct (test_state (n_test s)) eqn:Hst; mrun H; try by apply spoken_nothing.
  created_tac Hst create_tcp_stream_added.
Qed.

Lemma on_control_spoken ev : spoken (on_control ev).
Proof.
  intros s a s' H. unfold on_control in H. mrun H.
  destruct (test_state (n_test s)) eqn:Hst.
  - destruct (ev_readable ev); mrun H; [|apply spoken_nothing; [state_tac|ctrl_tac]|by apply spoken_nothing].
    answer_tac Start ParamExchange Hst.
    + ctrl_tac.
    + done.
  - destruct (ev_readable ev); [|mrun H; by apply spoken_nothing].
    mrun H; [answer_tac ParamExchange CreateStreams Hst; [ctrl_tac|done]|apply spoken_nothing..].
    2,4: ctrl_tac.
    2: state_tac.
    match goal with H : set_settings _ _ = _ |- _ => unfold set_settings in H; mrun H end.
    state_tac.
  - mrun H. by apply spoken_nothing.
  - mrun H. by apply spoken_nothing.
  - destruct (ev_readable ev); [|mrun H; by apply spoken_nothing].
    mrun H; exists []; (split; [by apply says_obeys|apply told_still; ctrl_tac]).
  - mrun H; exists []; (split; [apply says_ends; [done|state_tac]|apply told_still; ctrl_tac]).
  - mrun H. by apply spoken_nothing.
  - mrun H.
    all: match goal with H : get_ctrl _ = _ |- _ => apply get_ctrl_Done in H as [-> Hc] end.
    all: match goal with H : put_ctrl _ _ = _ |- _ => unfold put_ctrl in H; mrun H end.
    all: match goal with H : TcpStream_write ?c (buf_of ?m) _ = Done (_, ?c', _) |- _ =>
      rename H into Hw; set (json := m) in *; set (ctrl := c) in *; set (ctrl' := c') in * end.
    + exists [json]. split; [by apply says_results|]. intros bs ms E Hs.
      unfold of_ctrl, sent in *. rewrite Hc in E. simplify_eq/=.
      eexists. split; [done|]. exact (TcpStream_write_said _ _ _ _ _ _ _ Hw Hs).
    + exists []. split; [by constructor|]. intros bs ms E Hs.
      unfold of_ctrl, sent in *. rewrite Hc in E. simplify_eq/=.
      eexists. split; [done|]. rewrite app_nil_r, (TcpStream_write_said _ _ _ _ _ _ _ Hw Hs). done.
  - mrun H. by apply spoken_nothing.
Qed.

Lemma on_tls_listener_spoken ev : spoken (on_tls_listener ev).
Proof.
  intros s a s' H. unfold on_tls_listener in H. mrun H.
  destruct (test_state (n_test s)) eqn:Hst; mrun H; try by apply spoken_nothing.
  created_tac Hst create_tls_stream_added.
Qed.

Lemma on_udp_listener_spoken ev : spoken (on_udp_listener ev).
Proof.
  intros s a s' H. unfold on_udp_listener in H. mrun H.
  destruct (test_state (n_test s)) eqn:Hst; mrun H; try by apply spoken_nothing.
  destruct (ev_readable ev); mrun H; [|by apply spoken_nothing].
  created_tac Hst create_udp_stream_added.
Qed.

Lemma on_quic_listener_spoken ev : spoken (on_quic_listener ev).
Proof.
  intros s a s' H. unfold on_quic_listener in H. mrun H.
  destruct (test_state (n_test s)) eqn:Hst; mrun H; try by apply spoken_nothing.
  destruct (ev_readable ev); mrun H; [|by apply spoken_nothing].
  created_tac Hst create_quic_stream_added.
Qed.

Lemma on_stream_spoken ev : spoken (on_stream ev).
Proof.
  intros s a s' H. unfold on_stream in H. mrun H.
  destruct (test_state (n_test s)) eqn:Hst; try (mrun H; by apply spoken_nothing).
  - destruct (ev_readable ev); [|mrun H; by apply spoken_nothing].
    mrun H; [|by silent].
    match goal with H : read_stream_cookie _ _ _ = _ |- _ =>
      apply read_stream_cookie_frame in H as Hf; clear H end.
    match goal with H : count_cookie _ = _ |- _ => unfold count_cookie in H; mrun H end.
    match goal with H : (if _ =? _ then _ else _) _ = _ |- _ => rename H into Hm end.
    assert (test_state x = TestStart) as Hx by (unfold frame_of in Hf; congruence).
    destruct (_ =? _); mrun Hm; [|silent; [simpl; congruence|done]].
    match goal with H : start _ _ = _ |- _ => apply start_frame in H as Hst' end.
    match goal with H : send_ctrl_state _ _ = _ |- context [told _ _ ?s'] =>
      eapply (spoken_answer TestStart TestRunning _ _ _ _ s');
        [constructor|exact Hst| | |exact H|reflexivity|by injection Hst']; done end.
  - destruct (ev_readable ev); mrun H; [|by silent].
    match goal with H : receive _ _ _ = _ |- _ => apply receive_frame in H as Hf end.
    silent; [|done]. simpl. unfold frame_of in Hf. congruence.
Qed.

Lemma handle_spoken ev : spoken (handle ev).
Proof.
  intros s a s' H. unfold handle in H.
  repeat case_match; first
    [by eapply on_control_spoken|by eapply on_tcp_listener_spoken
    |by eapply on_udp_listener_spoken|by eapply on_quic_listener_spoken
    |by eapply on_tls_listener_spoken|by eapply on_stream_spoken].
Qed.
End Events.

(** ** Whole runs *)

Section Runs.
Context `{P : Profile} `{J : Serde} `{TR : Tracing}.

Definition conversed (s s' : Node ServerImpl) : Prop :=
  ∃ ms, conversation (n_test s) ms (n_test s') ∧ told s ms s'.

#[local] Instance conversed_preorder : PreOrder conversed.
Proof.
  split.
  - intros s. exists []. split; [constructor|by apply told_still].
  - intros s1 s2 s3 (ms & C1 & T1) (ms' & C2 & T2). exists (ms ++ ms').
    split; [by eapply conversation_trans|by eapply told_trans].
Qed.

Lemma says_conversed s ms s' : says (n_test s) ms (n_test s') → told s ms s' → conversed s s'.
Proof.
  intros Hs Ht. exists ms. split; [|done]. rewrite <- (app_nil_r ms).
  econstructor; [exact Hs|constructor].
Qed.

End Runs.
