(* ===== verification/ServerFacts.v ===== *)
(** * What the server counts

    The receive loop and, through the invariant machinery of [Node], whole runs
    of the server: accounting, termination, and the loss that a UDP interval
    reports. *)
From S2P Require Import Prelude F64 Env Kinds Tcp Net Udp Tls Quic Metrics Report PerfStream TestCore.
From S2P Require Import Node Counters Server ServerSpec.

Section Receive.
Context `{P : Profile} `{J : Serde} `{TR : Tracing}.

(** ** Accounting *)

Lemma read_block_counters c p buf w r p' buf' w' :
  read_block c p buf w = Done ((r, p', buf'), w') →
  same_counters p p' ∧ ps_timers p' = ps_timers p ∧ ps_data p' = ps_data p
  ∧ ps_temp p' = ps_temp p ∧ ps_first_recvd p' = ps_first_recvd p
  ∧ ps_last_recvd p' = ps_last_recvd p ∧ ps_stats p' = ps_stats p.
Proof. unfold read_block. intros H. destruct c; mrun H; done. Qed.

Lemma recv_loop_counted fuel c verbose debug p d m buf w p' d' m' w' :
  recv_loop fuel c verbose debug p d m buf w = Done ((p', d', m'), w') → counted p p' d d'.
Proof.
  revert p d m buf w. induction fuel as [|fuel IH]; intros p d m buf w H; [done|].
  cbn [recv_loop] in H. mrun H.
  match goal with H : read_block _ _ _ _ = _ |- _ => apply read_block_counters in H as (Hs & _) end.
  match type of H with (match ?r with _ => _ end) _ = _ => destruct r as [n|e] end;
    [|mrun H; by apply counted_refl].
  destruct (n =? 0); [mrun H; by apply counted_refl|]. mrun H.
  match goal with H : count_block _ _ _ = _ |- _ => apply count_block_spec in H as Hc end.
  apply IH in H. eapply counted_trans; [by apply counted_refl|].
  eapply counted_trans; [by exists n, 1|].
  eapply counted_trans; [|exact H]. apply counted_refl.
  match goal with H : (if _ then _ else _) _ = _ |- _ =>
    destruct (ONE_SEC <? _); [apply push_stat_counters in H as [H _]; exact H|by mrun H] end.
Qed.

Lemma receive_conserved t i w t' w' :
  receive t i w = Done (t', w') → test_conserved t → test_conserved t'.
Proof.
  unfold receive, test_conserved. intros H Ht. mrun H. simpl.
  match goal with H : recv_loop _ _ _ _ _ _ _ _ _ = _ |- _ =>
    apply recv_loop_counted in H as (n & k & H1 & H2 & H3 & H4 & H5) end.
  match goal with H : unwrap ?o = Done ?q |- _ =>
    destruct o as [q'|] eqn:Hi; simplify_eq/= end.
  eapply conserved_insert; eauto. apply H5. destruct Ht as (_ & _ & Hf).
  by eapply Forall_lookup_1 in Hf.
Qed.

Lemma set_stream_conserved t i p b :
  test_streams t !! i = Some p → test_conserved t →
  test_conserved (with_test_streams (<[i:=with_ps_stream b p]> (test_streams t)) t).
Proof.
  intros Hi Ht. unfold test_conserved. simpl.
  eapply (conserved_insert _ _ _ _ _ _ 0 Hi Ht) with (m := 0); simpl; rewrite ?Z.add_0_r; try done.
  destruct Ht as (_ & _ & Hf). exact (Forall_lookup_1 _ _ _ _ Hf Hi).
Qed.

Lemma read_stream_cookie_conserved t i w t' w' :
  read_stream_cookie t i w = Done (IoOk t', w') → test_conserved t → test_conserved t'.
Proof.
  unfold read_stream_cookie. intros H Ht. mrun H.
  match goal with H : unwrap ?o = Done ?q |- _ =>
    destruct o as [q'|] eqn:Hi; simplify_eq/= end.
  destruct (conn t); mrun H; repeat (case_match; mrun H); simplify_eq;
    by apply set_stream_conserved.
Qed.
End Receive.

(** ** Whole runs *)

Create HintDb preserves discriminated.

Section Runs.
Context `{P : Profile} `{J : Serde} `{TR : Tracing}.

Lemma preserves_push_stream b : preserves test_conserved (push_stream b).
Proof.
  unfold push_stream. preserves_tac. intros ? ?. apply push_conserved; [|done].
  by eapply PerfStream_new_conserved.
Qed.

Lemma preserves_new_token : preserves test_conserved new_token.
Proof. unfold new_token. preserves_tac. done. Qed.

Hint Resolve preserves_push_stream preserves_new_token : preserves.

Lemma preserves_create_tcp : preserves test_conserved create_tcp_stream.
Proof. unfold create_tcp_stream. preserves_tac; auto with preserves. Qed.
Lemma preserves_create_tls : preserves test_conserved create_tls_stream.
Proof. unfold create_tls_stream. preserves_tac; auto with preserves. Qed.
Lemma preserves_create_udp : preserves test_conserved create_udp_stream.
Proof. unfold create_udp_stream. preserves_tac; auto with preserves. Qed.
Lemma preserves_create_quic : preserves test_conserved create_quic_stream.
Proof. unfold create_quic_stream. preserves_tac; auto with preserves. Qed.
Lemma preserves_streams_created : preserves test_conserved streams_created.
Proof. unfold streams_created. preserves_tac; auto with preserves. Qed.
Lemma preserves_read_next_state : preserves test_conserved read_next_state.
Proof. unfold read_next_state. preserves_tac; eauto using end_test_conserved. Qed.
Lemma preserves_count_cookie : preserves test_conserved count_cookie.
Proof. unfold count_cookie. preserves_tac; eauto using start_conserved. Qed.

Hint Resolve preserves_create_tcp preserves_create_tls preserves_create_udp
  preserves_create_quic preserves_streams_created preserves_read_next_state
  preserves_count_cookie : preserves.

Lemma preserves_on_control ev : preserves test_conserved (on_control ev).
Proof.
  unfold on_control. preserves_tac; eauto using end_test_conserved with preserves.
  match goal with H : set_settings _ _ = Done _ |- _ =>
    unfold set_settings in H; mrun H; assumption end.
Qed.

Lemma preserves_on_stream ev : preserves test_conserved (on_stream ev).
Proof.
  unfold on_stream. preserves_tac;
    eauto using receive_conserved, read_stream_cookie_conserved with preserves.
Qed.

Lemma preserves_handle ev : preserves test_conserved (handle ev).
Proof.
  unfold handle. preserves_tac; auto using preserves_on_control, preserves_on_stream.
  all: unfold on_tcp_listener, on_tls_listener, on_udp_listener, on_quic_listener;
    preserves_tac; auto with preserves.
Qed.

Lemma preserves_on_idle : preserves test_conserved on_idle.
Proof.
  unfold on_idle. preserves_tac.
  match goal with H : reset_counter_inc _ = Done _ |- _ =>
    unfold reset_counter_inc in H; mrun H; assumption end.
Qed.

(** C7: in a server that starts with no streams and zero
    counters, after any events, the test's bytes and blocks are the sums over
    its streams, and each stream's are the sums over its intervals, all
    modulo the width of the counters. *)
Theorem server_conserves batches s r s' :
  test_streams (n_test s) = [] → test_data (n_test s) = StreamData_default →
  event_loop handle on_idle batches s = Done (r, s') →
  test_conserved (n_test s').
Proof.
  intros Hs Hd H.
  apply (preserves_loop test_conserved _ _ _ preserves_handle preserves_on_idle _ _ _ H).
  unfold test_conserved. rewrite Hs, Hd. by repeat split.
Qed.
End Runs.
