(* ===== verification/ServerTotal.v ===== *)
(** * The server's loops end

    Every read of the receive loop that returns data makes what the socket
    still holds smaller, and closing an interval does not touch it, so
    [recv_fuel] is enough; no other handler loops on its own. *)
From S2P Require Import Prelude F64 Env Kinds Tcp Net Udp Tls Quic Metrics Report PerfStream TestCore.
From S2P Require Import Node Counters Total Server.

(** What a stream can still deliver to the receive loop. *)
Definition remaining (b : BoxStream) : nat :=
  match b with BQuic q => quic_backlog q | _ => backlog b end.

Section Progress.
Context `{P : Profile}.

Lemma recv_read_progress n s k s' :
  0 < n → recv_read n s = Done (IoOk (Some k), s') →
  (recv_measure s' < recv_measure s)%nat.
Proof.
  unfold recv_read, recv_measure. intros Hn H.
  destruct (rs_in s) as [|[j| |] r]; simplify_eq/=.
  case_match; simplify_eq/=; [lia|].
  match goal with H : (_ <=? _) = false |- _ => apply Z.leb_gt in H end. lia.
Qed.

Lemma read_streams_progress n l count c l' :
  0 < n → read_streams n count l = Done (IoOk c, l') → l = [] ∧ l' = [] ∧ c = count ∨
  (foldr (λ s m, recv_measure s + m)%nat O l' < foldr (λ s m, recv_measure s + m)%nat O l)%nat.
Proof.
  intros Hn. revert count l'. induction l as [|s l IH]; intros count l' H; cbn [read_streams] in H.
  - simplify_eq. by left.
  - right. mrun H.
    match goal with H : recv_read _ _ = Done (?r, _) |- _ => destruct r as [[k|]|e] end;
      mrun H; simplify_eq.
    match goal with H : recv_read _ _ = _ |- _ => apply recv_read_progress in H; [|done] end.
    match goal with H : read_streams _ _ _ = _ |- _ => apply IH in H as [(-> & -> & ->)|H] end;
      simpl in *; simplify_eq/=; lia.
Qed.

Lemma quic_read_progress q n q' :
  Quic.read q = Done (IoOk n, q') → n ≠ 0 → (quic_backlog q' < quic_backlog q)%nat.
Proof.
  unfold Quic.read, quic_backlog. intros H Hn. mrun H. simplify_eq/=.
  match goal with H : read_streams _ _ _ = _ |- _ =>
    apply read_streams_progress in H as [(_ & _ & ->)|H]; [done|exact H|done] end.
Qed.

(** The same for the transports that use the [Stream] methods. *)
Lemma stream_read_progress {T} `{StreamLaws T} (s : T) w bs s' w' :
  stream_read s (Z.to_nat 131072) w = Done ((IoOk bs, s'), w') →
  Z.of_nat (length bs) ≠ 0 → (backlog s' < backlog s)%nat.
Proof.
  intros Hr Hb. eapply read_progress in Hr as [?|[?|?]]; [done| |done|lia].
  by simplify_eq/=.
Qed.

Lemma read_block_progress c p buf w n p' buf' w' :
  read_block c p buf w = Done ((IoOk n, p', buf'), w') → n ≠ 0 →
  (remaining (ps_stream p') < remaining (ps_stream p))%nat.
Proof.
  unfold read_block. intros H Hn.
  destruct c; mrun H; destruct (ps_stream p); simplify_eq/=.
  3: by eapply quic_read_progress.
  all: match type of H with (match ?r with _ => _ end) = _ => destruct r as [bs|] end; simplify_eq/=.
  all: match goal with H : _ ?s _ _ = Done (IoOk ?bs, ?s', ?w) |- _ =>
    exact (stream_read_progress s _ _ _ _ H Hn) end.
Qed.

Lemma remaining_strip b : remaining (strip b) = remaining b.
Proof. by destruct b as [| | |[[] ?]|]. Qed.

Lemma push_stat_remaining debug p w p' w' :
  push_stat debug p w = Done (p', w') → remaining (ps_stream p') = remaining (ps_stream p).
Proof.
  intros H. apply push_stat_strip in H. by rewrite <- remaining_strip, H, remaining_strip.
Qed.

Lemma fuel_ok_read_block c p buf : fuel_ok (read_block c p buf).
Proof.
  assert (∀ l n k, res_ok (read_streams n k l)) as Hq.
  { induction l as [|s l IH]; intros n k; cbn [read_streams]; [fuel_tac|].
    unfold recv_read, add_u. fuel_tac. }
  assert (∀ T (HT : Stream T) (HL : StreamLaws T) (s : T) n, fuel_ok (stream_read s n)) as Hr.
  { intros T HT HL s n w. by destruct (read_returns s n w) as (r & s' & w' & ->). }
  unfold read_block, as_Quic, as_TcpStream, as_TlsEndpoint, as_UdpSocket, Quic.read.
  destruct c; auto 20 using TcpStream_StreamLaws, TlsEndpoint_StreamLaws,
    UdpSocket_StreamLaws with fuel.
Qed.

Lemma recv_loop_fuel fuel c verbose debug p d m buf :
  (remaining (ps_stream p) < fuel)%nat →
  fuel_ok (recv_loop fuel c verbose debug p d m buf).
Proof.
  revert p d m buf. induction fuel as [|fuel IH]; intros p d m buf Hf; [lia|].
  cbn [recv_loop]. intros w. apply res_ok_step; [apply fuel_ok_read_block|].
  intros [[r p1] buf1] w1 Hb. destruct r as [n|e]; [|done].
  destruct (Z.eqb_spec n 0) as [->|Hn]; [done|].
  apply read_block_progress in Hb; [|done].
  apply res_ok_step; [apply fuel_ok_liftR, res_ok_count|]. intros [p2 d2] w2 Hc.
  apply liftR_Done in Hc as ([] & Hc & [= <- <- <-]). apply count_block_stream in Hc as [Hs _].
  apply res_ok_step; [fuel_tac|]. intros e w3 _. destruct (ONE_SEC <? e).
  - apply res_ok_step; [fuel_tac|]. intros p3 w4 Hp.
    apply push_stat_remaining in Hp. simpl in Hp. apply IH. rewrite Hp, Hs. lia.
  - apply IH. simpl. rewrite Hs. lia.
Qed.

Lemma fuel_ok_receive t i : fuel_ok (receive t i).
Proof.
  unfold receive. apply fuel_ok_bind; [fuel_tac|]. intros p.
  apply fuel_ok_bind; [|fuel_tac]. apply recv_loop_fuel. unfold recv_fuel, remaining.
  destruct (ps_stream p); lia.
Qed.
End Progress.

#[export] Hint Resolve fuel_ok_receive : fuel.

(** ** Every handler ends *)

Section Handlers.
Context `{P : Profile} `{J : Serde} `{TR : Tracing}.

Lemma fuel_ok_drain_ctrl : fuel_ok drain_ctrl.
Proof. unfold drain_ctrl, get_ctrl, put_ctrl. auto 12 using TcpStream_StreamLaws with fuel. Qed.
Lemma fuel_ok_send_ctrl st : fuel_ok (send_ctrl_state st).
Proof. unfold send_ctrl_state, get_ctrl, put_ctrl. fuel_tac. Qed.
Lemma fuel_ok_wake : fuel_ok wake.
Proof. unfold wake. fuel_tac. Qed.
Hint Resolve fuel_ok_drain_ctrl fuel_ok_send_ctrl fuel_ok_wake : fuel.

Lemma fuel_ok_tls_server k c : fuel_ok (Tls.server k c).
Proof. unfold Tls.server. fuel_tac. Qed.
Hint Resolve fuel_ok_tls_server : fuel.
Lemma fuel_ok_new_udp : fuel_ok new_udp.
Proof. unfold new_udp. fuel_tac. Qed.
Lemma fuel_ok_new_quic : fuel_ok new_quic.
Proof. unfold new_quic, Quic.server, new_endpoint. fuel_tac. Qed.
Hint Resolve fuel_ok_new_udp fuel_ok_new_quic : fuel.
Lemma fuel_ok_listen : fuel_ok listen.
Proof. unfold listen, register_listener, set_mss_listener. fuel_tac. Qed.
Lemma fuel_ok_read_next_state : fuel_ok read_next_state.
Proof. unfold read_next_state. fuel_tac. Qed.
Hint Resolve fuel_ok_listen fuel_ok_read_next_state : fuel.

Lemma fuel_ok_new_token : fuel_ok new_token.
Proof. unfold new_token. fuel_tac. Qed.
Lemma fuel_ok_push_stream b : fuel_ok (push_stream b).
Proof. unfold push_stream. fuel_tac. Qed.
Lemma fuel_ok_accept_stream : fuel_ok accept_stream.
Proof. unfold accept_stream. fuel_tac. Qed.
Lemma fuel_ok_handshake_events ep evs : fuel_ok (handshake_events ep evs).
Proof. revert ep. induction evs as [|ev evs IH]; intros ep; cbn [handshake_events]; fuel_tac. Qed.
Lemma fuel_ok_handshake ep rounds : fuel_ok (handshake ep rounds).
Proof.
  unfold handshake. apply fuel_ok_bind; [fuel_tac|]. intros _. revert ep.
  induction rounds as [|evs rounds IH]; intros ep; cbn [handshake_rounds]; [fuel_tac|].
  auto using fuel_ok_handshake_events with fuel.
Qed.
Hint Resolve fuel_ok_new_token fuel_ok_push_stream fuel_ok_accept_stream
  fuel_ok_handshake : fuel.
Lemma fuel_ok_create_tcp : fuel_ok create_tcp_stream.
Proof. unfold create_tcp_stream. fuel_tac. Qed.
Lemma fuel_ok_create_tls : fuel_ok create_tls_stream.
Proof. unfold create_tls_stream, TlsEndpoint_server. fuel_tac. Qed.
Lemma fuel_ok_create_udp : fuel_ok create_udp_stream.
Proof.
  assert (∀ (u : UdpSocket) n, fuel_ok (stream_read u n)) as Hr.
  { intros s n w. by destruct (read_returns s n w) as (r & s' & w' & ->). }
  unfold create_udp_stream. fuel_tac.
Qed.
Lemma fuel_ok_create_quic : fuel_ok create_quic_stream.
Proof. unfold create_quic_stream, endpoint_accept. fuel_tac. Qed.
Lemma fuel_ok_streams_created : fuel_ok streams_created.
Proof. unfold streams_created. fuel_tac. Qed.
Hint Resolve fuel_ok_create_tcp fuel_ok_create_tls fuel_ok_create_udp fuel_ok_create_quic
  fuel_ok_streams_created : fuel.

Lemma fuel_ok_read_stream_cookie t i : fuel_ok (read_stream_cookie t i).
Proof.
  assert (∀ l n k, res_ok (read_streams n k l)) as Hq.
  { induction l as [|s l IH]; intros n k; cbn [read_streams]; [fuel_tac|].
    unfold recv_read, add_u. fuel_tac. }
  unfold read_stream_cookie, as_Quic, as_TcpStream, as_TlsEndpoint, as_UdpSocket,
    accept_uni, read_cookie.
  apply fuel_ok_bind; [fuel_tac|]. intros p.
  destruct (conn t); auto 20 using TcpStream_StreamLaws, TlsEndpoint_StreamLaws,
    UdpSocket_StreamLaws with fuel.
Qed.
Lemma fuel_ok_count_cookie : fuel_ok count_cookie.
Proof. unfold count_cookie, add_u. fuel_tac. Qed.
Hint Resolve fuel_ok_read_stream_cookie fuel_ok_count_cookie : fuel.

Lemma fuel_ok_on_control ev : fuel_ok (on_control ev).
Proof.
  assert (∀ (c : TcpStream) b, fuel_ok (stream_write c b)) as Hw.
  { intros c b. cbn. unfold TcpStream_write. fuel_tac. }
  unfold on_control, set_settings, get_ctrl, put_ctrl.
  apply fuel_ok_bind; [fuel_tac|]. intros t. destruct (test_state t); fuel_tac.
Qed.
Lemma fuel_ok_on_stream ev : fuel_ok (on_stream ev).
Proof. unfold on_stream. fuel_tac. Qed.
Lemma fuel_ok_handle ev : fuel_ok (handle ev).
Proof.
  unfold handle, on_tcp_listener, on_tls_listener, on_udp_listener, on_quic_listener.
  auto 20 using fuel_ok_on_control, fuel_ok_on_stream with fuel.
Qed.
Lemma fuel_ok_on_idle : fuel_ok on_idle.
Proof. unfold on_idle, reset_counter_inc, add_u. fuel_tac. Qed.

End Handlers.
