(* ===== verification/ServerMain.v ===== *)
(** * Sessions of the server ([main] of [src/src/main.rs], [ServerImpl::new])

    The server serves one session after the other, each with a test and a
    server object of its own. *)
From S2P Require Import Prelude F64 Params Env Kinds Tcp Net Udp Tls Quic Metrics Report PerfStream.
From S2P Require Import TestCore Node Server ServerSpec.

Section Main.
Context `{P : Profile} `{J : Serde} `{TR : Tracing}.

(** [IpAddr::from_str] succeeds. *)
Context (ip_ok : Str → bool).

Definition bind_address (bindaddr : option Str) : res () :=
  match bindaddr with
  | None => Done ()
  | Some a =>
      if bool_decide (a = chars "[::]") then Done ()
      else if ip_ok a then Done () else Crash (Panicked "unwrap on Err")
  end.

(** [ServerImpl::new]; [l] is the listener the system provides. *)
Definition ServerImpl_new (param : PerfParams) (l : Listener) (supply : Supply) :
    M World (io_result ServerImpl) :=
  let! _ := liftR (bind_address (p_bindaddr param)) in
  let? _ := syscall (SysBind (l_fd l)) in
  ret (IoOk (mkServerImpl None (Some l) None None supply)).

(** What the outside contributes to one session. *)
Record SessionInput : Type := mkSessionInput {
  si_listener : Listener;
  si_supply : Supply;
  si_rounds : list (list AcceptEvent);
  si_batches : list (list Event)
}.

(** One turn of the loop of [main]: the node it leaves, for its world. *)
Definition serve (param : PerfParams) (x : SessionInput) :
    M World (io_result (io_result (option Z) * Test)) :=
  let! test := Test_from param in
  let? server := ServerImpl_new param (si_listener x) (si_supply x) in
  λ w, match run (si_rounds x) (si_batches x) (mkNode server test w) with
       | Done (r, s) => Done (IoOk (r, reset (n_test s)), n_world s)
       | Crash c => Crash c
       end.

(** [main] as a server: only a listener that cannot be bound ends the loop;
    a session that has not ended waits for its next event. *)
Fixpoint main_server (param : PerfParams) (l : list SessionInput) : M World (io_result ()) :=
  match l with
  | [] => ret (IoOk ())
  | x :: l' =>
      let? (r, _) := serve param x in
      match r with
      | IoOk None => ret (IoOk ())
      | IoOk (Some _) => main_server param l'
      | IoErr _ => let! _ := println "restarting" in main_server param l'
      end
  end.

(** ** What a session returns *)

Ltac no_return H := mrun H; repeat (case_match; mrun H); try discriminate.

Lemma on_control_return ev s v s' :
  on_control ev s = Done (IoOk (Return v), s') → v = 0 ∧ test_state (n_test s') = End_.
Proof.
  unfold on_control. intros H. mrun H.
  by destruct (test_state (n_test s)) eqn:Hst; no_return H.
Qed.

Lemma listener_no_return ev s v s' :
  on_tcp_listener ev s = Done (IoOk (Return v), s') ∨
  on_tls_listener ev s = Done (IoOk (Return v), s') ∨
  on_udp_listener ev s = Done (IoOk (Return v), s') ∨
  on_quic_listener ev s = Done (IoOk (Return v), s') ∨
  on_stream ev s = Done (IoOk (Return v), s') → False.
Proof.
  unfold on_tcp_listener, on_tls_listener, on_udp_listener, on_quic_listener, on_stream.
  intros [H|[H|[H|[H|H]]]]; no_return H.
Qed.

Lemma handle_return ev s v s' :
  handle ev s = Done (IoOk (Return v), s') → v = 0 ∧ test_state (n_test s') = End_.
Proof.
  unfold handle. intros H.
  repeat case_match; first [by eapply on_control_return|exfalso; apply (listener_no_return ev s v s'); tauto].
Qed.

Lemma handle_events_return evs s v s' :
  handle_events handle evs s = Done (IoOk (Some v), s') → v = 0 ∧ test_state (n_test s') = End_.
Proof.
  revert s. induction evs as [|ev evs IH]; intros s H; cbn [handle_events] in H; mrun H.
  match goal with H : handle ev s = Done (IoOk ?f, _) |- _ => destruct f; rename H into Hh end;
    mrun H; [by apply IH in H|by apply handle_return in Hh].
Qed.

Lemma on_idle_return s r s' : on_idle s = Done (r, s') → r = IoOk (Some 2).
Proof. unfold on_idle. intros H. mrun H. done. Qed.


(** Every session of a server starts from a fresh test, whatever
    happened before: it begins in [Start] without streams, tokens or cookies
    and with zero counters. *)
Lemma session_starts_fresh param w t w' :
  Test_from param w = Done (t, w') →
  test_state t = Start ∧ test_streams t = [] ∧ test_tokens t = [] ∧ test_cookie_count t = 0 ∧
  test_data t = StreamData_default ∧ test_mode t = RECEIVER ∧
  test_settings t = settings_from param Settings_default.
Proof.
  unfold Test_from, Test_new, set_idle_timeout. intros H. mrun H.
  match goal with H : ret _ _ = _ |- _ => mrun H end.
  by destruct (0 <? p_idle_timeout param).
Qed.
End Main.
