(* ===== verification/UdpLoss.v ===== *)
(** * UDP: sequence numbers and the loss of an interval

    A sender numbers its datagrams from one; the receiver remembers the last
    number and closes an interval with the difference of the last numbers less
    the datagrams that came.  For datagrams that arrive in order this is the
    number of those that did not arrive. *)
From Stdlib Require Import Sorted.
From S2P Require Import Prelude F64 Env Kinds Tcp Net Udp Tls Quic Metrics Report PerfStream TestCore.
From S2P Require Import Node Server.

(** ** Counting what is missing *)

(** The sequence numbers after [first], up to [last], that are not in [ks]. *)
Definition missing (first last : Z) (ks : list Z) : list Z :=
  filter (λ k, k ∉ ks) (seqZ (first + 1) (last - first)).

Lemma length_filter_split {A} (Q : A → Prop) `{∀ x, Decision (Q x)} (l : list A) :
  (length (filter Q l) + length (filter (λ x, ¬ Q x) l) = length l)%nat.
Proof.
  induction l as [|x l IH]; [done|]. rewrite !filter_cons.
  destruct (decide (Q x)); destruct (decide (¬ Q x)); simpl; try done; lia.
Qed.

(** Increasing numbers after [first]. *)
Definition increasing (first : Z) (ks : list Z) : Prop := StronglySorted Z.lt (first :: ks).

Lemma increasing_cons first k ks : increasing first (k :: ks) → first < k ∧ increasing k ks.
Proof.
  unfold increasing. intros H. inversion H as [|? ? H1 H2]; subst.
  inversion H2; subst. by split.
Qed.

Lemma increasing_NoDup first ks : increasing first ks → NoDup ks.
Proof.
  unfold increasing. intros H. inversion H as [|? ? H1 _]; subst. clear H.
  induction H1 as [|k ks _ IH Hk]; constructor; [|done].
  rewrite list_elem_of_lookup. intros [i Hi]. eapply Forall_lookup_1 in Hk; [|exact Hi]. lia.
Qed.

Lemma last_cons_default {A} (x d : A) (l : list A) : List.last (x :: l) d = List.last l x.
Proof.
  revert x d. induction l as [|y l IH]; intros x d; [done|].
  transitivity (List.last (y :: l) d); [done|]. rewrite IH. symmetry. apply (IH y).
Qed.

Lemma increasing_last first ks : increasing first ks → first ≤ List.last ks first.
Proof.
  revert first. induction ks as [|k ks IH]; intros first H; [done|].
  apply increasing_cons in H as [Hk H]. rewrite last_cons_default. apply IH in H. lia.
Qed.

Lemma increasing_between first ks k :
  increasing first ks → k ∈ ks → first < k ≤ List.last ks first.
Proof.
  revert first. induction ks as [|x ks IH]; intros first H Hk; [by apply not_elem_of_nil in Hk|].
  apply increasing_cons in H as [Hx H]. rewrite last_cons_default.
  apply elem_of_cons in Hk as [->|Hk]; [|apply (IH x) in Hk; [lia|done]].
  apply increasing_last in H. lia.
Qed.

Lemma length_missing first ks :
  increasing first ks →
  Z.of_nat (length (missing first (List.last ks first) ks))
  = List.last ks first - first - Z.of_nat (length ks).
Proof.
  intros H. set (l := List.last ks first).
  assert (first ≤ l) as Hl by by apply increasing_last.
  assert (filter (λ k, k ∈ ks) (seqZ (first + 1) (l - first)) ≡ₚ ks) as Hp.
  { apply NoDup_Permutation.
    - apply NoDup_filter, NoDup_seqZ.
    - by eapply increasing_NoDup.
    - intros k. rewrite list_elem_of_filter, elem_of_seqZ. split; [tauto|]. intros Hk. split; [done|].
      apply (increasing_between first) in Hk; [|done]. subst l. lia. }
  pose proof (length_filter_split (λ k, k ∈ ks) (seqZ (first + 1) (l - first))) as Hs.
  rewrite Hp, length_seqZ in Hs. unfold missing. lia.
Qed.

(** ** Datagrams *)

(** What [write_block] of the client puts in front of its buffer. *)
Definition datagram (kp : Z * list Z) : list Z := to_be_bytes 8 kp.1 ++ kp.2.

Definition size (kp : Z * list Z) : Z := Z.of_nat (length (take (Z.to_nat 131072) (datagram kp))).

Lemma number_fits : (8 ≤ Z.to_nat 131072)%nat.
Proof. lia. Qed.

(** The receiver reads the number back, whatever the payload and whatever was
    in the buffer. *)
Lemma sequence_of_datagram kp buf :
  fits 64 kp.1 →
  sequence_of (buf_write (take (Z.to_nat 131072) (datagram kp)) buf) = kp.1.
Proof.
  intros Hk. unfold sequence_of.
  replace (buf_bytes 8 _) with (to_be_bytes 8 kp.1); [by apply from_to_be_bytes_u64|].
  unfold buf_bytes, buf_write, datagram. cbn [b_head b_fill].
  set (n := Z.to_nat 131072). assert (8 ≤ n)%nat as Hn by exact number_fits. clearbody n.
  rewrite (take_app_ge (to_be_bytes 8 kp.1)) by (by rewrite length_to_be_bytes).
  rewrite <- !(assoc_L (++)). rewrite take_app_length'; [done|].
  by rewrite length_to_be_bytes.
Qed.

Lemma size_pos kp : 0 < size kp.
Proof.
  unfold size, datagram. rewrite length_take, length_app, length_to_be_bytes.
  set (n := Z.to_nat 131072). assert (8 ≤ n)%nat as Hn by exact number_fits. clearbody n. lia.
Qed.

(** ** One interval *)

(** No clock reading to come is more than a second after [t]. *)
Definition quiet (w : World) (t : Z) : Prop :=
  w_clock w + sumZ (map (Z.max 0) (w_ticks w)) ≤ t + ONE_SEC.

Lemma elapsed_quiet w t :
  quiet w t → ∃ e w', elapsed t w = Done (e, w') ∧ e ≤ ONE_SEC ∧ quiet w' t.
Proof.
  unfold quiet, elapsed, now, bindM, ret. intros H.
  assert (0 ≤ ONE_SEC) by done.
  destruct (w_ticks w) as [|d ds] eqn:E; eexists _, _; (split; [done|]);
    rewrite ?E; rewrite ?E in H; cbn [w_clock w_ticks map sumZ] in *.
  - lia.
  - assert (0 ≤ sumZ (map (Z.max 0) ds)) as Hs.
    { apply sumZ_nonneg. clear. induction ds; constructor; [apply Z.le_max_l|done]. }
    generalize dependent (sumZ (map (Z.max 0) ds)). intros. lia.
Qed.

(** The counters can take [n] bytes and [k] blocks more. *)
Definition room (n k : Z) (p : PerfStream) (d : StreamData) : Prop :=
  Forall (λ x, 0 ≤ x) [sd_bytes (ps_data p); sd_bytes d; sd_bytes (ps_temp p);
                        sd_blks (ps_data p); sd_blks d; sd_blks (ps_temp p)] ∧
  Forall (λ x, x + n < 2 ^ 64) [sd_bytes (ps_data p); sd_bytes d; sd_bytes (ps_temp p)] ∧
  Forall (λ x, x + k < 2 ^ 64) [sd_blks (ps_data p); sd_blks d; sd_blks (ps_temp p)].

Section Loss.
Context `{P : Profile}.

Lemma count_block_room n n' k p d :
  0 ≤ n → 0 ≤ n' → 0 ≤ k → room (n + n') (1 + k) p d →
  ∃ p' d', count_block n p d = Done (p', d') ∧ room n' k p' d' ∧
    sd_blks (ps_temp p') = sd_blks (ps_temp p) + 1 ∧ ps_first_recvd p' = ps_first_recvd p ∧
    ps_stream p' = ps_stream p ∧ ps_timers p' = ps_timers p.
Proof.
  unfold room. rewrite !Forall_cons. intros Hn Hn' Hk H. unfold count_block, add_u, bindR.
  rewrite !checked_fits by (unfold fits; lia). eexists _, _. split; [done|].
  cbn. rewrite !Forall_cons. intuition (try lia; try done).
Qed.

(** The socket of a stream that still has [kps] to deliver. *)
Definition arriving (fd : Z) (kps : list (Z * list Z)) (outs : list Outgoing)
    (sent : list Buf) : BoxStream :=
  BUdp (mkUdpSocket (mkSock fd (map (λ kp, InBytes (datagram kp)) kps) outs sent)).

Lemma read_block_datagram p buf w fd kp kps outs sent :
  ps_stream p = arriving fd (kp :: kps) outs sent →
  read_block UDP p buf w
  = Done ((IoOk (size kp), with_ps_stream (arriving fd kps outs sent) p,
           buf_write (take (Z.to_nat 131072) (datagram kp)) buf), w).
Proof.
  intros Hp. unfold read_block, size. rewrite Hp. generalize (Z.to_nat 131072). done.
Qed.

Lemma read_block_empty p buf w fd outs sent :
  ps_stream p = arriving fd [] outs sent →
  read_block UDP p buf w
  = Done ((IoErr WouldBlock, with_ps_stream (arriving fd [] outs sent) p, buf), w).
Proof. intros Hp. unfold read_block. rewrite Hp. generalize (Z.to_nat 131072). done. Qed.

Lemma sum_sizes_nonneg kps : 0 ≤ sumZ (map size kps).
Proof.
  apply sumZ_nonneg. induction kps as [|x l IH]; constructor; [|done].
  pose proof (size_pos x). lia.
Qed.

#[local] Opaque Z.to_nat size sequence_of.

Lemma udp_recv_loop kps fuel verbose debug p d m buf w fd outs sent :
  (length kps < fuel)%nat →
  ps_stream p = arriving fd kps outs sent →
  Forall (λ kp, fits 64 kp.1) kps →
  room (sumZ (map size kps)) (Z.of_nat (length kps)) p d →
  quiet w (tm_curr (ps_timers p)) →
  ∃ p' d' m' w',
    recv_loop fuel UDP verbose debug p d m buf w = Done ((p', d', m'), w') ∧
    ps_last_recvd p' = List.last (map fst kps) (ps_last_recvd p) ∧
    ps_first_recvd p' = ps_first_recvd p ∧
    sd_blks (ps_temp p') = sd_blks (ps_temp p) + Z.of_nat (length kps) ∧
    ps_stream p' = arriving fd [] outs sent.
Proof.
  revert kps p d m buf w. induction fuel as [|fuel IH]; intros kps p d m buf w Hf Hp Hk Hr Hq; [lia|].
  cbn [recv_loop]. unfold bindM at 1. destruct kps as [|kp kps].
  - rewrite (read_block_empty _ _ _ _ _ _ Hp). eexists _, _, _, _.
    split_and!; [done..| |done]. cbn [ps_temp with_ps_stream length]. lia.
  - inversion Hk as [|? ? Hk1 Hk2]; subst. rewrite (read_block_datagram _ _ _ _ _ _ _ _ Hp).
    cbn [map length sumZ] in *. pose proof (size_pos kp) as Hs.
    pose proof (sum_sizes_nonneg kps) as Hss.
    replace (Z.of_nat (S (length kps))) with (1 + Z.of_nat (length kps)) in Hr by lia.
    set (buf' := buf_write _ buf).
    apply (count_block_room _ _ _ (with_ps_stream (arriving fd kps outs sent) p)) in Hr as
      (p1 & d1 & Hc & Hr & Hb & Hfst & Hst & Htm); [|lia..].
    destruct (elapsed_quiet w (tm_curr (ps_timers p1))) as (e & w1 & He & Hle & Hq1).
    { by rewrite Htm. }
    rewrite (proj2 (Z.eqb_neq (size kp) 0)) by lia.
    unfold bindM at 1, liftR at 1. rewrite Hc.
    unfold bindM at 1. cbn [ps_timers with_ps_last_recvd]. rewrite He.
    rewrite (proj2 (Z.ltb_ge ONE_SEC e)) by done. unfold bindM, ret at 1.
    destruct (IH kps (with_ps_last_recvd (sequence_of buf') p1) d1 (Metrics_record verbose m) buf' w1)
      as (p' & d' & m' & w' & Hloop & Hl & Hf' & Hb' & Hs'); [lia|done..|].
    eexists _, _, _, _. split; [exact Hloop|]. rewrite Hl, Hf', Hb', Hs'.
    cbn [ps_last_recvd ps_first_recvd with_ps_last_recvd ps_temp ps_stream map].
    split_and!; try done.
    + subst buf'. rewrite sequence_of_datagram by done.
      by rewrite last_cons_default.
    + rewrite Hb. cbn [ps_temp with_ps_stream]. lia.
Qed.
End Loss.

(** ** The loss that is reported *)

Section Report.
Context `{P : Profile}.

(** The loop and the closing of the interval together. *)
Lemma udp_interval kps verbose debug p d m buf w fd outs sent d0 :
  ps_stream p = arriving fd kps outs sent →
  sd_blks (ps_temp p) = 0 →
  fits 64 (ps_first_recvd p) → Forall (λ kp, fits 64 kp.1) kps →
  kps ≠ [] → increasing (ps_first_recvd p) (map fst kps) →
  room (sumZ (map size kps)) (Z.of_nat (length kps)) p d →
  quiet w (tm_curr (ps_timers p)) →
  let last := List.last (map fst kps) (ps_first_recvd p) in
  ∃ p' d' m' w',
    recv_loop (recv_fuel p) UDP verbose debug p d m buf w = Done ((p', d', m'), w') ∧
    interval_data p' d0
    = Done (with_lost (Z.of_nat (length (missing (ps_first_recvd p) last (map fst kps)))) d0,
            with_ps_first_recvd last p').
Proof.
  intros Hp Hz Hf Hk Hne Hinc Hr Hq last.
  destruct (udp_recv_loop kps (recv_fuel p) verbose debug p d m buf w fd outs sent)
    as (p' & d' & m' & w' & Hloop & Hl & Hf' & Hb & Hs); [|done..|].
  { unfold recv_fuel. rewrite Hp. cbn. clear. induction kps as [|x l IH]; cbn; lia. }
  exists p', d', m', w'. split; [exact Hloop|].
  assert (List.last (map fst kps) (ps_last_recvd p) = last) as Hlast.
  { subst last. destruct kps as [|kp kps]; [done|]. cbn [map]. by rewrite !last_cons_default. }
  pose proof (length_missing _ _ Hinc) as Hm. fold last in Hm. rewrite length_map in Hm.
  assert (fits 64 last) as Hfl.
  { subst last. clear -Hf Hk. revert Hf. generalize (ps_first_recvd p).
    induction Hk as [|kp kps Hkp Hk IH]; intros z Hz; [done|].
    cbn [map]. rewrite last_cons_default. by apply IH. }
  pose proof (increasing_last _ _ Hinc) as Hle. fold last in Hle. unfold fits in *.
  unfold interval_data. rewrite Hs. cbn [socket_type arriving BoxStream_Stream bindR].
  cbn. rewrite Hl, Hf', Hb, Hz, Hlast. unfold sub_u.
  rewrite checked_fits by (unfold fits; lia). cbn [bindR].
  rewrite checked_fits by (unfold fits; lia). cbn [bindR].
  do 3 f_equal. lia.
Qed.

(** C12: when the datagrams of an interval arrive in order, one or
    more of them and within a second, the receive loop consumes them all and
    the interval that is then closed reports as lost exactly the sequence
    numbers after the last one of the interval before, up to the last one
    received, that did not arrive; the next interval starts at that number. *)
Theorem udp_interval_loss kps verbose debug p d m buf w fd outs sent d0 :
  ps_stream p = arriving fd kps outs sent →
  sd_blks (ps_temp p) = 0 →
  fits 64 (ps_first_recvd p) → Forall (λ kp, fits 64 kp.1) kps →
  kps ≠ [] → increasing (ps_first_recvd p) (map fst kps) →
  room (sumZ (map size kps)) (Z.of_nat (length kps)) p d →
  quiet w (tm_curr (ps_timers p)) →
  let last := List.last (map fst kps) (ps_first_recvd p) in
  ∃ p' d' m' w',
    recv_loop (recv_fuel p) UDP verbose debug p d m buf w = Done ((p', d', m'), w') ∧
    interval_data p' d0
    = Done (with_lost (Z.of_nat (length (missing (ps_first_recvd p) last (map fst kps)))) d0,
            with_ps_first_recvd last p').
Proof. exact (udp_interval kps verbose debug p d m buf w fd outs sent d0). Qed.

(** The sender never sets its sequence numbers: its first interval that holds
    a block subtracts it from zero. *)
Definition never_received (p : PerfStream) : Prop :=
  (∃ u, ps_stream p = BUdp u) ∧ ps_first_recvd p = 0 ∧ ps_last_recvd p = 0.

Lemma interval_data_sender p d :
  never_received p → 0 < sd_blks (ps_temp p) < 2 ^ 64 →
  interval_data p d
  = if overflow_checks then Crash (Panicked "arithmetic overflow")
    else Done (with_lost (2 ^ 64 - sd_blks (ps_temp p)) d, p).
Proof.
  intros ((u & Hu) & Hf & Hl) Hb. unfold interval_data. rewrite Hu. cbn.
  rewrite Hf, Hl. unfold sub_u. rewrite (checked_fits 64 (0 - 0)) by done. cbn [bindR].
  unfold checked. rewrite decide_False by (unfold fits; lia).
  destruct overflow_checks; [done|]. cbn [bindR].
  replace (0 - 0 - sd_blks (ps_temp p)) with (- sd_blks (ps_temp p)) by lia.
  rewrite Z_mod_nz_opp_full by (rewrite Z.mod_small; lia). rewrite Z.mod_small by lia.
  do 2 f_equal. destruct p; simpl in *. by subst.
Qed.

(** C27: closing an interval of a UDP sender that has sent at least
    one block panics in a build with overflow checks, whatever the clock. *)
Theorem udp_sender_push_panics debug p w :
  overflow_checks = true → never_received p → 0 < sd_blks (ps_temp p) < 2 ^ 64 →
  push_stat debug p w = Crash (Panicked "arithmetic overflow").
Proof.
  intros Ho Hn Hb. unfold push_stat, Timers_default, bindM, liftR.
  destruct (now_returns w) as (t1 & w1 & ->), (now_returns w1) as (t2 & w2 & ->),
    (now_returns w2) as (t3 & w3 & ->), (now_returns w3) as (t4 & w4 & ->).
  cbn [ret]. unfold ret. rewrite interval_data_sender by done. by rewrite Ho.
Qed.
End Report.
