(* ===== verification/Control.v ===== *)
(** * What travels on the control connection

    Messages are drained whole however the network splits them; a state byte is
    obeyed; settings and results arrive as they were sent. *)
From S2P Require Import Prelude F64 Env Kinds Tcp Net Udp Tls Quic Metrics Report PerfStream TestCore.
From S2P Require Import Node Server.

(** ** Draining *)

Definition ascii (bs : list Z) : Prop := Forall (λ b, 0 ≤ b < 128) bs.

Lemma ascii_utf8 bs : ascii bs → valid_utf8 bs = true.
Proof.
  unfold ascii. induction 1 as [|b bs Hb _ IH]; [done|]. cbn [valid_utf8].
  unfold between at 1. rewrite (proj2 (Z.leb_le 0 b)), (proj2 (Z.leb_le b 127)) by lia. done.
Qed.

(** A message in pieces, with interruptions between them. *)
Inductive pieces : list Incoming → list Z → Prop :=
| pieces_nil : pieces [] []
| pieces_bytes bs l m : bs ≠ [] → ascii bs → pieces l m → pieces (InBytes bs :: l) (bs ++ m)
| pieces_interrupted l m : pieces l m → pieces (InErr Interrupted :: l) m.

Definition with_in (ins : list Incoming) (t : TcpStream) : TcpStream :=
  mkTcpStream (mkSock (sk_fd (t_sock t)) ins (sk_out (t_sock t)) (sk_sent (t_sock t)))
    (t_mss t) (t_info t).

Lemma tcp_read_bytes t bs rest n w :
  sk_in (t_sock t) = InBytes bs :: rest →
  stream_read t n w =
  Done ((IoOk (take n bs),
         with_in (if decide (length bs ≤ n)%nat then rest else InBytes (drop n bs) :: rest) t), w).
Proof.
  intros H. cbn. unfold TcpStream_read, sock_read, ret. rewrite H.
  destruct (decide _); cbn; [by rewrite firstn_all2|done].
Qed.

Lemma drain_step {T} `{Stream T} fuel (t t' : T) buf w data :
  stream_read t (Z.to_nat 8192) w = Done ((IoOk data, t'), w) → data ≠ [] →
  valid_utf8 data = true →
  drain_loop (S fuel) t buf w = drain_loop fuel t' (buf ++ data) w.
Proof.
  intros Hr Hne Hv. cbn [drain_loop]. unfold bindM. rewrite Hr.
  destruct data; [done|]. by rewrite Hv.
Qed.

Lemma in_measure_app l k : in_measure (l ++ k) = (in_measure l + in_measure k)%nat.
Proof. unfold in_measure. induction l; simpl in *; lia. Qed.

Lemma drain_pieces k ins m rest fuel t buf w :
  pieces ins m → (in_measure ins ≤ k)%nat →
  sk_in (t_sock t) = ins ++ InErr WouldBlock :: rest →
  (in_measure ins < fuel)%nat →
  drain_loop fuel t buf w = Done ((IoOk (buf ++ m), with_in rest t), w).
Proof.
  revert ins m fuel t buf. induction k as [|k IH]; intros ins m fuel t buf Hp Hk Hin Hf;
    (destruct fuel as [|fuel]; [lia|]); destruct Hp as [|bs l m Hne Ha Hp|l m Hp];
    try (simpl in Hk; lia).
  1,2: cbn [drain_loop]; unfold bindM; cbn; unfold TcpStream_read, sock_read; rewrite Hin; cbn;
    by rewrite app_nil_r.
  - cbn [app] in Hin. assert (0 < Z.to_nat 8192)%nat as Hn by lia.
    rewrite (drain_step _ _ _ _ _ _ (tcp_read_bytes _ _ _ _ _ Hin)).
    2:{ revert Hn. generalize (Z.to_nat 8192). intros [|n]; [lia|]. by destruct bs. }
    2:{ by apply ascii_utf8, Forall_take. }
    change (in_measure (InBytes bs :: l)) with (S (length bs) + in_measure l)%nat in Hk, Hf.
    revert Hn. generalize (Z.to_nat 8192). intros n Hn.
    destruct (decide (length bs ≤ n)%nat).
    + rewrite firstn_all2 by done. rewrite (IH l m); [|done|lia|done|lia]. by rewrite <- (assoc_L (++)).
    + rewrite (IH (InBytes (drop n bs) :: l) (drop n bs ++ m)).
      * by rewrite <- (assoc_L (++) buf), (assoc_L (++) (take n bs)), take_drop.
      * constructor; [|by apply Forall_drop|done].
        intros Hd. apply (f_equal length) in Hd. rewrite length_drop in Hd. simpl in Hd. lia.
      * change (S (length (drop n bs)) + in_measure l ≤ k)%nat. rewrite length_drop. lia.
      * done.
      * change (S (length (drop n bs)) + in_measure l < fuel)%nat. rewrite length_drop. lia.
  - cbn [drain_loop]. unfold bindM. cbn. unfold TcpStream_read, sock_read. rewrite Hin. cbn.
    change (in_measure (InErr Interrupted :: l)) with (1 + in_measure l)%nat in Hk, Hf.
    rewrite (IH l m); [done|done|lia|done|lia].
Qed.

Lemma drain_message_pieces ins m rest t w :
  pieces ins m → sk_in (t_sock t) = ins ++ InErr WouldBlock :: rest →
  drain_message t w = Done ((IoOk m, with_in rest t), w).
Proof.
  intros Hp Hin. unfold drain_message.
  rewrite (drain_pieces (in_measure ins) ins m rest); [done|done|lia|done|].
  change (backlog t) with (in_measure (sk_in (t_sock t))). rewrite Hin, in_measure_app. lia.
Qed.

(** C18: a message of ASCII text is drained whole and in order, however it
    is cut into reads and however often they are interrupted; what comes after
    the point where the socket would block stays in it. *)
Theorem drain_message_whole ins m rest t w :
  pieces ins m → sk_in (t_sock t) = ins ++ InErr WouldBlock :: rest →
  drain_message t w = Done ((IoOk m, with_in rest t), w).
Proof. apply drain_message_pieces. Qed.

(** C35: a character of two bytes that two reads share panics. *)
Theorem drain_split_character t b1 b2 rest w :
  128 ≤ b1 < 256 → sk_in (t_sock t) = InBytes [b1] :: InBytes [b2] :: rest →
  drain_message t w = Crash (Panicked "invalid utf-8 sequence").
Proof.
  intros Hb Hin. unfold drain_message. cbn [drain_loop]. unfold bindM.
  rewrite (tcp_read_bytes _ _ _ _ _ Hin). assert (0 < Z.to_nat 8192)%nat as Hn by lia.
  revert Hn. generalize (Z.to_nat 8192). intros [|n] Hn; [lia|]. rewrite firstn_all2 by (simpl; lia).
  cbn. unfold between. rewrite (proj2 (Z.leb_gt b1 127)), andb_false_r by lia. done.
Qed.

(** ** State bytes *)

Lemma as_signed_byte b : 0 ≤ b < 128 → as_signed 8 b = b.
Proof.
  intros Hb. unfold as_signed. rewrite Z.mod_small by lia.
  by rewrite (proj2 (Z.ltb_lt b (2 ^ (8 - 1)))) by lia.
Qed.

Section State.
Context `{P : Profile} `{J : Serde} `{TR : Tracing}.

Lemma drain_ctrl_Done s c r c' w' :
  s_ctrl (n_impl s) = Some c → drain_message c (n_world s) = Done ((r, c'), w') →
  drain_ctrl s = Done (r, mkNode (with_ctrl (Some c') (n_impl s)) (n_test s) w').
Proof.
  intros Hc Hd. unfold drain_ctrl, get_ctrl, getImpl, put_ctrl, modImpl, liftR, onWorld, bindM, ret.
  rewrite Hc. cbn [unwrap n_world n_impl n_test]. by rewrite Hd.
Qed.

(** What the running server does with a message [m] on its control
    connection, up to the wake-up of its own loop. *)
Definition after_message (s : Node ServerImpl) (c : TcpStream) (st : TestState) : Srv (io_result Flow) :=
  λ _, (let? _ := wake in ret (IoOk Next))
         (mkNode (with_ctrl (Some c) (n_impl s)) (transition st (n_test s)) (n_world s)).

End State.

(** ** Settings and results *)

Section Exchange.
Context `{P : Profile} `{L : SerdeLaws}.


(** How a stream [p] of the server shows on the client: a stand-in with its
    mode, counters, descriptor and transport. *)
Definition shown_as (p q : PerfStream) : Prop :=
  ps_mode q = ps_mode p ∧ ps_data q = ps_data p ∧
  ∃ x, serialize_stream (ps_stream p) = Done x ∧ ps_stream q = BDummy (mkDummy (fst x) (snd x)).

Definition same_wire (a b : StreamWire) : Prop :=
  sw_mode a = sw_mode b ∧ sw_stream a = sw_stream b ∧ sw_data a = sw_data b.

Lemma streams_wire_Forall2 l ss :
  streams_wire l = Done ss →
  Forall2 (λ p s, sw_mode s = ps_mode p ∧ serialize_stream (ps_stream p) = Done (sw_stream s) ∧
                  sw_data s = ps_data p) l ss.
Proof.
  revert ss. induction l as [|p l IH]; intros ss Hs; cbn [streams_wire] in Hs.
  - simplify_eq. constructor.
  - mrun Hs. simplify_eq/=. unfold stream_wire in *.
    match goal with H : bindR _ _ = Done _ |- _ => mrun H end. simplify_eq/=.
    constructor; [done|by apply IH].
Qed.

Lemma wire_agree_streams a b : wire_agree a b → Forall2 same_wire (tw_streams a) (tw_streams b).
Proof.
  intros (_ & _ & _ & Hm). revert Hm. generalize (tw_streams b).
  induction (tw_streams a) as [|x l IH]; intros [|y k] Hm; simplify_eq/=; [constructor|].
  constructor; [done|by apply IH].
Qed.

Lemma Timers_default_returns w : ∃ t w', Timers_default w = Done (t, w').
Proof.
  unfold Timers_default, bindM, ret.
  destruct (now_returns w) as (t1 & w1 & ->), (now_returns w1) as (t2 & w2 & ->),
    (now_returns w2) as (t3 & w3 & ->), (now_returns w3) as (t4 & w4 & ->). by repeat eexists.
Qed.

Lemma stream_of_wire_returns x w : ∃ p w', stream_of_wire x w = Done (p, w').
Proof.
  unfold stream_of_wire, bindM, ret. destruct (Timers_default_returns w) as (t & w' & ->).
  by repeat eexists.
Qed.

Lemma stream_of_wire_spec x w p w' :
  stream_of_wire x w = Done (p, w') →
  ps_mode p = sw_mode x ∧ ps_data p = sw_data x ∧ ps_stream p = deserialize_stream (sw_stream x).
Proof. unfold stream_of_wire. intros Hx. mrun Hx. done. Qed.

(** C19: what the server sends as its results reaches the client's
    test: the totals become the peer's, and every stream of the server is
    shown by a stand-in; the rest of the client's test is as before. *)
Theorem results_exchange ts a tc w :
  test_wire ts = Done a → wire_ok a →
  ∃ json tc' w', results ts = Done json ∧ from_serde (trim json) tc w = Done (tc', w') ∧
    sd_bytes (test_peer tc') = sd_bytes (test_data ts) ∧
    sd_blks (test_peer tc') = sd_blks (test_data ts) ∧
    sd_lost (test_peer tc') = sd_lost (test_data ts) ∧
    test_peer_mode tc' = test_mode ts ∧
    Forall2 shown_as (test_streams ts) (test_peer_streams tc') ∧
    test_data tc' = test_data tc ∧ test_streams tc' = test_streams tc ∧
    frame_of tc' = frame_of tc.
Proof.
  intros Ha Hok. destruct (results_json_roundtrip a Hok) as (b & Hb & Hag).
  exists (results_to_json a). unfold results. rewrite Ha. cbn [bindR].
  rewrite results_json_trimmed. unfold from_serde. rewrite Hb. unfold bindM at 1.
  destruct (mapM_returns stream_of_wire (tw_streams b) w stream_of_wire_returns) as (ps & w1 & Hps).
  rewrite Hps. unfold bindM at 1. destruct (Timers_default_returns w1) as (tm & w2 & ->).
  eexists _, _. split; [done|]. split; [done|].
  unfold test_wire in Ha. mrun Ha. simplify_eq/=.
  match goal with H : streams_wire _ = _ |- _ => apply streams_wire_Forall2 in H as Hw end.
  pose proof (wire_agree_streams _ _ Hag) as Hag2. destruct Hag as (Hmode & Hd & _). simpl in *.
  rewrite <- Hmode, <- Hd. split_and!; try done.
  eapply mapM_Forall2 in Hps; [|intros ????; apply stream_of_wire_spec].
  clear -Hw Hag2 Hps. revert Hag2 Hps. generalize (tw_streams b). revert ps.
  induction Hw as [|p s l ss (E1 & E2 & E3) _ IH]; intros ps bs Hab Hbp;
    inversion Hab as [|? y ? ? (F1 & F2 & F3) Hab']; subst;
    inversion Hbp as [|? q ? ? (G1 & G2 & G3) Hbp']; subst; constructor.
  - unfold shown_as. split_and!; [congruence..|]. exists (sw_stream s). split; [done|].
    rewrite G3, <- F2. done.
  - by eapply IH.
Qed.
End Exchange.
