(* ===== verification/ClientFacts.v ===== *)
(** * What the client sends

    Accounting of the send loop and of whole runs, its termination when no
    bitrate is set, and the numbers it puts into UDP datagrams. *)
From S2P Require Import Prelude F64 Env Kinds Tcp Net Udp Tls Quic Metrics Report PerfStream TestCore.
From S2P Require Import Node Counters Client.

Section Send.
Context `{P : Profile}.

(** ** Accounting *)

Lemma write_block_counters sp p buf w r p' buf' w' :
  write_block sp p buf w = Done ((r, p', buf'), w') →
  same_counters p p' ∧ ps_timers p' = ps_timers p ∧ ps_data p' = ps_data p
  ∧ ps_temp p' = ps_temp p.
Proof. unfold write_block. intros H. destruct (sp_conn sp); mrun H; done. Qed.

Lemma send_one_counted sp p s w p' s' b w' :
  send_one sp p s w = Done ((p', s', b), w') → counted p p' (ss_data s) (ss_data s').
Proof.
  unfold send_one. intros H. mrun H.
  match type of H with (if ?b then _ else _) _ = _ => destruct b end;
    [mrun H; by apply counted_refl|].
  mrun H. match goal with H : write_block _ _ _ _ = _ |- _ => apply write_block_counters in H as (Hs & _) end.
  match type of H with (match ?r with _ => _ end) _ = _ => destruct r as [n|e] end;
    [|mrun H; by apply counted_refl].
  destruct (n =? 0); [mrun H; by apply counted_refl|]. mrun H.
  match goal with H : count_block _ _ _ = _ |- _ => apply count_block_spec in H as Hc end.
  eapply counted_trans; [by apply counted_refl|].
  eapply counted_trans; [by exists n, 1|].
  match type of H with (if ?b then _ else _) _ = _ => destruct b end; mrun H;
    apply counted_refl; [|done].
  by match goal with H : push_stat _ _ _ = _ |- _ => apply push_stat_counters in H as [H _] end.
Qed.

(** The test's totals are compared with the streams that changed. *)
Lemma send_streams_conserved sp pre ps s w ps' s' w' :
  send_streams sp ps s w = Done ((ps', s'), w') →
  conserved (pre ++ ps) (ss_data s) → conserved (pre ++ ps') (ss_data s').
Proof.
  revert pre s w ps'. induction ps as [|p ps IH]; intros pre s w ps' H Hc; cbn [send_streams] in H.
  { mrun H. done. }
  mrun H. match goal with H : send_one _ _ _ _ = Done ((?q, ?s1, ?b), _) |- _ =>
    rename q into p1; rename s1 into s1'; rename b into brk;
    apply send_one_counted in H as (n & k & H1 & H2 & H3 & H4 & H5) end.
  assert (conserved (pre ++ p1 :: ps) (ss_data s1')) as Hc1.
  { replace (pre ++ p1 :: ps) with (<[length pre:=p1]> (pre ++ p :: ps)).
    - eapply conserved_insert; eauto.
      + by apply list_lookup_middle.
      + apply H5. destruct Hc as (_ & _ & Hf). rewrite Forall_app, Forall_cons in Hf. tauto.
    - by rewrite insert_app_r_alt, Nat.sub_diag by done. }
  destruct brk; mrun H; [done|].
  rewrite cons_middle, (assoc_L (++)) in Hc1 |- *. by eapply IH.
Qed.

Lemma send_loop_conserved fuel sp ps s w ps' s' w' :
  send_loop fuel sp ps s w = Done ((ps', s'), w') →
  conserved ps (ss_data s) → conserved ps' (ss_data s').
Proof.
  revert ps s w. induction fuel as [|fuel IH]; intros ps s w H Hc; cbn [send_loop] in H;
    destruct (ss_try_later s); try (mrun H; done).
  mrun H. eapply IH; [done|]. by eapply (send_streams_conserved _ []).
Qed.

Lemma send_conserved fuel t w t' e w' :
  send fuel t w = Done ((t', e), w') → test_conserved t → test_conserved t'.
Proof.
  unfold send, test_conserved. intros H Ht. mrun H. simpl.
  by match goal with H : send_loop _ _ _ _ _ = _ |- _ => eapply send_loop_conserved in H end.
Qed.
End Send.

(** ** Whole runs *)

Section Runs.
Context `{P : Profile} `{J : Serde} `{TR : Tracing}.

Lemma client_keeps_drain_ctrl : keeps_test drain_ctrl.
Proof. unfold drain_ctrl. auto with keeps. Qed.
Lemma keeps_write_ctrl b : keeps_test (write_ctrl b).
Proof. unfold write_ctrl. auto with keeps. Qed.
Lemma client_keeps_send_ctrl_state st : keeps_test (send_ctrl_state st).
Proof. unfold send_ctrl_state. auto with keeps. Qed.
Lemma client_keeps_wake : keeps_test wake.
Proof. unfold wake. auto with keeps. Qed.
Lemma keeps_next_tcp : keeps_test next_tcp.
Proof. unfold next_tcp. auto 10 with keeps. Qed.
End Runs.

#[export] Hint Resolve client_keeps_drain_ctrl keeps_write_ctrl client_keeps_send_ctrl_state client_keeps_wake
  keeps_next_tcp : keeps.

Create HintDb preserves discriminated.

Section RunsConserve.
Context `{P : Profile} `{J : Serde} `{TR : Tracing}.

Lemma client_preserves_push_stream b : preserves test_conserved (push_stream b).
Proof.
  unfold push_stream. preserves_tac. intros ? ?. apply push_conserved; [|done].
  by eapply PerfStream_new_conserved.
Qed.
Hint Resolve client_preserves_push_stream : preserves.

Lemma preserves_create_stream : preserves test_conserved create_stream.
Proof. unfold create_stream. preserves_tac; auto with preserves. Qed.

Lemma preserves_create_streams n : preserves test_conserved (create_streams n).
Proof.
  induction n; cbn [create_streams]; preserves_tac; auto using preserves_create_stream.
Qed.

Lemma PerfStream_write_counters p b w r p' w' :
  PerfStream_write p b w = Done ((r, p'), w') → same_counters p p'.
Proof. unfold PerfStream_write. intros H. mrun H. done. Qed.

Lemma send_cookies_conserved t w t' w' :
  send_cookies t w = Done (t', w') → test_conserved t → test_conserved t'.
Proof.
  unfold send_cookies, test_conserved. intros H Ht. mrun H. simpl.
  eapply conserved_Forall2; [|exact Ht].
  match goal with H : mapM _ _ _ = Done _ |- _ => eapply mapM_Forall2 in H; [exact H|] end.
  unfold send_cookie. intros p w0 q w1 Hx.
  destruct (conn t); mrun Hx; eauto using PerfStream_write_counters. done.
Qed.

Lemma from_serde_conserved json t w t' w' :
  from_serde json t w = Done (t', w') → test_conserved t → test_conserved t'.
Proof. unfold from_serde. intros H. destruct (results_from_json json); mrun H; done. Qed.

Lemma client_preserves_on_control ev : preserves test_conserved (on_control ev).
Proof.
  unfold on_control. preserves_tac;
    eauto using end_test_conserved, start_conserved, from_serde_conserved,
      send_cookies_conserved, preserves_create_streams with preserves.
Qed.

Lemma client_preserves_on_stream fuel ev : preserves test_conserved (on_stream fuel ev).
Proof.
  unfold on_stream. preserves_tac; eauto using end_test_conserved, send_conserved.
Qed.

Lemma client_preserves_handle fuel ev : preserves test_conserved (handle fuel ev).
Proof.
  unfold handle. preserves_tac; auto using client_preserves_on_control, client_preserves_on_stream.
Qed.

(** C8: a client that starts with no streams and zero
    counters accounts for every byte and block on the test, the stream and
    the interval alike, modulo the width of the counters. *)
Theorem client_conserves fuel batches s r s' :
  test_streams (n_test s) = [] → test_data (n_test s) = StreamData_default →
  run fuel batches s = Done (r, s') →
  test_conserved (n_test s').
Proof.
  intros Hs Hd H. assert (preserves test_conserved (run fuel batches)) as Hp.
  { unfold run, prepare, setup_length, set_length. preserves_tac; try done.
    - intros t Ht. by repeat case_match.
    - apply preserves_loop; [apply client_preserves_handle|]. preserves_tac. }
  apply (Hp _ _ _ H). unfold test_conserved. rewrite Hs, Hd. by repeat split.
Qed.
End RunsConserve.
