(* ===== verification/WidthRuns.v ===== *)
(** * Well-typed runs

    From the command line to the end of any run, on either side, every field
    of the test, of its streams and of their intervals holds a number of its
    type. *)
From S2P Require Import Prelude F64 Params Env Kinds Tcp Net Udp Tls Quic Metrics Report PerfStream.
From S2P Require Import TestCore Node Counters Widths Server Client ServerSpec ServerFacts ClientFacts.

Section ServerRuns.
Context `{P : Profile} {J : Serde} {SL : SerdeLaws} `{TR : Tracing} `{U : Unicode}.

Lemma read_block_ok c p buf w r p' buf' w' :
  Server.read_block c p buf w = Done ((r, p', buf'), w') → stream_ok p → stream_ok p'.
Proof. unfold read_block. intros H Hp. destruct c; mrun H; exact Hp. Qed.

Lemma recv_loop_ok fuel c verbose debug p d m buf w p' d' m' w' :
  recv_loop fuel c verbose debug p d m buf w = Done ((p', d', m'), w') →
  stream_ok p → data_ok d → stream_ok p' ∧ data_ok d'.
Proof.
  revert p d m buf w. induction fuel as [|fuel IH]; intros p d m buf w H Hp Hd; [done|].
  cbn [recv_loop] in H. mrun H.
  match goal with H : read_block _ _ _ _ = _ |- _ => apply read_block_ok in H as Hq; [|done] end.
  match type of H with (match ?r with _ => _ end) _ = _ => destruct r as [n|e] end; [|by mrun H].
  destruct (n =? 0); [by mrun H|]. mrun H.
  match goal with H : count_block _ _ _ = _ |- _ => apply count_block_ok in H as [Hc1 Hc2]; [|done..] end.
  apply IH in H; [done| |done].
  match goal with H : (if _ then _ else _) _ = _ |- _ =>
    destruct (ONE_SEC <? _); [eapply push_stat_ok; [exact H|]|mrun H] end; exact Hc1.
Qed.

Lemma receive_ok t i w t' w' : receive t i w = Done (t', w') → test_ok t → test_ok t'.
Proof.
  unfold receive. intros H Ht. mrun H. pose proof Ht as (_ & _ & _ & Hd & _ & Hs & _).
  match goal with H : unwrap ?o = Done ?q |- _ =>
    assert (stream_ok q) as Hq by (destruct o eqn:Hi; [|done]; injection H as <-;
      by eapply Forall_lookup_1 in Hs) end.
  match goal with H : recv_loop _ _ _ _ _ _ _ _ _ = _ |- _ =>
    apply recv_loop_ok in H as [Hp' Hd']; [|done..] end.
  exact (test_ok_data (with_test_streams _ _) _ (test_ok_set_stream _ _ _ Ht Hp') Hd').
Qed.

Lemma read_stream_cookie_ok t i w t' w' :
  read_stream_cookie t i w = Done (IoOk t', w') → test_ok t → test_ok t'.
Proof.
  unfold read_stream_cookie. intros H Ht. mrun H. pose proof Ht as (_ & _ & _ & _ & _ & Hs & _).
  match goal with H : unwrap ?o = Done ?q |- _ =>
    assert (stream_ok q) as Hq by (destruct o eqn:Hi; [|done]; injection H as <-;
      by eapply Forall_lookup_1 in Hs) end.
  destruct (conn t); mrun H; repeat (case_match; mrun H); simplify_eq;
    by apply test_ok_set_stream.
Qed.

Lemma push_stream_ok b : preserves test_ok (Server.push_stream b).
Proof.
  unfold Server.push_stream. preserves_tac. intros t' Ht'.
  apply test_ok_push; [done|]. by eapply PerfStream_new_ok.
Qed.

Lemma new_token_ok : preserves test_ok new_token.
Proof. unfold new_token. preserves_tac; done. Qed.

Hint Resolve push_stream_ok new_token_ok : width.

Lemma create_streams_ok :
  preserves test_ok create_tcp_stream ∧ preserves test_ok create_tls_stream ∧
  preserves test_ok create_udp_stream ∧ preserves test_ok create_quic_stream.
Proof.
  unfold create_tcp_stream, create_tls_stream, create_udp_stream, create_quic_stream.
  split_and!; preserves_tac; auto with width.
Qed.

Lemma streams_created_ok : preserves test_ok streams_created.
Proof. unfold streams_created. preserves_tac; done. Qed.

Lemma count_cookie_ok : preserves test_ok count_cookie.
Proof.
  unfold count_cookie. preserves_tac; eauto using start_ok.
  intros t' Ht'. unfold test_ok in *. simpl. split_and!; try tauto. width.
Qed.

Lemma read_next_state_ok : preserves test_ok read_next_state.
Proof. unfold read_next_state. preserves_tac; eauto using end_test_ok. Qed.

Hint Resolve streams_created_ok count_cookie_ok read_next_state_ok : width.

Lemma server_handle_ok ev : preserves test_ok (Server.handle ev).
Proof.
  destruct create_streams_ok as (H1 & H2 & H3 & H4).
  unfold Server.handle, Server.on_control, on_tcp_listener, on_tls_listener, on_udp_listener,
    on_quic_listener, Server.on_stream.
  preserves_tac;
    eauto using end_test_ok, set_settings_ok, receive_ok, read_stream_cookie_ok with width.
Qed.

Lemma on_idle_ok : preserves test_ok on_idle.
Proof. unfold on_idle. preserves_tac. by eapply reset_counter_ok. Qed.

End ServerRuns.

Section ClientRuns.
Context `{P : Profile} {J : Serde} {SL : SerdeLaws} `{TR : Tracing} `{U : Unicode}.

Lemma send_one_ok sp p s w p' s' b w' :
  send_one sp p s w = Done ((p', s', b), w') → stream_ok p → data_ok (ss_data s) →
  stream_ok p' ∧ data_ok (ss_data s').
Proof.
  unfold send_one. intros H Hp Hd. mrun H.
  match type of H with (if ?b then _ else _) _ = _ => destruct b end; [by mrun H|].
  mrun H. match goal with H : write_block _ _ _ _ = Done ((?r, ?q, _), _) |- _ =>
    assert (stream_ok q) as Hq by (unfold write_block in H; destruct (sp_conn sp); mrun H; exact Hp) end.
  match type of H with (match ?r with _ => _ end) _ = _ => destruct r as [n|e] end; [|by mrun H].
  destruct (n =? 0); [by mrun H|]. mrun H.
  match goal with H : count_block _ _ _ = _ |- _ => apply count_block_ok in H as [Hc1 Hc2]; [|done..] end.
  match type of H with (if ?b then _ else _) _ = _ => destruct b end; mrun H; split; try done.
  by eapply push_stat_ok.
Qed.

Lemma send_streams_ok sp ps s w ps' s' w' :
  send_streams sp ps s w = Done ((ps', s'), w') → Forall stream_ok ps → data_ok (ss_data s) →
  Forall stream_ok ps' ∧ data_ok (ss_data s').
Proof.
  revert s w ps'. induction ps as [|p ps IH]; intros s w ps' H Hps Hd; cbn [send_streams] in H.
  { by mrun H. }
  inversion Hps as [|?? Hp Hps']; subst. mrun H.
  match goal with H : send_one _ _ _ _ = Done ((_, _, ?b), _) |- _ =>
    apply send_one_ok in H as [Hp1 Hd1]; [|done..]; destruct b end; mrun H; [by split; [constructor|]|].
  match goal with H : send_streams _ _ _ _ = _ |- _ => apply IH in H as [? ?]; [|done..] end.
  by split; [constructor|].
Qed.

Lemma send_loop_ok fuel sp ps s w ps' s' w' :
  send_loop fuel sp ps s w = Done ((ps', s'), w') → Forall stream_ok ps → data_ok (ss_data s) →
  Forall stream_ok ps' ∧ data_ok (ss_data s').
Proof.
  revert ps s w. induction fuel as [|fuel IH]; intros ps s w H Hp Hd; cbn [send_loop] in H;
    destruct (ss_try_later s); try (by mrun H). mrun H.
  match goal with H : send_streams _ _ _ _ = _ |- _ => apply send_streams_ok in H as [? ?]; [|done..] end.
  by eapply IH.
Qed.

Lemma send_ok fuel t w t' e w' : send fuel t w = Done ((t', e), w') → test_ok t → test_ok t'.
Proof.
  unfold send. intros H Ht. mrun H. pose proof Ht as (_ & _ & _ & Hd & _ & Hs & _).
  match goal with H : send_loop _ _ _ _ _ = _ |- _ => apply send_loop_ok in H as [Hp' Hd']; [|done..] end.
  exact (test_ok_data (with_test_streams _ _) _ (test_ok_streams _ _ Ht Hp') Hd').
Qed.

Lemma send_cookies_ok t w t' w' : send_cookies t w = Done (t', w') → test_ok t → test_ok t'.
Proof.
  unfold send_cookies. intros H Ht. mrun H. apply test_ok_streams; [done|].
  match goal with H : mapM _ _ _ = _ |- _ =>
    eapply (Forall_results _ stream_ok stream_ok) in H; [exact H| |] end.
  - unfold send_cookie, PerfStream_write. intros p w0 q w1 Hx Hp.
    destruct (conn t); mrun Hx; repeat (case_match; simplify_eq);
      repeat match goal with H : ret _ _ = _ |- _ => mrun H end; exact Hp.
  - by destruct Ht as (_ & _ & _ & _ & _ & Ht & _).
Qed.

Lemma client_push_stream_ok b : preserves test_ok (Client.push_stream b).
Proof.
  unfold Client.push_stream. preserves_tac. intros t' Ht'.
  apply test_ok_push; [done|]. by eapply PerfStream_new_ok.
Qed.
Hint Resolve client_push_stream_ok : width.

Lemma client_create_streams_ok n : preserves test_ok (create_streams n).
Proof.
  induction n; cbn [create_streams]; unfold create_stream; preserves_tac; auto with width.
Qed.
Hint Resolve client_create_streams_ok : width.

Lemma client_handle_ok fuel ev : preserves test_ok (Client.handle fuel ev).
Proof.
  unfold Client.handle, Client.on_control, Client.on_stream.
  preserves_tac;
    eauto using end_test_ok, start_ok, send_ok, send_cookies_ok, from_serde_ok with width.
Qed.

Lemma prepare_ok s r s' :
  prepare s = Done (r, s') → fits 32 (t_mss (c_ctrl (n_impl s))) →
  test_ok (n_test s) → test_ok (n_test s').
Proof.
  unfold prepare. intros H Hm Ht. mrun H; try done. simpl.
  match goal with H : Tcp.mss _ _ = Done (?n, _) |- _ =>
    assert (fits 64 n) as Hn by (unfold Tcp.mss in H; mrun H; repeat (case_match; mrun H);
      unfold fits in *; lia) end.
  unfold setup_length, set_length, test_ok, settings_ok in *. simpl.
  repeat case_match; simpl; split_and!; try tauto; by vm_compute.
Qed.

End ClientRuns.
