(* ===== verification/ClientSend.v ===== *)
(** * The send loop: it ends, it numbers datagrams, it needs a block that fits *)
From S2P Require Import Prelude F64 Env Kinds Tcp Net Udp Tls Quic Metrics Report PerfStream TestCore.
From S2P Require Import Node Counters Total Client ClientFacts.

(** ** How many writes the system still accepts *)

Definition quic_writes (l : list SendStream) : nat :=
  foldr (λ s n, length (ss_out s) + n)%nat O l.

Definition writes_left (b : BoxStream) : nat :=
  match b with
  | BTcp t => length (sk_out (t_sock t))
  | BUdp u => length (sk_out (u_sock u))
  | BTls e => length (sk_out (ts_plain (te_conn (entity e))))
  | BQuic q => quic_writes (q_send_streams q)
  | BDummy _ => O
  end.

Definition total_writes (ps : list PerfStream) : nat :=
  foldr (λ p n, writes_left (ps_stream p) + n)%nat O ps.

Section Progress.
Context `{P : Profile}.

Lemma writes_left_strip b : writes_left (strip b) = writes_left b.
Proof. by destruct b as [| | |[[] ?]|]. Qed.

Lemma push_stat_writes debug p w p' w' :
  push_stat debug p w = Done (p', w') → writes_left (ps_stream p') = writes_left (ps_stream p).
Proof.
  intros H. apply push_stat_strip in H. by rewrite <- writes_left_strip, H, writes_left_strip.
Qed.

Lemma sock_write_left b s n s' :
  sock_write b s = (IoOk n, s') → (length (sk_out s') < length (sk_out s))%nat.
Proof. unfold sock_write. intros H. repeat case_match; simplify_eq/=; lia. Qed.

Lemma write_streams_left b l l' :
  write_streams b l = Done (IoOk (), l') → length l' = length l ∧
  (l = [] ∨ (quic_writes l' < quic_writes l)%nat).
Proof.
  revert l'. induction l as [|s l IH]; intros l' H; cbn [write_streams] in H.
  - simplify_eq. auto.
  - mrun H. match goal with H : send_write_chunk _ _ = Done (?r, ?s1) |- _ =>
      destruct r; unfold send_write_chunk in H; destruct (ss_out s) as [|[] o] eqn:E end;
      simplify_eq/=; mrun H; simplify_eq/=.
    match goal with H : write_streams _ _ = _ |- _ => apply IH in H as [Hl Hq] end.
    split; [by f_equal|right]. rewrite E. simpl.
    destruct Hq as [->|Hq]; [|lia]. match goal with |- context [quic_writes ?l1] => destruct l1 end;
      [simpl; lia|done].
Qed.

Lemma quic_write_left q b n q' :
  Quic.write q b = Done (IoOk n, q') → n ≠ 0 →
  (quic_writes (q_send_streams q') < quic_writes (q_send_streams q))%nat.
Proof.
  unfold Quic.write, write_total, mul_u. intros H Hn. mrun H. simplify_eq/=.
  match goal with H : write_streams _ _ = Done (?r, _) |- _ => destruct r as [[]|] end; mrun H; [|done].
  match goal with H : write_streams _ _ = _ |- _ => apply write_streams_left in H as [Hl [E|?]] end;
    [|done].
  rewrite E in *.
  match goal with Hl : length ?l = length [] |- _ => destruct l; [|done] end.
  match goal with H : bindR _ _ = Done _ |- _ => mrun H end. simplify_eq.
  rewrite Z.mul_0_r, checked_fits in * by done. simplify_eq.
Qed.

Lemma tcp_write_left t b w n t' w' :
  stream_write t b w = Done ((IoOk n, t'), w') →
  (writes_left (BTcp t') < writes_left (BTcp t))%nat.
Proof.
  cbn. unfold TcpStream_write, ret. destruct (sock_write _ _) eqn:E. intros [= -> <- <-].
  by apply sock_write_left in E.
Qed.

Lemma udp_write_left u b w n u' w' :
  stream_write u b w = Done ((IoOk n, u'), w') →
  (writes_left (BUdp u') < writes_left (BUdp u))%nat.
Proof.
  cbn. unfold UdpSocket_write, ret. destruct (sock_write _ _) eqn:E. intros [= -> <- <-].
  by apply sock_write_left in E.
Qed.

Lemma tls_write_left e b w n e' w' :
  stream_write e b w = Done ((IoOk n, e'), w') → n ≠ 0 →
  (writes_left (BTls e') < writes_left (BTls e))%nat.
Proof.
  cbn. unfold TlsEndpoint_write, ret. destruct (entity e) as [c t|c t]; [by intros [= <-]|].
  destruct (sock_write _ _) eqn:E. intros [= -> <- <-] _. by apply sock_write_left in E.
Qed.

Lemma write_block_left sp p buf w n p' buf' w' :
  write_block sp p buf w = Done ((IoOk n, p', buf'), w') → n ≠ 0 →
  (writes_left (ps_stream p') < writes_left (ps_stream p))%nat.
Proof.
  unfold write_block. intros H Hn.
  destruct (sp_conn sp); mrun H; destruct (ps_stream p); simplify_eq/=;
    eauto using tcp_write_left, udp_write_left, tls_write_left, quic_write_left.
Qed.

Lemma throttled_unpaced sp p t : sp_bitrate sp = 0 → throttled sp p t = Done false.
Proof. unfold throttled. by intros ->. Qed.

(** One turn of the inner loop without pacing: a [break] sets the flag that
    ends the outer loop, anything else uses up a write. *)
Lemma send_one_left sp p s w p' s' b w' :
  sp_bitrate sp = 0 → send_one sp p s w = Done ((p', s', b), w') →
  if b then ss_try_later s' = true
  else (writes_left (ps_stream p') < writes_left (ps_stream p))%nat.
Proof.
  unfold send_one. intros Hz H. mrun H. rewrite throttled_unpaced in * by done.
  simplify_eq. mrun H.
  match type of H with (match ?r with _ => _ end) _ = _ => destruct r as [n|e] end;
    [|by mrun H].
  destruct (Z.eqb_spec n 0); [by mrun H|]. mrun H.
  match goal with H : write_block _ _ _ _ = _ |- _ => apply write_block_left in H; [|done] end.
  match goal with H : count_block _ _ _ = _ |- _ => apply count_block_stream in H as [Hs _] end.
  match type of H with (if ?b then _ else _) _ = _ => destruct b end; mrun H; [|by rewrite Hs].
  match goal with H : push_stat _ _ _ = _ |- _ => apply push_stat_writes in H end. congruence.
Qed.

Lemma send_streams_left sp ps s w ps' s' w' :
  sp_bitrate sp = 0 → send_streams sp ps s w = Done ((ps', s'), w') → ps ≠ [] →
  length ps' = length ps ∧
  (ss_try_later s' = true ∨ (total_writes ps' < total_writes ps)%nat).
Proof.
  intros Hz. revert s w ps' s'. induction ps as [|p ps IH]; intros s w ps' s' H Hne; [done|].
  cbn [send_streams] in H. mrun H.
  match goal with H : send_one _ _ _ _ = Done ((_, _, ?b), _) |- _ =>
    apply send_one_left in H; [destruct b|done] end; mrun H; [by auto|].
  destruct ps as [|p2 ps].
  - match goal with H : send_streams _ [] _ _ = _ |- _ => cbn [send_streams] in H; mrun H end.
    split; [done|right]. simpl. lia.
  - match goal with H : send_streams _ _ _ _ = _ |- _ => apply IH in H as [Hl Ht]; [|done] end.
    split; [simpl in *; lia|]. destruct Ht as [?|?]; [by left|right]. simpl in *. lia.
Qed.

Lemma fuel_ok_write_block sp p buf : fuel_ok (write_block sp p buf).
Proof.
  assert (∀ l b, res_ok (write_streams b l)) as Hq.
  { induction l as [|s l IH]; intros b; cbn [write_streams]; [fuel_tac|].
    unfold send_write_chunk. fuel_tac. }
  unfold write_block, add_u, as_Quic, as_TcpStream, as_TlsEndpoint, as_UdpSocket, Quic.write,
    write_total, mul_u.
  destruct (sp_conn sp); cbn; unfold TcpStream_write, UdpSocket_write, TlsEndpoint_write;
    auto 20 with fuel.
Qed.

Lemma fuel_ok_send_streams sp ps s : fuel_ok (send_streams sp ps s).
Proof.
  assert (∀ p s, fuel_ok (send_one sp p s)) as Ho.
  { intros p s'. unfold send_one, throttled, mul_u.
    auto 20 using fuel_ok_write_block with fuel. }
  revert s. induction ps as [|p ps IH]; intros s; cbn [send_streams]; fuel_tac.
Qed.

Lemma send_loop_fuel fuel sp ps s w :
  sp_bitrate sp = 0 → ps ≠ [] → (total_writes ps < fuel)%nat →
  res_ok (send_loop fuel sp ps s w).
Proof.
  intros Hz. revert ps s w. induction fuel as [|fuel IH]; intros ps s w Hne Hf; [lia|].
  cbn [send_loop]. destruct (ss_try_later s); [done|].
  apply res_ok_step; [apply fuel_ok_send_streams|]. intros [ps' s'] w' E.
  apply send_streams_left in E as [Hl [Ht|Ht]]; [| |done..].
  - destruct fuel; cbn [send_loop]; by rewrite Ht.
  - apply IH; [|lia]. by destruct ps', ps.
Qed.

(** Without a target bitrate, the send loop of a test with at least one stream
    ends once every write the system accepts has been made; [total_writes]
    bounds its turns. *)
Lemma send_returns fuel t w :
  bitrate t = 0 → test_streams t ≠ [] → (total_writes (test_streams t) < fuel)%nat →
  res_ok (send fuel t w).
Proof.
  intros Hz Hne Hf. unfold send. apply res_ok_step; [fuel_tac|]. intros e w' _.
  apply res_ok_step; [intros w1; by apply send_loop_fuel|]. by intros [ps s] w1 _.
Qed.
End Progress.

(** ** The numbers in UDP datagrams *)

Definition nonempty (bs : list Buf) : list Buf := filter (λ b, b_len b ≠ 0) bs.

(** The blocks after the first [from]: each begins with its number, as far as
    the part that was sent reaches. *)
Definition numbered (from : Z) (bs : list Buf) : Prop :=
  ∀ i b, bs !! i = Some b →
    b_head b = take (Z.to_nat (b_len b)) (to_be_bytes 8 ((from + Z.of_nat i + 1) mod 2 ^ 64)).

(** What a UDP stream has sent from [p] to [p']. *)
Definition udp_sent (p p' : PerfStream) : Prop :=
  ∀ u, ps_stream p = BUdp u → ∃ u' bs, ps_stream p' = BUdp u' ∧
    sk_sent (u_sock u') = sk_sent (u_sock u) ++ bs ∧
    numbered (sd_blks (ps_data p)) (nonempty bs) ∧
    cong (sd_blks (ps_data p')) (sd_blks (ps_data p) + Z.of_nat (length (nonempty bs))).

Lemma numbered_cong a b bs : cong a b → numbered a bs → numbered b bs.
Proof.
  unfold numbered, cong. intros Hc H i x Hi. rewrite (H i x Hi). do 2 f_equal.
  rewrite <- !Z.add_assoc, Zplus_mod, Hc, <- Zplus_mod. done.
Qed.

Lemma numbered_app from bs1 bs2 :
  numbered from bs1 → numbered (from + Z.of_nat (length bs1)) bs2 → numbered from (bs1 ++ bs2).
Proof.
  unfold numbered. intros H1 H2 i b Hi. apply lookup_app_Some in Hi as [Hi|[Hl Hi]]; [by apply H1|].
  rewrite (H2 _ _ Hi). do 3 f_equal. lia.
Qed.

Lemma udp_sent_refl p q : same_counters p q → ps_stream q = ps_stream p → udp_sent p q.
Proof.
  intros (_ & Hk & _) Hs u Hu. exists u, []. rewrite Hs, app_nil_r, Hk. cbn.
  rewrite Z.add_0_r. by split_and!.
Qed.

Lemma udp_sent_trans p1 p2 p3 : udp_sent p1 p2 → udp_sent p2 p3 → udp_sent p1 p3.
Proof.
  intros H1 H2 u Hu. destruct (H1 u Hu) as (u2 & b1 & E2 & S2 & N2 & C2).
  destruct (H2 u2 E2) as (u3 & b2 & E3 & S3 & N3 & C3).
  exists u3, (b1 ++ b2). unfold nonempty in *. rewrite filter_app, length_app, S3, S2.
  split_and!; [done|by rewrite (assoc_L (++))| |].
  - apply numbered_app; [done|]. by eapply numbered_cong.
  - rewrite C3, C2. unfold cong. f_equal. lia.
Qed.

Section Numbers.
Context `{P : Profile}.

(** The buffer of the send loop only ever holds a number in front. *)
Definition number_buf (b : Buf) : Prop := (length (b_head b) ≤ 8)%nat.

Lemma write_block_udp sp p buf w r p' buf' w' :
  sp_conn sp = UDP → number_buf buf →
  write_block sp p buf w = Done ((r, p', buf'), w') →
  number_buf buf' ∧ ∃ u u' bs, ps_stream p = BUdp u ∧ ps_stream p' = BUdp u' ∧
    sk_sent (u_sock u') = sk_sent (u_sock u) ++ bs ∧
    match r with
    | IoOk n => ∃ b, bs = [b] ∧ b_len b = n ∧ b_head b = take (Z.to_nat n)
                  (to_be_bytes 8 ((sd_blks (ps_data p) + 1) mod 2 ^ 64))
    | IoErr _ => bs = []
    end.
Proof.
  unfold write_block. intros -> Hbuf H. mrun H.
  match goal with H : as_UdpSocket _ = Done ?v |- _ =>
    destruct (ps_stream p) as [|v0| | |] eqn:Hp; [done| |done..]; injection H as -> end.
  match goal with H : add_u _ _ _ = _ |- _ => apply checked_mod in H; [subst|done] end.
  match goal with H : buf_slice_to _ _ = Done ?b |- _ =>
    apply buf_slice_to_Done in H as (_ & Hbl & _ & Hbh) end.
  unfold number_buf in *.
  assert (∀ hd, length hd = 8%nat → b_head (buf_write hd buf) = hd) as Hhead.
  { intros hd Hl. unfold buf_write. cbn [b_head]. rewrite drop_ge, app_nil_r; [done|lia]. }
  rewrite Hhead in * by apply length_to_be_bytes. rewrite length_to_be_bytes. split; [done|].
  match goal with H : stream_write _ _ _ = _ |- _ =>
    cbn [stream_write UdpSocket_Stream] in H; unfold UdpSocket_write, ret in H;
    destruct (sock_write _ _) as [r0 s0] eqn:E; injection H as -> <- <- end.
  apply sock_write_sent in E as (bs & Hs & Hr). eexists _, _, bs. split_and!; [done..|].
  destruct r as [n|]; [|done]. destruct Hr as (b' & -> & Hl & Hle & Hb). exists b'.
  split_and!; [done..|]. rewrite Hb, Hbh, take_take. f_equal. lia.
Qed.

Lemma strip_udp b u : strip b = strip (BUdp u) → b = BUdp u.
Proof. by destruct b; intros [= ->]. Qed.

Lemma send_one_numbers sp p s w p' s' b w' :
  sp_conn sp = UDP → number_buf (ss_udp_buf s) →
  send_one sp p s w = Done ((p', s', b), w') →
  udp_sent p p' ∧ number_buf (ss_udp_buf s').
Proof.
  unfold send_one. intros Hu Hb H. mrun H.
  match type of H with (if ?b then _ else _) _ = _ => destruct b end;
    [mrun H; split; [by apply udp_sent_refl|done]|].
  mrun H. match goal with H : write_block _ _ _ _ = _ |- _ =>
    pose proof (write_block_counters _ _ _ _ _ _ _ _ H) as (Hc & _);
    apply write_block_udp in H as (Hb' & u & u' & bs & E1 & E2 & Hsent & Hr); [|done..] end.
  match type of H with (match ?r with _ => _ end) _ = _ => destruct r as [n|e] end.
  2:{ mrun H. split; [|done]. intros u0 Hu0. exists u', []. destruct Hc as (_ & -> & _).
      rewrite Hsent, Z.add_0_r. split_and!; [done|congruence|done..]. }
  destruct Hr as (bb & -> & Hlen & Hhead). destruct (Z.eqb_spec n 0) as [->|Hn].
  { mrun H. split; [|done]. intros u0 Hu0. exists u', [bb]. destruct Hc as (_ & -> & _).
    unfold nonempty. rewrite filter_cons_False by (intros Hx; by apply Hx). rewrite Z.add_0_r.
    split_and!; [done|congruence|done..]. }
  mrun H. match goal with H : count_block _ _ _ = Done (?q, _) |- _ =>
    rename q into p2; pose proof (count_block_stream _ _ _ _ _ H) as [Es _];
    apply count_block_spec in H as (_ & Hk & _) end.
  assert (∀ q, same_counters p2 q → ps_stream q = BUdp u' → udp_sent p q) as Hdone.
  { intros q (_ & Hq & _) Eq u0 Hu0. exists u', [bb]. destruct Hc as (_ & Hc & _).
    unfold nonempty. rewrite filter_cons_True by done. cbn [filter list_filter].
    rewrite Hq, Hk, Hc. split_and!; [done|congruence| |done].
    intros [|i] bx Hi; simplify_eq/=. by rewrite Hhead, Z.add_0_r. }
  match type of H with (if ?b then _ else _) _ = _ => destruct b end; mrun H; (split; [|done]).
  - match goal with H : push_stat _ _ _ = _ |- _ =>
      pose proof (push_stat_counters _ _ _ _ _ H) as [Hsame _]; apply push_stat_strip in H as Hstrip end.
    apply Hdone; [done|]. apply strip_udp. by rewrite Hstrip, Es, E2.
  - apply Hdone; [done|congruence].
Qed.

Lemma send_streams_numbers sp ps s w ps' s' w' :
  sp_conn sp = UDP → number_buf (ss_udp_buf s) →
  send_streams sp ps s w = Done ((ps', s'), w') →
  Forall2 udp_sent ps ps' ∧ number_buf (ss_udp_buf s').
Proof.
  intros Hu. revert s w ps' s'. induction ps as [|p ps IH]; intros s w ps' s' Hb H;
    cbn [send_streams] in H; mrun H; [done|].
  match goal with H : send_one _ _ _ _ = Done ((_, _, ?b), _) |- _ =>
    apply send_one_numbers in H as [Hp Hb']; [destruct b|done..] end; mrun H.
  - split; [|done]. constructor; [done|]. clear. induction ps; constructor; [|done].
    by apply udp_sent_refl.
  - match goal with H : send_streams _ _ _ _ = _ |- _ => apply IH in H as [? ?]; [|done] end.
    split; [by constructor|done].
Qed.

Lemma send_loop_numbers fuel sp ps s w ps' s' w' :
  sp_conn sp = UDP → number_buf (ss_udp_buf s) →
  send_loop fuel sp ps s w = Done ((ps', s'), w') → Forall2 udp_sent ps ps'.
Proof.
  intros Hu. revert ps s w. induction fuel as [|fuel IH]; intros ps s w Hb H;
    cbn [send_loop] in H; destruct (ss_try_later s); mrun H;
    try (clear; induction ps'; constructor; [by apply udp_sent_refl|done]).
  match goal with H : send_streams _ _ _ _ = _ |- _ =>
    apply send_streams_numbers in H as [H1 Hb']; [|done..] end.
  apply IH in H; [|done]. clear -H1 H. revert ps' H.
  induction H1; intros ps' H2; inversion H2; subst; constructor; eauto using udp_sent_trans.
Qed.

(** The loop with its set-up. *)
Lemma send_numbers fuel t w t' e w' :
  conn t = UDP → send fuel t w = Done ((t', e), w') →
  Forall2 udp_sent (test_streams t) (test_streams t').
Proof.
  unfold send. intros Hu H. mrun H.
  match goal with H : send_loop _ _ _ _ _ = _ |- _ => apply send_loop_numbers in H; [done|done|] end.
  unfold number_buf. simpl. lia.
Qed.
(** C13: in every run of the send loop of a UDP test, each stream's
    datagrams (those that were sent at all) carry consecutive numbers, the
    first being one more than the stream's block count before, and the count
    grows by their number; a block shorter than eight bytes carries only the
    beginning of its number. *)
Theorem send_numbers_datagrams fuel t w t' e w' :
  conn t = UDP → send fuel t w = Done ((t', e), w') →
  Forall2 udp_sent (test_streams t) (test_streams t').
Proof. apply send_numbers. Qed.
End Numbers.

(** ** Blocks that do not fit *)

Section Fit.
Context `{P : Profile}.


(** C34: a TCP stream whose block length is above the buffer's 131072
    bytes panics in its first write, whatever the socket accepts. *)
Theorem long_block_panics sp p s w t :
  sp_conn sp = TCP → sp_bitrate sp = 0 → ps_stream p = BTcp t → MAX_TCP_PAYLOAD < sp_len sp →
  send_one sp p s w = Crash (Panicked "range end index out of range").
Proof.
  intros Hc Hz Hp Hl. unfold send_one, bindM at 1.
  destruct (elapsed_returns (tm_curr (ps_timers p)) w) as (e & w1 & ->).
  rewrite throttled_unpaced by done. unfold bindM at 1, liftR at 1.
  unfold bindM, write_block. rewrite Hc, Hp. cbn. unfold liftR, bindM, buf_slice_to.
  rewrite (proj2 (Z.leb_gt _ _)) by exact Hl. done.
Qed.
End Fit.
