(* ===== verification/UdpEnd.v ===== *)
(** * UDP losses from end to end

    The datagrams a client's send loop puts on the wire, less those the network
    drops, given to a server's receive loop: the interval reports the number of
    those that were dropped. *)
From Stdlib Require Import Sorted.
From S2P Require Import Prelude F64 Env Kinds Tcp Net Udp Tls Quic Metrics Report PerfStream TestCore.
From S2P Require Import Node Counters Server UdpLoss Client ClientSend.

(** ** Sent buffers as datagrams *)

(** The bytes of a buffer that went out. *)
Definition bytes_sent (b : Buf) : list Z := buf_bytes (Z.to_nat (b_len b)) b.

(** Its number and the bytes behind. *)
Definition parts (b : Buf) : Z * list Z :=
  (from_be_bytes (b_head b), replicate (Z.to_nat (b_len b) - 8) (b_fill b)).

(** What is numbered from one, with room for the numbers, is a sequence of
    datagrams with the numbers 1, 2, .. *)
Lemma numbered_datagrams bs :
  numbered 0 bs → Z.of_nat (length bs) < 2 ^ 64 → Forall (λ b, 8 ≤ b_len b) bs →
  Forall (λ b, bytes_sent b = datagram (parts b)) bs ∧
  map fst (map parts bs) = seqZ 1 (Z.of_nat (length bs)).
Proof.
  intros Hn Hl H8.
  assert (∀ i b, bs !! i = Some b → b_head b = to_be_bytes 8 (Z.of_nat i + 1)) as Hh.
  { intros i b Hi. rewrite (Hn i b Hi). pose proof (lookup_lt_Some _ _ _ Hi) as Hlt.
    rewrite Z.mod_small by lia. apply take_ge. rewrite length_to_be_bytes.
    eapply Forall_lookup_1 in H8; [|exact Hi]. simpl in H8. lia. }
  split.
  - apply Forall_lookup. intros i b Hi. unfold bytes_sent, buf_bytes, parts, datagram. cbn [fst snd].
    pose proof (Hh i b Hi) as Hb. pose proof (lookup_lt_Some _ _ _ Hi) as Hlt. rewrite Hb.
    rewrite from_to_be_bytes_u64 by (unfold fits; lia).
    rewrite take_app, length_to_be_bytes, take_replicate.
    eapply Forall_lookup_1 in H8; [|exact Hi]. simpl in H8.
    rewrite take_ge by (rewrite length_to_be_bytes; lia). do 2 f_equal. lia.
  - rewrite map_map. apply list_eq. intros i. rewrite list_lookup_fmap.
    destruct (bs !! i) as [b|] eqn:Hi; cbn [fmap option_fmap option_map].
    + pose proof (lookup_lt_Some _ _ _ Hi) as Hlt. unfold parts. cbn [fst].
      rewrite (Hh i b Hi), from_to_be_bytes_u64 by (unfold fits; lia).
      symmetry. apply lookup_seqZ. lia.
    + apply lookup_ge_None in Hi. symmetry. apply lookup_seqZ_ge. lia.
Qed.

(** ** What the network keeps *)

Lemma sublist_Forall {A} (Q : A → Prop) (l k : list A) : l `sublist_of` k → Forall Q k → Forall Q l.
Proof. induction 1; intros Hk; inversion Hk; subst; eauto. Qed.

Lemma sublist_StronglySorted {A} (R : A → A → Prop) l k :
  l `sublist_of` k → StronglySorted R k → StronglySorted R l.
Proof.
  induction 1; intros Hs; [done| |]; inversion Hs; subst; [constructor|]; eauto using sublist_Forall.
Qed.

Lemma seqZ_increasing n : increasing 0 (seqZ 1 (Z.of_nat n)).
Proof.
  unfold increasing. constructor.
  - generalize 1. induction n as [|n IH]; intros z; [constructor|].
    rewrite seqZ_cons by lia. replace (Z.pred (Z.of_nat (S n))) with (Z.of_nat n) by lia.
    constructor; [apply IH|]. apply Forall_forall. intros x Hx%elem_of_seqZ. lia.
  - apply Forall_forall. intros x Hx%elem_of_seqZ. lia.
Qed.

Lemma last_default {A} (d : A) l x : last l = Some x → List.last l d = x.
Proof.
  revert d. induction l as [|y [|z l] IH]; intros d H; [done|by simplify_eq/=|].
  rewrite last_cons_default. by apply IH.
Qed.

Lemma last_seqZ n : (0 < n)%nat → last (seqZ 1 (Z.of_nat n)) = Some (Z.of_nat n).
Proof.
  intros Hn. rewrite last_lookup, length_seqZ, Nat2Z.id. rewrite lookup_seqZ_lt by lia.
  f_equal. lia.
Qed.

Section EndToEnd.
Context `{P : Profile}.

(** The socket of a receiver when the buffers [kept] have arrived. *)
Definition delivered (fd : Z) (kept : list Buf) (outs : list Outgoing) (sent : list Buf) : BoxStream :=
  BUdp (mkUdpSocket (mkSock fd (map (λ b, InBytes (bytes_sent b)) kept) outs sent)).

Lemma room_le n n' k q d : n ≤ n' → room n' k q d → room n k q d.
Proof.
  unfold room. intros Hn (H1 & H2 & H3). split_and!; [done| |done].
  eapply Forall_impl; [exact H2|]. simpl. lia.
Qed.

Lemma sum_sizes_le kps : sumZ (map size kps) ≤ 131072 * Z.of_nat (length kps).
Proof.
  induction kps as [|kp kps IH]; [done|]. cbn [map sumZ length].
  assert (size kp ≤ 131072).
  { unfold size. rewrite length_take, Nat2Z.inj_min, Z2Nat.id by done. apply Z.le_min_l. }
  lia.
Qed.

(** What a receiver reports when it is given a part of what was sent, in
    order and with the last datagram. *)
Lemma kept_interval bs kept verbose debug q d m buf w fd outs sent d0 :
  numbered 0 bs → Z.of_nat (length bs) < 2 ^ 64 → Forall (λ b, 8 ≤ b_len b) bs →
  kept `sublist_of` bs → kept ≠ [] → last kept = last bs →
  ps_stream q = delivered fd kept outs sent →
  sd_blks (ps_temp q) = 0 → ps_first_recvd q = 0 →
  room (131072 * Z.of_nat (length kept)) (Z.of_nat (length kept)) q d →
  quiet w (tm_curr (ps_timers q)) →
  ∃ q' d' m' w',
    recv_loop (recv_fuel q) UDP verbose debug q d m buf w = Done ((q', d', m'), w') ∧
    interval_data q' d0
    = Done (with_lost (Z.of_nat (length bs) - Z.of_nat (length kept)) d0,
            with_ps_first_recvd (Z.of_nat (length bs)) q').
Proof.
  intros Hnum Hlen H8 Hsub Hne Hlast Hq Hz Hf Hr Hw.
  destruct (numbered_datagrams bs Hnum Hlen H8) as [Hd Hk].
  assert (map fst (map parts kept) `sublist_of` seqZ 1 (Z.of_nat (length bs))) as Hsubk.
  { rewrite <- Hk. clear -Hsub. induction Hsub; cbn [map]; by constructor. }
  assert (increasing 0 (map fst (map parts kept))) as Hinc.
  { pose proof (seqZ_increasing (length bs)) as Hs. eapply sublist_StronglySorted; [|exact Hs].
    by constructor. }
  assert (List.last (map fst (map parts kept)) 0 = Z.of_nat (length bs)) as Hl.
  { apply last_default. rewrite map_map. change (map ?f ?l) with (f <$> l).
    rewrite fmap_last, Hlast, <- fmap_last.
    change (?f <$> bs) with (map f bs). rewrite <- map_map, Hk. apply last_seqZ.
    destruct bs; [|simpl; lia]. inversion Hsub; subst. done. }
  edestruct (udp_interval (map parts kept) verbose debug q d m buf w fd outs sent d0)
    as (q' & d' & m' & w' & H1 & H2); rewrite ?Hf, ?length_map; try done.
  - rewrite Hq. unfold delivered, arriving. do 3 f_equal. rewrite map_map.
    apply map_ext_Forall. eapply sublist_Forall; [exact Hsub|].
    eapply Forall_impl; [exact Hd|]. intros b Hb. simpl. by rewrite Hb.
  - apply (Forall_fmap fst (fits 64)).
    eapply Forall_impl; [eapply sublist_Forall; [exact Hsubk|]|].
    + apply Forall_seqZ. intros x Hx. exact Hx.
    + simpl. unfold fits. lia.
  - by destruct kept.
  - eapply room_le; [apply sum_sizes_le|]. by rewrite length_map.
  - exists q', d', m', w'. split; [exact H1|]. rewrite H2. clear H1 H2.
    rewrite Hf, Hl. do 3 f_equal. pose proof (length_missing _ _ Hinc) as Hm.
    rewrite Hl, !length_map in Hm. lia.
Qed.

(** C14: what the send loop of a UDP test puts on a fresh stream, less what
    the network drops, given to a receiver: as long as order is kept and the
    last datagram arrives (all within a second), the interval reports as lost
    exactly the number of the datagrams that were dropped. *)
Theorem udp_loss_end_to_end fuel t w t' e w' i p u :
  conn t = UDP → send fuel t w = Done ((t', e), w') →
  test_streams t !! i = Some p → ps_stream p = BUdp u → sd_blks (ps_data p) = 0 →
  ∃ p' u' out, test_streams t' !! i = Some p' ∧ ps_stream p' = BUdp u' ∧
    sk_sent (u_sock u') = sk_sent (u_sock u) ++ out ∧
    let bs := nonempty out in
    ∀ kept verbose debug q d m buf w1 fd outs sent d0,
      Z.of_nat (length bs) < 2 ^ 64 → Forall (λ b, 8 ≤ b_len b) bs →
      kept `sublist_of` bs → kept ≠ [] → last kept = last bs →
      ps_stream q = delivered fd kept outs sent →
      sd_blks (ps_temp q) = 0 → ps_first_recvd q = 0 →
      room (131072 * Z.of_nat (length kept)) (Z.of_nat (length kept)) q d →
      quiet w1 (tm_curr (ps_timers q)) →
      ∃ q' d' m' w2,
        recv_loop (recv_fuel q) UDP verbose debug q d m buf w1 = Done ((q', d', m'), w2) ∧
        interval_data q' d0
        = Done (with_lost (Z.of_nat (length bs) - Z.of_nat (length kept)) d0,
                with_ps_first_recvd (Z.of_nat (length bs)) q').
Proof.
  intros Hu H Hp Hs Hz. apply send_numbers in H; [|done].
  eapply Forall2_lookup_l in H as (p' & Hp' & Hsent); [|exact Hp].
  destruct (Hsent u Hs) as (u' & out & Hs' & Ho & Hn & _). rewrite Hz in Hn.
  exists p', u', out. split_and!; [done..|]. intros bs. intros. by eapply kept_interval.
Qed.
End EndToEnd.
