(* ===== verification/ByteEnd.v ===== *)
(** * Bytes from end to end

    On TCP, TLS and UDP a client counts the bytes its sockets take, a server
    the bytes its sockets deliver: over any number of rounds of either loop,
    what the client counts is counted by the server, still in its sockets, or
    lost on the way, however the network cuts it. *)
From stdpp Require Import relations.
From S2P Require Import Prelude F64 Env Kinds Tcp Net Udp Tls Quic Metrics Report PerfStream TestCore.
From S2P Require Import Node Counters Server Client.

(** ** What a stream has sent and has to deliver *)

Definition outbox (b : BoxStream) : list Buf :=
  match b with
  | BTcp t => sk_sent (t_sock t)
  | BUdp u => sk_sent (u_sock u)
  | BTls e => sk_sent (ts_plain (te_conn (entity e)))
  | _ => []
  end.

Definition sent_len (b : BoxStream) : Z := sumZ (map b_len (outbox b)).

(** A read of a datagram drops what does not fit the buffer. *)
Definition incoming_len (i : Incoming) : Z :=
  match i with InBytes bs => Z.of_nat (length bs) | InErr _ => 0 end.
Definition in_len (l : list Incoming) : Z := sumZ (map incoming_len l).
Definition in_len_udp (l : list Incoming) : Z := sumZ (map (λ i, Z.min 131072 (incoming_len i)) l).

Definition pending_len (b : BoxStream) : Z :=
  match b with
  | BTcp t => in_len (sk_in (t_sock t))
  | BUdp u => in_len_udp (sk_in (u_sock u))
  | BTls e => in_len (sk_in (ts_plain (te_conn (entity e))))
  | _ => 0
  end.

Definition total (f : BoxStream → Z) (ps : list PerfStream) : Z :=
  sumZ (map (λ p, f (ps_stream p)) ps).
Definition test_sent (t : Test) : Z := total sent_len (test_streams t).
Definition test_pending (t : Test) : Z := total pending_len (test_streams t).

Lemma sent_len_strip b : sent_len (strip b) = sent_len b.
Proof. by destruct b as [| | |[[] ?]|]. Qed.
Lemma pending_len_strip b : pending_len (strip b) = pending_len b.
Proof. by destruct b as [| | |[[] ?]|]. Qed.

Lemma total_insert f ps i p p' :
  ps !! i = Some p →
  total f (<[i:=p']> ps) = total f ps - f (ps_stream p) + f (ps_stream p').
Proof.
  unfold total. revert i. induction ps as [|q ps IH]; intros [|i] Hi; simplify_eq/=; [lia|].
  rewrite IH by done. lia.
Qed.

(** ** Single calls *)

Lemma sock_write_len b s r s' :
  sock_write b s = (r, s') →
  sumZ (map b_len (sk_sent s')) = sumZ (map b_len (sk_sent s)) + match r with IoOk n => n | IoErr _ => 0 end.
Proof.
  intros H. apply sock_write_sent in H as (bs & -> & H). autorewrite with sums.
  destruct r as [n|e]; [|subst; simpl; lia]. destruct H as (b' & -> & <- & _). simpl. lia.
Qed.

Lemma sock_read_len n s r s' :
  sock_read n s = (r, s') →
  in_len (sk_in s) = in_len (sk_in s') + match r with IoOk bs => Z.of_nat (length bs) | IoErr _ => 0 end.
Proof.
  unfold sock_read, in_len. intros H. repeat case_match; simplify_eq/=; try lia.
  all: rewrite ?length_take, ?length_drop; try match goal with H : _ = [] |- _ => rewrite H end;
    simpl; lia.
Qed.

Lemma sock_recv_len s r s' :
  sock_recv (Z.to_nat 131072) s = (r, s') →
  in_len_udp (sk_in s) = in_len_udp (sk_in s') +
    match r with IoOk bs => Z.of_nat (length bs) | IoErr _ => 0 end.
Proof.
  unfold sock_recv, in_len_udp.
  assert (Z.of_nat (Z.to_nat 131072) = 131072) as Hn by lia. revert Hn.
  generalize (Z.to_nat 131072). intros n Hn H. repeat case_match; simplify_eq/=; try lia.
  all: rewrite ?length_take; try match goal with H : _ = [] |- _ => rewrite H end; simpl; lia.
Qed.

(** How much a result carries. *)
Definition amount (r : io_result Z) : Z := match r with IoOk n => n | IoErr _ => 0 end.
Definition read_amount (r : io_result (list Z)) : Z :=
  match r with IoOk bs => Z.of_nat (length bs) | IoErr _ => 0 end.

Lemma box_write_len b d w r b' w' :
  (∀ q, b ≠ BQuic q) → stream_write b d w = Done ((r, b'), w') →
  sent_len b' = sent_len b + amount r.
Proof.
  intros Hq H. destruct b as [t|u|q|e|y]; cbn in H; unfold boxed in H; mrun H; [..|by destruct (Hq q)| |].
  - unfold TcpStream_write in *. destruct (sock_write _ _) eqn:E. unfold ret in *. simplify_eq.
    by apply sock_write_len in E.
  - unfold UdpSocket_write in *. destruct (sock_write _ _) eqn:E. unfold ret in *. simplify_eq.
    by apply sock_write_len in E.
  - unfold TlsEndpoint_write in *. destruct (entity e) eqn:Ee; unfold ret in *; simplify_eq.
    + simpl. lia.
    + destruct (sock_write _ _) eqn:E. simplify_eq. apply sock_write_len in E.
      unfold sent_len. simpl. by rewrite Ee.
  - unfold ret in *. simplify_eq. simpl. lia.
Qed.

Lemma box_read_len b w r b' w' :
  (∀ q, b ≠ BQuic q) → stream_read b (Z.to_nat 131072) w = Done ((r, b'), w') →
  pending_len b = pending_len b' + read_amount r.
Proof.
  intros Hq H. destruct b as [t|u|q|e|y]; cbn in H; unfold boxed in H; mrun H; [..|by destruct (Hq q)| |].
  - unfold TcpStream_read in *. destruct (sock_read _ _) eqn:E. unfold ret in *. simplify_eq.
    by apply sock_read_len in E.
  - unfold UdpSocket_read in *. destruct (sock_recv _ _) eqn:E. unfold ret in *. simplify_eq.
    by apply sock_recv_len in E.
  - unfold TlsEndpoint_read in *. destruct (entity e) eqn:Ee; unfold ret in *; simplify_eq.
    + destruct (sock_read _ _) eqn:E. simplify_eq. apply sock_read_len in E.
      unfold pending_len. simpl. by rewrite Ee.
    + simpl. lia.
  - unfold ret in *. simplify_eq. simpl. lia.
Qed.

Lemma boxed_Done {A T} (f : T → BoxStream) (m : M World (A * T)) w r t w' :
  m w = Done ((r, t), w') → boxed f m w = Done ((r, f t), w').
Proof. intros H. unfold boxed, bindM. by rewrite H. Qed.

Section Calls.
Context `{P : Profile}.

Lemma write_block_len sp p buf w r p' buf' w' :
  write_block sp p buf w = Done ((r, p', buf'), w') → sp_conn sp ≠ QUIC →
  sent_len (ps_stream p') = sent_len (ps_stream p) + amount r.
Proof.
  unfold write_block. intros H Hc. destruct (sp_conn sp); [| |done|]; mrun H;
    unfold as_TcpStream, as_UdpSocket, as_TlsEndpoint in *;
    destruct (ps_stream p); simplify_eq; cbn [ps_stream with_ps_stream];
    match goal with H : stream_write _ _ _ = Done _ |- sent_len (?f _) = _ =>
      apply (boxed_Done f) in H; by apply (box_write_len (f _)) in H end.
Qed.

Lemma read_block_len c p buf w r p' buf' w' :
  read_block c p buf w = Done ((r, p', buf'), w') → c ≠ QUIC →
  pending_len (ps_stream p) = pending_len (ps_stream p') + amount r.
Proof.
  unfold read_block. intros H Hc. destruct c; [| |done|]; mrun H;
    unfold as_TcpStream, as_UdpSocket, as_TlsEndpoint in *;
    destruct (ps_stream p); simplify_eq; cbn [ps_stream with_ps_stream];
    match goal with H : stream_read _ _ _ = Done ((?r, _), _) |- _ = pending_len (?f _) + _ =>
      apply (boxed_Done f) in H; apply (box_read_len (f _)) in H; [|done]; rewrite H;
      by destruct r end.
Qed.

Lemma push_stat_outbox debug p w p' w' :
  push_stat debug p w = Done (p', w') →
  sent_len (ps_stream p') = sent_len (ps_stream p) ∧
  pending_len (ps_stream p') = pending_len (ps_stream p).
Proof.
  intros H. apply push_stat_strip in H.
  by rewrite <- !(sent_len_strip (ps_stream _)), <- !(pending_len_strip (ps_stream _)), H.
Qed.

Lemma maybe_push_pending (b : bool) debug p w p' w' :
  (if b then push_stat debug p else ret p) w = Done (p', w') →
  pending_len (ps_stream p') = pending_len (ps_stream p).
Proof. destruct b; [by intros [_ H]%push_stat_outbox|]. intros H. by mrun H. Qed.

Lemma count_block_stream_data n p d p' d' :
  count_block n p d = Done (p', d') →
  cong (sd_bytes d') (sd_bytes d + n) ∧ ps_stream p' = ps_stream p.
Proof.
  intros H. pose proof (count_block_stream _ _ _ _ _ H) as [? _].
  by apply count_block_spec in H as (_ & _ & ? & _).
Qed.

(** ** Rounds *)

Lemma recv_loop_len fuel c verbose debug p d m buf w p' d' m' w' :
  c ≠ QUIC → recv_loop fuel c verbose debug p d m buf w = Done ((p', d', m'), w') →
  cong (sd_bytes d' + pending_len (ps_stream p')) (sd_bytes d + pending_len (ps_stream p)).
Proof.
  intros Hc. revert p d m buf w. induction fuel as [|fuel IH]; intros p d m buf w H; [done|].
  cbn [recv_loop] in H. mrun H.
  match goal with H : read_block _ _ _ _ = _ |- _ => apply read_block_len in H as Hl; [|done] end.
  rewrite Hl. match type of H with (match ?r with _ => _ end) _ = _ => destruct r as [n|e] end; cbn [amount].
  2:{ mrun H. by rewrite Z.add_0_r. }
  destruct (Z.eqb_spec n 0) as [->|]; [mrun H; by rewrite Z.add_0_r|]. mrun H.
  match goal with H : count_block _ _ _ = _ |- _ => apply count_block_stream_data in H as [Hb Hs] end.
  apply IH in H. rewrite H, Hb.
  match goal with H : (if _ then _ else _) _ = Done _ |- _ => apply maybe_push_pending in H as -> end.
  cbn [ps_stream with_ps_last_recvd]. rewrite Hs. unfold cong. f_equal. lia.
Qed.

Lemma send_one_len sp p s w p' s' b w' :
  sp_conn sp ≠ QUIC → send_one sp p s w = Done ((p', s', b), w') →
  cong (sd_bytes (ss_data s') + sent_len (ps_stream p)) (sd_bytes (ss_data s) + sent_len (ps_stream p')).
Proof.
  intros Hc. unfold send_one. intros H. mrun H.
  match type of H with (if ?b then _ else _) _ = _ => destruct b end; [by mrun H|].
  mrun H. match goal with H : write_block _ _ _ _ = _ |- _ => apply write_block_len in H as Hl; [|done] end.
  match type of H with (match ?r with _ => _ end) _ = _ => destruct r as [n|e] end; cbn [amount] in Hl.
  2:{ mrun H. cbn. by rewrite Hl, Z.add_0_r. }
  destruct (Z.eqb_spec n 0) as [->|]; [mrun H; cbn; by rewrite Hl, Z.add_0_r|]. mrun H.
  match goal with H : count_block _ _ _ = _ |- _ => apply count_block_stream_data in H as [Hb Hs] end.
  cbn [ss_data] in Hb.
  match type of H with (if ?b then _ else _) _ = _ => destruct b end; mrun H; cbn [ss_data].
  - match goal with H : push_stat _ _ _ = _ |- _ => apply push_stat_outbox in H as [Hp _] end.
    rewrite Hp, Hs, Hb, Hl. unfold cong. f_equal. lia.
  - rewrite Hs, Hb, Hl. unfold cong. f_equal. lia.
Qed.

Lemma send_streams_len sp ps s w ps' s' w' :
  sp_conn sp ≠ QUIC → send_streams sp ps s w = Done ((ps', s'), w') →
  cong (sd_bytes (ss_data s') + total sent_len ps) (sd_bytes (ss_data s) + total sent_len ps').
Proof.
  intros Hc. revert s w ps'. induction ps as [|p ps IH]; intros s w ps' H; cbn [send_streams] in H.
  { by mrun H. }
  mrun H. match goal with H : send_one _ _ _ _ = Done ((_, _, ?b), _) |- _ =>
    apply send_one_len in H as H1; [|done]; destruct b end; mrun H.
  - unfold total. cbn [map sumZ]. fold (total sent_len ps). rewrite !Z.add_assoc. by rewrite H1.
  - match goal with H : send_streams _ _ _ _ = _ |- _ => apply IH in H as HI end.
    unfold total in *. cbn [map sumZ]. rewrite !Z.add_assoc, <- H1.
    rewrite <- !Z.add_assoc, !(Z.add_comm (sent_len _)), !Z.add_assoc. by rewrite HI.
Qed.

Lemma send_loop_len fuel sp ps s w ps' s' w' :
  sp_conn sp ≠ QUIC → send_loop fuel sp ps s w = Done ((ps', s'), w') →
  cong (sd_bytes (ss_data s') + total sent_len ps) (sd_bytes (ss_data s) + total sent_len ps').
Proof.
  intros Hc. revert ps s w. induction fuel as [|fuel IH]; intros ps s w H; cbn [send_loop] in H;
    destruct (ss_try_later s); try (by mrun H). mrun H.
  match goal with H : send_streams _ _ _ _ = _ |- _ => apply send_streams_len in H as H1; [|done] end.
  apply IH in H. eapply (cong_add _ _ _ _ H) in H1. clear -H1. revert H1.
  match goal with |- cong (?a + ?b + (?c + ?d)) (?c + ?e + (?f + ?b)) → _ =>
    generalize a b c d e f end.
  clear. unfold cong. intros a b c d e f H.
  replace (a + d) with (a + b + (c + d) - (b + c)) by lia.
  replace (f + e) with (c + e + (f + b) - (b + c)) by lia.
  by rewrite Zminus_mod, H, <- Zminus_mod.
Qed.

(** One event of the client, one of the server, while the data flows. *)
Definition sends (t t' : Test) : Prop := ∃ fuel w e w', send fuel t w = Done ((t', e), w').
Definition receives (t t' : Test) : Prop := ∃ i w w', receive t i w = Done (t', w').

Lemma sends_len t t' :
  conn t ≠ QUIC → sends t t' → conn t' = conn t ∧
  cong (sd_bytes (test_data t') + test_sent t) (sd_bytes (test_data t) + test_sent t').
Proof.
  intros Hc (fuel & w & e & w' & H). unfold send in H. mrun H. split; [done|].
  match goal with H : send_loop _ _ _ _ _ = _ |- _ => by apply send_loop_len in H end.
Qed.

Lemma receives_len t t' :
  conn t ≠ QUIC → receives t t' → conn t' = conn t ∧
  cong (sd_bytes (test_data t') + test_pending t') (sd_bytes (test_data t) + test_pending t).
Proof.
  intros Hc (i & w & w' & H). unfold receive in H. mrun H. split; [done|].
  match goal with H : unwrap ?o = Done ?q |- _ =>
    destruct o as [q'|] eqn:Hi; [injection H as ->|done] end.
  match goal with H : recv_loop _ _ _ _ _ _ _ _ _ = _ |- _ => apply recv_loop_len in H as Hl; [|done] end.
  unfold test_pending. cbn [test_data test_streams with_test_data with_test_metrics with_test_streams].
  rewrite (total_insert _ _ _ _ _ Hi). revert Hl.
  match goal with |- cong (?a + ?b) (?c + ?d) → cong (?a + (?e - ?d + ?b)) (?c + ?e) =>
    generalize a b c d e end.
  clear. intros a b c d e H. replace (a + (e - d + b)) with (a + b + (e - d)) by lia.
  replace (c + e) with (c + d + (e - d)) by lia. by rewrite H.
Qed.

Lemma rtc_len (R : Test → Test → Prop) (f : Test → Z) :
  (∀ t t', conn t ≠ QUIC → R t t' → conn t' = conn t ∧ cong (f t') (f t)) →
  ∀ t t', rtc R t t' → conn t ≠ QUIC → cong (f t') (f t).
Proof.
  intros HR t t' H. induction H as [t|t1 t2 t3 H1 H IH]; intros Hc; [done|].
  destruct (HR t1 t2 Hc H1) as [Hc2 H12]. rewrite <- H12. apply IH. congruence.
Qed.

(** C9: over any number of events on either side, on TCP, TLS and UDP: if what
    the server's sockets have to deliver is what the client's sockets took in
    these events, less [lost] bytes, then the bytes that the client has counted
    are those that the server has counted, those still in its sockets and those
    lost, up to the counters' width; nothing is assumed about how the network
    cuts or orders them. *)
Theorem bytes_end_to_end tc tc' ts ts' lost :
  conn tc ≠ QUIC → conn ts ≠ QUIC →
  sd_bytes (test_data tc) = 0 → sd_bytes (test_data ts) = 0 →
  rtc sends tc tc' → rtc receives ts ts' →
  test_sent tc' - test_sent tc = test_pending ts + lost →
  cong (sd_bytes (test_data tc')) (sd_bytes (test_data ts') + test_pending ts' + lost).
Proof.
  intros Hc Hs Hc0 Hs0 Hsend Hrecv Hnet.
  apply (rtc_len _ (λ t, sd_bytes (test_data t) - test_sent t)) in Hsend; [|clear|done].
  2:{ intros t t' Hq H. destruct (sends_len t t' Hq H) as [-> H']. split; [done|]. revert H'.
      unfold cong. intros H'. replace (sd_bytes (test_data t') - test_sent t') with
        (sd_bytes (test_data t') + test_sent t - (test_sent t + test_sent t')) by lia.
      rewrite Zminus_mod, H', <- Zminus_mod. f_equal. lia. }
  apply (rtc_len _ (λ t, sd_bytes (test_data t) + test_pending t)) in Hrecv; [|apply receives_len|done].
  rewrite Hc0, Hs0 in *. rewrite Hrecv. cbv beta in *. rewrite Z.add_0_l, <- Hnet.
  replace (sd_bytes (test_data tc')) with (sd_bytes (test_data tc') - test_sent tc' + test_sent tc') by lia.
  rewrite Hsend. unfold cong. f_equal. lia.
Qed.
End Calls.
