(* ===== verification/ClientLimits.v ===== *)
(** * The limits of a test and the send loop

    The loop looks at the limits on bytes and blocks after every block, but
    only the clock or a refused write ends it. *)
From S2P Require Import Prelude F64 Env Kinds Tcp Net Udp Tls Quic Metrics Report PerfStream TestCore.
From S2P Require Import Node Counters Client ClientFacts ClientSend.

(** A TCP stream whose coming writes are all accepted, at least in part. *)
Definition willing (o : Outgoing) : Prop :=
  match o with OutAccept room => 0 < room | OutErr _ => False end.
Definition eager (p : PerfStream) : Prop :=
  ∃ t, ps_stream p = BTcp t ∧ Forall willing (sk_out (t_sock t)).

Section Limits.
Context `{P : Profile}.

Lemma eager_strip p p' : strip (ps_stream p') = strip (ps_stream p) → eager p → eager p'.
Proof.
  intros Hs (t & Ht & Hw). rewrite Ht in Hs.
  destruct (ps_stream p') as [t'| |?|?|] eqn:E; simplify_eq/=. exists t'. split; [done|].
  by replace (t_sock t') with (t_sock t) by congruence.
Qed.

(** One write to an eager stream. *)
Lemma write_block_eager sp p buf w r p' buf' w' :
  sp_conn sp = TCP → 0 < sp_len sp → eager p →
  write_block sp p buf w = Done ((r, p', buf'), w') →
  eager p' ∧
  match r with
  | IoOk n => n ≠ 0 ∧ writes_left (ps_stream p) = S (writes_left (ps_stream p'))
  | IoErr _ => writes_left (ps_stream p) = O ∧ writes_left (ps_stream p') = O
  end.
Proof.
  unfold write_block. intros -> Hl (t & Ht & Hw) H. rewrite Ht in H |- *. mrun H.
  match goal with H : buf_slice_to _ _ = Done ?b |- _ =>
    apply buf_slice_to_Done in H as (_ & Hbl & _) end.
  simplify_eq/=. unfold TcpStream_write, ret in *.
  destruct (sock_write _ _) as [r0 s0] eqn:E. simplify_eq/=.
  unfold sock_write in E. destruct (sk_out (t_sock _)) as [|o outs] eqn:Eo.
  - simplify_eq/=. split; [|by rewrite Eo]. eexists. split; [done|]. simpl. by rewrite Eo.
  - inversion Hw as [|? ? Ho Hr]; subst. destruct o as [room|]; [|done]. simplify_eq/=.
    split; [by eexists|]. split; [lia|done].
Qed.

(** One turn of the loop over an eager stream: the write is refused and the
    loop is to end, or a block is counted and only the clock can end it. *)
Lemma send_one_eager sp p s w p' s' b w' :
  sp_conn sp = TCP → sp_bitrate sp = 0 → 0 < sp_len sp → eager p → ss_try_later s = false →
  send_one sp p s w = Done ((p', s', b), w') →
  eager p' ∧
  (writes_left (ps_stream p) = writes_left (ps_stream p') ∧ writes_left (ps_stream p') = O ∧
     b = true ∧ ss_try_later s' = true ∧ ss_data s' = ss_data s
   ∨ writes_left (ps_stream p) = S (writes_left (ps_stream p')) ∧ b = false ∧
     cong (sd_blks (ss_data s')) (sd_blks (ss_data s) + 1) ∧
     (ss_try_later s' = true → sp_time sp < ss_elapsed s')).
Proof.
  unfold send_one. intros Hc Hz Hl He Hs H. mrun H. rewrite throttled_unpaced in * by done.
  simplify_eq. mrun H.
  match goal with H : write_block _ _ _ _ = _ |- _ => apply write_block_eager in H as [He' Hr]; [|done..] end.
  match type of H with (match ?r with _ => _ end) _ = _ => destruct r as [n|e] end.
  2:{ mrun H. split; [done|left]. by destruct Hr as [-> ->]. }
  destruct Hr as [Hn Hr]. rewrite (proj2 (Z.eqb_neq n 0)) in H by done. mrun H.
  match goal with H : count_block _ _ _ = Done (?q, _) |- _ =>
    rename q into p2; pose proof (count_block_stream _ _ _ _ _ H) as [Es _];
    apply count_block_spec in H as (_ & _ & _ & Hk & _) end.
  match type of H with (if ?b then _ else _) _ = _ => destruct b end; mrun H.
  - match goal with H : push_stat _ _ _ = _ |- _ => apply push_stat_strip in H as Hp end.
    split.
    + eapply eager_strip; [exact Hp|]. destruct He' as (t' & Et & Ht). exists t'. by rewrite Es.
    + right. rewrite <- writes_left_strip with (b := ps_stream p'), Hp, writes_left_strip, Es.
      split_and!; [done..|]. simpl. rewrite Hs. simpl. by intros ?%Z.ltb_lt.
  - split; [destruct He' as (t' & Et & Ht); exists t'; by rewrite Es|].
    right. rewrite Es. split_and!; [done..|]. simpl. by rewrite Hs.
Qed.

Lemma send_loop_eager fuel sp p s w ps' s' w' :
  sp_conn sp = TCP → sp_bitrate sp = 0 → 0 < sp_len sp → eager p → ss_try_later s = false →
  send_loop fuel sp [p] s w = Done ((ps', s'), w') →
  ∃ p', ps' = [p'] ∧ (writes_left (ps_stream p') = O ∨ sp_time sp < ss_elapsed s') ∧
    cong (sd_blks (ss_data s'))
      (sd_blks (ss_data s) + Z.of_nat (writes_left (ps_stream p) - writes_left (ps_stream p'))) ∧
    (writes_left (ps_stream p') ≤ writes_left (ps_stream p))%nat.
Proof.
  intros Hc Hz Hl. revert p s w. induction fuel as [|fuel IH]; intros p s w He Hs H;
    cbn [send_loop] in H; rewrite Hs in H; [mrun H|].
  mrun H. cbn [send_streams] in *.
  match goal with H : bindM (send_one _ _ _) _ _ = _ |- _ => mrun H end.
  match goal with H1 : send_one _ _ _ _ = Done ((?q, ?s2, ?b), _) |- _ =>
    rename q into p1, s2 into s1; apply send_one_eager in H1
      as [He1 [(E1 & E2 & -> & Hlat & Hd)|(E1 & -> & Hd & Hlat)]]; [| |done..] end.
  - match goal with H : ret _ _ = _ |- _ => mrun H end.
    destruct fuel; cbn [send_loop] in H; rewrite Hlat in H; mrun H; exists p1;
      rewrite E1, Nat.sub_diag, Z.add_0_r, Hd; (split_and!; [done|by left|reflexivity|done]).
  - match goal with H : bindM (ret _) _ _ = _ |- _ => mrun H end.
    match type of Hlat with ss_try_later ?x = true → _ => set (s2 := x) in * end.
    destruct (ss_try_later s2) eqn:Hl1.
    + destruct fuel; cbn [send_loop] in H; rewrite Hl1 in H; mrun H; exists p1;
        (split_and!; [done|by right; apply Hlat| |lia]); rewrite Hd, E1;
        unfold cong; do 2 f_equal; lia.
    + apply IH in H as (p' & -> & H1 & H2 & H3); [|done..]. exists p'.
      split_and!; [done..| |lia]. rewrite H2, Hd, E1. unfold cong. f_equal. lia.
Qed.

(** C17: a limit on bytes or blocks does not stop the send loop: without a
    target bitrate and on one TCP stream, a loop that ends before the time is
    up has made every write the socket takes, and the test has counted them
    all, whatever the limits. *)
Theorem limits_do_not_stop fuel t p w t' e w' :
  conn t = TCP → bitrate t = 0 → 0 < test_length t → test_streams t = [p] → eager p →
  send fuel t w = Done ((t', e), w') → e ≤ time t →
  ∃ p', test_streams t' = [p'] ∧ writes_left (ps_stream p') = O ∧
    cong (sd_blks (test_data t'))
      (sd_blks (test_data t) + Z.of_nat (writes_left (ps_stream p))).
Proof.
  intros Hc Hz Hl Hp He H Ht. unfold send in H. mrun H. rewrite Hp in *.
  match goal with H : send_loop _ _ _ _ _ = _ |- _ => apply send_loop_eager in H
    as (p' & -> & Hend & Hk & _); [|done..] end.
  exists p'. split; [done|]. destruct Hend as [E|E]; [|simpl in E; lia].
  split; [done|]. rewrite E, Nat.sub_0_r in Hk. exact Hk.
Qed.
End Limits.
