(* ===== verification/ClientTotal.v ===== *)
(** * The client's runs end

    Without a target bitrate, a client whose sends get more fuel than its
    sockets will accept writes, over its whole life, never runs out of it. *)
From S2P Require Import Prelude F64 Env Kinds Tcp Net Udp Tls Quic Metrics Report PerfStream TestCore.
From S2P Require Import Node Counters Total ServerTotal Client ClientFacts ClientSend.

(** ** Capacity: the writes that will be accepted, now or later *)

Definition uni_writes (l : list (option SendStream)) : nat :=
  foldr (λ o n, (match o with Some s => length (ss_out s) | None => 0 end) + n)%nat O l.

Definition conn_writes (c : option Connection) : nat :=
  match c with Some c => uni_writes (cn_open_uni c) | None => O end.

Definition capacity (b : BoxStream) : nat :=
  (writes_left b + match b with BQuic q => conn_writes (q_conn q) | _ => O end)%nat.

Definition streams_capacity (ps : list PerfStream) : nat :=
  foldr (λ p n, capacity (ps_stream p) + n)%nat O ps.

Definition tcp_writes (t : TcpStream) : nat := length (sk_out (t_sock t)).
Definition attempts_capacity (l : list Attempt) : nat :=
  foldr (λ a n, tcp_writes (at_stream a) + n)%nat O l.

Definition supply_capacity (k : ClientSupply) : nat :=
  (foldr (λ l n, attempts_capacity l + n) O (cs_tcp k)
   + foldr (λ u n, length (sk_out (u_sock u)) + n) O (cs_udp k)
   + foldr (λ x n, conn_writes (snd x) + n) O (cs_quic k)
   + foldr (λ x n, length (sk_out (ts_plain (fst x))) + n) O (cs_tls k))%nat.

Definition node_capacity (s : Node ClientImpl) : nat :=
  (streams_capacity (test_streams (n_test s)) + supply_capacity (c_supply (n_impl s)))%nat.

Lemma capacity_strip b : capacity (strip b) = capacity b.
Proof. by destruct b as [| | |[[] ?]|]. Qed.

Lemma writes_capacity ps : (total_writes ps ≤ streams_capacity ps)%nat.
Proof. induction ps as [|p ps IH]; simpl; [done|]. unfold capacity. lia. Qed.

Lemma streams_capacity_app ps qs :
  streams_capacity (ps ++ qs) = (streams_capacity ps + streams_capacity qs)%nat.
Proof. induction ps as [|p ps IH]; simpl; lia. Qed.

Definition no_more (p q : PerfStream) : Prop := (capacity (ps_stream q) ≤ capacity (ps_stream p))%nat.

#[export] Instance no_more_preorder : PreOrder no_more.
Proof. split; unfold no_more; [intros p; lia|intros p q r; lia]. Qed.

Lemma no_more_streams ps qs : Forall2 no_more ps qs → (streams_capacity qs ≤ streams_capacity ps)%nat.
Proof.
  unfold streams_capacity, no_more. induction 1 as [|p q ps qs Hp _ IH]; simpl; [done|]. lia.
Qed.

(** ** Writes use it up *)

Lemma sock_write_out b s r s' : sock_write b s = (r, s') → (length (sk_out s') ≤ length (sk_out s))%nat.
Proof.
  unfold sock_write. intros H. repeat case_match; simplify_eq/=; [|lia..].
  by match goal with H : sk_out _ = [] |- _ => rewrite H end.
Qed.

Lemma box_write_capacity b d w r b' w' :
  stream_write b d w = Done ((r, b'), w') → (capacity b' ≤ capacity b)%nat.
Proof.
  intros H. destruct b as [t|u|q|e|y]; cbn in H; unfold boxed in H; mrun H.
  - unfold TcpStream_write in *. destruct (sock_write _ _) eqn:E. unfold ret in *. simplify_eq.
    apply sock_write_out in E. unfold capacity. simpl. lia.
  - unfold UdpSocket_write in *. destruct (sock_write _ _) eqn:E. unfold ret in *. simplify_eq.
    apply sock_write_out in E. unfold capacity. simpl. lia.
  - unfold ret in *. by simplify_eq.
  - unfold TlsEndpoint_write in *. destruct (entity e) eqn:Ee; unfold ret in *; simplify_eq; [done|].
    destruct (sock_write _ _) eqn:E. simplify_eq. apply sock_write_out in E.
    unfold capacity. simpl. rewrite Ee. simpl. lia.
  - unfold ret in *. by simplify_eq.
Qed.

Lemma capacity_boxed {T} `{Stream T} (f : T → BoxStream) t d w r t' w' :
  (∀ x n w, stream_write (f x) n w = boxed f (stream_write x n) w) →
  stream_write t d w = Done ((r, t'), w') → (capacity (f t') ≤ capacity (f t))%nat.
Proof.
  intros Hf Hw. eapply (box_write_capacity (f t) d w r (f t') w').
  rewrite Hf. unfold boxed, bindM. by rewrite Hw.
Qed.

Section Quic.
Context `{P : Profile}.

Lemma write_streams_capacity b l r l' :
  write_streams b l = Done (r, l') → (quic_writes l' ≤ quic_writes l)%nat.
Proof.
  revert r l'. induction l as [|s l IH]; intros r l' H; cbn [write_streams] in H; [by simplify_eq|].
  mrun H. match goal with H : send_write_chunk _ _ = Done (?r0, ?s1) |- _ =>
    assert (length (ss_out s1) ≤ length (ss_out s))%nat as Hs by
      (unfold send_write_chunk in H; repeat case_match; simplify_eq/=; lia); destruct r0 end; mrun H.
  - match goal with H : write_streams _ _ = _ |- _ => apply IH in H end. simplify_eq. simpl. lia.
  - simplify_eq. simpl. lia.
Qed.

Lemma write_cookie_streams_capacity b l r l' :
  write_cookie_streams b l = Done (r, l') → (quic_writes l' ≤ quic_writes l)%nat.
Proof.
  revert r l'. induction l as [|s l IH]; intros r l' H; cbn [write_cookie_streams] in H; [by simplify_eq|].
  mrun H. match goal with H : send_write _ _ = Done (?r0, ?s1) |- _ =>
    assert (length (ss_out s1) ≤ length (ss_out s))%nat as Hs by
      (unfold send_write in H; repeat case_match; simplify_eq/=; lia); destruct r0 end; mrun H.
  - match goal with H : write_cookie_streams _ _ = _ |- _ => apply IH in H end. simplify_eq. simpl. lia.
  - simplify_eq. simpl. lia.
Qed.

Lemma quic_write_capacity q b r q' :
  Quic.write q b = Done (r, q') → (capacity (BQuic q') ≤ capacity (BQuic q))%nat.
Proof.
  unfold Quic.write. intros H. mrun H. simplify_eq.
  match goal with H : write_streams _ _ = _ |- _ => apply write_streams_capacity in H end.
  unfold capacity. simpl. lia.
Qed.

Lemma write_cookie_capacity q b r q' :
  write_cookie q b = Done (r, q') → (capacity (BQuic q') ≤ capacity (BQuic q))%nat.
Proof.
  unfold write_cookie. intros H. mrun H. simplify_eq.
  match goal with H : write_cookie_streams _ _ = _ |- _ => apply write_cookie_streams_capacity in H end.
  unfold capacity. simpl. lia.
Qed.

Lemma quic_writes_app l k : quic_writes (l ++ k) = (quic_writes l + quic_writes k)%nat.
Proof. induction l; simpl; lia. Qed.

Lemma open_uni_capacity q q' :
  open_uni q = Done q' → capacity (BQuic q') = capacity (BQuic q).
Proof.
  unfold open_uni, unwrap. intros H. destruct (q_conn q) as [c|] eqn:Ec; [|done]. cbn in H.
  destruct (cn_open_uni c) as [|[s|] r] eqn:Eo; simplify_eq.
  unfold capacity. simpl. rewrite Ec, quic_writes_app. simpl. rewrite Eo. simpl. lia.
Qed.
End Quic.

(** ** The operations on a test's streams *)

Section Streams.
Context `{P : Profile} `{J : Serde} `{TR : Tracing}.

Lemma push_stat_capacity debug p w p' w' :
  push_stat debug p w = Done (p', w') → no_more p p'.
Proof.
  intros H. apply push_stat_strip in H. unfold no_more.
  by rewrite <- (capacity_strip (ps_stream p')), H, capacity_strip.
Qed.

Lemma write_block_capacity sp p buf w r p' buf' w' :
  write_block sp p buf w = Done ((r, p', buf'), w') → no_more p p'.
Proof.
  unfold write_block, no_more. intros H. destruct (sp_conn sp); mrun H;
    unfold as_TcpStream, as_UdpSocket, as_TlsEndpoint, as_Quic in *;
    destruct (ps_stream p); simplify_eq; cbn [ps_stream with_ps_stream];
    first [by eapply quic_write_capacity
          |by eapply (capacity_boxed BTcp)|by eapply (capacity_boxed BUdp)
          |by eapply (capacity_boxed BTls)].
Qed.

Lemma send_one_capacity sp p s w p' s' b w' :
  send_one sp p s w = Done ((p', s', b), w') → no_more p p'.
Proof.
  unfold send_one. intros H. mrun H.
  match type of H with (if ?b then _ else _) _ = _ => destruct b end; [by mrun H|].
  mrun H. match goal with H : write_block _ _ _ _ = _ |- _ => apply write_block_capacity in H as Hw end.
  match type of H with (match ?r with _ => _ end) _ = _ => destruct r as [n|e] end; [|by mrun H].
  destruct (n =? 0); [by mrun H|]. mrun H.
  match goal with H : count_block _ _ _ = _ |- _ => apply count_block_stream in H as [Hs _] end.
  unfold no_more in *. match type of H with (if ?b then _ else _) _ = _ => destruct b end; mrun H.
  - match goal with H : push_stat _ _ _ = _ |- _ => apply push_stat_capacity in H; unfold no_more in H end.
    rewrite Hs in *. lia.
  - by rewrite Hs.
Qed.

Lemma send_streams_capacity sp ps s w ps' s' w' :
  send_streams sp ps s w = Done ((ps', s'), w') → Forall2 no_more ps ps'.
Proof.
  revert s w ps'. induction ps as [|p ps IH]; intros s w ps' H; cbn [send_streams] in H; mrun H;
    [constructor|].
  match goal with H : send_one _ _ _ _ = Done ((_, _, ?b), _) |- _ =>
    apply send_one_capacity in H as H1; destruct b end; mrun H.
  - by constructor.
  - constructor; [done|]. by eapply IH.
Qed.

Lemma send_loop_capacity fuel sp ps s w ps' s' w' :
  send_loop fuel sp ps s w = Done ((ps', s'), w') → Forall2 no_more ps ps'.
Proof.
  revert ps s w. induction fuel as [|fuel IH]; intros ps s w H; cbn [send_loop] in H;
    destruct (ss_try_later s); mrun H; try done.
  etrans; [by eapply send_streams_capacity|by eapply IH].
Qed.

(** What every operation on a test does to its settings and streams. *)
Definition wears (t t' : Test) : Prop :=
  test_settings t' = test_settings t ∧ Forall2 no_more (test_streams t) (test_streams t').

#[export] Instance wears_preorder : PreOrder wears.
Proof.
  split; [by split|]. intros t1 t2 t3 [H1 H2] [H3 H4]. split; [congruence|by etrans].
Qed.

Lemma send_wears fuel t w t' e w' : send fuel t w = Done ((t', e), w') → wears t t'.
Proof.
  unfold send. intros H. mrun H. split; [done|].
  match goal with H : send_loop _ _ _ _ _ = _ |- _ => by apply send_loop_capacity in H end.
Qed.

Lemma start_wears t w t' w' : start t w = Done (t', w') → wears t t'.
Proof.
  unfold start. intros H. mrun H. split; [done|].
  match goal with H : mapM _ _ _ = _ |- _ => eapply mapM_Forall2 in H; [exact H|] end.
  intros p w0 q w1 Hq. cbv beta in Hq. mrun Hq. by unfold no_more.
Qed.

Lemma send_cookies_wears t w t' w' : send_cookies t w = Done (t', w') → wears t t'.
Proof.
  unfold send_cookies. intros H. mrun H. split; [done|].
  match goal with H : mapM _ _ _ = _ |- _ => eapply mapM_Forall2 in H; [exact H|] end.
  intros p w0 q w1 Hq. unfold send_cookie, PerfStream_write, no_more in *.
  destruct (conn t); mrun Hq; unfold as_Quic in *.
  all: repeat match goal with H : (let '(_, _) := ?x in _) _ = Done _ |- _ => destruct x; mrun H end.
  all: repeat match goal with H : ret _ _ = _ |- _ => mrun H end; cbn [ps_stream with_ps_stream].
  all: try (by eapply box_write_capacity).
  destruct (ps_stream p); simplify_eq.
  match goal with H : open_uni _ = _ |- _ => apply open_uni_capacity in H as <- end.
  by eapply write_cookie_capacity.
Qed.

Lemma end_stream_capacity debug p w p' w' : end_stream debug p w = Done (p', w') → no_more p p'.
Proof.
  unfold end_stream. intros H. mrun H. unfold no_more in *. cbn.
  match goal with H : (if ?c then _ else _) _ = Done (_, _) |- _ => destruct c end;
    [by eapply push_stat_capacity|].
  match goal with H : ret _ _ = _ |- _ => by mrun H end.
Qed.

Lemma end_totals_capacity c debug p p' : end_totals c debug p = Done p' → no_more p p'.
Proof.
  unfold end_totals, no_more. intros H.
  destruct c; apply bindR_Done in H as (x & Hx & H); unfold as_TcpStream, as_TlsEndpoint, as_Quic in *.
  - destruct (ps_stream p) eqn:E; simplify_eq. destruct (print_tcp_info x) eqn:Ei.
    apply print_tcp_info_strip in Ei. simplify_eq. cbn. unfold capacity. simpl. by rewrite Ei.
  - by simplify_eq.
  - destruct debug; [mrun H|]; by simplify_eq.
  - destruct (ps_stream p) eqn:E; simplify_eq. destruct (print_tcp_info _) eqn:Ei in H.
    simplify_eq. unfold capacity. simpl. by destruct (entity x).
Qed.

Lemma end_test_wears t w t' w' : end_test t w = Done (t', w') → wears t t'.
Proof.
  unfold end_test. intros H. mrun H.
  match goal with H : end_sums _ = Done ?t1 |- wears _ (with_test_elapsed _ _) =>
    assert (test_settings t1 = test_settings t ∧ ∃ qs, test_streams t1 = qs ∧ Forall2 no_more (test_streams t) qs)
      as (Hs & qs & Hq & HF) end.
  { repeat match goal with H : mapM _ _ _ = Done _ |- _ => revert H end. intros M1 M2.
    eapply mapM_Forall2 in M1; [|intros ????; apply end_stream_capacity].
    eapply mapM_Forall2 in M2; [|intros ???? Hx; mrun Hx; by eapply end_totals_capacity].
    match goal with H : end_sums _ = Done _ |- _ =>
      pose proof (end_sums_frame _ _ H) as Hf; apply end_sums_data in H as (-> & _) end.
    split; [by injection Hf|]. eexists. split; [done|]. by etrans. }
  split; [done|]. cbn. by rewrite Hq.
Qed.

Lemma from_serde_wears json t w t' w' : from_serde json t w = Done (t', w') → wears t t'.
Proof.
  unfold from_serde. intros H. destruct (results_from_json json); mrun H; by split.
Qed.
End Streams.

(** ** New streams take their capacity from the supply *)

Section Creation.
Context `{P : Profile} `{J : Serde} `{TR : Tracing}.

Lemma connect_events_stream stream evs w s w' :
  connect_events stream evs w = Done (IoOk (Some s), w') → s = stream.
Proof.
  revert w. induction evs as [|ev evs IH]; intros w H; cbn [connect_events] in H; [by mrun H|].
  repeat case_match; mrun H; by eauto.
Qed.

Lemma connect_capacity l w s w' :
  Tcp.connect l w = Done (IoOk s, w') → (tcp_writes s ≤ attempts_capacity l)%nat.
Proof.
  revert w. induction l as [|a l IH]; intros w H; cbn [Tcp.connect] in H; [done|]. mrun H.
  match goal with H : connect_events _ _ _ = Done (IoOk ?o, _) |- _ =>
    destruct o; [apply connect_events_stream in H as ->|] end; mrun H; simpl; [lia|].
  apply IH in H. lia.
Qed.

(** A handshake leaves the plaintext side alone. *)
Definition plain (ep : TlsEndpoint) : Sock := ts_plain (te_conn (entity ep)).

Lemma do_tls_write_plain ep : plain (do_tls_write_and_handle_error ep) = plain ep.
Proof.
  unfold plain, do_tls_write_and_handle_error, do_write, write_tls.
  destruct (ts_write (te_conn (entity ep))) as [|[] ?]; simpl; by rewrite ?te_conn_set.
Qed.

Lemma ready_plain ep : plain (ready ep) = plain ep.
Proof.
  unfold ready, do_tls_read, read_tls, process_new_packets.
  repeat (case_match; simplify_eq/=); unfold plain;
    try (change (ts_plain (te_conn (entity (do_tls_write_and_handle_error ?x))))
           with (plain (do_tls_write_and_handle_error x)));
    rewrite ?te_conn_set; try done.
  all: simpl; repeat (rewrite ?te_conn_set; simpl); try done.
  all: match goal with |- ts_plain (te_conn (entity (do_tls_write_and_handle_error ?x))) = _ =>
    pose proof (do_tls_write_plain x) as Hx; unfold plain in Hx; rewrite Hx end;
    simpl; by rewrite ?te_conn_set.
Qed.

Lemma handshake_events_plain ep evs w ep' b w' :
  handshake_events ep evs w = Done ((ep', b), w') → plain ep' = plain ep.
Proof.
  revert ep w. induction evs as [|ev evs IH]; intros ep w H; cbn [handshake_events] in H; [by mrun H|].
  destruct (tv_token ev =? 1); [|by eapply IH].
  set (ep2 := if tv_writable ev then _ else _) in *.
  assert (plain ep2 = plain ep) as <-
    by (subst ep2; destruct (tv_writable ev), (tv_readable ev); by rewrite ?do_tls_write_plain, ?ready_plain).
  assert (∀ b0 e, is_handshaking (entity ep2) = (b0, e) → plain (mkTlsEndpoint e (closing ep2)) = plain ep2) as Hh.
  { intros b0 e. unfold is_handshaking, plain. destruct (ts_handshaking _); intros [= <- <-]; [done|].
    simpl. by rewrite te_conn_set. }
  destruct (is_handshaking (entity ep2)) as [b0 e] eqn:E. rewrite <- (Hh _ _ eq_refl).
  destruct b0; simpl in H; [by eapply IH|]. mrun H.
  match goal with H : ret _ _ = _ |- _ => by mrun H | _ => done end.
Qed.

Lemma handshake_plain ep rounds w ep' w' :
  handshake ep rounds w = Done (ep', w') → plain ep' = plain ep.
Proof.
  unfold handshake. intros H. mrun H. clear Hm.
  match type of H with _ ?w0 = _ => revert ep w0 H end.
  induction rounds as [|evs rounds IH]; intros ep w0 H; cbn [handshake_rounds] in H; [done|].
  mrun H. match goal with H : handshake_events _ _ _ = Done ((_, ?b), _) |- _ =>
    apply handshake_events_plain in H as <-; destruct b end; mrun H; [done|]. by eapply IH.
Qed.

(** The node has made a stream of something that was in the supply. *)
Definition created (s s' : Node ClientImpl) : Prop :=
  test_settings (n_test s') = test_settings (n_test s) ∧
  test_state (n_test s') = test_state (n_test s) ∧
  (length (test_streams (n_test s)) ≤ length (test_streams (n_test s')))%nat ∧
  (node_capacity s' ≤ node_capacity s)%nat.

#[export] Instance created_preorder : PreOrder created.
Proof. split; unfold created; [done|]. intros s1 s2 s3. intuition (congruence || lia). Qed.

Lemma push_stream_created b s r s' :
  push_stream b s = Done (r, s') →
  test_settings (n_test s') = test_settings (n_test s) ∧
  test_state (n_test s') = test_state (n_test s) ∧
  length (test_streams (n_test s')) = S (length (test_streams (n_test s))) ∧
  node_capacity s' = (node_capacity s + capacity b)%nat.
Proof.
  unfold push_stream, PerfStream_new. intros H. mrun H.
  match goal with H : ret _ _ = _ |- _ => mrun H end. unfold node_capacity. simpl.
  rewrite length_app, streams_capacity_app. simpl. split_and!; try done; lia.
Qed.

Lemma next_tcp_created s r s' :
  next_tcp s = Done (r, s') →
  n_test s' = n_test s ∧
  (supply_capacity (c_supply (n_impl s')) + (match r with IoOk t => tcp_writes t | IoErr _ => 0 end)
   ≤ supply_capacity (c_supply (n_impl s)))%nat ∧
  cs_tls (c_supply (n_impl s')) = cs_tls (c_supply (n_impl s)).
Proof.
  unfold next_tcp. intros H. mrun H. destruct (cs_tcp (c_supply (n_impl s))) as [|a l] eqn:E; mrun H.
  split; [done|]. split; [|done]. unfold supply_capacity. simpl. rewrite E. simpl.
  match goal with H : Tcp.connect _ _ = Done (?r0, _) |- _ => destruct r0; [apply connect_capacity in H|] end; lia.
Qed.

Lemma udp_connect_capacity u w u' w' :
  Udp.connect u w = Done (IoOk u', w') → (capacity (BUdp u') ≤ length (sk_out (u_sock u)))%nat.
Proof.
  unfold Udp.connect, UdpSocket_write. intros H.
  destruct (sock_write _ (u_sock u)) as [r s] eqn:E in H. mrun H.
  destruct r; mrun H. apply sock_write_out in E. unfold capacity. simpl. lia.
Qed.

Lemma tls_client_capacity sess s rounds w e w' :
  TlsEndpoint_client sess s rounds w = Done (e, w') →
  capacity (BTls e) = length (sk_out (ts_plain sess)).
Proof.
  unfold TlsEndpoint_client. intros H. mrun H. apply handshake_plain in H. unfold plain in H.
  unfold capacity. simpl in *. rewrite H. lia.
Qed.

Lemma quic_client_capacity q qc skip w q' w' :
  Quic.client q qc skip w = Done (q', w') → capacity (BQuic q') = conn_writes qc.
Proof.
  unfold Quic.client. intros H. mrun H. destruct qc as [c|]; simplify_eq/=.
  unfold capacity. simpl. lia.
Qed.

(** What the steps of a creation did to the node, as inequations. *)
Ltac created_tac :=
  repeat match goal with
  | H : push_stream _ _ = Done _ |- _ => apply push_stream_created in H as (? & ? & ? & ?)
  | H : next_tcp _ = Done _ |- _ => apply next_tcp_created in H as (? & ? & ?)
  | H : Udp.connect _ _ = Done (IoOk _, _) |- _ => apply udp_connect_capacity in H
  | H : TlsEndpoint_client _ _ _ _ = Done _ |- _ => apply tls_client_capacity in H
  | H : Quic.client _ _ _ _ = Done _ |- _ => apply quic_client_capacity in H
  end;
  unfold created, node_capacity, supply_capacity in *; simpl in *;
  repeat match goal with H : n_test _ = n_test _ |- _ => rewrite H in *; clear H end;
  repeat match goal with H : cs_tls _ = cs_tls _ |- _ => rewrite H in *; clear H end;
  repeat match goal with H : _ = _ :: _ |- _ => rewrite H in *; clear H end;
  unfold tcp_writes in *; simpl in *.

Lemma create_stream_created s r s' :
  create_stream s = Done (r, s') →
  created s s' ∧
  (r = IoOk () → (length (test_streams (n_test s)) < length (test_streams (n_test s')))%nat).
Proof.
  unfold create_stream. intros H. mrun H. destruct (conn (n_test s)).
  - mrun H; created_tac; unfold capacity in *; simpl in *;
      (split; [split_and!; try congruence; lia|try done; intros _; lia]).
  - mrun H. destruct (cs_udp (c_supply (n_impl s))) as [|u l] eqn:E; mrun H; created_tac;
      (split; [split_and!; try congruence; lia|try done; intros _; lia]).
  - mrun H. destruct (cs_quic (c_supply (n_impl s))) as [|[q qc] l] eqn:E; mrun H; created_tac;
      (split; [split_and!; try congruence; lia|try done; intros _; lia]).
  - mrun H.
    + destruct (cs_tls (c_supply (n_impl _))) as [|[sess rounds] l] eqn:E in H; mrun H; created_tac;
      (split; [split_and!; try congruence; lia|try done; intros _; lia]).
    + created_tac. (split; [split_and!; try congruence; lia|try done; intros _; lia]).
Qed.

Lemma create_streams_created n s r s' :
  create_streams n s = Done (r, s') →
  created s s' ∧ (r = IoOk () → (n + length (test_streams (n_test s)) ≤ length (test_streams (n_test s')))%nat).
Proof.
  revert s. induction n as [|n IH]; intros s H; cbn [create_streams] in H; mrun H.
  - by split.
  - match goal with H : create_stream _ = _ |- _ => apply create_stream_created in H as [Hc Hl] end.
    apply IH in H as [Hc' Hl']. split; [by etrans|].
    intros Hr. specialize (Hl' Hr). match goal with u : () |- _ => destruct u end.
    specialize (Hl eq_refl). lia.
  - match goal with H : create_stream _ = _ |- _ => by apply create_stream_created in H as [Hc _] end.
Qed.
End Creation.

(** ** The client in the middle of a run *)

Section Runs.
Context `{P : Profile} `{J : Serde} `{TR : Tracing}.

(** The states a client goes through, with their streams. *)
Definition on_course (st : TestState) (n : nat) : Prop :=
  match st with
  | TestEnd | Wait => False
  | TestStart | TestRunning => (0 < n)%nat
  | _ => True
  end.

Definition bounded (fuel : nat) (s : Node ClientImpl) : Prop :=
  bitrate (n_test s) = 0 ∧ 0 < num_streams (n_test s) ∧ (node_capacity s < fuel)%nat ∧
  on_course (test_state (n_test s)) (length (test_streams (n_test s))).

Lemma wears_facts t t' :
  wears t t' → test_settings t' = test_settings t ∧
  length (test_streams t') = length (test_streams t) ∧
  (streams_capacity (test_streams t') ≤ streams_capacity (test_streams t))%nat.
Proof.
  intros [H1 H2]. split; [done|]. split; [by symmetry; eapply Forall2_length|by apply no_more_streams].
Qed.

Lemma frame_state t t' : frame_of t' = frame_of t → test_state t' = test_state t.
Proof. by intros [= ->]. Qed.

(** Talking on the control connection changes neither test nor supply. *)
Definition talks {A} (m : Cli A) : Prop :=
  ∀ s a s', m s = Done (a, s') →
    n_test s' = n_test s ∧ c_supply (n_impl s') = c_supply (n_impl s).

Lemma talks_drain : talks drain_ctrl.
Proof. unfold drain_ctrl. intros s a s' H. by mrun H. Qed.
Lemma talks_write b : talks (write_ctrl b).
Proof. unfold write_ctrl. intros s a s' H. by mrun H. Qed.
Lemma talks_state st : talks (send_ctrl_state st).
Proof. unfold send_ctrl_state. intros s a s' H. by mrun H. Qed.
Lemma talks_wake : talks wake.
Proof. unfold wake. intros s a s' H. by mrun H. Qed.
Lemma maybe_drain (b : bool) : talks (if b then drain_ctrl else ret (IoOk [])).
Proof. destruct b; [apply talks_drain|]. intros s a s' H. by mrun H. Qed.

Ltac facts :=
  repeat match goal with
  | H : drain_ctrl _ = Done _ |- _ => apply talks_drain in H as [? ?]
  | H : (if _ then drain_ctrl else _) _ = Done _ |- _ => apply maybe_drain in H as [? ?]
  | H : write_ctrl _ _ = Done _ |- _ => apply talks_write in H as [? ?]
  | H : send_ctrl_state _ _ = Done _ |- _ => apply talks_state in H as [? ?]
  | H : wake _ = Done _ |- _ => apply talks_wake in H as [? ?]
  | H : end_test _ _ = Done _ |- _ =>
      pose proof (frame_state _ _ (end_test_frame _ _ _ _ H)); apply end_test_wears, wears_facts in H as (? & ? & ?)
  | H : start _ _ = Done _ |- _ =>
      pose proof (frame_state _ _ (start_frame _ _ _ _ H)); apply start_wears, wears_facts in H as (? & ? & ?)
  | H : from_serde _ _ _ = Done _ |- _ =>
      pose proof (frame_state _ _ (from_serde_frame _ _ _ _ _ H)); apply from_serde_wears, wears_facts in H as (? & ? & ?)
  | H : send_cookies _ _ = Done _ |- _ => apply send_cookies_wears, wears_facts in H as (? & ? & ?)
  | H : create_streams _ _ = Done (IoOk ?u, _) |- _ =>
      destruct u; apply create_streams_created in H as [(? & ? & ? & ?) ?%(λ f, f eq_refl)]
  | H : create_streams _ _ = Done _ |- _ => apply create_streams_created in H as [(? & ? & ? & ?) _]
  end.

(** Nothing is left but inequations. *)
Ltac bounded_tac :=
  facts; unfold bounded, on_course, node_capacity, bitrate, num_streams in *; simpl in *;
  repeat match goal with
  | H : n_test _ = _ |- _ => rewrite H in *; clear H
  | H : c_supply _ = _ |- _ => rewrite H in *; clear H
  | H : test_settings ?x = _ |- _ => rewrite H in *; clear H
  | H : test_state ?x = _ |- _ => rewrite H in *; clear H
  end; simpl in *; intuition (congruence || lia).

Lemma on_control_bounded fuel ev s a s' :
  on_control ev s = Done (a, s') → bounded fuel s → bounded fuel s'.
Proof.
  unfold on_control. intros H Hb. mrun H.
  destruct (test_state (n_test s)) eqn:Hst.
  - destruct (ev_writable ev); mrun H; [..|done]; bounded_tac.
  - mrun H; bounded_tac.
  - mrun H; bounded_tac.
  - mrun H; bounded_tac.
  - destruct (ev_readable ev); mrun H; [|done].
    destruct (c_running (n_impl s)); mrun H; bounded_tac.
  - destruct Hb as (_ & _ & _ & Hb). by rewrite Hst in Hb.
  - destruct Hb as (_ & _ & _ & Hb). by rewrite Hst in Hb.
  - destruct (ev_readable ev); mrun H; [|done]. case_match; mrun H; bounded_tac.
  - mrun H; bounded_tac.
Qed.

Lemma on_stream_bounded fuel ev s a s' :
  on_stream fuel ev s = Done (a, s') → bounded fuel s → bounded fuel s'.
Proof.
  unfold on_stream. intros H Hb. mrun H.
  destruct (test_state (n_test s)) eqn:Hst; try (mrun H; done).
  destruct (ev_writable ev); [|mrun H; done]. mrun H.
  match goal with H : send _ _ _ = Done ((?t, _), _) |- _ =>
    assert (test_state t = test_state (n_test s)) by (unfold send in H; mrun H; done);
    apply send_wears, wears_facts in H as (? & ? & ?) end.
  match type of H with (if ?b then _ else _) _ = _ => destruct b end; mrun H; bounded_tac.
Qed.

Lemma handle_bounded fuel ev s a s' :
  handle fuel ev s = Done (a, s') → bounded fuel s → bounded fuel s'.
Proof.
  unfold handle. intros H. repeat case_match;
    [by eapply on_control_bounded|by eapply on_stream_bounded|by mrun H].
Qed.

(** ** No handler runs out of fuel *)

Lemma fuel_ok_client_ctrl :
  fuel_ok drain_ctrl ∧ (∀ b, fuel_ok (write_ctrl b)) ∧ (∀ st, fuel_ok (send_ctrl_state st)) ∧
  fuel_ok wake.
Proof.
  unfold drain_ctrl, write_ctrl, send_ctrl_state, wake.
  split_and!; auto 12 using TcpStream_StreamLaws with fuel.
Qed.

Lemma fuel_ok_client_push b : fuel_ok (push_stream b).
Proof. unfold push_stream. fuel_tac. Qed.

Lemma fuel_ok_connect l : fuel_ok (Tcp.connect l).
Proof.
  assert (∀ stream evs, fuel_ok (connect_events stream evs)) as He
    by (intros stream; induction evs; cbn [connect_events]; fuel_tac).
  induction l; cbn [Tcp.connect]; [fuel_tac|]. auto 20 with fuel.
Qed.

Lemma fuel_ok_create_streams n : fuel_ok (create_streams n).
Proof.
  assert (∀ (u : UdpSocket), fuel_ok (Udp.connect u)) as Hu
    by (intros u; unfold Udp.connect, UdpSocket_write; fuel_tac).
  assert (fuel_ok Tls.client) as Ht by (unfold Tls.client; fuel_tac).
  induction n; cbn [create_streams]; [fuel_tac|].
  unfold create_stream, next_tcp, TlsEndpoint_client, Quic.client, new_endpoint.
  auto 40 using fuel_ok_connect, fuel_ok_client_push, fuel_ok_handshake with fuel.
Qed.

Lemma fuel_ok_send_cookies t : fuel_ok (send_cookies t).
Proof.
  assert (∀ l b, res_ok (write_cookie_streams b l)) as Hq.
  { induction l as [|s l IH]; intros b; cbn [write_cookie_streams]; [fuel_tac|].
    unfold send_write. fuel_tac. }
  assert (∀ (b : BoxStream) d, fuel_ok (stream_write b d)) as Hw.
  { intros b d. destruct b; cbn; unfold boxed, TcpStream_write, UdpSocket_write, TlsEndpoint_write;
      fuel_tac. }
  unfold send_cookies, send_cookie, PerfStream_write, as_Quic, open_uni, write_cookie, write_total, mul_u.
  auto 40 with fuel.
Qed.

Lemma fuel_ok_from_serde json t : fuel_ok (from_serde json t).
Proof. unfold from_serde, stream_of_wire. fuel_tac. Qed.

Lemma fuel_ok_client_control ev : fuel_ok (on_control ev).
Proof.
  destruct fuel_ok_client_ctrl as (H1 & H2 & H3 & H4).
  unfold on_control, register_streams. apply fuel_ok_bind; [fuel_tac|]. intros t.
  destruct (test_state t);
    auto 30 using fuel_ok_create_streams, fuel_ok_send_cookies, fuel_ok_from_serde with fuel.
Qed.

Lemma fuel_ok_close_streams t : fuel_ok (close_streams t).
Proof.
  unfold close_streams, shutdown_stream, finish_streams, as_TcpStream, as_Quic. fuel_tac.
Qed.

Lemma on_stream_fuel fuel ev s : bounded fuel s → res_ok (on_stream fuel ev s).
Proof.
  intros (Hz & _ & Hc & Hst). unfold on_stream. apply res_ok_step; [fuel_tac|].
  intros t s1 [= <- <-].
  destruct (test_state (n_test s)); try done. destruct (ev_writable ev); [|done].
  unfold bindM at 1, onWorld at 1.
  assert (res_ok (send fuel (n_test s) (n_world s))) as Hs.
  { pose proof (writes_capacity (test_streams (n_test s))). unfold node_capacity in Hc.
    apply send_returns; [done| |lia]. intros E. rewrite E in Hst. simpl in Hst. lia. }
  destruct (send fuel (n_test s) (n_world s)) as [[[t e] w]|c]; [|exact Hs].
  destruct fuel_ok_client_ctrl as (_ & _ & H3 & _).
  match goal with |- res_ok (?m ?s1) => enough (fuel_ok m) as Hm by apply Hm end.
  auto 30 using fuel_ok_close_streams with fuel.
Qed.

Lemma handle_fuel fuel ev s : bounded fuel s → res_ok (handle fuel ev s).
Proof.
  intros Hb. unfold handle. repeat case_match;
    [apply fuel_ok_client_control|by apply on_stream_fuel|done].
Qed.

Lemma handle_events_fuel fuel evs s : bounded fuel s → res_ok (handle_events (handle fuel) evs s).
Proof.
  revert s. induction evs as [|ev evs IH]; intros s Hb; [done|]. cbn [handle_events].
  unfold bindIo, bindM. pose proof (handle_fuel fuel ev s Hb) as Hf.
  destruct (handle fuel ev s) as [[[f|e] s1]|c] eqn:E; [|done|exact Hf].
  apply handle_bounded in E; [|done]. destruct f; [by apply IH|done..].
Qed.

Lemma handle_events_inv fuel evs s r s' :
  handle_events (handle fuel) evs s = Done (r, s') → bounded fuel s → bounded fuel s'.
Proof.
  revert s. induction evs as [|ev evs IH]; intros s H Hb; cbn [handle_events] in H; [by mrun H|].
  apply bindIo_Done in H as [(f & s1 & Hh & H)|(e & s1 & Hh & [= -> ->])];
    apply handle_bounded in Hh; try done. destruct f; mrun H; [|done..]. by eapply IH.
Qed.

End Runs.
