(* ===== verification/ClientSpec.v ===== *)
(** * What the client promises: its side of the conversation

    The client's states follow one another in a fixed order, and what it has
    put on the control connection is determined by its state: the cookie, the
    settings, the byte that ends the test, the byte that ends the session.
    Messages may be cut short or lost by the socket; they are never reordered,
    repeated or joined by others. *)
From stdpp Require Import relations.
From S2P Require Import Prelude F64 Env Kinds Tcp Net Udp Tls Quic Metrics Report PerfStream TestCore.
From S2P Require Import Talk Node Client.

(** ** The abstract client *)

(** The messages a client in state [st] has attempted to send. *)
Definition script (set_ : list Z) (st : TestState) : option (list (list Z)) :=
  match st with
  | Start => Some []
  | ParamExchange => Some [bytes_of make_cookie]
  | CreateStreams | TestStart | TestRunning => Some [bytes_of make_cookie; set_]
  | ExchangeResults => Some [bytes_of make_cookie; set_; [TestState_as_u8 TestEnd]]
  | End_ => Some [bytes_of make_cookie; set_; [TestState_as_u8 TestEnd]; [TestState_as_u8 End_]]
  | TestEnd | Wait => None
  end.

(** What the rest of the program must leave alone. *)
Definition sent_of (c : ClientImpl) : list Buf := sk_sent (t_sock (c_ctrl c)).
Definition obs (s : Node ClientImpl) : TestState * Settings * list Buf :=
  (test_state (n_test s), test_settings (n_test s), sent_of (n_impl s)).

Definition quiet_op {A} (m : Cli A) : Prop := ∀ s a s', m s = Done (a, s') → obs s' = obs s.

Section Rules.
Lemma quiet_ret {A} (a : A) : quiet_op (ret a).
Proof. intros s b s' H. mrun H. done. Qed.
Lemma quiet_liftR {A} (r : res A) : quiet_op (liftR r).
Proof. intros s b s' H. mrun H. done. Qed.
Lemma quiet_crash {A} c : quiet_op (@crashM _ A c).
Proof. done. Qed.
Lemma quiet_panic {A} c : quiet_op (@panic _ A c).
Proof. done. Qed.
Lemma quiet_onWorld {A} (m : M World A) : quiet_op (onWorld m).
Proof. intros s a s' H. by apply onWorld_Done in H as (? & ? & _ & [= -> ->]). Qed.
Lemma quiet_getTest : quiet_op getTest.
Proof. intros s a s' H. by injection H as <- <-. Qed.
Lemma quiet_getImpl : quiet_op getImpl.
Proof. intros s a s' H. by injection H as <- <-. Qed.
Lemma quiet_supply k : quiet_op (modImpl (with_c_supply k)).
Proof. intros s a s' H. by injection H as <- <-. Qed.
Lemma quiet_running b : quiet_op (modImpl (with_running b)).
Proof. intros s a s' H. by injection H as <- <-. Qed.
Lemma quiet_push f : quiet_op (modTest (λ t, with_test_streams (f t) t)).
Proof. intros s a s' H. by injection H as <- <-. Qed.
Lemma quiet_bind {A B} (m : Cli A) (f : A → Cli B) :
  quiet_op m → (∀ a, quiet_op (f a)) → quiet_op (bindM m f).
Proof.
  intros Hm Hf s a s' H. apply bindM_Done in H as (b & s1 & H1 & H2).
  apply Hm in H1. apply Hf in H2. congruence.
Qed.
Lemma quiet_bindIo {A B} (m : Cli (io_result A)) (f : A → Cli (io_result B)) :
  quiet_op m → (∀ a, quiet_op (f a)) → quiet_op (bindIo m f).
Proof. intros Hm Hf. apply quiet_bind; [done|]. intros [a|e]; [apply Hf|apply quiet_ret]. Qed.
Lemma quiet_upd f :
  (∀ t w t' w', f t w = Done (t', w') → test_state t' = test_state t ∧ test_settings t' = test_settings t) →
  quiet_op (updTest f).
Proof.
  intros Hf s a s' H. apply updTest_Done in H as (t & w & H & [= -> ->]).
  apply Hf in H as [H1 H2]. unfold obs. cbn. congruence.
Qed.
End Rules.

Create HintDb quiet discriminated.
#[export] Hint Constants Opaque : quiet.
#[export] Hint Variables Opaque : quiet.
#[export] Hint Resolve quiet_ret quiet_liftR quiet_crash quiet_panic quiet_onWorld quiet_getTest
  quiet_getImpl quiet_supply quiet_running quiet_push quiet_bind quiet_bindIo : quiet.
#[export] Hint Extern 1 (quiet_op (match ?x with _ => _ end)) => destruct x : quiet.
#[export] Hint Extern 1 (∀ _, quiet_op _) => intro : quiet.

Lemma frame_quiet t t' :
  frame_of t' = frame_of t → test_state t' = test_state t ∧ test_settings t' = test_settings t.
Proof. by intros [= -> -> _ _ _ _]. Qed.

Section Operations.
Context `{P : Profile} `{J : Serde} `{TR : Tracing}.

Lemma quiet_drain_ctrl : quiet_op drain_ctrl.
Proof.
  unfold drain_ctrl. intros s a s' H. mrun H. unfold obs, sent_of. simpl.
  by erewrite drain_message_sent by eassumption.
Qed.

Lemma quiet_push_stream b : quiet_op (push_stream b).
Proof. unfold push_stream. auto 10 with quiet. Qed.
Lemma quiet_next_tcp : quiet_op next_tcp.
Proof. unfold next_tcp. auto 10 with quiet. Qed.
Hint Resolve quiet_push_stream quiet_next_tcp : quiet.
Lemma quiet_create_stream : quiet_op create_stream.
Proof. unfold create_stream. auto 20 with quiet. Qed.
Lemma quiet_create_streams n : quiet_op (create_streams n).
Proof. induction n; cbn [create_streams]; auto using quiet_create_stream with quiet. Qed.
Lemma quiet_wake : quiet_op wake.
Proof. unfold wake. auto with quiet. Qed.
Lemma quiet_end : quiet_op (updTest end_test).
Proof. apply quiet_upd. intros ???? H. by apply end_test_frame, frame_quiet in H. Qed.
Lemma quiet_start : quiet_op (updTest start).
Proof. apply quiet_upd. intros ???? H. by apply start_frame, frame_quiet in H. Qed.
Lemma quiet_from_serde j : quiet_op (updTest (from_serde j)).
Proof. apply quiet_upd. intros ???? H. by apply from_serde_frame, frame_quiet in H. Qed.
Lemma quiet_cookies : quiet_op (updTest send_cookies).
Proof. apply quiet_upd. unfold send_cookies. intros ???? H. mrun H. done. Qed.

(** ** A message of the client *)

Lemma write_ctrl_said m s r s' ms :
  write_ctrl m s = Done (r, s') → said (sent_of (n_impl s)) ms →
  n_test s' = n_test s ∧
  said (sent_of (n_impl s')) (match r with IoOk _ => ms ++ [m] | IoErr _ => ms end).
Proof.
  unfold write_ctrl. intros H Hs. mrun H. split; [done|]. unfold sent_of. simpl.
  eapply write_socket_said in Hs; [|eassumption]. by destruct r.
Qed.

Lemma send_ctrl_state_said st s r s' ms :
  send_ctrl_state st s = Done (r, s') → said (sent_of (n_impl s)) ms →
  n_test s' = n_test s ∧ said (sent_of (n_impl s')) (ms ++ [[TestState_as_u8 st]]).
Proof.
  unfold send_ctrl_state. intros H Hs. mrun H. split; [done|]. unfold sent_of. simpl.
  by eapply send_state_said.
Qed.
End Operations.

#[export] Hint Resolve quiet_drain_ctrl quiet_push_stream quiet_next_tcp quiet_create_stream
  quiet_create_streams quiet_wake quiet_end quiet_start quiet_from_serde quiet_cookies : quiet.

(** ** The refinement *)

Inductive cstep : TestState → TestState → Prop :=
| c_cookie : cstep Start ParamExchange
| c_settings : cstep ParamExchange CreateStreams
| c_streams : cstep CreateStreams TestStart
| c_cookies : cstep TestStart TestRunning
| c_finished : cstep TestRunning ExchangeResults
| c_done : cstep ExchangeResults End_.

Section Refinement.
Context `{P : Profile} `{J : Serde} `{TR : Tracing}.

(** The client is where its conversation says it is. *)
Definition in_script (c : Settings) (s : Node ClientImpl) : Prop :=
  test_settings (n_test s) = c ∧
  ∃ ms, script (settings_to_json c) (test_state (n_test s)) = Some ms ∧
        said (sent_of (n_impl s)) ms.

Definition follows (c : Settings) (s s' : Node ClientImpl) : Prop :=
  in_script c s →
  in_script c s' ∧ rtc cstep (test_state (n_test s)) (test_state (n_test s')).

Lemma follows_obs c (s s' : Node ClientImpl) : obs s' = obs s → follows c s s'.
Proof.
  unfold obs, follows, in_script. intros [= E1 E2 E3] H. rewrite E1, E2, E3. by split.
Qed.

(** The message that belongs to the step into [st]. *)
Lemma in_script_step c (s' : Node ClientImpl) st ms ms' :
  test_settings (n_test s') = c → test_state (n_test s') = st →
  script (settings_to_json c) st = Some ms → ms = ms' → said (sent_of (n_impl s')) ms' →
  in_script c s'.
Proof. intros H1 H2 H3 -> H4. split; [done|]. exists ms'. by rewrite H2. Qed.

Ltac use_quiet :=
  repeat match goal with
  | H : ?m ?s = Done (?a, ?s1) |- _ =>
      let K := fresh "K" in
      assert (obs s1 = obs s) as K
        by (refine ((_ : quiet_op m) s a s1 H); solve [auto with quiet]);
      clear H
  end.

Lemma follows_trans c s1 s2 s3 : follows c s1 s2 → follows c s2 s3 → follows c s1 s3.
Proof.
  intros H1 H2 H. destruct (H1 H) as [H' R1]. destruct (H2 H') as [H'' R2].
  split; [done|by etrans].
Qed.

(** A message, and then the state it belongs to. *)
Lemma follows_message c m st st' s r s1 s' :
  test_state (n_test s) = st → cstep st st' →
  (∀ ms, test_settings (n_test s) = c → script (settings_to_json c) st = Some ms →
         script (settings_to_json c) st' = Some (ms ++ [m])) →
  write_ctrl m s = Done (r, s1) →
  match r with
  | IoOk _ => n_impl s' = n_impl s1 ∧ n_test s' = transition st' (n_test s1)
  | IoErr _ => s' = s1
  end → follows c s s'.
Proof.
  intros Hst Hstep Hscript Hw Hr (Hc & ms & Hms & Hsaid). rewrite Hst in Hms.
  apply (write_ctrl_said _ _ _ _ ms) in Hw as [Ht Hs1]; [|done].
  destruct r as [n|e].
  - destruct Hr as [Ei Et]. split.
    + split; [by rewrite Et, Ht|]. exists (ms ++ [m]). rewrite Et, Ei. split; [|done].
      by apply Hscript.
    + rewrite Et, Hst. by apply rtc_once.
  - subst s'. split; [|by rewrite Ht]. split; [by rewrite Ht|]. exists ms. by rewrite Ht, Hst.
Qed.

(** The state first, and then its byte. *)
Lemma follows_state c st st' b s s1 r s' :
  test_state (n_test s) = st → cstep st st' →
  (∀ ms, script (settings_to_json c) st = Some ms →
         script (settings_to_json c) st' = Some (ms ++ [[TestState_as_u8 b]])) →
  n_impl s1 = n_impl s → n_test s1 = transition st' (n_test s) →
  send_ctrl_state b s1 = Done (r, s') → follows c s s'.
Proof.
  intros Hst Hstep Hscript Ei Et Hw (Hc & ms & Hms & Hsaid). rewrite Hst in Hms.
  apply (send_ctrl_state_said _ _ _ _ ms) in Hw as [Ht Hs1]; [|by rewrite Ei].
  rewrite Et in Ht. split.
  - split; [by rewrite Ht|]. exists (ms ++ [[TestState_as_u8 b]]). rewrite Ht. split; [|done].
    by apply Hscript.
  - rewrite Ht, Hst. by apply rtc_once.
Qed.

(** A step that says nothing. *)
Lemma follows_silent c st st' s s' :
  test_state (n_test s) = st → cstep st st' →
  script (settings_to_json c) st' = script (settings_to_json c) st →
  obs s' = (st', test_settings (n_test s), sent_of (n_impl s)) → follows c s s'.
Proof.
  intros Hst Hstep Hscript Ho (Hc & ms & Hms & Hsaid). rewrite Hst in Hms.
  unfold obs in Ho. injection Ho as E1 E2 E3. split.
  - split; [by rewrite E2|]. exists ms. rewrite E1, E3, Hscript. done.
  - rewrite E1, Hst. by apply rtc_once.
Qed.

Lemma follows_quiet c {A} (m : Cli A) s a s' : quiet_op m → m s = Done (a, s') → follows c s s'.
Proof. intros Hq H. by apply follows_obs, (Hq _ _ _ H). Qed.

Lemma end_test_quiet t w t' w' :
  end_test t w = Done (t', w') → test_state t' = test_state t ∧ test_settings t' = test_settings t.
Proof. intros H. by apply end_test_frame, frame_quiet in H. Qed.
Lemma start_quiet t w t' w' :
  start t w = Done (t', w') → test_state t' = test_state t ∧ test_settings t' = test_settings t.
Proof. intros H. by apply start_frame, frame_quiet in H. Qed.
Lemma from_serde_quiet j t w t' w' :
  from_serde j t w = Done (t', w') → test_state t' = test_state t ∧ test_settings t' = test_settings t.
Proof. intros H. by apply from_serde_frame, frame_quiet in H. Qed.
Lemma cookies_quiet t w t' w' :
  send_cookies t w = Done (t', w') → test_state t' = test_state t ∧ test_settings t' = test_settings t.
Proof. unfold send_cookies. intros H. mrun H. done. Qed.
Lemma send_quiet fuel t w t' e w' :
  send fuel t w = Done ((t', e), w') → test_state t' = test_state t ∧ test_settings t' = test_settings t.
Proof. unfold send. intros H. mrun H. done. Qed.

Ltac use_frames :=
  repeat match goal with
  | H : end_test _ _ = Done _ |- _ => apply end_test_quiet in H as [? ?]
  | H : start _ _ = Done _ |- _ => apply start_quiet in H as [? ?]
  | H : from_serde _ _ _ = Done _ |- _ => apply from_serde_quiet in H as [? ?]
  | H : send_cookies _ _ = Done _ |- _ => apply cookies_quiet in H as [? ?]
  | H : send _ _ _ = Done _ |- _ => apply send_quiet in H as [? ?]
  end.
Ltac obs_tac := use_quiet; use_frames; unfold obs, sent_of in *; simpl in *; congruence.

Lemma on_control_follows c ev s a s' : on_control ev s = Done (a, s') → follows c s s'.
Proof.
  unfold on_control. intros H. mrun H.
  destruct (test_state (n_test s)) eqn:Hst.
  - destruct (ev_writable ev); [|mrun H; by apply follows_obs].
    mrun H; (eapply (follows_message c _ Start ParamExchange); [exact Hst|constructor| |eassumption|done]);
      by intros ms _ [= <-].
  - mrun H; try (apply follows_obs; obs_tac).
    all: match goal with H : write_ctrl _ ?s1 = _ |- _ =>
      assert (obs s1 = obs s) as K by (clear H; obs_tac);
      eapply (follows_trans c s s1); [by apply follows_obs|];
      eapply (follows_message c _ ParamExchange CreateStreams); [| | |exact H|done] end.
    all: try constructor; try (unfold obs in K; congruence).
    all: intros ms Hc [= <-]; unfold obs in K; injection K as E1 E2 E3;
      unfold settings; by rewrite <- E2, Hc.
  - mrun H; try (apply follows_obs; obs_tac).
    apply (follows_silent c CreateStreams TestStart); [done|constructor|done|obs_tac].
  - mrun H; try (apply follows_obs; obs_tac).
    apply (follows_silent c TestStart TestRunning); [done|constructor|done|obs_tac].
  - destruct (ev_readable ev); [|mrun H; by apply follows_obs].
    mrun H. destruct (c_running (n_impl s)); mrun H; apply follows_obs; obs_tac.
  - intros (_ & ms & Hms & _). by rewrite Hst in Hms.
  - intros (_ & ms & Hms & _). by rewrite Hst in Hms.
  - destruct (ev_readable ev); [|mrun H; by apply follows_obs].
    mrun H. case_match; mrun H; try (apply follows_obs; obs_tac).
    all: match goal with
      H : send_ctrl_state End_ (mkNode ?i (transition End_ ?t) ?w) = Done (_, ?s1) |- _ =>
        apply (follows_trans c s (mkNode i t w)); [apply follows_obs; clear H; obs_tac|];
        apply (follows_trans c _ s1); [|apply follows_obs; clear H; obs_tac];
        eapply (follows_state c ExchangeResults End_ End_); [| | | | |exact H] end;
      try constructor; try done; try (by intros ms [= <-]); obs_tac.
  - mrun H; apply follows_obs; obs_tac.
Qed.

Lemma on_stream_follows c fuel ev s a s' : on_stream fuel ev s = Done (a, s') → follows c s s'.
Proof.
  unfold on_stream. intros H. mrun H.
  destruct (test_state (n_test s)) eqn:Hst; try (mrun H; by apply follows_obs).
  destruct (ev_writable ev); [|mrun H; by apply follows_obs].
  mrun H. match type of H with (if ?b then _ else _) _ = _ => destruct b end;
    mrun H; try (apply follows_obs; obs_tac).
  match goal with
    H : send_ctrl_state TestEnd (mkNode ?i (transition ExchangeResults ?t) ?w) = Done (_, ?s1) |- _ =>
      apply (follows_trans c s (mkNode i t w)); [apply follows_obs; clear H; obs_tac|];
      eapply (follows_state c TestRunning ExchangeResults TestEnd); [| | | | |exact H] end;
    try constructor; try done; try (by intros ms [= <-]); obs_tac.
Qed.

Lemma handle_follows c fuel ev s a s' : handle fuel ev s = Done (a, s') → follows c s s'.
Proof.
  unfold handle. intros H. repeat case_match;
    [by eapply on_control_follows|by eapply on_stream_follows|mrun H; by apply follows_obs].
Qed.

#[local] Instance follows_preorder c : PreOrder (follows c).
Proof. split; [intros s; by apply follows_obs|intros s1 s2 s3; apply follows_trans]. Qed.

Lemma loop_follows c fuel batches s r s' :
  event_loop (handle fuel) (ret (IoOk None)) batches s = Done (r, s') → follows c s s'.
Proof.
  intros H. eapply (event_loop_rel (handle fuel) (ret (IoOk None)) (follows c)); [| | |exact H].
  - intros ev s1 f s2. apply handle_follows.
  - intros s1 r1 s2 H1. mrun H1. reflexivity.
  - intros s1 w. by apply follows_obs.
Qed.

End Refinement.
