(* ===== verification/Framing.v ===== *)
(** * Messages without frames

    Nothing marks the end of a message on the control connection: a message is
    what one call of [drain_message] finds.  The client does not wait for the
    server between its cookie and its settings, so the server may find both at
    once, and takes them for the cookie. *)
From S2P Require Import Prelude F64 Env Kinds Tcp Net Udp Tls Quic Metrics Report PerfStream TestCore.
From S2P Require Import Node Server Control UdpEnd Client.

Section Framing.
Context `{P : Profile} `{J : Serde} `{TR : Tracing}.

(** An event of the control connection that tells the client that it may write
    and that nothing has come. *)
Definition only_writable : Event := mkEvent CONTROL false true.

(** A message that is taken whole. *)
Lemma write_ctrl_whole m s room outs :
  sk_out (t_sock (c_ctrl (n_impl s))) = OutAccept room :: outs → Z.of_nat (length m) ≤ room →
  ∃ c b, write_ctrl m s = Done (IoOk (Z.of_nat (length m)),
      mkNode (with_c_ctrl c (n_impl s)) (n_test s) (n_world s)) ∧
    sk_out (t_sock c) = outs ∧ sk_in (t_sock c) = sk_in (t_sock (c_ctrl (n_impl s))) ∧
    sk_sent (t_sock c) = sk_sent (t_sock (c_ctrl (n_impl s))) ++ [b] ∧ bytes_sent b = m.
Proof.
  intros Ho Hm. unfold write_ctrl, getImpl, modImpl, onWorld, write_socket, TcpStream_write, bindM, ret.
  unfold sock_write. rewrite Ho. cbn [b_len b_head b_fill buf_of n_world n_impl n_test].
  replace (Z.min (Z.max 0 room) (Z.of_nat (length m))) with (Z.of_nat (length m)) by lia.
  rewrite Nat2Z.id, firstn_all. eexists _, _. split; [done|]. cbn. split_and!; try done.
  unfold bytes_sent, buf_bytes. cbn. by rewrite Nat2Z.id, take_app_length.
Qed.

(** The client says both without having read anything. *)
Lemma client_runs_ahead fuel s room1 room2 outs :
  test_state (n_test s) = Start →
  sk_out (t_sock (c_ctrl (n_impl s))) = OutAccept room1 :: OutAccept room2 :: outs →
  Z.of_nat (length (bytes_of make_cookie)) ≤ room1 →
  Z.of_nat (length (settings (n_test s))) ≤ room2 →
  ∃ s' b1 b2, handle_events (Client.handle fuel) [only_writable; only_writable] s
    = Done (IoOk None, s') ∧
    test_state (n_test s') = CreateStreams ∧
    sk_in (t_sock (c_ctrl (n_impl s'))) = sk_in (t_sock (c_ctrl (n_impl s))) ∧
    sk_sent (t_sock (c_ctrl (n_impl s'))) = sk_sent (t_sock (c_ctrl (n_impl s))) ++ [b1; b2] ∧
    bytes_sent b1 = bytes_of make_cookie ∧ bytes_sent b2 = settings (n_test s).
Proof.
  intros Hst Ho H1 H2.
  destruct (write_ctrl_whole _ s _ _ Ho H1) as (c1 & b1 & Hw1 & Ho1 & Hi1 & Hs1 & Hb1).
  set (s1 := mkNode (with_c_ctrl c1 (n_impl s)) (transition ParamExchange (n_test s)) (n_world s)).
  destruct (write_ctrl_whole (settings (n_test s)) s1 room2 outs Ho1 H2)
    as (c2 & b2 & Hw2 & Ho2 & Hi2 & Hs2 & Hb2).
  set (s2 := mkNode (with_c_ctrl c2 (n_impl s1)) (transition CreateStreams (n_test s1)) (n_world s1)).
  exists s2, b1, b2. split; [|split_and!; try done].
  - assert (Client.handle fuel only_writable s = Done (IoOk Next, s1)) as E1.
    { unfold Client.handle. cbn [ev_token only_writable]. rewrite Z.eqb_refl.
      unfold Client.on_control, getTest. unfold bindM at 1. rewrite Hst. cbn [ev_writable only_writable].
      unfold bindIo, bindM at 1. by rewrite Hw1. }
    assert (Client.handle fuel only_writable s1 = Done (IoOk Next, s2)) as E2.
    { unfold Client.handle. cbn [ev_token only_writable]. rewrite Z.eqb_refl.
      unfold Client.on_control, getTest, bindIo, bindM, ret.
      change (test_state (n_test s1)) with ParamExchange. cbn [ev_readable only_writable].
      change (settings (n_test s1)) with (settings (n_test s)). by rewrite Hw2. }
    cbn [handle_events]. unfold bindIo, bindM. by rewrite E1, E2.
  - exact (eq_trans Hi2 Hi1).
  - change (sk_sent (t_sock (c_ctrl (n_impl s2)))) with (sk_sent (t_sock c2)). rewrite Hs2.
    change (sk_sent (t_sock (c_ctrl (n_impl s1)))) with (sk_sent (t_sock c1)). rewrite Hs1. by rewrite <- (assoc_L (++)).
Qed.

(** The server takes what it finds for the cookie. *)
Lemma server_takes_all s c ins m rest ev :
  test_state (n_test s) = Start → ev_readable ev = true → s_ctrl (n_impl s) = Some c →
  pieces ins m → sk_in (t_sock c) = ins ++ InErr WouldBlock :: rest →
  Server.on_control ev s =
    (let! _ := Server.send_ctrl_state ParamExchange in ret (IoOk Next))
      (mkNode (with_ctrl (Some (with_in rest c)) (n_impl s))
         (transition ParamExchange (with_test_cookie m (n_test s))) (n_world s)).
Proof.
  intros Hst Hev Hc Hp Hin.
  unfold Server.on_control, getTest. unfold bindM at 1. rewrite Hst, Hev.
  unfold bindIo, bindM at 1.
  by rewrite (drain_ctrl_Done _ _ _ _ _ Hc (drain_message_pieces _ _ _ _ _ Hp Hin)).
Qed.

(** C23: a client whose first two events only say that it may write sends
    cookie and settings without having read anything; and a server that finds
    both in its socket, in whatever pieces, takes them together for the cookie
    and asks for the settings, which stay those it had: there is nothing left
    to read for the state it goes to. *)
Theorem settings_taken_for_cookie fuel sc room1 room2 outs ss c ins rest ev :
  test_state (n_test sc) = Start →
  sk_out (t_sock (c_ctrl (n_impl sc))) = OutAccept room1 :: OutAccept room2 :: outs →
  Z.of_nat (length (bytes_of make_cookie)) ≤ room1 →
  Z.of_nat (length (settings (n_test sc))) ≤ room2 →
  test_state (n_test ss) = Start → ev_readable ev = true → s_ctrl (n_impl ss) = Some c →
  sk_in (t_sock c) = ins ++ InErr WouldBlock :: rest →
  ∃ sc' b1 b2,
    handle_events (Client.handle fuel) [only_writable; only_writable] sc = Done (IoOk None, sc') ∧
    sk_in (t_sock (c_ctrl (n_impl sc'))) = sk_in (t_sock (c_ctrl (n_impl sc))) ∧
    sk_sent (t_sock (c_ctrl (n_impl sc'))) = sk_sent (t_sock (c_ctrl (n_impl sc))) ++ [b1; b2] ∧
    (pieces ins (bytes_sent b1 ++ bytes_sent b2) →
     Server.on_control ev ss =
       (let! _ := Server.send_ctrl_state ParamExchange in ret (IoOk Next))
         (mkNode (with_ctrl (Some (with_in rest c)) (n_impl ss))
            (transition ParamExchange
               (with_test_cookie (bytes_of make_cookie ++ settings (n_test sc)) (n_test ss)))
            (n_world ss))).
Proof.
  intros Hst Ho H1 H2 Hss Hev Hc Hin.
  destruct (client_runs_ahead fuel sc _ _ _ Hst Ho H1 H2) as (sc' & b1 & b2 & Hr & _ & Hi & Hs & Hb1 & Hb2).
  exists sc', b1, b2. split_and!; try done. rewrite Hb1, Hb2. intros Hp.
  by eapply server_takes_all.
Qed.
End Framing.
