(* ===== verification/Agreement.v ===== *)
(** * The two sides agree

    A server whose control connection delivers what a client says, one message
    at a time, goes through its states in order, asks for as many streams as
    the client, and has the client's cookie and settings from the moment it
    has left [ParamExchange]. *)
From stdpp Require Import relations.
From S2P Require Import Prelude F64 Env Kinds Tcp Net Udp Tls Quic Metrics Report PerfStream TestCore.
From S2P Require Import Talk Node UdpEnd Client ClientSpec Server ServerSpec ServerTalk Control.

(** What a socket delivers when the messages arrive one by one: each in any
    pieces, and then nothing for a moment. *)
Inductive delivered : list (list Z) → list Incoming → Prop :=
| delivered_nil : delivered [] []
| delivered_cons m ms ins rest : pieces ins m → delivered ms rest →
    delivered (m :: ms) (ins ++ InErr WouldBlock :: rest).

(** The order of the server's states, when only its client moves it. *)
Inductive sstep : TestState → TestState → Prop :=
| s_cookie : sstep Start ParamExchange
| s_settings : sstep ParamExchange CreateStreams
| s_streams : sstep CreateStreams TestStart
| s_cookies : sstep TestStart TestRunning
| s_end : sstep TestRunning TestEnd
| s_silence : sstep TestRunning End_
| s_results : sstep TestEnd ExchangeResults
| s_done : sstep ExchangeResults End_.

Create HintDb sstep discriminated.
#[export] Hint Constructors sstep : sstep.

Section Reading.
Context `{P : Profile} `{J : Serde} `{TR : Tracing}.

(** The messages that are still to be read. *)
Definition to_read (s : Node ServerImpl) (ms : list (list Z)) : Prop :=
  ∃ l, ctrl_coming s = Some l ∧ delivered ms l.

Lemma to_read_still s s' ms : ctrl_coming s' = ctrl_coming s → to_read s ms → to_read s' ms.
Proof. unfold to_read. by intros ->. Qed.

Lemma send_state_coming t st w t' w' :
  send_state t st w = Done (t', w') → coming t' = coming t.
Proof.
  unfold send_state, write_socket, TcpStream_write, coming. intros H.
  unfold bindM at 1 2, ret at 1 in H. destruct (sock_write _ _) as [r k] eqn:E. cbn in H.
  assert (sk_in k = sk_in (t_sock t)) as Hk.
  { unfold sock_write in E. repeat case_match; by simplify_eq/=. }
  destruct r as [n|[]]; try discriminate H; injection H as <- <-; exact Hk.
Qed.

Lemma still_send_ctrl_state st : still coming (send_ctrl_state st).
Proof.
  unfold send_ctrl_state, put_ctrl. intros s a s' H. mrun H. unfold of_ctrl. simpl.
  match goal with H : get_ctrl _ = _ |- _ => apply get_ctrl_Done in H as [-> ->] end.
  simpl. f_equal. by eapply send_state_coming.
Qed.

(** One call of [drain_ctrl] is one message, or an empty one when none is
    left. *)
Lemma drain_ctrl_delivered s ms r s' :
  drain_ctrl s = Done (r, s') → to_read s ms →
  r = IoOk (hd [] ms) ∧ n_test s' = n_test s ∧ to_read s' (tl ms).
Proof.
  intros H (l & Hl & Hd). unfold of_ctrl in Hl.
  destruct (s_ctrl (n_impl s)) as [c|] eqn:Hc; [|done]. injection Hl as Hl. unfold coming in Hl.
  assert (∃ c', drain_message c (n_world s) = Done ((IoOk (hd [] ms), c'), n_world s) ∧
                delivered (tl ms) (coming c')) as (c' & Hm & Hd').
  { destruct Hd as [|m ms ins rest Hp Hd].
    - exists c. split; [|unfold coming; rewrite Hl; constructor].
      unfold drain_message. cbn [drain_loop]. unfold bindM. cbn.
      unfold TcpStream_read, sock_read, ret. rewrite Hl. destruct c. reflexivity.
    - exists (with_in rest c). split; [|exact Hd]. by eapply drain_message_pieces. }
  erewrite drain_ctrl_Done in H by eassumption. injection H as <- <-.
  split_and!; [done..|]. exists (coming c'). by split.
Qed.

Lemma send_ctrl_state_to_read st s u s' ms :
  send_ctrl_state st s = Done (u, s') → to_read s ms → n_test s' = n_test s ∧ to_read s' ms.
Proof.
  intros H Hs. split; [by apply keeps_send_ctrl_state in H|].
  by eapply to_read_still; [eapply still_send_ctrl_state|].
Qed.

Lemma wake_to_read s r s' ms :
  wake s = Done (r, s') → to_read s ms → n_test s' = n_test s ∧ to_read s' ms.
Proof.
  intros H Hs. split; [by apply keeps_wake in H|].
  by eapply to_read_still; [eapply (still_wake coming)|].
Qed.

Hint Resolve still_send_ctrl_state : still.
Lemma still_streams_created : still coming streams_created.
Proof. unfold streams_created. auto 12 with still. Qed.
Lemma still_count_cookie : still coming count_cookie.
Proof. unfold count_cookie. auto 12 with still. Qed.
End Reading.

#[export] Hint Resolve still_send_ctrl_state still_streams_created still_count_cookie : still.

(** ** In step with the client *)

Section InStep.
Context `{P : Profile} `{J : Serde} `{L : !SerdeLaws} `{TR : Tracing}.

(** The cookie and the settings the client says, and what follows: nothing,
    the byte of [TestEnd], or that and the byte of [End]. *)
Context (cookie : list Z) (c : Settings) (c_ok : settings_ok c) (rest : list (list Z)).
Context (rest_ok : rest `prefix_of` [[TestState_as_u8 TestEnd]; [TestState_as_u8 End_]]).

Definition agreed (t : Test) : Prop := test_cookie t = cookie ∧ test_settings t = c.

Definition in_step (s : Node ServerImpl) : Prop :=
  rtc sstep Start (test_state (n_test s)) ∧
  match test_state (n_test s) with
  | Start => to_read s (cookie :: settings_to_json c :: rest)
  | ParamExchange => test_cookie (n_test s) = cookie ∧ to_read s (settings_to_json c :: rest)
  | CreateStreams | TestStart | TestRunning => agreed (n_test s) ∧ to_read s rest
  | TestEnd | ExchangeResults => agreed (n_test s) ∧ rest ≠ []
  | End_ => agreed (n_test s)
  | Wait => False
  end.

(** What is left of it after an error. *)
Definition in_step_post (s : Node ServerImpl) : Prop :=
  rtc sstep Start (test_state (n_test s)) ∧
  match test_state (n_test s) with
  | Start => True
  | ParamExchange => test_cookie (n_test s) = cookie
  | TestEnd | ExchangeResults => agreed (n_test s) ∧ rest ≠ []
  | _ => agreed (n_test s)
  end.

Lemma in_step_post_of s : in_step s → in_step_post s.
Proof. intros [Hr H]. split; [done|]. destruct (test_state (n_test s)); tauto. Qed.

Definition advances {A} (m : Srv (io_result A)) : Prop :=
  ∀ s r s', m s = Done (r, s') → in_step s → after in_step in_step_post r s'.

(** A handler that does nothing in this state. *)
Lemma advances_same s {A} (a : A) r s' :
  (ret (IoOk a) : Srv (io_result A)) s = Done (r, s') → in_step s → after in_step in_step_post r s'.
Proof. intros [= <- <-] HI. exact HI. Qed.

(** From one state to the next, or staying there, with what goes with it. *)
Lemma in_step_to s s' st :
  in_step s → test_state (n_test s') = st → sstep (test_state (n_test s)) st →
  match st with
  | ParamExchange => test_cookie (n_test s') = cookie ∧ to_read s' (settings_to_json c :: rest)
  | CreateStreams | TestStart | TestRunning => agreed (n_test s') ∧ to_read s' rest
  | TestEnd | ExchangeResults => agreed (n_test s') ∧ rest ≠ []
  | End_ => agreed (n_test s')
  | _ => False
  end → in_step s'.
Proof.
  intros [Hr _] Hst Hs H. split.
  - rewrite Hst. by eapply rtc_r.
  - rewrite Hst. by destruct st.
Qed.

Lemma set_settings_Done t t' :
  set_settings (settings_to_json c) t = Done t' → t' = with_test_settings c t.
Proof using c_ok L. unfold set_settings. rewrite settings_json_roundtrip by done. by intros [= ->]. Qed.

Lemma frame_agreed t t' :
  frame_of t' = frame_of t → test_cookie t' = test_cookie t → agreed t → agreed t'.
Proof. by intros [= _ Hc _ _ _ _] Hk [? ?]; split; [rewrite Hk|rewrite Hc]. Qed.

Lemma end_sums_cookie t t' : end_sums t = Done t' → test_cookie t' = test_cookie t.
Proof. unfold end_sums. intros H. destruct (conn t); mrun H; done. Qed.

Lemma end_test_agreed t w t' w' : end_test t w = Done (t', w') → agreed t → agreed t'.
Proof.
  intros H. apply frame_agreed; [by eapply end_test_frame|]. unfold end_test in H. mrun H.
  match goal with H : end_sums _ = _ |- _ => apply end_sums_cookie in H end. done.
Qed.

(** What a running server reads. *)
Lemma read_next_state_in s st s' :
  read_next_state s = Done (st, s') → agreed (n_test s) → to_read s rest →
  agreed (n_test s') ∧ (st = TestEnd ∧ rest ≠ [] ∨ st = End_).
Proof using rest_ok.
  intros H Ha Hr. unfold read_next_state in H. mrun H.
  match goal with H : drain_ctrl _ = _ |- _ =>
    eapply drain_ctrl_delivered in H as (Hx & Ht & _); [|exact Hr] end. rewrite Hx in H.
  destruct rest as [|m ms].
  - simpl in H. mrun H. split; [|by right]. eapply end_test_agreed; [eassumption|]. by rewrite Ht.
  - destruct rest_ok as [k Hk]. injection Hk as <- _. simpl in H. mrun H.
    split; [by rewrite Ht|by left].
Qed.

Ltac read_one Hm :=
  match goal with H : drain_ctrl _ = _ |- _ =>
    eapply drain_ctrl_delivered in H as (? & ?Ht & ?Hd); [|exact Hm]; simplify_eq/= end.
Ltac say_state :=
  match goal with H : send_ctrl_state _ ?s1 = _, Hd : to_read _ _ |- _ =>
    eapply (send_ctrl_state_to_read _ s1) in H as [?Ht' ?Hd']; [|exact Hd] end.

Lemma on_control_advances ev : advances (on_control ev).
Proof.
  intros s r s' H HI. unfold on_control in H. mrun H.
  pose proof HI as [Hr Hm].
  destruct (test_state (n_test s)) eqn:Hst.
  - destruct (ev_readable ev); [|by eapply advances_same].
    mrun H; read_one Hm. say_state.
    apply (in_step_to s _ ParamExchange); [done|by rewrite Ht'|rewrite Hst; constructor|].
    by rewrite Ht'.
  - destruct (ev_readable ev); [|by eapply advances_same].
    destruct Hm as [Hck Hm]. mrun H; read_one Hm.
    all: match goal with H : set_settings _ _ = _ |- _ => apply set_settings_Done in H as -> end.
    all: match goal with H : listen ?s1 = Done (_, ?s2) |- _ =>
      assert (n_test s2 = n_test s1) as Hl by (by eapply keeps_listen);
      assert (to_read s2 rest) as Hd2 by (eapply (to_read_still s1); [by eapply (still_listen coming)|exact Hd]);
      simpl in Hl end.
    + say_state. apply (in_step_to s _ CreateStreams); [done|by rewrite Ht'|rewrite Hst; constructor|].
      rewrite Ht'. simpl. by rewrite Hl.
    + split; rewrite Hl; simpl; by rewrite Hst.
  - by eapply advances_same.
  - by eapply advances_same.
  - destruct (ev_readable ev); [|by eapply advances_same].
    destruct Hm as [Ha Hm]. mrun H.
    all: match goal with H : read_next_state _ = _ |- _ => apply read_next_state_in in H as [Ha' Hs]; [|done..] end.
    all: match goal with H : wake _ = _ |- _ => apply keeps_wake in H; simpl in H; rename H into Ht end.
    2: apply in_step_post_of.
    all: destruct Hs as [[-> Hne]| ->]; (eapply (in_step_to s); [done|by rewrite Ht|rewrite Hst; constructor|]);
      by rewrite Ht.
  - destruct Hm as [Ha Hne]. mrun H.
    all: match goal with H : end_test _ _ = _ |- _ => apply end_test_agreed in H as Ha'; [|done] end.
    all: match goal with H : wake _ = _ |- _ => apply keeps_wake in H; simpl in H; rename H into Ht end.
    2: apply in_step_post_of.
    all: (eapply (in_step_to s _ ExchangeResults); [done|by rewrite Ht|rewrite Hst; constructor|]);
      by rewrite Ht.
  - by destruct Hm.
  - destruct Hm as [Ha Hne]. mrun H; use_keeps; simpl in *.
    2: apply in_step_post_of; split; [by rw_tests; rewrite Hst|by rw_tests; rewrite Hst].
    apply (in_step_to s _ End_); [done|done|rewrite Hst; constructor|]. by rw_tests.
  - mrun H. split; simpl; by rewrite Hst.
Qed.

(** ** The other handlers *)

(** A handler that leaves alone what is to come, and the names, and moves the
    state from [st] at most one step on. *)
Lemma in_step_quiet s s' :
  in_step s → ctrl_coming s' = ctrl_coming s →
  (agreed (n_test s) → agreed (n_test s')) →
  test_state (n_test s') = test_state (n_test s) ∧ (test_cookie (n_test s') = test_cookie (n_test s)) ∨
  test_state (n_test s) = CreateStreams ∧ test_state (n_test s') = TestStart ∨
  test_state (n_test s) = TestStart ∧ test_state (n_test s') = TestRunning →
  in_step s'.
Proof.
  intros HI Hc Ha Hs. pose proof HI as [Hr Hm].
  destruct Hs as [[Hs Hk]|[[Hs Hs']|[Hs Hs']]].
  - split; rewrite Hs; [done|]. rewrite Hk.
    destruct (test_state (n_test s)); intuition eauto using to_read_still.
  - apply (in_step_to s _ TestStart); rewrite ?Hs in *; [done..|constructor|]. intuition eauto using to_read_still.
  - apply (in_step_to s _ TestRunning); rewrite ?Hs in *; [done..|constructor|]. intuition eauto using to_read_still.
Qed.

Lemma created_in_step {A} (m : Srv A) s a s1 u s' :
  still coming m → m s = Done (a, s1) → stream_added (n_test s) (n_test s1) →
  streams_created s1 = Done (u, s') → test_state (n_test s) = CreateStreams →
  in_step s → in_step s'.
Proof.
  intros Hm H [p Ht] Hc Hst HI. apply (in_step_quiet s); [done| | |].
  - etrans; [by eapply still_streams_created|by eapply Hm].
  - apply streams_created_Done in Hc as [[_ ->]|[_ ->]]; by rewrite Ht.
  - apply streams_created_Done in Hc as [[_ ->]|[_ ->]]; rewrite Ht; auto.
Qed.

Lemma on_tcp_listener_advances ev : advances (on_tcp_listener ev).
Proof.
  intros s r s' H HI. unfold on_tcp_listener in H. mrun H.
  destruct (test_state (n_test s)) eqn:Hst; try by eapply advances_same. mrun H.
  eapply (created_in_step create_tcp_stream); eauto using create_tcp_stream_added with still.
Qed.
Lemma on_tls_listener_advances ev : advances (on_tls_listener ev).
Proof.
  intros s r s' H HI. unfold on_tls_listener in H. mrun H.
  destruct (test_state (n_test s)) eqn:Hst; try by eapply advances_same. mrun H.
  eapply (created_in_step create_tls_stream); eauto using create_tls_stream_added with still.
Qed.
Lemma on_udp_listener_advances ev : advances (on_udp_listener ev).
Proof.
  intros s r s' H HI. unfold on_udp_listener in H. mrun H.
  destruct (test_state (n_test s)) eqn:Hst, (ev_readable ev); try by eapply advances_same. mrun H.
  eapply (created_in_step create_udp_stream); eauto using create_udp_stream_added with still.
Qed.
Lemma on_quic_listener_advances ev : advances (on_quic_listener ev).
Proof.
  intros s r s' H HI. unfold on_quic_listener in H. mrun H.
  destruct (test_state (n_test s)) eqn:Hst, (ev_readable ev); try by eapply advances_same. mrun H.
  eapply (created_in_step create_quic_stream); eauto using create_quic_stream_added with still.
Qed.

(** The streams and the counts of a test are no concern of the conversation. *)
Definition named (t : Test) : TestState * list Z * Settings :=
  (test_state t, test_cookie t, test_settings t).

Lemma read_stream_cookie_named t i w t' w' :
  read_stream_cookie t i w = Done (IoOk t', w') → named t' = named t.
Proof.
  unfold read_stream_cookie. intros H. mrun H.
  destruct (conn t); mrun H; repeat (case_match; mrun H); by simplify_eq.
Qed.
Lemma receive_named t i w t' w' : receive t i w = Done (t', w') → named t' = named t.
Proof. unfold receive. intros H. mrun H. done. Qed.
Lemma start_named t w t' w' : start t w = Done (t', w') → named t' = named t.
Proof. unfold start. intros H. mrun H. done. Qed.

Lemma count_cookie_named s u s' :
  count_cookie s = Done (u, s') →
  named (n_test s') = named (n_test s) ∨ named (n_test s') = named (transition TestRunning (n_test s)).
Proof.
  unfold count_cookie. intros H. mrun H.
  lazymatch type of H with (if ?b then _ else _) _ = _ => destruct b end; mrun H; [right|by left].
  use_keeps. match goal with H : start _ _ = _ |- _ => apply start_named in H end.
  match goal with Hn : named ?t = _ |- named ?t = _ => rewrite Hn end. by rw_tests.
Qed.

Lemma on_stream_advances ev : advances (on_stream ev).
Proof.
  intros s r s' H HI. unfold on_stream in H. mrun H.
  destruct (test_state (n_test s)) eqn:Hst, (ev_readable ev); try by eapply advances_same.
  all: mrun H; try done.
  - match goal with H : read_stream_cookie _ _ _ = _ |- _ => apply read_stream_cookie_named in H as [= Hs Hk Hc] end.
    match goal with H : count_cookie _ = _ |- _ =>
      pose proof (still_count_cookie _ _ _ H) as Hin; apply count_cookie_named in H as Hn end.
    simpl in Hn. apply (in_step_quiet s); [done|exact Hin| |].
    + unfold agreed. destruct Hn as [[= _ -> ->]|[= _ -> ->]]; simpl; by rewrite Hk, Hc.
    + destruct Hn as [[= -> -> _]|[= -> _ _]]; [left; by split|right; right; by split].
  - exact (in_step_post_of s HI).
  - match goal with H : receive _ _ _ = _ |- _ => apply receive_named in H as [= Hs Hk Hc] end.
    apply (in_step_quiet s); [done|done| |left; by split]. unfold agreed. simpl. by rewrite Hk, Hc.
Qed.

Lemma handle_advances ev : advances (handle ev).
Proof.
  intros s a s' H. unfold handle in H.
  repeat case_match; first
    [by eapply on_control_advances|by eapply on_tcp_listener_advances
    |by eapply on_udp_listener_advances|by eapply on_quic_listener_advances
    |by eapply on_tls_listener_advances|by eapply on_stream_advances].
Qed.

Lemma on_idle_advances : advances on_idle.
Proof.
  intros s r s' H HI. unfold on_idle, reset_counter_inc in H. mrun H.
  match goal with H : bindR _ _ = _ |- _ => mrun H end. exact HI.
Qed.

Lemma loop_in_step batches s r s' :
  event_loop handle on_idle batches s = Done (r, s') → in_step s → in_step_post s'.
Proof.
  intros H. eapply (event_loop_after handle on_idle in_step in_step_post); [| | | |exact H].
  - apply in_step_post_of.
  - intros ev s1 r1 s2 H1 H2. by eapply handle_advances.
  - intros s1 r1 s2 H1 H2. by eapply on_idle_advances.
  - intros s1 w HI. exact HI.
Qed.
End InStep.

(** ** Both sides *)

Section Sides.
Context `{P : Profile} `{J : Serde} `{L : !SerdeLaws} `{TR : Tracing}.

(** What a client says that has gone past its settings. *)
Lemma script_split c st ms :
  script (settings_to_json c) st = Some ms → st ≠ Start → st ≠ ParamExchange →
  ∃ rest, ms = bytes_of make_cookie :: settings_to_json c :: rest ∧
    rest `prefix_of` [[TestState_as_u8 TestEnd]; [TestState_as_u8 End_]] ∧
    (rest ≠ [] → st = ExchangeResults ∨ st = End_).
Proof.
  intros Hs H1 H2. destruct st; simplify_eq/=; eexists; (split; [done|]);
    (split; [by eexists|]); auto; done.
Qed.

End Sides.
