(* ===== verification/ClientMain.v ===== *)
(** * The client as a program ([main] of [src/src/main.rs], [ClientImpl::new]) *)
From S2P Require Import Prelude F64 Params Env Kinds Tcp Net Udp Tls Quic Metrics Report PerfStream.
From S2P Require Import TestCore Node Client.

Section Main.
Context `{P : Profile} `{J : Serde} `{TR : Tracing}.

(** [IpAddr::from_str] succeeds. *)
Context (ip_ok : Str → bool).

(** [ClientImpl::new]: an address that cannot be read ends the program with
    code 1; the connection's own options are best effort. *)
Definition ClientImpl_new (param : PerfParams) (attempts : list Attempt) (supply : ClientSupply) :
    M World (io_result ClientImpl) :=
  let! _ := (match p_client param with
             | None => ret ()
             | Some a => if ip_ok a then ret () else crashM (Exited 1)
             end) in
  let? ctrl := Tcp.connect attempts in
  let fd := stream_fd ctrl in
  let! _ := set_nodelay fd in
  let! _ := set_linger fd in
  let! _ := set_nonblocking fd in
  let! _ := Tcp.mss ctrl in
  ret (IoOk (mkClientImpl ctrl false supply)).

(** [main] as a client: the result of the run is the exit code; a run that
    has not ended waits for its next event. *)
Definition main_client (param : PerfParams) (attempts : list Attempt) (supply : ClientSupply)
    (fuel : nat) (batches : list (list Event)) : M World (io_result ()) :=
  let! test := Test_from param in
  let? client := ClientImpl_new param attempts supply in
  λ w, match run fuel batches (mkNode client test w) with
       | Done (IoOk None, s) => Done (IoOk (), n_world s)
       | Done (IoOk (Some _), s) => Crash (Exited 0)
       | Done (IoErr _, s) => Crash (Exited 1)
       | Crash c => Crash c
       end.

(** ** When the client is done *)

Lemma client_on_control_return ev s v s' :
  on_control ev s = Done (IoOk (Return v), s') →
  v = 0 ∧ (test_state (n_test s) = End_ ∨
           test_state (n_test s) = TestRunning ∧ c_running (n_impl s) = true).
Proof.
  unfold on_control. intros H. mrun H.
  destruct (test_state (n_test s)) eqn:Hst; mrun H; repeat (case_match; mrun H); auto.
Qed.

Lemma client_handle_return fuel ev s v s' :
  handle fuel ev s = Done (IoOk (Return v), s') →
  v = 0 ∧ ev_token ev = CONTROL ∧ (test_state (n_test s) = End_ ∨
           test_state (n_test s) = TestRunning ∧ c_running (n_impl s) = true).
Proof.
  unfold handle. intros H.
  destruct (Z.eqb_spec (ev_token ev) CONTROL).
  { apply client_on_control_return in H as [? ?]. by split_and!. }
  destruct (ev_token ev =? STREAM); [|mrun H].
  unfold on_stream in H. mrun H. repeat (case_match; mrun H).
Qed.

(** An event on which the client is done: its session has ended or, while the
    test runs, the server says something more. *)
Definition done_at (fuel : nat) (s s' : Node ClientImpl) (ev : Event) : Prop :=
  handle fuel ev s = Done (IoOk (Return 0), s') ∧ ev_token ev = CONTROL ∧
  (test_state (n_test s) = End_ ∨
   test_state (n_test s) = TestRunning ∧ c_running (n_impl s) = true).

Lemma client_returns_at_end fuel evs s v s' :
  handle_events (handle fuel) evs s = Done (IoOk (Some v), s') →
  v = 0 ∧ ∃ s1 ev, ev ∈ evs ∧ done_at fuel s1 s' ev.
Proof.
  revert s. induction evs as [|ev evs IH]; intros s H; cbn [handle_events] in H; mrun H.
  match goal with H : handle fuel ev s = Done (IoOk ?f, _) |- _ => destruct f; rename H into Hh end;
    mrun H.
  - apply IH in H as (-> & s1 & ev1 & Hin & H1). split; [done|]. exists s1, ev1.
    split; [by right|done].
  - pose proof Hh as Hr. apply client_handle_return in Hr as (-> & Ht & Hr). split; [done|].
    exists s, ev. split; [by left|done].
Qed.

Lemma client_loop_return fuel batches s v s' :
  event_loop (handle fuel) (ret (IoOk None)) batches s = Done (IoOk (Some v), s') →
  v = 0 ∧ ∃ s1 ev, ev ∈ concat batches ∧ done_at fuel s1 s' ev.
Proof.
  revert s. induction batches as [|evs rest IH]; intros s H; cbn [event_loop] in H; mrun H.
  match type of H with (match ?r with _ => _ end) _ = _ => destruct r as [v1|] end.
  - mrun H. match goal with H : _ _ = Done (IoOk (Some v), s') |- _ => rename H into Hv end.
    destruct evs as [|ev evs]; [by mrun Hv|].
    apply client_returns_at_end in Hv as (-> & s1 & ev1 & Hin & Hd). split; [done|].
    exists s1, ev1. split; [|done]. cbn [concat]. apply elem_of_app. by left.
  - apply IH in H as (-> & s1 & ev1 & Hin & Hd). split; [done|].
    exists s1, ev1. split; [|done]. cbn [concat]. apply elem_of_app. by right.
Qed.
End Main.
