(* ===== verification/Program.v ===== *)
(** * The program ([main] of [src/src/main.rs])

    The command line decides the role; each role is one of [main_server] and
    [main_client].  How the process ends follows from how its role ends. *)
From S2P Require Import Prelude F64 Params Env Kinds Tcp Net Udp Tls Quic Metrics Report PerfStream.
From S2P Require Import TestCore Node Total Server ServerTotal ServerMain Client ClientSend ClientTotal ClientMain.

Section Program.
Context `{P : Profile} `{J : Serde} `{TR : Tracing} `{U : Unicode}.
Context (ip_ok : Str → bool).

(** What the outside contributes: to a server its sessions, to a client how
    the control connection is made, the sockets for its data, and the events. *)
Record Outside : Type := mkOutside {
  o_sessions : list SessionInput;
  o_attempts : list Attempt;
  o_supply : ClientSupply;
  o_fuel : nat;
  o_batches : list (list Event)
}.

Definition main (opts : list Opt) (x : Outside) : M World (io_result ()) :=
  let! param := liftR (parse_args opts) in
  match p_mode param with
  | SERVER => main_server ip_ok param (o_sessions x)
  | CLIENT => main_client ip_ok param (o_attempts x) (o_supply x) (o_fuel x) (o_batches x)
  end.

(** The status of the process: an error that [main] returns is 1, a panic 101.
    A program that waits has none. *)
Definition exit_status (r : res (io_result () * World)) : option Z :=
  match r with
  | Done (IoOk _, _) => None
  | Done (IoErr _, _) => Some 1
  | Crash (Panicked _) => Some 101
  | Crash (Exited k) => Some k
  | Crash _ => None
  end.

(** ** The command line *)

Lemma parse_args_crash opts c :
  parse_args opts = Crash c → c = Exited 1 ∨ benign c.
Proof.
  assert (∀ s, res_ok (getrate_in_bits s)) as Hr.
  { intros s. unfold getrate_in_bits, kmg_to_bits, mul_u. fuel_tac. }
  unfold parse_args. destruct (_ && _); [intros [= <-]; by left|].
  intros H. right. revert H. apply ends_Crash. apply res_ok_bind; [done|]. intros r.
  apply res_ok_bind; done.
Qed.

(** ** The server *)

Lemma fuel_ok_accept fd rounds : fuel_ok (accept fd rounds).
Proof.
  assert (∀ evs, fuel_ok (accept_events fd evs)) as He
    by (induction evs; cbn [accept_events]; fuel_tac).
  unfold accept. apply fuel_ok_bindIo; [fuel_tac|]. intros _.
  induction rounds; cbn [accept_rounds]; fuel_tac.
Qed.

Lemma fuel_ok_server_run rounds batches : fuel_ok (Server.run rounds batches).
Proof.
  unfold Server.run, Server.put_ctrl, set_nodelay, set_linger, set_nonblocking, set_option.
  assert (fuel_ok (event_loop Server.handle on_idle batches)) as Hl
    by (apply fuel_ok_loop; [apply fuel_ok_handle|apply fuel_ok_on_idle]).
  auto 40 using fuel_ok_accept with fuel.
Qed.

Lemma fuel_ok_Test_from param : fuel_ok (Test_from param).
Proof. unfold Test_from, Test_new. fuel_tac. Qed.

Lemma fuel_ok_ServerImpl_new param l k : fuel_ok (ServerImpl_new ip_ok param l k).
Proof. unfold ServerImpl_new, bind_address. fuel_tac. Qed.

Lemma fuel_ok_serve param x : fuel_ok (serve ip_ok param x).
Proof.
  unfold serve. apply fuel_ok_bind; [apply fuel_ok_Test_from|]. intros t.
  apply fuel_ok_bindIo; [apply fuel_ok_ServerImpl_new|]. intros s w.
  pose proof (fuel_ok_server_run (si_rounds x) (si_batches x) (mkNode s t w)) as Hr.
  by destruct (Server.run _ _ _) as [[]|].
Qed.

Lemma fuel_ok_main_server param l : fuel_ok (main_server ip_ok param l).
Proof.
  induction l as [|x l IH]; cbn [main_server]; [fuel_tac|]. auto 20 using fuel_ok_serve with fuel.
Qed.

(** Only a listener that cannot be had ends the loop of sessions. *)
Lemma main_server_error param l w e w' :
  main_server ip_ok param l w = Done (IoErr e, w') →
  ∃ y w1, y ∈ l ∧ ServerImpl_new ip_ok param (si_listener y) (si_supply y) w1 = Done (IoErr e, w').
Proof.
  revert w. induction l as [|y l IH]; intros w H; cbn [main_server] in H; [by mrun H|].
  apply bindIo_Done in H as [([r t] & w1 & Hs & H)|(e1 & w1 & Hs & [= <- <-])].
  - assert (∃ w2, main_server ip_ok param l w2 = Done (IoErr e, w')) as [w2 H2].
    { destruct r as [[v|]|e2]; mrun H; eauto. }
    apply IH in H2 as (z & w3 & Hz & H3). exists z, w3. split; [by right|done].
  - unfold serve in Hs. apply bindM_Done in Hs as (t & w2 & _ & Hs).
    apply bindIo_Done in Hs as [(i & w3 & _ & Hs)|(e2 & w3 & Hs & [= <- <-])].
    + by destruct (Server.run _ _ _) as [[]|].
    + exists y, w2. split; [by left|done].
Qed.

(** ** The client *)

(** The client's send loop may go on for ever, but never exits. *)
Definition stays (c : crash) : Prop := match c with Exited _ => False | _ => True end.

Lemma fuel_ok_stays {W A} (m : M W A) : fuel_ok m → ∀ w, ends stays (m w).
Proof. intros Hm w. eapply ends_weaken; [|apply Hm]. by intros []. Qed.

Lemma send_stays fuel t w : ends stays (send fuel t w).
Proof.
  unfold send. apply ends_bind; [apply fuel_ok_stays; fuel_tac|]. intros e.
  apply ends_bind; [|by intros [ps s]]. generalize (plan_of t), (test_streams t), (mkSendState
    (test_data t) (test_metrics t) e (buf_repeat 1 MAX_UDP_PAYLOAD) false).
  induction fuel as [|fuel IH]; intros sp ps s; cbn [send_loop]; destruct (ss_try_later s); try done.
  apply ends_bind; [apply fuel_ok_stays, fuel_ok_send_streams|]. intros [ps' s']. apply IH.
Qed.

Lemma client_handle_stays fuel ev s : ends stays (Client.handle fuel ev s).
Proof.
  unfold Client.handle. destruct (_ =? _); [apply fuel_ok_stays, fuel_ok_client_control|].
  destruct (_ =? _); [|done]. unfold Client.on_stream.
  apply ends_bind; [done|]. intros t. destruct (test_state t); try done.
  destruct (ev_writable ev); [|done]. apply ends_bind.
  - intros s1. unfold onWorld. pose proof (send_stays fuel t (n_world s1)) as Hs.
    by destruct (send fuel t (n_world s1)) as [[]|].
  - intros [t' e]. apply fuel_ok_stays. destruct fuel_ok_client_ctrl as (_ & _ & H3 & _).
    auto 30 using fuel_ok_close_streams with fuel.
Qed.

Lemma fuel_ok_prepare : fuel_ok prepare.
Proof. unfold prepare, Tcp.mss. fuel_tac. Qed.

Lemma client_run_stays fuel batches s : ends stays (Client.run fuel batches s).
Proof.
  unfold Client.run. apply ends_bindIo; [apply fuel_ok_stays, fuel_ok_prepare|]. intros _.
  apply ends_loop; [apply client_handle_stays|done].
Qed.

(** The client's run and what comes before it. *)
Definition client_ran (param : PerfParams) (x : Outside) (w : World)
    (r : io_result (option Z)) (s : Node ClientImpl) : Prop :=
  ∃ test w1 client w2, Test_from param w = Done (test, w1) ∧
    ClientImpl_new ip_ok param (o_attempts x) (o_supply x) w1 = Done (IoOk client, w2) ∧
    Client.run (o_fuel x) (o_batches x) (mkNode client test w2) = Done (r, s).

Lemma ClientImpl_new_exits param l p w k :
  ClientImpl_new ip_ok param l p w = Crash (Exited k) →
  k = 1 ∧ ∃ a, p_client param = Some a ∧ ip_ok a = false.
Proof.
  unfold ClientImpl_new. unfold bindM at 1, ret at 1 2. intros H.
  assert (∀ m : M World (io_result ClientImpl), fuel_ok m → m w ≠ Crash (Exited k)) as Hno.
  { intros m Hm E. specialize (Hm w). by rewrite E in Hm. }
  destruct (p_client param) as [a|].
  1: destruct (ip_ok a) eqn:Ea; [|injection H as <-; split; [done|by exists a]].
  all: exfalso; refine (Hno _ _ H);
    unfold set_nodelay, set_linger, set_nonblocking, set_option, Tcp.mss;
    auto 40 using fuel_ok_connect with fuel.
Qed.

Lemma main_client_exits param x w k :
  main_client ip_ok param (o_attempts x) (o_supply x) (o_fuel x) (o_batches x) w = Crash (Exited k) →
  k = 1 ∧ (∃ a, p_client param = Some a ∧ ip_ok a = false) ∨
  k = 1 ∧ (∃ e s, client_ran param x w (IoErr e) s) ∨
  k = 0 ∧ (∃ v s, client_ran param x w (IoOk (Some v)) s).
Proof.
  unfold main_client. intros H. unfold bindM at 1 in H.
  pose proof (fuel_ok_Test_from param w) as Ht.
  destruct (Test_from param w) as [[test w1]|c] eqn:Et; [|by simplify_eq/=].
  unfold bindIo, bindM in H.
  destruct (ClientImpl_new _ _ _ _ w1) as [[[client|e] w2]|c] eqn:Ec; [|done|].
  - right. pose proof (client_run_stays (o_fuel x) (o_batches x) (mkNode client test w2)) as Hs.
    destruct (Client.run _ _ _) as [[[[v|]|e] s]|c] eqn:Er; simplify_eq/=; try done.
    + right. split; [done|]. exists v, s, test, w1, client, w2. by split_and!.
    + left. split; [done|]. exists e, s, test, w1, client, w2. by split_and!.
  - left. injection H as ->. by apply ClientImpl_new_exits in Ec.
Qed.

Lemma main_client_error param x w e w' :
  main_client ip_ok param (o_attempts x) (o_supply x) (o_fuel x) (o_batches x) w = Done (IoErr e, w') →
  ∃ w1, ClientImpl_new ip_ok param (o_attempts x) (o_supply x) w1 = Done (IoErr e, w').
Proof.
  unfold main_client. intros H. apply bindM_Done in H as (t & w1 & _ & H). exists w1.
  apply bindIo_Done in H as [(i & w2 & _ & H)|(e1 & w2 & H & [= <- <-])]; [|done].
  by destruct (Client.run _ _ _) as [[[[]|]]|].
Qed.

Lemma client_ran_return param x w v s :
  client_ran param x w (IoOk (Some v)) s → v = 0 ∧ ∃ s1 ev, done_at (o_fuel x) s1 s ev.
Proof.
  intros (t & w1 & c & w2 & _ & _ & H). unfold Client.run in H. mrun H.
  match goal with H : event_loop _ _ _ _ = _ |- _ =>
    apply client_loop_return in H as (-> & s1 & ev & _ & Hd) end. eauto.
Qed.

(** ** The whole program *)

(** How a role that is the server's, or the client's, ends with a status. *)
Definition server_ends (param : PerfParams) (x : Outside) (k : Z) : Prop :=
  k = 1 ∧ ∃ y w1 e w2, y ∈ o_sessions x ∧
    ServerImpl_new ip_ok param (si_listener y) (si_supply y) w1 = Done (IoErr e, w2).

Definition client_ends (param : PerfParams) (x : Outside) (w : World) (k : Z) : Prop :=
  k = 1 ∧ ((∃ a, p_client param = Some a ∧ ip_ok a = false) ∨
           (∃ w1 e w2, ClientImpl_new ip_ok param (o_attempts x) (o_supply x) w1 = Done (IoErr e, w2)) ∨
           (∃ e s, client_ran param x w (IoErr e) s)) ∨
  k = 0 ∧ ∃ s s1 ev, client_ran param x w (IoOk (Some 0)) s ∧ done_at (o_fuel x) s1 s ev.

Lemma main_server_status param x w k :
  exit_status (main_server ip_ok param (o_sessions x) w) = Some k →
  (k = 101 ∧ ∃ why, main_server ip_ok param (o_sessions x) w = Crash (Panicked why)) ∨
  server_ends param x k.
Proof.
  pose proof (fuel_ok_main_server param (o_sessions x) w) as Hf.
  destruct (main_server _ _ _ w) as [[[u|e] w']|[why| | |]] eqn:E; simpl; intros [= <-]; try done.
  - right. split; [done|]. apply main_server_error in E as (y & w1 & Hy & H). by exists y, w1, e, w'.
  - left. eauto.
Qed.

Lemma main_client_status param x w k :
  let r := main_client ip_ok param (o_attempts x) (o_supply x) (o_fuel x) (o_batches x) w in
  exit_status r = Some k → (k = 101 ∧ ∃ why, r = Crash (Panicked why)) ∨ client_ends param x w k.
Proof.
  cbv zeta. destruct (main_client _ _ _ _ _ _ w) as [[[u|e] w']|[why|n| |]] eqn:E; simpl; intros [= <-].
  - right. left. split; [done|]. right; left. apply main_client_error in E as [w1 H]. eauto.
  - left. eauto.
  - right. apply main_client_exits in E as [[-> H]|[[-> H]|[-> (v & s & H)]]].
    + left. auto.
    + left. auto.
    + right. split; [done|]. pose proof H as Hr. apply client_ran_return in Hr as (-> & s1 & ev & Hd). eauto.
Qed.

End Program.
