(* ===== verification/Codec.v ===== *)
(** * A text format that satisfies the laws of [Serde]

    The development takes [serde_json] as a parameter with its round-trip
    laws.  This instance shows that the laws can be met and lets whole runs be
    evaluated: values become lists of numbers and those a string of binary
    digits.  It is not the format the program uses.  [demo_tracing] stands in
    for the histograms in the same way. *)
From stdpp Require Import countable.
From stdpp Require Import gmap.
From S2P Require Import Prelude F64 Params Env Kinds Metrics Report PerfStream TestCore.
From Stdlib Require Import SpecFloat.

(** ** Numbers as text *)

Fixpoint digits (p : positive) : list Z :=
  match p with xH => [] | xO q => 48 :: digits q | xI q => 49 :: digits q end.

Fixpoint undigits (l : list Z) : positive :=
  match l with [] => xH | c :: r => if c =? 48 then xO (undigits r) else xI (undigits r) end.

Lemma undigits_digits p : undigits (digits p) = p.
Proof. by induction p as [p IH|p IH|]; simpl; rewrite ?IH. Qed.

Lemma digits_ascii p : Forall (λ b, 0 ≤ b < 128) (digits p).
Proof. induction p; simpl; constructor; done. Qed.

(** The closing bracket keeps the text from being empty. *)
Definition text (l : list Z) : list Z := 91 :: digits (encode l).
Definition untext (s : list Z) : option (list Z) :=
  match s with [] => None | _ :: r => decode (undigits r) end.

Lemma untext_text l : untext (text l) = Some l.
Proof. unfold untext, text. by rewrite undigits_digits, decode_encode. Qed.

Lemma trim_start_id s : Forall (λ c, is_space c = false) s → trim_start s = s.
Proof. destruct 1 as [|c s Hc _]; simpl; [done|]. by rewrite Hc. Qed.

Lemma trim_id s : Forall (λ c, is_space c = false) s → trim s = s.
Proof.
  intros H. unfold trim. rewrite (trim_start_id s) by done.
  rewrite trim_start_id by by apply Forall_reverse. by rewrite reverse_involutive.
Qed.

Lemma digits_no_space p : Forall (λ c, is_space c = false) (digits p).
Proof. induction p; simpl; constructor; done. Qed.

Lemma text_ascii l : ascii_message (text l).
Proof. split; [done|]. constructor; [done|apply digits_ascii]. Qed.

(** ** Values as numbers *)

Definition Conn_num (c : Conn) : Z := match c with TCP => 0 | UDP => 1 | QUIC => 2 | TLS => 3 end.
Definition num_Conn (z : Z) : Conn :=
  if z =? 0 then TCP else if z =? 1 then UDP else if z =? 2 then QUIC else TLS.
Definition mode_num (m : StreamMode) : Z := match m with SENDER => 0 | RECEIVER => 1 | BOTH => 2 end.
Definition num_mode (z : Z) : StreamMode :=
  if z =? 0 then SENDER else if z =? 1 then RECEIVER else BOTH.

Lemma num_Conn_num c : num_Conn (Conn_num c) = c.
Proof. by destruct c. Qed.
Lemma num_mode_num m : num_mode (mode_num m) = m.
Proof. by destruct m. Qed.

Definition settings_nums (c : Settings) : list Z :=
  [Conn_num (cfg_conn c); cfg_num_streams c; cfg_recv_timeout c; cfg_mss c; cfg_bitrate c;
   cfg_sndbuf c; cfg_rcvbuf c; cfg_time c; cfg_bytes c; cfg_blks c; cfg_length c].

Definition nums_settings (l : list Z) : option Settings :=
  match l with
  | [a; b; c; d; e; f; g; h; i; j; k] => Some (mkSettings (num_Conn a) b c d e f g h i j k)
  | _ => None
  end.

Lemma nums_settings_nums c : nums_settings (settings_nums c) = Some c.
Proof. destruct c. cbn. by rewrite num_Conn_num. Qed.

Definition f64_nums (x : f64) : list Z :=
  match x with
  | S754_zero s => [0; if s then 1 else 0; 0; 0]
  | S754_infinity s => [1; if s then 1 else 0; 0; 0]
  | S754_nan => [2; 0; 0; 0]
  | S754_finite s m e => [3; if s then 1 else 0; Zpos m; e]
  end.

Definition nums_f64 (k s m e : Z) : f64 :=
  if k =? 0 then S754_zero (s =? 1)
  else if k =? 1 then S754_infinity (s =? 1)
  else if k =? 2 then S754_nan
  else S754_finite (s =? 1) (Z.to_pos m) e.

Definition data_nums (d : StreamData) : list Z :=
  [sd_bytes d; sd_blks d; sd_lost d; sd_retr d; sd_cwnd d].

Definition stream_nums (s : StreamWire) : list Z :=
  [mode_num (sw_mode s); fst (sw_stream s); snd (sw_stream s)]
  ++ f64_nums (sw_elapsed s) ++ data_nums (sw_data s).

Definition wire_nums (a : TestWire) : list Z :=
  [mode_num (tw_mode a); mode_num (tw_peer_mode a)] ++ f64_nums (tw_elapsed a)
  ++ data_nums (tw_data a) ++ concat (map stream_nums (tw_streams a)).

Fixpoint nums_streams (fuel : nat) (l : list Z) : option (list StreamWire) :=
  match fuel, l with
  | _, [] => Some []
  | S fuel', m :: fd :: c :: k :: s :: x :: e :: b1 :: b2 :: b3 :: b4 :: b5 :: r =>
      rest ← nums_streams fuel' r;
      Some (mkStreamWire (num_mode m) (fd, c) (nums_f64 k s x e) (mkStreamData b1 b2 b3 b4 b5) :: rest)
  | _, _ => None
  end.

Definition nums_wire (l : list Z) : option TestWire :=
  match l with
  | m :: pm :: k :: s :: x :: e :: b1 :: b2 :: b3 :: b4 :: b5 :: r =>
      ss ← nums_streams (length r) r;
      Some (mkTestWire (num_mode m) ss (nums_f64 k s x e) (mkStreamData b1 b2 b3 b4 b5) (num_mode pm))
  | _ => None
  end.

Lemma f64_nums_cons x : ∃ k s m e, f64_nums x = [k; s; m; e] ∧ nums_f64 k s m e = x.
Proof. destruct x as [[]|[]| |[] ? ?]; by repeat eexists. Qed.

Lemma nums_streams_nums fuel l :
  (length l ≤ fuel)%nat → nums_streams fuel (concat (map stream_nums l)) = Some l.
Proof.
  revert l. induction fuel as [|fuel IH]; intros [|[m [fd c] x [b1 b2 b3 b4 b5]] l] Hl;
    try done; [simpl in Hl; lia|].
  destruct (f64_nums_cons x) as (k & s & m0 & e & E & Hx).
  cbn [map concat]. unfold stream_nums. cbn [sw_mode sw_stream sw_elapsed sw_data].
  rewrite E. cbn. rewrite IH by (simpl in Hl; lia). cbn. by rewrite num_mode_num, Hx.
Qed.

Lemma nums_wire_nums a : nums_wire (wire_nums a) = Some a.
Proof.
  destruct a as [m ss x [b1 b2 b3 b4 b5] pm].
  destruct (f64_nums_cons x) as (k & s & m0 & e & E & Hx).
  unfold wire_nums. cbn [tw_mode tw_streams tw_elapsed tw_data tw_peer_mode]. rewrite E.
  cbn [app data_nums sd_bytes sd_blks sd_lost sd_retr sd_cwnd nums_wire].
  rewrite nums_streams_nums; [cbn; by rewrite !num_mode_num, Hx|].
  clear. induction ss as [|y ss IH]; [done|]. cbn [map concat]. rewrite length_app.
  unfold stream_nums at 1. simpl. lia.
Qed.

#[export] Instance Codec : Serde := {
  settings_to_json c := text (settings_nums c);
  settings_from_json s := l ← untext s; c ← nums_settings l; guard (settings_ok c);; Some c;
  results_to_json a := text (wire_nums a);
  results_from_json s := l ← untext s; a ← nums_wire l; guard (wire_ok a);; Some a
}.

#[export] Instance Codec_laws : SerdeLaws.
Proof.
  split.
  - intros c Hc. cbn [settings_from_json settings_to_json Codec]. rewrite untext_text. cbn [mbind option_bind].
    rewrite nums_settings_nums. cbn [mbind option_bind]. by rewrite option_guard_True.
  - intros c. apply text_ascii.
  - intros a Ha. cbn [results_from_json results_to_json Codec]. rewrite untext_text. cbn [mbind option_bind].
    rewrite nums_wire_nums. cbn [mbind option_bind]. rewrite option_guard_True by done.
    exists a. by split_and!.
  - intros a. apply text_ascii.
  - intros a. apply trim_id. constructor; [done|apply digits_no_space].
  - intros s c. cbn. intros H. repeat (simplify_option_eq; try done).
  - intros s a. cbn. intros H. repeat (simplify_option_eq; try done).
Qed.

(** Tracing for the runs: the one span has one event, each trace in the same
    bucket of a microsecond. *)
Definition demo_histogram (n : nat) : Histogram :=
  mkHistogram (f64_of_Z 1000) (λ _, 1000) 1000 (Z.of_nat n)
    (λ _, [mkIterValue 999 (f64_cent 100) (f64_of_Z 100) (Z.of_nat n)]).

#[export] Instance demo_tracing : Tracing := λ n,
  match n with
  | O => ∅
  | S _ => {["request" := {["gap" := demo_histogram n]}]}
  end%string.
