(* ===== verification/ServerDemo.v ===== *)
(** * Concrete runs

    A server and single streams with scripted sockets, on which the theorems
    about the server are applied. *)
From stdpp Require Import relations.
From S2P Require Import Prelude F64 Params Env Kinds Tcp Net Udp Tls Quic Metrics Report PerfStream.
From S2P Require Import TestCore Node Counters Total Server ServerSpec ServerFacts ServerTotal.
From S2P Require Import Talk ServerTalk ServerMain UdpLoss Control TestFacts Codec Widths WidthRuns.

#[local] Existing Instance debug_profile.

Definition w0 : World := mkWorld 0 [] [] [].

Definition test0 (c : Settings) : Test :=
  mkTest RECEIVER Start false false false [] 0 c None 0 [] [] [] (mkTimers 0 0 0 0) f64_zero
    StreamData_default f64_zero StreamData_default RECEIVER Metrics_default None None.

(** A socket that delivers [ins], then has nothing, and accepts everything. *)
Definition demo_sock (fd : Z) (ins : list Incoming) : Sock :=
  mkSock fd ins (replicate 8 (OutAccept 200000)) [].
Definition message (bs : list Z) : list Incoming := [InBytes bs; InErr WouldBlock].

Definition demo_settings : Settings := with_cfg_num_streams 1 Settings_default.

Definition demo_ctrl : TcpStream :=
  mkTcpStream (demo_sock 7 (message (bytes_of make_cookie)
    ++ message (settings_to_json demo_settings))) 1448 [].
Definition demo_data : TcpStream :=
  mkTcpStream (demo_sock 8 (message (bytes_of make_cookie)
    ++ [InBytes [1; 1; 1]; InBytes [1; 1]])) 1448 [].

Definition demo_server : Node ServerImpl :=
  mkNode (mkServerImpl (Some demo_ctrl) (Some (mkListener 5 [IoOk demo_data])) None None
            (mkSupply [] [] []))
    (test0 Settings_default) w0.

Definition readable (tok : Z) : Event := mkEvent tok true false.
Definition demo_batches : list (list Event) :=
  [[readable CONTROL]; [readable CONTROL]; [readable TCP_LISTENER]; [readable 0]; [readable 0]].

Lemma demo_server_run : ∃ s',
  event_loop handle on_idle demo_batches demo_server = Done (IoOk None, s') ∧
  test_state (n_test s') = TestRunning ∧ sd_bytes (test_data (n_test s')) = 5.
Proof. eexists. split; [vm_compute; reflexivity|]. done. Qed.

(** ** The protocol *)

Lemma server_refines_protocol_witness : ∃ s',
  event_loop handle on_idle demo_batches demo_server = Done (IoOk None, s') ∧
  rtc vstep (view_of (n_test demo_server)) (view_of (n_test s')).
Proof.
  destruct demo_server_run as (s' & H & _). exists s'. split; [exact H|].
  exact (server_refines_protocol demo_batches demo_server _ s' H).
Defined.


Lemma server_running_complete_witness : ∃ s',
  event_loop handle on_idle demo_batches demo_server = Done (IoOk None, s') ∧
  Z.of_nat (length (test_streams (n_test s'))) = num_streams (n_test s').
Proof.
  destruct demo_server_run as (s' & H & Hr & _). exists s'. split; [exact H|].
  exact (proj1 (server_running_complete demo_batches demo_server _ s' eq_refl eq_refl eq_refl H Hr)).
Defined.

Lemma server_conserves_witness : ∃ s',
  event_loop handle on_idle demo_batches demo_server = Done (IoOk None, s') ∧
  test_conserved (n_test s').
Proof.
  destruct demo_server_run as (s' & H & _). exists s'. split; [exact H|].
  exact (server_conserves demo_batches demo_server _ s' eq_refl eq_refl H).
Defined.

(** ** From the command line *)

#[local] Instance no_letters : Unicode := {| alphabetic_beyond_ascii _ := false |}.


(** ** UDP *)

Definition udp_stream (b : BoxStream) (first last : Z) (temp : StreamData) : PerfStream :=
  mkPerfStream RECEIVER b (mkTimers 0 0 0 0) f64_zero StreamData_default first last [] 0 temp.

(** Datagrams 1, 2, 5 and 7 arrive: 3, 4 and 6 are lost. *)
Definition demo_datagrams : list (Z * list Z) := [(1, [9; 9]); (2, []); (5, [1]); (7, [3; 3; 3])].
Definition demo_udp : PerfStream :=
  udp_stream (arriving 4 demo_datagrams [] []) 0 0 StreamData_default.

Lemma size_demo k l : size (k, l) = Z.min 131072 (8 + Z.of_nat (length l)).
Proof.
  unfold size, datagram. rewrite length_take, length_app, length_to_be_bytes. simpl fst. simpl snd.
  lia.
Qed.

Lemma udp_interval_loss_witness : ∃ p' d' m' w',
  recv_loop (recv_fuel demo_udp) UDP false false demo_udp StreamData_default Metrics_default
    (buf_repeat 0 131072) w0 = Done ((p', d', m'), w') ∧
  interval_data p' StreamData_default
  = Done (with_lost 3 StreamData_default, with_ps_first_recvd 7 p').
Proof.
  refine (udp_interval_loss demo_datagrams false false demo_udp StreamData_default Metrics_default
    (buf_repeat 0 131072) w0 4 [] [] StreamData_default eq_refl eq_refl _ _ _ _ _ _).
  - done.
  - repeat constructor; done.
  - done.
  - unfold increasing. repeat constructor.
  - unfold demo_datagrams. cbn [map]. rewrite !size_demo. split_and!; repeat constructor; done.
  - done.
Defined.

Lemma udp_sender_push_panics_witness :
  push_stat false (udp_stream (BUdp (mkUdpSocket (demo_sock 4 []))) 0 0 (mkStreamData 100 1 0 0 0)) w0
  = Crash (Panicked "arithmetic overflow").
Proof.
  apply udp_sender_push_panics; [reflexivity| |done].
  split_and!; [by eexists|done..].
Defined.

(** ** The control connection *)

Definition sock_with (ins : list Incoming) : TcpStream := mkTcpStream (demo_sock 7 ins) 1448 [].

Lemma drain_message_whole_witness :
  drain_message (sock_with [InBytes [97; 98]; InErr Interrupted; InBytes [99]; InErr WouldBlock; InBytes [100]]) w0
  = Done ((IoOk [97; 98; 99], sock_with [InBytes [100]]), w0).
Proof.
  refine (drain_message_whole [InBytes [97; 98]; InErr Interrupted; InBytes [99]] [97; 98; 99]
            [InBytes [100]] (sock_with _) w0 _ eq_refl).
  apply (pieces_bytes [97; 98] _ [99]); [done|by repeat constructor|]. constructor.
  apply (pieces_bytes [99] _ []); [done|by repeat constructor|constructor].
Defined.

Lemma drain_message_total_witness :
  let t := sock_with [InErr Interrupted; InBytes [65]] in
  (∃ r t' w', drain_message t w0 = Done ((r, t'), w')) ∨
  drain_message t w0 = Crash (Panicked "invalid utf-8 sequence").
Proof. exact (drain_message_total (sock_with [InErr Interrupted; InBytes [65]]) w0). Defined.

(** The two bytes of an accented letter in two reads. *)
Lemma drain_split_character_witness :
  drain_message (sock_with [InBytes [195]; InBytes [169]]) w0
  = Crash (Panicked "invalid utf-8 sequence").
Proof. apply (drain_split_character _ 195 169 []); [done|reflexivity]. Defined.

Definition running_server (ins : list Incoming) : Node ServerImpl :=
  mkNode (mkServerImpl (Some (sock_with ins)) None None None (mkSupply [] [] []))
    (transition TestRunning (test0 Settings_default)) w0.



(** A finished server test with one stream. *)
Definition finished_stream : PerfStream :=
  with_ps_data (mkStreamData 1500 3 0 0 0) (udp_stream (BTcp (sock_with [])) 0 0 StreamData_default).
Definition finished_test : Test :=
  with_test_data (mkStreamData 1500 3 0 0 0)
    (with_test_streams [finished_stream] (test0 Settings_default)).

Lemma results_exchange_witness : ∃ json tc' w',
  results finished_test = Done json ∧
  from_serde (trim json) (test0 Settings_default) w0 = Done (tc', w') ∧
  sd_bytes (test_peer tc') = 1500.
Proof.
  destruct (results_exchange finished_test
    (mkTestWire RECEIVER [mkStreamWire RECEIVER (7, 0) f64_zero (mkStreamData 1500 3 0 0 0)]
       f64_zero (mkStreamData 1500 3 0 0 0) RECEIVER) (test0 Settings_default) w0)
    as (json & tc' & w' & H1 & H2 & H3 & _).
  - reflexivity.
  - split; [done|]. repeat constructor; done.
  - by exists json, tc', w'.
Defined.

(** ** The end of a test *)

Definition open_stream : PerfStream :=
  with_ps_data (mkStreamData 1500 3 0 0 0)
    (udp_stream (BTcp (sock_with [])) 0 0 (mkStreamData 1500 3 0 0 0)).
Definition open_test : Test := with_test_streams [open_stream] finished_test.

Lemma end_test_settles_witness : ∃ t' w',
  end_test open_test w0 = Done (t', w') ∧
  cong (streams_bytes (test_streams t')) (sd_bytes (test_data t')).
Proof.
  assert (∃ t' w', end_test open_test w0 = Done (t', w')) as (t' & w' & H).
  { eexists _, _. vm_compute. reflexivity. }
  exists t', w'. split; [exact H|].
  refine (proj1 (proj2 (end_test_settles open_test w0 t' w' _ _ H))).
  - split_and!; [done|done|]. constructor; [done|constructor].
  - constructor; [done|constructor].
Defined.

(** ** The handshake *)

(** The peer closes the connection before the session is established. *)
Definition dead_session : TlsSession :=
  mkTlsSession [true; true] [IoOk 0] [] [] (demo_sock 9 []).

Definition dead_handshake : res (TlsEndpoint * World) :=
  handshake (mkTlsEndpoint (Tls.Server dead_session (sock_with [])) false)
    [[mkTlsEvent 1 true true]; [mkTlsEvent 1 true true]] w0.

Lemma handshake_needs_session_witness :
  match dead_handshake with Done _ => False | Crash c => c = Blocked end.
Proof.
  pose proof (handshake_needs_session (mkTlsEndpoint (Tls.Server dead_session (sock_with [])) false)
    [[mkTlsEvent 1 true true]; [mkTlsEvent 1 true true]] w0 ltac:(by repeat constructor)) as H.
  destruct dead_handshake as [r|c] eqn:E; [exact (H r E)|].
  unfold dead_handshake in E. vm_compute in E. by injection E as <-.
Defined.

(** A session that is established at the third question. *)
Definition good_session : TlsSession :=
  mkTlsSession [true; true; false] [IoOk 100; IoErr WouldBlock] [IoOk 50] [] (demo_sock 9 []).


(** Two streams: the first takes the block, the second fails. *)
Definition half_written : Quic :=
  mkQuic [] 3 None [mkSendStream [QWritten 10] []; mkSendStream [QWriteErr] []] [].

Lemma quic_write_outcomes_witness : ∃ e q',
  Quic.write half_written (buf_of [1; 2]) = Done (IoErr e, q') ∧
  partly_written (buf_of [1; 2]) (q_send_streams half_written) (q_send_streams q').
Proof.
  eexists _, _. split; [reflexivity|].
  exact (quic_write_outcomes half_written (buf_of [1; 2]) (IoErr LastOsError)
    (mkQuic [] 3 None [mkSendStream [] [buf_of [1; 2]]; mkSendStream [] []] []) eq_refl).
Defined.

(** ** Sessions *)

Definition ended_server : Node ServerImpl :=
  mkNode (mkServerImpl None None None None (mkSupply [] [] []))
    (transition End_ (test0 Settings_default)) w0.


Definition demo_params : PerfParams :=
  mkPerfParams SERVER None true false false false false None 8080 [] 120 5 2 0 0 10 0 0 0 0 0
    false None None.

Lemma session_starts_fresh_witness : ∃ t w',
  Test_from demo_params w0 = Done (t, w') ∧ test_streams t = [] ∧
  test_settings t = settings_from demo_params Settings_default.
Proof.
  assert (∃ t w', Test_from demo_params w0 = Done (t, w')) as (t & w' & H).
  { eexists _, _. vm_compute. reflexivity. }
  exists t, w'. destruct (session_starts_fresh demo_params w0 t w' H) as (_ & H1 & _ & _ & _ & _ & H2).
  by split_and!.
Defined.
