(* ===== verification/ClientDemo.v ===== *)
(** * Concrete runs of the client *)
From stdpp Require Import relations.
From S2P Require Import Prelude F64 Params Env Kinds Tcp Net Udp Tls Quic Metrics Report PerfStream.
From S2P Require Import TestCore Node Counters Total Server UdpLoss Client ClientFacts ClientSend ClientTotal.
From S2P Require Import UdpEnd ByteEnd ClientLimits ClientSpec.
From S2P Require Import ClientMain Codec Widths WidthRuns.

#[local] Existing Instance debug_profile.

Definition w0 : World := mkWorld 0 [] [] [].

Definition test0 (c : Settings) : Test :=
  mkTest SENDER Start false false false [] 0 c None 0 [] [] [] (mkTimers 0 0 0 0) f64_zero
    StreamData_default f64_zero StreamData_default RECEIVER Metrics_default None None.

Definition demo_sock (fd : Z) (ins : list Incoming) (outs : list Outgoing) : Sock :=
  mkSock fd ins outs [].
Definition message (bs : list Z) : list Incoming := [InBytes bs; InErr WouldBlock].

(** The server's bytes 1 to 4, one message each. *)
Definition demo_ctrl : TcpStream :=
  mkTcpStream (demo_sock 7 (message [1] ++ message [2] ++ message [3] ++ message [4])
    (replicate 8 (OutAccept 200000))) 1448 [].
Definition demo_data : TcpStream :=
  mkTcpStream (demo_sock 8 [] [OutAccept 32; OutAccept 1000; OutAccept 500]) 1448 [].

Definition demo_attempt : Attempt := mkAttempt demo_data [mkConnEvent 1 true (IoOk ())].

Definition demo_settings : Settings := with_cfg_num_streams 1 Settings_default.

Definition demo_client : Node ClientImpl :=
  mkNode (mkClientImpl demo_ctrl false (mkClientSupply [[demo_attempt]] [] [] []))
    (test0 demo_settings) w0.

Definition both (tok : Z) : Event := mkEvent tok true true.
Definition demo_batches : list (list Event) :=
  [[both CONTROL]; [both CONTROL]; [both CONTROL]; [both CONTROL]; [both CONTROL]; [both STREAM]].

Lemma demo_client_run : ∃ s',
  run 8 demo_batches demo_client = Done (IoOk None, s') ∧
  test_state (n_test s') = TestRunning ∧ sd_bytes (test_data (n_test s')) = 1500.
Proof. eexists. split; [vm_compute; reflexivity|]. done. Qed.

Lemma client_conserves_witness : ∃ s',
  run 8 demo_batches demo_client = Done (IoOk None, s') ∧ test_conserved (n_test s').
Proof.
  destruct demo_client_run as (s' & H & _). exists s'. split; [exact H|].
  exact (client_conserves 8 demo_batches demo_client _ s' eq_refl eq_refl H).
Defined.

(** ** From the command line *)

#[local] Instance no_letters : Unicode := {| alphabetic_beyond_ascii _ := false |}.


(** ** The conversation *)

Definition sized (n : Z) (c : Settings) : Settings := with_cfg_length n c.
Definition talking_client : Node ClientImpl :=
  mkNode (n_impl demo_client) (test0 (sized 1000 demo_settings)) w0.


Definition ended_client : Node ClientImpl :=
  mkNode (n_impl demo_client) (transition End_ (test0 demo_settings)) w0.

(** ** The send loop *)

Definition demo_stream (b : BoxStream) : PerfStream :=
  mkPerfStream SENDER b (mkTimers 0 0 0 0) f64_zero StreamData_default 0 0 [] 0 StreamData_default.

Definition sending_test (c : Conn) (n : Z) (b : BoxStream) : Test :=
  with_test_streams [demo_stream b]
    (test0 (sized n (with_cfg_conn c Settings_default))).


Definition demo_udp : UdpSocket :=
  mkUdpSocket (demo_sock 9 [] [OutAccept 100; OutAccept 100; OutAccept 100]).

Lemma send_numbers_datagrams_witness : ∃ t' e w',
  send 8 (sending_test UDP 100 (BUdp demo_udp)) w0 = Done ((t', e), w') ∧
  Forall2 udp_sent (test_streams (sending_test UDP 100 (BUdp demo_udp))) (test_streams t').
Proof.
  assert (∃ t' e w', send 8 (sending_test UDP 100 (BUdp demo_udp)) w0 = Done ((t', e), w'))
    as (t' & e & w' & H).
  { eexists _, _, _. vm_compute. reflexivity. }
  exists t', e, w'. split; [exact H|].
  exact (send_numbers_datagrams 8 (sending_test UDP 100 (BUdp demo_udp)) w0 t' e w' eq_refl H).
Defined.


Lemma long_block_panics_witness :
  send_one (plan_of (sending_test TCP 200000 (BTcp demo_data))) (demo_stream (BTcp demo_data))
    (mkSendState StreamData_default Metrics_default 0 (buf_repeat 1 MAX_UDP_PAYLOAD) false) w0
  = Crash (Panicked "range end index out of range").
Proof.
  apply (long_block_panics _ _ _ _ demo_data); [reflexivity|reflexivity|reflexivity|done].
Defined.

(** Three datagrams are sent, the second is lost, the interval says one. *)
Definition demo_receiver (kept : list Buf) : PerfStream :=
  mkPerfStream RECEIVER (delivered 4 kept [] []) (mkTimers 0 0 0 0) f64_zero
    StreamData_default 0 0 [] 0 StreamData_default.

Definition demo_out : list Buf :=
  map (λ k, mkBuf (to_be_bytes 8 k) 1 100) [1; 2; 3].

Lemma udp_loss_end_to_end_witness : ∃ q d m w2,
  recv_loop (recv_fuel (demo_receiver (mkBuf (to_be_bytes 8 1) 1 100 :: drop 2 demo_out))) UDP
    false false (demo_receiver (mkBuf (to_be_bytes 8 1) 1 100 :: drop 2 demo_out))
    StreamData_default Metrics_default (buf_repeat 0 131072) w0 = Done ((q, d, m), w2) ∧
  interval_data q StreamData_default
  = Done (with_lost 1 StreamData_default, with_ps_first_recvd 3 q).
Proof.
  assert (∃ t' e w', send 8 (sending_test UDP 100 (BUdp demo_udp)) w0 = Done ((t', e), w') ∧
    ∃ p u, test_streams t' !! 0%nat = Some p ∧ ps_stream p = BUdp u ∧ sk_sent (u_sock u) = demo_out)
    as (t' & e & w' & H & p & u & Hp & Hu & Ho).
  { eexists _, _, _. split; [vm_compute; reflexivity|].
    eexists _, _. split_and!; vm_compute; reflexivity. }
  destruct (udp_loss_end_to_end 8 (sending_test UDP 100 (BUdp demo_udp)) w0 t' e w' 0
    (demo_stream (BUdp demo_udp)) demo_udp eq_refl H eq_refl eq_refl eq_refl)
    as (p' & u' & out & Hp' & Hu' & Hs & Hend).
  rewrite Hp in Hp'. injection Hp' as <-. rewrite Hu in Hu'. injection Hu' as <-.
  rewrite Ho in Hs. cbn [u_sock demo_udp sk_sent demo_sock app] in Hs. subst out.
  destruct (Hend (mkBuf (to_be_bytes 8 1) 1 100 :: drop 2 demo_out) false false
    (demo_receiver (mkBuf (to_be_bytes 8 1) 1 100 :: drop 2 demo_out)) StreamData_default
    Metrics_default (buf_repeat 0 131072) w0 4 [] [] StreamData_default)
    as (q & d & m & w2 & Hloop & Hint).
  - reflexivity.
  - by repeat constructor.
  - cbn. by repeat constructor.
  - by intros ?.
  - reflexivity.
  - reflexivity.
  - reflexivity.
  - reflexivity.
  - split_and!; by repeat constructor.
  - by intros ?.
  - exists q, d, m, w2. split; [exact Hloop|exact Hint].
Defined.

(** A test limited to one block sends the three that the socket takes. *)
Definition limited_test : Test :=
  with_test_streams [demo_stream (BTcp demo_data)]
    (test0 (with_cfg_blks 1 (sized 1000 (with_cfg_conn TCP Settings_default)))).

Lemma limits_do_not_stop_witness : ∃ t' e w',
  send 8 limited_test w0 = Done ((t', e), w') ∧ cong (sd_blks (test_data t')) 3.
Proof.
  assert (∃ t' e w', send 8 limited_test w0 = Done ((t', e), w') ∧ e ≤ time limited_test)
    as (t' & e & w' & H & He).
  { eexists _, _, _. split; [vm_compute; reflexivity|done]. }
  exists t', e, w'. split; [exact H|].
  destruct (limits_do_not_stop 8 limited_test (demo_stream (BTcp demo_data)) w0 t' e w' eq_refl
    eq_refl eq_refl eq_refl ltac:(exists demo_data; split; [reflexivity|by repeat constructor]) H He)
    as (p' & _ & _ & Hk).
  exact Hk.
Defined.

(** ** Bytes from end to end *)

Definition tcp_stream (ins : list Incoming) (outs : list Outgoing) : PerfStream :=
  mkPerfStream SENDER (BTcp (mkTcpStream (demo_sock 9 ins outs) 1448 [])) (mkTimers 0 0 0 0)
    f64_zero StreamData_default 0 0 [] 0 StreamData_default.
Definition byte_test (p : PerfStream) : Test :=
  with_test_streams [p] (test0 (sized 1000 demo_settings)).

(** Two events of the client take 1500 and 700 bytes; the first event of the
    server finds 1300 of them, the other 900 are still to come. *)
Lemma bytes_end_to_end_witness :
  let tc := byte_test (tcp_stream [] [OutAccept 1000; OutAccept 500; OutErr WouldBlock; OutAccept 700]) in
  let ts := byte_test (tcp_stream [InBytes (replicate 800 1); InBytes (replicate 500 1);
                                   InErr WouldBlock; InBytes (replicate 900 1)] []) in
  ∃ tc' ts', rtc sends tc tc' ∧ rtc receives ts ts' ∧
    sd_bytes (test_data tc') = 2200 ∧ sd_bytes (test_data ts') = 1300 ∧ test_pending ts' = 900 ∧
    cong (sd_bytes (test_data tc')) (sd_bytes (test_data ts') + test_pending ts' + 0).
Proof.
  intros tc ts.
  destruct (send 8 tc w0) as [[[tc1 e1] w1]|] eqn:H1; [|vm_compute in H1; discriminate H1].
  destruct (send 8 tc1 w1) as [[[tc2 e2] w2]|] eqn:H2;
    [|vm_compute in H1; injection H1 as <- <- <-; vm_compute in H2; discriminate H2].
  destruct (receive ts 0 w0) as [[ts1 w3]|] eqn:H3; [|vm_compute in H3; discriminate H3].
  assert (rtc sends tc tc2) as Hc.
  { eapply rtc_l; [exists 8%nat, w0, e1, w1; exact H1|]. apply rtc_once.
    exists 8%nat, w1, e2, w2. exact H2. }
  assert (rtc receives ts ts1) as Hs by (apply rtc_once; exists 0%nat, w0, w3; exact H3).
  assert (test_sent tc2 - test_sent tc = test_pending ts + 0 ∧ sd_bytes (test_data tc2) = 2200 ∧
          sd_bytes (test_data ts1) = 1300 ∧ test_pending ts1 = 900) as (Hn & Hb & Hb' & Hp).
  { vm_compute in H1. injection H1 as <- <- <-. vm_compute in H2. injection H2 as <- <- <-.
    vm_compute in H3. injection H3 as <- <-. by vm_compute. }
  exists tc2, ts1. split; [exact Hc|]. split; [exact Hs|]. split; [exact Hb|].
  split; [exact Hb'|]. split; [exact Hp|].
  apply (bytes_end_to_end tc tc2 ts ts1 0);
    [discriminate|discriminate|reflexivity|reflexivity|exact Hc|exact Hs|exact Hn].
Defined.
