(* ===== verification/Session.v ===== *)
(** * A whole session

    A client and a server, each run by its own event loop, where each side's
    sockets deliver exactly what the other side has sent: the two sides fit
    together, and both come to their end with the same counts. *)
From S2P Require Import Prelude F64 Params Env Kinds Tcp Net Udp Tls Quic Metrics Report PerfStream.
From S2P Require Import TestCore Node Server Control UdpLoss UdpEnd Client ClientSpec Framing.
From S2P Require Import Agreement ClientMain Program Codec.

#[local] Existing Instance debug_profile.

(** Messages that arrive one by one. *)
Definition arrive (ms : list (list Z)) : list Incoming :=
  concat (map (λ m, [InBytes m; InErr WouldBlock]) ms).

Definition accepting : list Outgoing := replicate 8 (OutAccept 200000).

(** A test of one TCP stream, two blocks of a thousand bytes, of which the
    second is accepted in part. *)
Definition session_settings : Settings :=
  with_cfg_blks 2 (with_cfg_length 1000 (with_cfg_num_streams 1 Settings_default)).

Definition session_test (c : Settings) (mode : StreamMode) : Test :=
  mkTest mode Start false false false [] 0 c None 0 [] [] [] (mkTimers 0 0 0 0) f64_zero
    StreamData_default f64_zero StreamData_default RECEIVER Metrics_default None None.

Definition world0 : World := mkWorld 0 [] [] [].

(** ** The client, given what the server says *)

Definition client_with (from_server : list (list Z)) : Node ClientImpl :=
  let ctrl := mkTcpStream (mkSock 7 (arrive from_server) accepting []) 1448 [] in
  let data := mkTcpStream (mkSock 8 [] [OutAccept 32; OutAccept 1000; OutAccept 500] []) 1448 [] in
  mkNode (mkClientImpl ctrl false (mkClientSupply [[mkAttempt data [mkConnEvent 1 true (IoOk ())]]]
            [] [] []))
    (session_test session_settings SENDER) world0.

Definition event (tok : Z) : Event := mkEvent tok true true.

Definition client_run (from_server : list (list Z)) :=
  Client.run 8 [[event CONTROL]; [event CONTROL]; [event CONTROL]; [event CONTROL];
                [event CONTROL]; [event STREAM]; [event CONTROL]; [event CONTROL]]
    (client_with from_server).

Definition client_says (s : Node ClientImpl) : list (list Z) :=
  map bytes_sent (sk_sent (t_sock (c_ctrl (n_impl s)))).
Definition client_data (s : Node ClientImpl) : list (list Z) :=
  match test_streams (n_test s) with
  | mkPerfStream _ (BTcp t) _ _ _ _ _ _ _ _ :: _ => map bytes_sent (sk_sent (t_sock t))
  | _ => []
  end.

(** ** The server, given what the client says and the data it sends *)

Definition server_with (from_client data : list (list Z)) : Node ServerImpl :=
  let ctrl := mkTcpStream (mkSock 5 (arrive from_client) accepting []) 1448 [] in
  let stream := mkTcpStream (mkSock 6 (arrive data) accepting []) 1448 [] in
  mkNode (mkServerImpl (Some ctrl) (Some (mkListener 4 [IoOk stream])) None None
            (mkSupply [] [] []))
    (session_test Settings_default RECEIVER) world0.

Definition readable (tok : Z) : Event := mkEvent tok true false.

Definition server_run (from_client data : list (list Z)) :=
  event_loop Server.handle on_idle
    [[readable CONTROL]; [readable CONTROL]; [readable TCP_LISTENER]; [readable 0];
     [readable 0]; [readable 0]; [readable CONTROL]; [readable CONTROL]; [readable CONTROL];
     [readable CONTROL]]
    (server_with from_client data).

Definition server_says (s : Node ServerImpl) : list (list Z) :=
  match s_ctrl (n_impl s) with
  | Some c => map bytes_sent (sk_sent (t_sock c))
  | None => []
  end.

(** ** Both together *)

(** What the client will turn out to say and send. *)
Definition from_client : list (list Z) :=
  [bytes_of make_cookie; settings_to_json session_settings; [TestState_as_u8 TestEnd];
   [TestState_as_u8 End_]].
Definition data : list (list Z) := [bytes_of make_cookie; replicate 1000 1; replicate 500 1].


(** The first of these runs, up to the end of the client's test, as the two
    sides of [sides_agree]. *)
Definition client_batches : list (list Event) :=
  [[event CONTROL]; [event CONTROL]; [event CONTROL]; [event CONTROL]; [event CONTROL]; [event STREAM]].
Definition server_batches : list (list Event) :=
  [[readable CONTROL]; [readable CONTROL]; [readable TCP_LISTENER]; [readable 0];
   [readable 0]; [readable 0]; [readable CONTROL]].
Definition agreeing_ctrl : TcpStream :=
  mkTcpStream (mkSock 5 (arrive (take 3 from_client)) accepting []) 1448 [].

Lemma arrive_delivered ms :
  Forall (λ m, m ≠ [] ∧ ascii m) ms → delivered ms (arrive ms).
Proof.
  induction 1 as [|m ms [Hne Ha] _ IH]; [constructor|].
  apply (delivered_cons m ms [InBytes m]); [|done].
  rewrite <- (app_nil_r m) at 2. by repeat constructor.
Qed.

Lemma from_client_delivered : delivered (take 3 from_client) (arrive (take 3 from_client)).
Proof. apply arrive_delivered, (bool_decide_unpack _). by vm_compute. Qed.

Lemma session_settings_ok : settings_ok session_settings.
Proof. unfold settings_ok, fits. simpl. done. Qed.


(** ** The client as a program *)

#[local] Instance no_letters : Unicode := {| alphabetic_beyond_ascii _ := false |}.

Definition client_outside : Outside :=
  let s := n_impl (client_with []) in
  mkOutside [] [mkAttempt (c_ctrl s) [mkConnEvent 1 true (IoOk ())]] (c_supply s) 8
    (client_batches ++ [[event CONTROL]; [event CONTROL]]).
Definition client_line : list Opt := [OptLength 1000; OptBlocks 2].
Definition any_address (_ : Str) : bool := true.


(** ** A session that goes wrong *)

(** Cookie and settings of the client above reach the server together: the
    server goes on with the settings it had. *)
Definition together : list Z := bytes_of make_cookie ++ settings_to_json session_settings.
Definition merging_server : Node ServerImpl := server_with [together] [].

Lemma settings_taken_for_cookie_witness : ∃ sc' b1 b2 ss',
  handle_events (Client.handle 8) [only_writable; only_writable] (client_with [])
  = Done (IoOk None, sc') ∧
  bytes_sent b1 ++ bytes_sent b2 = together ∧
  Server.on_control (readable CONTROL) merging_server = Done (IoOk Next, ss') ∧
  test_state (n_test ss') = ParamExchange ∧ test_settings (n_test ss') = Settings_default ∧
  match s_ctrl (n_impl ss') with Some c => sk_in (t_sock c) = [] | None => False end.
Proof.
  destruct (settings_taken_for_cookie 8 (client_with []) 200000 200000 (replicate 6 (OutAccept 200000))
    merging_server (mkTcpStream (mkSock 5 (arrive [together]) accepting []) 1448 [])
    [InBytes together] [] (readable CONTROL)) as (sc' & b1 & b2 & Hr & _ & Hs & Hm);
    [reflexivity|reflexivity|by vm_compute|by vm_compute|reflexivity|reflexivity|reflexivity|reflexivity|].
  assert (bytes_sent b1 ++ bytes_sent b2 = together) as Hb.
  { vm_compute in Hr. injection Hr as <-. vm_compute in Hs. injection Hs as <- <-. by vm_compute. }
  assert (pieces [InBytes together] (bytes_sent b1 ++ bytes_sent b2)) as Hp.
  { rewrite Hb. assert (pieces [InBytes together] (together ++ [])) as H.
    { constructor; [done| |constructor]. apply (bool_decide_unpack _). by vm_compute. }
    by rewrite app_nil_r in H. }
  exists sc', b1, b2. eexists. split; [exact Hr|]. split; [exact Hb|].
  split; [rewrite (Hm Hp); vm_compute; reflexivity|]. by vm_compute.
Defined.
